(* ===== verification/_CoqProject ===== *)
-Q . S2P
Prelude.v
Errors.v
Io.v
VarInt.v
Hash256.v
TxMsg.v
BlockMsg.v
NetMsg.v
Message.v
Typing.v
Latch.v
BitList.v
Bits.v
BlockFilter.v
Crypto.v
UnitTests.v
KvEntry.v
KvStore.v
KvSegments.v
KvBitcask.v
KvRestart.v
WalletTypes.v
CoinSelection.v
SelectionTests.v
WalletApi.v
Wallet.v
Signer.v
P2P.v
Chain.v
Node.v
Components.v
Assembly.v
AnyPeer.v
Honest.v
EndToEnd.v
Payment.v
F64.v
MobileMoney.v
TestClient.v
