(* ===== verification/Prelude.v ===== *)
(** * Bitspend client: verification development

    The Bitspend client is a light Bitcoin wallet made of four WASM components: the
    node (synchronisation with one peer through compact block filters), the
    watch-only wallet, the signer and a key-value store.  This library models them
    from their Rust sources under [src/] and proves what makes them correct, and
    where they are not, what they do instead.

    ** The parts, their sources and their files

    Shared: [Prelude] (outcomes, machine integers, byte strings, decimal text),
    [Errors] (node/src/util/result.rs, crates/kv/src/errors.rs), [Io] (the readers
    and writers the code uses, with a class of serializable types and its laws:
    node/src/util/serdes.rs).

    The wire format (node/src/messages, node/src/util): [VarInt] (var_int.rs),
    [Hash256] (hash256.rs, network_const.rs), [TxMsg] (tx.rs and its parts), [BlockMsg]
    (block headers, blocks, filters, locators), [NetMsg] (addresses, inventories,
    version, ping, reject and the like), [Message] (message_header.rs and message.rs:
    framing, checksums, partial messages).  Each message is a record with the fields
    of the struct; [X_read] and [X_write] are its [Serializable] implementation.
    [Typing] proves what every reader returns.

    Bits and filters: [BitList] (bit strings, the reference view), [Bits] (bits.rs),
    [BlockFilter] (block_filter.rs: Golomb-Rice decoding and matching of BIP 158
    filters; SipHash is a parameter).  [Latch] (latch.rs) is a machine of threads.
    [Crypto] instantiates the hash parameters with SHA-256 and SipHash-2-4 themselves,
    and [UnitTests] evaluates the unit tests of node/src/util and node/src/messages
    with them.

    The key-value store (crates/kv/src): [KvEntry] (entry.rs), [KvStore] (store.rs,
    clock.rs: the [Store] trait as a class with laws, over a WASI file system that is
    a parameter), [KvSegments] (segment.rs, segments.rs), [KvBitcask] (key_directory.rs,
    merged_state.rs, kvstore.rs, lib.rs), [KvRestart] (the segment files as logs, and
    what [KVStore::new] makes of them).

    The wallet (crates/wallet/src): [WalletTypes] (types.rs, utils.rs),
    [CoinSelection] (coin_selection.rs), [SelectionTests] (its unit tests, over the
    bitcoin crate's fee and dust arithmetic), [WalletApi] (the interface the chain
    uses), [Wallet] (watch_wallet.rs, errors.rs, lib.rs).  The signer (crates/signer/src):
    [Signer].

    The node (node/src): [P2P] (p2p.rs, tcpsocket.rs), [Chain] (chain.rs), [Node]
    (node.rs, db.rs, lib.rs), verified against the interfaces [WalletApi],
    [WalletComponent], [SignerComponent] and [KvComponent].  [Components] and
    [Assembly] show that the signer, the store and the wallet implement them, and
    prove what holds of the parts together; [AnyPeer] shows what no peer can break,
    and [Honest] runs a whole synchronisation, over rounds of headers and batches of
    filters, with a peer that answers truthfully.  [EndToEnd] is the node on the wallet
    and the store it is shipped with: from the peer's blocks to the disk, and back
    after a restart, which opens the store again on its files.  [Payment] is the node on the wallet and the signer: a payment
    from the outputs it spends to the message the peer receives.

    The hosts: [F64] (binary64 arithmetic of the Standard Library's [SpecFloat], with
    Rust's reading and printing of numbers), [MobileMoney] (examples/mobile-money: the
    accounts, the commands and the loop of main), [TestClient] (client-test/src:
    client.rs, test.rs, main.rs, against an interface of what the tests expect).

    ** How code is modelled

    A pure function is a function; a fallible one returns an [outcome]: a value, an
    error, or a panic, which aborts the component.  A method on [&mut self] returns
    its result with the new state, also when it fails.  Code on the peer connection
    is a computation of the monad [net], which takes fuel and the world.

    Integers are [Z] with their width written out.  [usize] has 32 bits (wasm32) and
    arithmetic panics on overflow (the checked build).  The casts wrap.

    Code that is not under [src/] is a parameter: a class with the operations used
    and, where a theorem relies on them, their documented laws (byte order, SHA-256,
    SipHash, WASI files, clocks and sockets, the [bitcoin] crate's fees, keys, PSBTs
    and signing, [bincode], random numbers, the order of hash maps).  Each class has a
    concrete instance that satisfies the laws, used by the witnesses.

    ** What the theorems show

    - The store refines a map between two merges, across roll-overs, and an insertion
      is what a get returns; a merge keeps a latest record per key of the segments
      it reads when they hold no deletions, but it loses updates of keys in the active
      segment and revives deleted keys, and a restart resurrects deleted keys.
    - Opening the store again always succeeds on files that can be read, and a get
      then returns a record of the key that was written.  What one session inserted
      into one file comes back as it was; a key that two sessions wrote comes back
      with its old value for some order of a hash map, which the reload follows.
    - Every message that is written is read back, also from a stream of messages (the
      four requests the client only sends are read as other messages); corrupted payloads are rejected; counts are bounded except in one message; and
      whatever a peer sends, what is read has its fields within their widths.
    - Filter matching decodes the filter and answers as the set of its values does:
      no script of a block is missed.
    - Coin selection conserves value: target, fees, change and excess add up; the
      branch-and-bound search stays in its window.  Payments spend wallet outputs at
      most once and pay exactly the amount.  Inputs that spend received outputs name
      the key and the path these are locked to; those that spend change do not.
    - The signer signs every payment that a wallet of its account prepares as long as
      it only received, with the keys the spent outputs are locked to; such a payment
      reaches an honest peer as a transaction that pays the amount and is signed by these
      keys.
    - The handshake completes with a peer that answers; a reply is found among other
      messages; the batches of a synchronisation cover the headers except when their
      number is 500 q + 1; the position in the chain only advances over rounds whose
      batches were all processed; payments found in blocks reach the wallet, and no peer
      can make a synchronisation damage a sound wallet: its outputs stay filed, 64 bits
      wide and paid to its keys, and its balance is their sum, or a panic when that sum
      exceeds 64 bits.  With an honest peer the whole synchronisation succeeds over any
      number of rounds and batches, and the wallet knows every payment of every block
      that was asked for, which is every block but the last of a round of 500 q + 1
      headers; spends are learned of outputs known before the batch.
    - With an honest peer, the money its blocks pay is in the balance the node returns,
      and the node started again on the files of its first session has the same position
      in the chain and exactly the same wallet; a stop in the middle of storing the
      state loses the payments of the blocks in between for good.
    - Bit arrays and shifts refine lists of bits; the latch releases one waiter per
      [open].
    - The mobile money program keeps its balances non-negative for finite non-negative
      amounts, rounding included; it does not check amounts, sends no bitcoin, and
      does not end at the end of its input.  The integration test passes exactly for
      the fee that the wallet's coin selection leaves.

    ** Bounds and fuel

    A read of the connection blocks until bytes come or the connection ends, so no
    bound holds for a silent peer; the model has the connections on which every read
    returns.  The loops of [receive] and of the requests ([filters_loop], [blocks_loop],
    [sync_loop], [finish_loop]) depend on the clock and on how long the peer goes on; they
    take the fuel as their number of turns and are stable in it ([FuelStable]); with an
    honest peer that answers before the deadlines, one turn more than there are blocks is
    enough.  The writes of a message take all their bytes, or one of them fails.  The loop of the mobile money program takes
    a turn per line.  The branch-and-bound search
    has the 100,000 tries of the source.  Decimal printing takes as many digits as
    there are bits.  Coin selection is proved for totals below [2 ^ 60] (satoshis in
    existence are fewer than [2 ^ 51]); files are smaller than [2 ^ 62] bytes, and below
    [2 ^ 32] where a restart reads them, since their length is cast to a [u32].

    ** Not modelled

    The generated bindings (bindings.rs of every crate): marshalling only.  The build
    scripts and client-test/src/bitcoind.rs, which nothing calls; the set-up of the
    wasmtime engine in the hosts.  hash160.rs, whose function is commented out, and
    the unused constants of util/mod.rs.  [Debug] and [Display] texts of messages and
    errors, the getters of the configurations, wrappers without a body of their own, [println] and capacities of vectors, which nothing observes.  The unit
    tests that depend on the numbers of a seeded generator. *)

From stdpp Require Export base tactics list list_numbers numbers gmap strings sorting.
From Stdlib Require Export ZArith Lia.

#[global] Open Scope Z_scope.

(** ** Outcomes of fallible code

    A Rust computation returns a value, returns an error ([Result::Err]), or
    panics ([unwrap] on an error, an index out of range, an arithmetic overflow
    of the checked build).  A panic aborts the WASM instance, so it is a third
    outcome and not an error the caller can handle. *)

Inductive outcome (E A : Type) : Type :=
| Ok (a : A)
| Err (e : E)
| Panic (msg : string).
Arguments Ok {E A} a.
Arguments Err {E A} e.
Arguments Panic {E A} msg.

#[export] Instance outcome_ret E : MRet (outcome E) := λ A a, Ok a.

#[export] Instance outcome_bind E : MBind (outcome E) := λ A B f m,
  match m with
  | Ok a => f a
  | Err e => Err e
  | Panic s => Panic s
  end.

#[export] Instance outcome_fmap E : FMap (outcome E) := λ A B f m,
  match m with
  | Ok a => Ok (f a)
  | Err e => Err e
  | Panic s => Panic s
  end.

Declare Scope outcome_scope.
Delimit Scope outcome_scope with outcome.

(** [Result::map_err]. *)
Definition map_err {E F A} (f : E → F) (m : outcome E A) : outcome F A :=
  match m with
  | Ok a => Ok a
  | Err e => Err (f e)
  | Panic s => Panic s
  end.

(** [Option::ok_or]. *)
Definition ok_or {E A} (e : E) (o : option A) : outcome E A :=
  match o with Some a => Ok a | None => Err e end.

(** [Result::unwrap] and [Result::expect]: an error becomes a panic. *)
Definition unwrap {E F A} (msg : string) (m : outcome E A) : outcome F A :=
  match m with
  | Ok a => Ok a
  | Err _ => Panic msg
  | Panic s => Panic s
  end.

(** [Option::unwrap]. *)
Definition unwrap_opt {E A} (msg : string) (o : option A) : outcome E A :=
  match o with Some a => Ok a | None => Panic msg end.

Definition is_ok {E A} (m : outcome E A) : bool :=
  match m with Ok _ => true | _ => false end.

Definition is_panic {E A} (m : outcome E A) : bool :=
  match m with Panic _ => true | _ => false end.

Lemma outcome_bind_ok {E A B} (m : outcome E A) (f : A → outcome E B) b :
  m ≫= f = Ok b ↔ ∃ a, m = Ok a ∧ f a = Ok b.
Proof. destruct m; cbn; naive_solver. Qed.

(** The [?] operator in code that mutates a state [T]: an error keeps the state
    reached so far. *)
Definition try_bind {E A B T} (p : outcome E A * T) (f : A → T → outcome E B * T)
    : outcome E B * T :=
  match p with
  | (Ok a, t) => f a t
  | (Err e, t) => (Err e, t)
  | (Panic s, t) => (Panic s, t)
  end.

Notation "'try' ( x , t ) := p 'in' q" := (try_bind p (λ x t, q))
  (at level 10, x pattern, t pattern, p at level 200, q at level 200) : outcome_scope.

#[global] Open Scope outcome_scope.

(** ** Machine integers

    A [w]-bit unsigned integer is a [Z] in [0, 2^w); the code's casts wrap and
    its arithmetic operators, in the build with overflow checks, panic.  The
    client is compiled to wasm32, so [usize] has 32 bits. *)

Definition is_u8 (z : Z) : Prop := 0 ≤ z < 256.
Definition is_u16 (z : Z) : Prop := 0 ≤ z < 65536.
Definition is_u32 (z : Z) : Prop := 0 ≤ z < 4294967296.
Definition is_u64 (z : Z) : Prop := 0 ≤ z < 18446744073709551616.
Definition is_i32 (z : Z) : Prop := -2147483648 ≤ z < 2147483648.
Definition is_i64 (z : Z) : Prop :=
  -9223372036854775808 ≤ z < 9223372036854775808.

#[export] Instance is_u8_dec z : Decision (is_u8 z).
Proof. unfold is_u8. apply _. Defined.
#[export] Instance is_u16_dec z : Decision (is_u16 z).
Proof. unfold is_u16. apply _. Defined.
#[export] Instance is_u32_dec z : Decision (is_u32 z).
Proof. unfold is_u32. apply _. Defined.
#[export] Instance is_u64_dec z : Decision (is_u64 z).
Proof. unfold is_u64. apply _. Defined.
#[export] Instance is_i32_dec z : Decision (is_i32 z).
Proof. unfold is_i32. apply _. Defined.
#[export] Instance is_i64_dec z : Decision (is_i64 z).
Proof. unfold is_i64. apply _. Defined.

(** The [as] casts. *)
Definition as_u8 (z : Z) : Z := z mod 256.
Definition as_u16 (z : Z) : Z := z mod 65536.
Definition as_u32 (z : Z) : Z := z mod 4294967296.
Definition as_u64 (z : Z) : Z := z mod 18446744073709551616.
Definition as_usize (z : Z) : Z := as_u32 z.
Definition as_i32 (z : Z) : Z :=
  let u := as_u32 z in if u <? 2147483648 then u else u - 4294967296.
Definition as_i64 (z : Z) : Z :=
  let u := as_u64 z in
  if u <? 9223372036854775808 then u else u - 18446744073709551616.

Definition usize_max : Z := 4294967295.
Definition isize_max : Z := 2147483647.

(** Checked arithmetic: the operators of the build with overflow checks. *)
Definition checked {E} (lo hi : Z) (msg : string) (z : Z) : outcome E Z :=
  if (lo <=? z) && (z <? hi) then Ok z else Panic msg.

Definition add_u64 {E} (a b : Z) : outcome E Z :=
  checked 0 18446744073709551616 "attempt to add with overflow" (a + b).
Definition sub_u64 {E} (a b : Z) : outcome E Z :=
  checked 0 18446744073709551616 "attempt to subtract with overflow" (a - b).
Definition mul_u64 {E} (a b : Z) : outcome E Z :=
  checked 0 18446744073709551616 "attempt to multiply with overflow" (a * b).
Definition add_u32 {E} (a b : Z) : outcome E Z :=
  checked 0 4294967296 "attempt to add with overflow" (a + b).
Definition sub_u32 {E} (a b : Z) : outcome E Z :=
  checked 0 4294967296 "attempt to subtract with overflow" (a - b).
Definition mul_u32 {E} (a b : Z) : outcome E Z :=
  checked 0 4294967296 "attempt to multiply with overflow" (a * b).
Definition add_i64 {E} (a b : Z) : outcome E Z :=
  checked (-9223372036854775808) 9223372036854775808
    "attempt to add with overflow" (a + b).
Definition sub_i64 {E} (a b : Z) : outcome E Z :=
  checked (-9223372036854775808) 9223372036854775808
    "attempt to subtract with overflow" (a - b).

(** [unfold_ints] opens the integer ranges and casts, [ints] then calls [lia]. *)
Ltac unfold_ints :=
  unfold is_u8, is_u16, is_u32, is_u64, is_i32, is_i64, as_usize, as_u8, as_u16,
    as_u32, as_u64, usize_max, isize_max in *.
Ltac ints := unfold_ints; lia.

(** Decides a closed proposition by evaluating its decision procedure. *)
Ltac by_eval := apply (bool_decide_eq_true_1 _); vm_compute; reflexivity.

Lemma checked_ok {E} lo hi msg z : lo ≤ z < hi → @checked E lo hi msg z = Ok z.
Proof.
  intros H. unfold checked.
  by rewrite (proj2 (Z.leb_le _ _)), (proj2 (Z.ltb_lt _ _)) by lia.
Qed.

Lemma checked_inv {E} lo hi msg z z' :
  @checked E lo hi msg z = Ok z' → z' = z ∧ lo ≤ z < hi.
Proof.
  unfold checked. destruct (Z.leb_spec lo z), (Z.ltb_spec z hi); cbn; intros;
    simplify_eq; lia.
Qed.

Lemma checked_panic {E} lo hi msg z : ¬ (lo ≤ z < hi) → @checked E lo hi msg z = Panic msg.
Proof.
  intros H. unfold checked. destruct (Z.leb_spec lo z), (Z.ltb_spec z hi); cbn; try done. lia.
Qed.

Lemma checked_not_err {E} lo hi msg z e : @checked E lo hi msg z ≠ Err e.
Proof. unfold checked. by destruct (_ && _). Qed.

Lemma as_u32_id z : is_u32 z → as_u32 z = z.
Proof. intros. unfold as_u32. rewrite Z.mod_small; ints. Qed.
Lemma as_u64_id z : is_u64 z → as_u64 z = z.
Proof. intros. unfold as_u64. rewrite Z.mod_small; ints. Qed.
Lemma as_usize_id z : is_u32 z → as_usize z = z.
Proof. apply as_u32_id. Qed.
Lemma as_u8_id z : is_u8 z → as_u8 z = z.
Proof. intros. unfold as_u8. rewrite Z.mod_small; ints. Qed.
Lemma as_u16_id z : is_u16 z → as_u16 z = z.
Proof. intros. unfold as_u16. rewrite Z.mod_small; ints. Qed.

Lemma as_u32_range z : is_u32 (as_u32 z).
Proof. unfold as_u32, is_u32. apply Z.mod_pos_bound. lia. Qed.
Lemma as_u64_range z : is_u64 (as_u64 z).
Proof. unfold as_u64, is_u64. apply Z.mod_pos_bound. lia. Qed.

Lemma as_i32_as_u32 z : is_i32 z → as_i32 (as_u32 z) = z.
Proof.
  intros H. unfold as_i32. rewrite (as_u32_id (as_u32 z)) by apply as_u32_range.
  unfold as_u32, is_i32 in *.
  destruct (Z.leb_spec 0 z).
  - rewrite Z.mod_small by lia. by rewrite (proj2 (Z.ltb_lt _ _)) by lia.
  - rewrite <- (Z.mod_unique z 4294967296 (-1) (z + 4294967296)) by lia.
    rewrite (proj2 (Z.ltb_ge _ _)) by lia. lia.
Qed.

Lemma as_u32_as_i32 z : is_u32 z → as_u32 (as_i32 z) = z.
Proof.
  intros H. unfold as_i32. rewrite (as_u32_id z) by done.
  destruct (Z.ltb_spec z 2147483648); [by apply as_u32_id|].
  unfold as_u32, is_u32 in *.
  by rewrite <- (Z.mod_unique (z - 4294967296) 4294967296 (-1) z) by lia.
Qed.

Lemma as_i64_as_u64 z : is_i64 z → as_i64 (as_u64 z) = z.
Proof.
  intros H. unfold as_i64, as_u64, is_i64 in *. rewrite Z.mod_mod by lia.
  destruct (Z.leb_spec 0 z).
  - rewrite Z.mod_small by lia. by rewrite (proj2 (Z.ltb_lt _ _)) by lia.
  - rewrite <- (Z.mod_unique z 18446744073709551616 (-1)
      (z + 18446744073709551616)) by lia.
    rewrite (proj2 (Z.ltb_ge _ _)) by lia. lia.
Qed.

(** ** Bytes *)

(** A [Vec<u8>], [&[u8]] or [[u8; n]] is the list of its bytes. *)
Abbreviation bytes := (list Z).

Definition is_bytes (l : bytes) : Prop := Forall is_u8 l.

#[export] Instance is_bytes_dec l : Decision (is_bytes l).
Proof. unfold is_bytes. apply _. Defined.

(** [slice.len()] as an integer. *)
Definition zlen {A} (l : list A) : Z := Z.of_nat (length l).

(** [uN::to_le_bytes] and [uN::from_le_bytes], for [n] bytes. *)
Fixpoint le_bytes (n : nat) (z : Z) : bytes :=
  match n with
  | O => []
  | S n => z mod 256 :: le_bytes n (z / 256)
  end.

Fixpoint le_value (l : bytes) : Z :=
  match l with
  | [] => 0
  | b :: l => b + 256 * le_value l
  end.

(** The big-endian versions. *)
Definition be_bytes (n : nat) (z : Z) : bytes := reverse (le_bytes n z).
Definition be_value (l : bytes) : Z := le_value (reverse l).

Lemma zlen_nonneg {A} (l : list A) : 0 ≤ zlen l.
Proof. unfold zlen. lia. Qed.
Lemma zlen_nil {A} : zlen (@nil A) = 0.
Proof. done. Qed.
Lemma zlen_cons {A} (x : A) l : zlen (x :: l) = 1 + zlen l.
Proof. unfold zlen. cbn. lia. Qed.
Lemma zlen_app {A} (l k : list A) : zlen (l ++ k) = zlen l + zlen k.
Proof. unfold zlen. rewrite length_app. lia. Qed.
Lemma zlen_reverse {A} (l : list A) : zlen (reverse l) = zlen l.
Proof. unfold zlen. by rewrite length_reverse. Qed.
Lemma zlen_map {A B} (f : A → B) l : zlen (map f l) = zlen l.
Proof. unfold zlen. by rewrite length_map. Qed.
Lemma to_nat_zlen {A} (l : list A) : Z.to_nat (zlen l) = length l.
Proof. unfold zlen. lia. Qed.

Lemma zlen_take {A} (l : list A) n :
  0 ≤ n ≤ zlen l → zlen (take (Z.to_nat n) l) = n.
Proof. unfold zlen. intros. rewrite length_take. lia. Qed.

Lemma take_app_zlen {A} (l k : list A) n : zlen l = n → take (Z.to_nat n) (l ++ k) = l.
Proof. intros <-. rewrite to_nat_zlen. apply take_app_length. Qed.
Lemma drop_app_zlen {A} (l k : list A) n : zlen l = n → drop (Z.to_nat n) (l ++ k) = k.
Proof. intros <-. rewrite to_nat_zlen. apply drop_app_length. Qed.

Lemma length_le_bytes n z : length (le_bytes n z) = n.
Proof. revert z. induction n; intros; cbn; auto. Qed.
Lemma zlen_le_bytes n z : zlen (le_bytes n z) = Z.of_nat n.
Proof. unfold zlen. by rewrite length_le_bytes. Qed.

Lemma le_bytes_is_bytes n z : is_bytes (le_bytes n z).
Proof.
  revert z. induction n; intros z; cbn; constructor; [|apply IHn].
  unfold is_u8. apply Z.mod_pos_bound. lia.
Qed.

Lemma le_value_le_bytes n z : 0 ≤ z < 256 ^ Z.of_nat n → le_value (le_bytes n z) = z.
Proof.
  revert z. induction n as [|n IH]; intros z Hz; cbn [le_bytes le_value].
  - cbn in Hz. lia.
  - rewrite Nat2Z.inj_succ, Z.pow_succ_r in Hz by lia.
    rewrite IH; [pose proof (Z.div_mod z 256); lia|].
    split; [apply Z.div_pos; lia|apply Z.div_lt_upper_bound; lia].
Qed.

Lemma le_value_bound l : is_bytes l → 0 ≤ le_value l < 256 ^ zlen l.
Proof.
  induction 1 as [|b l Hb Hl IH]; [done|].
  rewrite zlen_cons, Z.pow_add_r, Z.pow_1_r by (pose proof (zlen_nonneg l); lia).
  cbn [le_value]. unfold is_u8 in Hb. lia.
Qed.

Lemma le_bytes_le_value l : is_bytes l → le_bytes (length l) (le_value l) = l.
Proof.
  induction 1 as [|b l Hb Hl IH]; [done|]. unfold is_u8 in Hb.
  cbn [length le_bytes le_value].
  rewrite (Z.mul_comm 256), Z.div_add, Z.mod_add by lia.
  rewrite Z.div_small, Z.mod_small by lia. by rewrite Z.add_0_l, IH.
Qed.

Lemma le_value_app l k : le_value (l ++ k) = le_value l + 256 ^ zlen l * le_value k.
Proof.
  induction l as [|b l IH]; [change (zlen (@nil Z)) with 0; cbn [app le_value]; lia|].
  rewrite zlen_cons, Z.pow_add_r, Z.pow_1_r by (pose proof (zlen_nonneg l); lia).
  cbn [app le_value]. rewrite IH. lia.
Qed.

Lemma le_value_inj l k :
  is_bytes l → is_bytes k → length l = length k → le_value l = le_value k → l = k.
Proof.
  intros Hl Hk Hlen Heq.
  by rewrite <- (le_bytes_le_value l), <- (le_bytes_le_value k), Hlen, Heq.
Qed.

Lemma zlen_be_bytes n z : zlen (be_bytes n z) = Z.of_nat n.
Proof. unfold be_bytes. by rewrite zlen_reverse, zlen_le_bytes. Qed.
Lemma be_bytes_is_bytes n z : is_bytes (be_bytes n z).
Proof.
  unfold be_bytes, is_bytes. apply Forall_reverse, le_bytes_is_bytes.
Qed.
Lemma be_value_be_bytes n z : 0 ≤ z < 256 ^ Z.of_nat n → be_value (be_bytes n z) = z.
Proof.
  intros. unfold be_value, be_bytes. rewrite reverse_involutive.
  by apply le_value_le_bytes.
Qed.

Lemma is_bytes_app l k : is_bytes (l ++ k) ↔ is_bytes l ∧ is_bytes k.
Proof. apply Forall_app. Qed.
Lemma is_bytes_nil : is_bytes [].
Proof. constructor. Qed.
Lemma is_bytes_cons b l : is_bytes (b :: l) ↔ is_u8 b ∧ is_bytes l.
Proof. apply Forall_cons. Qed.
Lemma is_bytes_take n l : is_bytes l → is_bytes (take n l).
Proof. apply Forall_take. Qed.
Lemma is_bytes_drop n l : is_bytes l → is_bytes (drop n l).
Proof. apply Forall_drop. Qed.

(** ** Lists *)

Lemma filter_all {A} (P : A → Prop) `{∀ x, Decision (P x)} l :
  Forall P l → filter P l = l.
Proof.
  induction 1 as [|x l Hx Hl IH]; [done|].
  rewrite filter_cons_True by done. by rewrite IH.
Qed.

(** ** Strings

    A Rust [String] is the list of its UTF-8 bytes. *)

Fixpoint str (s : string) : bytes :=
  match s with
  | EmptyString => []
  | String a s => Z.of_N (Ascii.N_of_ascii a) :: str s
  end.

Lemma str_is_bytes s : is_bytes (str s).
Proof.
  induction s as [|a s IH]; cbn; constructor; [|done].
  pose proof (Ascii.N_ascii_bounded a). unfold is_u8. lia.
Qed.

(** The validity check of [String::from_utf8] (Unicode table 3-7). *)
Definition between (lo hi b : Z) : bool := (lo <=? b) && (b <=? hi).

Fixpoint utf8_valid (l : bytes) : bool :=
  match l with
  | [] => true
  | b0 :: l1 =>
    if b0 <? 128 then utf8_valid l1
    else if between 194 223 b0 then
      match l1 with
      | b1 :: l2 => between 128 191 b1 && utf8_valid l2
      | _ => false
      end
    else if between 224 239 b0 then
      match l1 with
      | b1 :: b2 :: l3 =>
        between (if b0 =? 224 then 160 else 128) (if b0 =? 237 then 159 else 191) b1
        && between 128 191 b2 && utf8_valid l3
      | _ => false
      end
    else if between 240 244 b0 then
      match l1 with
      | b1 :: b2 :: b3 :: l4 =>
        between (if b0 =? 240 then 144 else 128) (if b0 =? 244 then 143 else 191) b1
        && between 128 191 b2 && between 128 191 b3 && utf8_valid l4
      | _ => false
      end
    else false
  end.

(** Decimal printing ([{}] of an unsigned integer) and [str::parse]. *)
Fixpoint dec_aux (fuel : nat) (z : Z) (acc : bytes) : bytes :=
  match fuel with
  | O => acc
  | S fuel =>
    let acc := (48 + z mod 10) :: acc in
    if z <? 10 then acc else dec_aux fuel (z / 10) acc
  end.

(** A number below [2^k] has at most [k + 1] decimal digits. *)
Definition dec (z : Z) : bytes := dec_aux (S (Z.to_nat (Z.log2 z))) z [].

(** [{}] of a signed integer. *)
Definition dec_signed (z : Z) : bytes := if z <? 0 then str "-" ++ dec (- z) else dec z.

(** [{:?}] of a byte slice: the numbers, comma-separated, in brackets. *)
Definition debug_bytes (l : bytes) : bytes :=
  str "[" ++ concat (list.imap (λ i b, (if decide (i = 0%nat) then [] else str ", ") ++ dec b) l)
  ++ str "]".

Definition is_digit (b : Z) : bool := between 48 57 b.

Fixpoint digits_value (acc : Z) (l : bytes) : option Z :=
  match l with
  | [] => Some acc
  | b :: l => if is_digit b then digits_value (10 * acc + (b - 48)) l else None
  end.

(** [str::parse::<u64>]: an optional [+], at least one digit, no overflow. *)
Definition parse_u64 (l : bytes) : option Z :=
  let ds := match l with b :: l' => if b =? 43 then l' else l | [] => l end in
  match ds with
  | [] => None
  | _ =>
    match digits_value 0 ds with
    | Some z => if z <? 18446744073709551616 then Some z else None
    | None => None
    end
  end.

Lemma digits_value_app acc l k :
  digits_value acc (l ++ k) = digits_value acc l ≫= λ a, digits_value a k.
Proof.
  revert acc. induction l as [|b l IH]; intros acc; cbn; [done|].
  by destruct (is_digit b).
Qed.

(** Every suffix printed by [dec_aux] is prefixed by the digits of [z]. *)
Lemma dec_aux_spec fuel z acc :
  0 ≤ z < 10 ^ Z.of_nat fuel → (fuel > 0)%nat →
  ∃ ds, dec_aux fuel z acc = ds ++ acc ∧ digits_value 0 ds = Some z
        ∧ ds ≠ [] ∧ Forall (λ b, is_digit b = true) ds.
Proof.
  revert z acc. induction fuel as [|fuel IH]; intros z acc Hz Hf; [lia|].
  cbn [dec_aux]. pose proof (Z.mod_pos_bound z 10 ltac:(lia)).
  assert (Hd : is_digit (48 + z mod 10) = true).
  { unfold is_digit, between. apply andb_true_iff. rewrite !Z.leb_le. lia. }
  destruct (Z.ltb_spec z 10).
  - exists [48 + z mod 10]. split_and!; [done| |done|by repeat constructor].
    cbn [digits_value]. rewrite Hd. f_equal. rewrite Z.mod_small; lia.
  - rewrite Nat2Z.inj_succ, Z.pow_succ_r in Hz by lia.
    assert (fuel > 0)%nat by (destruct fuel; [cbn in Hz; lia|lia]).
    destruct (IH (z / 10) ((48 + z mod 10) :: acc)) as (ds & -> & Hv & Hne & Hall);
      [split; [apply Z.div_pos; lia|apply Z.div_lt_upper_bound; lia]|done|].
    exists (ds ++ [48 + z mod 10]). split_and!.
    + by rewrite <- app_assoc.
    + rewrite digits_value_app, Hv. cbn [mbind option_bind digits_value].
      rewrite Hd. f_equal. pose proof (Z.div_mod z 10). lia.
    + by destruct ds.
    + apply Forall_app. by repeat constructor.
Qed.

Lemma dec_fuel_enough z : 0 ≤ z → z < 10 ^ Z.of_nat (S (Z.to_nat (Z.log2 z))).
Proof.
  intros. destruct (decide (z = 0)) as [->|]; [done|].
  pose proof (Z.log2_spec z ltac:(lia)) as [_ Hlt]. pose proof (Z.log2_nonneg z).
  rewrite Nat2Z.inj_succ, Z2Nat.id by lia.
  eapply Z.lt_le_trans; [exact Hlt|]. apply Z.pow_le_mono_l. lia.
Qed.

Lemma dec_spec z :
  0 ≤ z → digits_value 0 (dec z) = Some z ∧ dec z ≠ []
          ∧ Forall (λ b, is_digit b = true) (dec z).
Proof.
  intros. unfold dec.
  destruct (dec_aux_spec (S (Z.to_nat (Z.log2 z))) z []) as (ds & -> & ?);
    [pose proof (dec_fuel_enough z); lia|lia|].
  by rewrite app_nil_r.
Qed.

Lemma is_digit_range b : is_digit b = true → 48 ≤ b ≤ 57.
Proof. unfold is_digit, between. rewrite andb_true_iff, !Z.leb_le. lia. Qed.

(** Parsing what [{}] prints gives the number back. *)
Lemma parse_u64_dec z : is_u64 z → parse_u64 (dec z) = Some z.
Proof.
  intros Hz. destruct (dec_spec z) as (Hv & Hne & Hall); [ints|].
  unfold parse_u64. destruct (dec z) as [|b l] eqn:E; [done|].
  apply Forall_cons in Hall as [Hb%is_digit_range _].
  rewrite (proj2 (Z.eqb_neq b 43)) by lia. rewrite Hv. by rewrite (proj2 (Z.ltb_lt _ _)) by ints.
Qed.
