(* ===== verification/Errors.v ===== *)
(** * The client's error type ([node/src/util/result.rs])

    [Error] is the error every operation of the node returns, [to_error_code]
    the number that crosses the component boundary (the WIT interface returns
    [result<_, u32>]), [error_description] its short text.
    Errors of other crates ([hex], [base58], [libsecp256k1], WASI streams and
    sockets) are represented by the text their [Display] prints: the client
    never looks inside them. *)

From S2P Require Import Prelude.

(** [std::io::ErrorKind], the kinds the code distinguishes. *)
Inductive ErrorKind :=
| UnexpectedEof
| TimedOut
| WouldBlock
| InvalidData
| OtherKind.

#[export] Instance ErrorKind_eq_dec : EqDecision ErrorKind.
Proof. solve_decision. Defined.

(** [std::io::Error]. *)
Record io_error := IoError { io_kind : ErrorKind; io_text : bytes }.

#[export] Instance io_error_eq_dec : EqDecision io_error.
Proof. solve_decision. Defined.

(** The error of the key-value component, [component:kv/types.error]. *)
Inductive StoreError :=
| OpenFileError
| StreamError
| FileNotFound (id : Z)
| InvalidDataError
| ParseError
| EntryNotFound.

#[export] Instance StoreError_eq_dec : EqDecision StoreError.
Proof. solve_decision. Defined.

(** [kv/src/errors.rs]: the conversion into the exported error keeps the
    variant; the exported type has the same constructors. *)
Definition guest_error (e : StoreError) : StoreError :=
  match e with
  | OpenFileError => OpenFileError
  | StreamError => StreamError
  | EntryNotFound => EntryNotFound
  | InvalidDataError => InvalidDataError
  | ParseError => ParseError
  | FileNotFound error_code => FileNotFound error_code
  end.

Inductive Error :=
| DBError (e : StoreError)
| SerializationError (s : bytes)
| FetchCompactFilter (c : Z)
| FetchCompactFilterHeader (c : Z)
| FetchBlock (c : Z)
| FilterMatchEror
| NetworkError
| FetchHeader (c : Z)
| BadArgument (s : bytes)
| BadData (s : bytes)
| FromBase58Error (s : bytes)
| FromHexError (s : bytes)
| FromUtf8Error (s : bytes)
| IllegalState (s : bytes)
| InvalidOperation (s : bytes)
| IOError (e : io_error)
| ParseIntError (s : bytes)
| ScriptError (s : bytes)
| Secp256k1Error (s : bytes)
| Timeout
| UnspecifiedRingError
| Unsupported (s : bytes)
| StreamingError (s : bytes)
| WrongP2PMessage
| TCPError (s : bytes)
| SliceError (s : bytes)
| PeerNotFound
| WalletError (c : Z).

#[export] Instance Error_eq_dec : EqDecision Error.
Proof. solve_decision. Defined.

Definition to_error_code (e : Error) : Z :=
  match e with
  | BadArgument _ => 1
  | BadData _ => 2
  | FromBase58Error _ => 3
  | FromHexError _ => 4
  | FromUtf8Error _ => 5
  | IllegalState _ => 6
  | InvalidOperation _ => 7
  | IOError _ => 8
  | ParseIntError _ => 9
  | ScriptError _ => 10
  | Secp256k1Error _ => 11
  | Timeout => 12
  | UnspecifiedRingError => 13
  | Unsupported _ => 14
  | StreamingError _ => 15
  | WrongP2PMessage => 16
  | TCPError _ => 17
  | SliceError _ => 18
  | PeerNotFound => 19
  | DBError _ => 20
  | SerializationError _ => 21
  | FetchCompactFilter _ => 22
  | FetchCompactFilterHeader _ => 23
  | FetchBlock _ => 24
  | FilterMatchEror => 25
  | NetworkError => 26
  | FetchHeader _ => 27
  | WalletError _ => 28
  end.

(** [Error::description]. *)
Definition error_description (e : Error) : bytes :=
  str match e with
  | BadArgument _ => "Bad argument"
  | BadData _ => "Bad data"
  | FromBase58Error _ => "Base58 decoding error"
  | FromHexError _ => "Hex decoding error"
  | FromUtf8Error _ => "Utf8 parsing error"
  | IllegalState _ => "Illegal state"
  | InvalidOperation _ => "Invalid operation"
  | IOError _ => "IO error"
  | ParseIntError _ => "Parse int error"
  | ScriptError _ => "Script error"
  | Secp256k1Error _ => "Secp256k1 error"
  | Timeout => "Timeout"
  | UnspecifiedRingError => "Unspecified ring error"
  | Unsupported _ => "Unsupported"
  | StreamingError _ => "P2P Streaming Error"
  | WrongP2PMessage => "Wrong P2P message gotten Error"
  | TCPError _ => "TCP error"
  | SliceError _ => "Slice error"
  | PeerNotFound => "P2P Peer Not Found"
  | DBError _ => "DB Error"
  | SerializationError _ => "Serialization Error"
  | FetchCompactFilter _ => "Fetch Compact Filter Error"
  | FetchCompactFilterHeader _ => "Fetch Compact Filter Header Error"
  | FetchBlock _ => "Fetch Block Error"
  | FilterMatchEror => "Filter Match Error"
  | NetworkError => "Network Error"
  | FetchHeader _ => "Fetch Header Error"
  | WalletError _ => "Wallet Error"
  end.

(** [Display]; [show_store] is the text of a store error, which the bindings
    generate. *)
Definition error_fmt (show_store : StoreError → bytes) (e : Error) : bytes :=
  match e with
  | BadArgument s => str "Bad argument: " ++ s
  | BadData s => str "Bad data: " ++ s
  | FromBase58Error _ => str "Base58 decoding error: " ++ str "base58"
  | FromHexError e => str "Hex decoding error: " ++ e
  | FromUtf8Error e => str "Utf8 parsing error: " ++ e
  | IllegalState s => str "Illegal state: " ++ s
  | InvalidOperation s => str "Invalid operation: " ++ s
  | IOError e => str "IO error: " ++ io_text e
  | ParseIntError e => str "ParseIntError: " ++ e
  | ScriptError s => str "Script error: " ++ s
  | Secp256k1Error e => str "Secp256k1 error: " ++ e
  | Timeout => str "Timeout"
  | WrongP2PMessage => str "Wrong P2P message gotten"
  | UnspecifiedRingError => str "Unspecified ring error"
  | StreamingError s => str "Srreaming Error: " ++ s
  | Unsupported s => str "Unsuppored: " ++ s
  | TCPError c => str "TCP socket Error: " ++ c
  | SliceError c => str "Slice Error: " ++ c
  | PeerNotFound => str "P2P peer not found"
  | DBError error => str "DBError: " ++ show_store error
  | SerializationError error => str "Serialization: " ++ error
  | FetchCompactFilter e => str "Fetching Compact Filter Error: " ++ dec e
  | FetchCompactFilterHeader e => str "Fetching Compact Filter Header Error: " ++ dec e
  | FetchBlock e => str "Fetching Block Error: " ++ dec e
  | FilterMatchEror => str "Filter Match Error"
  | NetworkError => str "Network Error"
  | FetchHeader e => str "Fetching Header Error: " ++ dec e
  | WalletError _ => str "Wallet Error"
  end.

(** The constructor of an error, its payload forgotten. *)
Definition same_variant (a b : Error) : Prop :=
  match a, b with
  | DBError _, DBError _ | SerializationError _, SerializationError _
  | FetchCompactFilter _, FetchCompactFilter _
  | FetchCompactFilterHeader _, FetchCompactFilterHeader _
  | FetchBlock _, FetchBlock _ | FilterMatchEror, FilterMatchEror
  | NetworkError, NetworkError | FetchHeader _, FetchHeader _
  | BadArgument _, BadArgument _ | BadData _, BadData _
  | FromBase58Error _, FromBase58Error _ | FromHexError _, FromHexError _
  | FromUtf8Error _, FromUtf8Error _ | IllegalState _, IllegalState _
  | InvalidOperation _, InvalidOperation _ | IOError _, IOError _
  | ParseIntError _, ParseIntError _ | ScriptError _, ScriptError _
  | Secp256k1Error _, Secp256k1Error _ | Timeout, Timeout
  | UnspecifiedRingError, UnspecifiedRingError | Unsupported _, Unsupported _
  | StreamingError _, StreamingError _ | WrongP2PMessage, WrongP2PMessage
  | TCPError _, TCPError _ | SliceError _, SliceError _
  | PeerNotFound, PeerNotFound | WalletError _, WalletError _ => True
  | _, _ => False
  end.

(** The code that crosses the component boundary identifies the variant, and no
    error has the code 0. *)
Lemma to_error_code_variant a b :
  1 ≤ to_error_code a ≤ 28 ∧ (to_error_code a = to_error_code b ↔ same_variant a b).
Proof. destruct a; (split; [cbn; lia|]); destruct b; cbn; split; (done || lia). Qed.
