(* ===== verification/Io.v ===== *)
(** * Readers, writers and the [Serializable] trait

    [std::io::Read] over a byte cursor or a socket stream, the primitive reads of
    the [byteorder] crate, and the [Serializable] and [Payload] traits of
    [node/src/util/serdes.rs] and [node/src/messages/message.rs] as classes with
    the laws every message type discharges. *)

From S2P Require Import Prelude Errors.

(** ** Readers

    A reader holds the bytes that will still arrive and the error [read_exact]
    reports once they run out: [UnexpectedEof] for a [Cursor], possibly
    [TimedOut] or [WouldBlock] for a socket. *)

Record reader := rdr { rd_data : bytes; rd_end : io_error }.

Definition eof : io_error := IoError UnexpectedEof (str "failed to fill whole buffer").

(** [Cursor::new]. *)
Definition cursor (l : bytes) : reader := rdr l eof.

(** Reading threads the reader, also through errors: a failed read has consumed
    bytes. *)
Definition parser (E A : Type) : Type := reader → outcome E A * reader.

#[export] Instance parser_ret E : MRet (parser E) := λ A a r, (Ok a, r).

#[export] Instance parser_bind E : MBind (parser E) := λ A B f p r,
  match p r with
  | (Ok a, r') => f a r'
  | (Err e, r') => (Err e, r')
  | (Panic s, r') => (Panic s, r')
  end.

Definition fail {E A} (e : E) : parser E A := λ r, (Err e, r).

(** A computation that does not touch the reader. *)
Definition lift {E A} (m : outcome E A) : parser E A := λ r, (m, r).

(** The [?] of an [io::Result] in a function that returns the client's
    [Result]: [From<io::Error> for Error]. *)
Definition io {A} (p : parser io_error A) : parser Error A := λ r,
  let '(m, r') := p r in (map_err IOError m, r').

(** [Read::read_exact] into a buffer of [n] bytes. *)
Definition read_exact (n : Z) : parser io_error bytes := λ r,
  if n <=? zlen (rd_data r)
  then (Ok (take (Z.to_nat n) (rd_data r)), rdr (drop (Z.to_nat n) (rd_data r)) (rd_end r))
  else (Err (rd_end r), rdr [] (rd_end r)).

(** [Read::read] into a zeroed buffer of [n] bytes: the bytes that are there,
    the rest of the buffer unchanged; at the end of a cursor it reads nothing
    and succeeds. *)
Definition read_buf (n : Z) : parser io_error bytes := λ r,
  let got := take (Z.to_nat n) (rd_data r) in
  if bool_decide (got = [] ∧ 0 < n ∧ io_kind (rd_end r) ≠ UnexpectedEof)
  then (Err (rd_end r), r)
  else (Ok (got ++ replicate (Z.to_nat n - length got) 0),
        rdr (drop (Z.to_nat n) (rd_data r)) (rd_end r)).

(** [Vec::with_capacity(n)] and [vec![0; n]] for elements of [elem] bytes panic
    when the allocation would exceed [isize::MAX] bytes. *)
Definition with_capacity {E} (elem n : Z) : parser E unit :=
  lift (if n * elem <=? isize_max then Ok tt else Panic "capacity overflow").

(** The loop [for _ in 0..n { v.push(p(reader)?) }]. *)
Fixpoint read_times {E A} (n : nat) (p : parser E A) : parser E (list A) :=
  match n with
  | O => mret []
  | S n => x ← p; xs ← read_times n p; mret (x :: xs)
  end.

(** ** The [byteorder] crate

    The crate is not part of the repository.  What the client uses of it: writing
    an [n]-byte unsigned integer, and the value of [n] bytes read with
    [read_exact].  The two laws state its documentation: little- and big-endian
    two's complement. *)

Class ByteOrder := {
  bo_put_le : nat → Z → bytes;
  bo_get_le : bytes → Z;
  bo_put_be : nat → Z → bytes;
  bo_get_be : bytes → Z;
  bo_put_le_spec : ∀ n z, 0 ≤ z < 256 ^ Z.of_nat n → bo_put_le n z = le_bytes n z;
  bo_get_le_spec : ∀ l, is_bytes l → bo_get_le l = le_value l;
  bo_put_be_spec : ∀ n z, 0 ≤ z < 256 ^ Z.of_nat n → bo_put_be n z = be_bytes n z;
  bo_get_be_spec : ∀ l, is_bytes l → bo_get_be l = be_value l;
}.

(** The laws can be met: the encodings of the standard library. *)
Definition std_byteorder : ByteOrder := {|
  bo_put_le := le_bytes;
  bo_get_le := le_value;
  bo_put_be := be_bytes;
  bo_get_be := be_value;
  bo_put_le_spec _ _ _ := eq_refl;
  bo_get_le_spec _ _ := eq_refl;
  bo_put_be_spec _ _ _ := eq_refl;
  bo_get_be_spec _ _ := eq_refl;
|}.

Section Primitives.
  Context `{BO : ByteOrder}.

Definition read_uint (n : nat) : parser io_error Z :=
  b ← read_exact (Z.of_nat n); mret (bo_get_le b).

Definition read_u8 : parser io_error Z := read_uint 1.
Definition read_u16 : parser io_error Z := read_uint 2.
Definition read_u32 : parser io_error Z := read_uint 4.
Definition read_u64 : parser io_error Z := read_uint 8.
Definition read_i32 : parser io_error Z := z ← read_uint 4; mret (as_i32 z).
Definition read_i64 : parser io_error Z := z ← read_uint 8; mret (as_i64 z).
Definition read_u16_be : parser io_error Z :=
  b ← read_exact 2; mret (bo_get_be b).

Definition write_u8 (z : Z) : bytes := bo_put_le 1 z.
Definition write_u16 (z : Z) : bytes := bo_put_le 2 z.
Definition write_u32 (z : Z) : bytes := bo_put_le 4 z.
Definition write_u64 (z : Z) : bytes := bo_put_le 8 z.
Definition write_i32 (z : Z) : bytes := bo_put_le 4 (as_u32 z).
Definition write_i64 (z : Z) : bytes := bo_put_le 8 (as_u64 z).
Definition write_u16_be (z : Z) : bytes := bo_put_be 2 z.

End Primitives.

(** ** The traits *)

(** [util::Serializable].  A writer is the byte sequence it receives. *)
Class Serializable (T : Type) := {
  read : parser Error T;
  write : T → bytes;
}.

(** What the trait promises: on the values the wire format can carry ([wf]),
    reading what was written gives the value back and leaves the rest. *)
Class SerializableOk (T : Type) `{Serializable T} := {
  wf : T → Prop;
  round_trip x rest e : wf x → read (rdr (write x ++ rest) e) = (Ok x, rdr rest e);
}.

(** [messages::Payload]: [size] announces the length of what [write] emits. *)
Class Payload (T : Type) `{Serializable T} := { size : T → Z }.

Class PayloadOk (T : Type) `{SerializableOk T} `{!Payload T} :=
  size_ok x : wf x → size x = zlen (write x).

(** ** Running parsers *)

Lemma parser_bind_ok {E A B} (p : parser E A) (f : A → parser E B) r a r' :
  p r = (Ok a, r') → (p ≫= f) r = f a r'.
Proof. intros H. unfold mbind, parser_bind. by rewrite H. Qed.

Lemma parser_bind_err {E A B} (p : parser E A) (f : A → parser E B) r e r' :
  p r = (Err e, r') → (p ≫= f) r = (Err e, r').
Proof. intros H. unfold mbind, parser_bind. by rewrite H. Qed.

Lemma parser_bind_inv {E A B} (p : parser E A) (f : A → parser E B) r b r' :
  (p ≫= f) r = (Ok b, r') → ∃ a r'', p r = (Ok a, r'') ∧ f a r'' = (Ok b, r').
Proof.
  unfold mbind, parser_bind. destruct (p r) as [[a|e|s] r'']; naive_solver.
Qed.

Lemma io_ok {A} (p : parser io_error A) r a r' :
  p r = (Ok a, r') → io p r = (Ok a, r').
Proof. intros H. unfold io. by rewrite H. Qed.

Lemma read_exact_ok n l rest e :
  zlen l = n → read_exact n (rdr (l ++ rest) e) = (Ok l, rdr rest e).
Proof.
  intros <-. unfold read_exact. cbn [rd_data rd_end].
  rewrite (proj2 (Z.leb_le _ _)) by (rewrite zlen_app; pose proof (zlen_nonneg rest); lia).
  by rewrite to_nat_zlen, take_app_length, drop_app_length.
Qed.

Lemma read_buf_ok n l rest e :
  zlen l = n → 0 < n → read_buf n (rdr (l ++ rest) e) = (Ok l, rdr rest e).
Proof.
  intros <- Hpos. unfold read_buf. cbn [rd_data rd_end].
  rewrite to_nat_zlen, take_app_length, drop_app_length.
  rewrite bool_decide_eq_false_2.
  - by rewrite Nat.sub_diag, app_nil_r.
  - intros [-> _]. by unfold zlen in Hpos.
Qed.

Lemma read_buf_zero rest e : read_buf 0 (rdr rest e) = (Ok [], rdr rest e).
Proof. unfold read_buf. cbn. rewrite bool_decide_eq_false_2; [done|lia]. Qed.

(** A short read on a cursor pads the buffer with zeros. *)
Lemma read_buf_cursor n l :
  0 ≤ n → read_buf n (cursor l)
  = (Ok (take (Z.to_nat n) l ++ replicate (Z.to_nat n - length l) 0),
     cursor (drop (Z.to_nat n) l)).
Proof.
  intros. unfold read_buf. cbn. rewrite bool_decide_eq_false_2 by naive_solver.
  f_equal. do 2 f_equal. rewrite length_take. f_equal. lia.
Qed.

Lemma with_capacity_ok {E} elem n r :
  n * elem ≤ isize_max → @with_capacity E elem n r = (Ok tt, r).
Proof. intros H. unfold with_capacity, lift. by rewrite (proj2 (Z.leb_le _ _)). Qed.

Lemma read_times_ok {E A} (p : parser E A) (w : A → bytes) (P : A → Prop) xs rest e :
  (∀ x rest, P x → p (rdr (w x ++ rest) e) = (Ok x, rdr rest e)) →
  Forall P xs →
  read_times (length xs) p (rdr (concat (map w xs) ++ rest) e) = (Ok xs, rdr rest e).
Proof.
  intros Hp. induction 1 as [|x xs Hx Hxs IH]; [done|].
  cbn [length map concat read_times]. rewrite <- app_assoc.
  erewrite parser_bind_ok by (apply Hp, Hx). by erewrite parser_bind_ok by apply IH.
Qed.

(** A read that succeeds without consuming anything can be repeated at will. *)
Lemma read_times_const {E A} (p : parser E A) x r n :
  p r = (Ok x, r) → read_times n p r = (Ok (replicate n x), r).
Proof.
  intros Hp. induction n as [|n IH]; [done|]. cbn [read_times replicate].
  erewrite parser_bind_ok by exact Hp. by erewrite parser_bind_ok by exact IH.
Qed.

Lemma read_times_length {E A} (p : parser E A) n r xs r' :
  read_times n p r = (Ok xs, r') → length xs = n.
Proof.
  revert r xs r'. induction n as [|n IH]; intros r xs r' H; [by injection H as <- _|].
  cbn [read_times] in H. apply parser_bind_inv in H as (x & r1 & _ & H).
  apply parser_bind_inv in H as (ys & r2 & H & Hret).
  apply IH in H. injection Hret as <- _. cbn. by rewrite H.
Qed.

Section PrimitiveLaws.
  Context `{BO : ByteOrder}.

Lemma read_uint_ok n z rest e :
  0 ≤ z < 256 ^ Z.of_nat n →
  read_uint n (rdr (bo_put_le n z ++ rest) e) = (Ok z, rdr rest e).
Proof.
  intros H. unfold read_uint. rewrite bo_put_le_spec by done.
  erewrite parser_bind_ok by (apply read_exact_ok, zlen_le_bytes).
  unfold mret, parser_ret. by rewrite bo_get_le_spec, le_value_le_bytes
    by (done || apply le_bytes_is_bytes).
Qed.

Lemma read_u8_ok z rest e :
  is_u8 z → read_u8 (rdr (write_u8 z ++ rest) e) = (Ok z, rdr rest e).
Proof. intros. apply read_uint_ok. cbn. ints. Qed.
Lemma read_u16_ok z rest e :
  is_u16 z → read_u16 (rdr (write_u16 z ++ rest) e) = (Ok z, rdr rest e).
Proof. intros. apply read_uint_ok. cbn. ints. Qed.
Lemma read_u32_ok z rest e :
  is_u32 z → read_u32 (rdr (write_u32 z ++ rest) e) = (Ok z, rdr rest e).
Proof. intros. apply read_uint_ok. cbn. ints. Qed.
Lemma read_u64_ok z rest e :
  is_u64 z → read_u64 (rdr (write_u64 z ++ rest) e) = (Ok z, rdr rest e).
Proof. intros. apply read_uint_ok. cbn. ints. Qed.

Lemma read_i32_ok z rest e :
  is_i32 z → read_i32 (rdr (write_i32 z ++ rest) e) = (Ok z, rdr rest e).
Proof.
  intros. unfold read_i32, write_i32. pose proof (as_u32_range z).
  erewrite parser_bind_ok by (apply read_uint_ok; cbn; ints).
  unfold mret, parser_ret. by rewrite as_i32_as_u32.
Qed.
Lemma read_i64_ok z rest e :
  is_i64 z → read_i64 (rdr (write_i64 z ++ rest) e) = (Ok z, rdr rest e).
Proof.
  intros. unfold read_i64, write_i64. pose proof (as_u64_range z).
  erewrite parser_bind_ok by (apply read_uint_ok; cbn; ints).
  unfold mret, parser_ret. by rewrite as_i64_as_u64.
Qed.
Lemma read_u16_be_ok z rest e :
  is_u16 z → read_u16_be (rdr (write_u16_be z ++ rest) e) = (Ok z, rdr rest e).
Proof.
  intros. unfold read_u16_be, write_u16_be. rewrite bo_put_be_spec by (cbn; ints).
  erewrite parser_bind_ok by (apply read_exact_ok, zlen_be_bytes).
  unfold mret, parser_ret. rewrite bo_get_be_spec by apply be_bytes_is_bytes.
  rewrite be_value_be_bytes; [done|cbn; ints].
Qed.

Lemma zlen_write_u8 z : is_u8 z → zlen (write_u8 z) = 1.
Proof. intros. unfold write_u8. rewrite bo_put_le_spec by (cbn; ints). done. Qed.
Lemma zlen_write_u16 z : is_u16 z → zlen (write_u16 z) = 2.
Proof. intros. unfold write_u16. rewrite bo_put_le_spec by (cbn; ints). done. Qed.
Lemma zlen_write_u32 z : is_u32 z → zlen (write_u32 z) = 4.
Proof. intros. unfold write_u32. rewrite bo_put_le_spec by (cbn; ints). done. Qed.
Lemma zlen_write_u64 z : is_u64 z → zlen (write_u64 z) = 8.
Proof. intros. unfold write_u64. rewrite bo_put_le_spec by (cbn; ints). done. Qed.
Lemma zlen_write_i32 z : is_i32 z → zlen (write_i32 z) = 4.
Proof.
  intros. pose proof (as_u32_range z). unfold write_i32.
  rewrite bo_put_le_spec by (cbn; ints). done.
Qed.
Lemma zlen_write_i64 z : is_i64 z → zlen (write_i64 z) = 8.
Proof.
  intros. pose proof (as_u64_range z). unfold write_i64.
  rewrite bo_put_le_spec by (cbn; ints). done.
Qed.
Lemma zlen_write_u16_be z : is_u16 z → zlen (write_u16_be z) = 2.
Proof. intros. unfold write_u16_be. rewrite bo_put_be_spec by (cbn; ints). done. Qed.

Lemma write_u8_byte z : is_u8 z → write_u8 z = [z].
Proof.
  intros. unfold write_u8. rewrite bo_put_le_spec by (cbn; ints). cbn.
  rewrite Z.mod_small; [done|ints].
Qed.

(** Writing the bytes of a buffer one by one emits the buffer. *)
Lemma concat_write_u8 l : is_bytes l → concat (map write_u8 l) = l.
Proof.
  induction 1 as [|b l Hb Hl IH]; [done|]. cbn.
  by rewrite write_u8_byte, IH.
Qed.

End PrimitiveLaws.

(** The length of the concatenated encodings of a list. *)
Lemma zlen_concat_map {A} (w : A → bytes) (sz : A → Z) (P : A → Prop) xs :
  (∀ x, P x → sz x = zlen (w x)) → Forall P xs →
  zlen (concat (map w xs)) = foldr (λ x n, sz x + n) 0 xs.
Proof.
  intros H. induction 1 as [|x xs Hx Hxs IH]; [done|].
  cbn. by rewrite zlen_app, IH, H.
Qed.

(** The loops over a length-prefixed list, the length read as a [u64]. *)
Lemma read_list_ok {E A} (p : parser E A) (w : A → bytes) (P : A → Prop) xs rest e :
  Forall P xs →
  (∀ x rest, P x → p (rdr (w x ++ rest) e) = (Ok x, rdr rest e)) →
  read_times (Z.to_nat (zlen xs)) p (rdr (concat (map w xs) ++ rest) e)
  = (Ok xs, rdr rest e).
Proof. intros ? Hp. rewrite to_nat_zlen. by apply (read_times_ok p w P). Qed.

Lemma read_byte_list_ok `{BO : ByteOrder} l rest e :
  is_bytes l →
  read_times (Z.to_nat (zlen l)) (io read_u8) (rdr (concat (map write_u8 l) ++ rest) e)
  = (Ok l, rdr rest e).
Proof.
  intros. apply (read_list_ok _ write_u8 is_u8); [done|].
  intros. by apply io_ok, read_u8_ok.
Qed.

Lemma zlen_write_bytes `{BO : ByteOrder} l :
  is_bytes l → zlen (concat (map write_u8 l)) = zlen l.
Proof. intros. by rewrite concat_write_u8. Qed.

(** A [Vec] of elements of [elem] bytes: no allocation exceeds [isize::MAX]. *)
Definition vec_ok {A} (elem : Z) (l : list A) : Prop := zlen l * elem ≤ isize_max.

#[export] Instance vec_ok_dec {A} elem (l : list A) : Decision (vec_ok elem l).
Proof. unfold vec_ok. apply _. Defined.

Lemma vec_ok_u32 {A} elem (l : list A) : 1 ≤ elem → vec_ok elem l → is_u32 (zlen l).
Proof. unfold vec_ok. pose proof (zlen_nonneg l). ints || nia. Qed.

Lemma vec_ok_u64 {A} elem (l : list A) : 1 ≤ elem → vec_ok elem l → is_u64 (zlen l).
Proof. intros H1 H2. pose proof (vec_ok_u32 elem l H1 H2). ints. Qed.

(** ** Automation

    [rt] runs one bind of a parser on the encoding of its value; [parse] repeats
    it.  The round-trip lemmas of the primitives are in the database [wire]. *)

Create HintDb wire.
#[export] Hint Resolve read_u8_ok read_u16_ok read_u32_ok read_u64_ok read_i32_ok
  read_i64_ok read_u16_be_ok read_exact_ok read_buf_ok io_ok with_capacity_ok
  read_byte_list_ok : wire.
#[export] Hint Extern 1 (read _ = _) => apply round_trip : wire.

Ltac rt :=
  erewrite parser_bind_ok by (cbn [rd_data rd_end]; eauto 6 with wire).
Ltac parse := rewrite <- ?app_assoc; repeat rt.
