(* ===== verification/VarInt.v ===== *)
(** * Variable-length integers ([node/src/util/var_int.rs]) *)

From S2P Require Import Prelude Errors Io.

Section VarInt.
  Context `{BO : ByteOrder}.

Definition var_int_size (n : Z) : Z :=
  if n <=? 252 then 1
  else if n <=? 0xffff then 3
  else if n <=? 0xffffffff then 5
  else 9.

Definition var_int_write (n : Z) : bytes :=
  if n <=? 252 then write_u8 (as_u8 n)
  else if n <=? 0xffff then write_u8 0xfd ++ write_u16 (as_u16 n)
  else if n <=? 0xffffffff then write_u8 0xfe ++ write_u32 (as_u32 n)
  else write_u8 0xff ++ write_u64 n.

Definition var_int_read : parser io_error Z :=
  n0 ← read_u8;
  if n0 =? 0xff then read_u64
  else if n0 =? 0xfe then read_u32
  else if n0 =? 0xfd then read_u16
  else mret n0.

Lemma var_int_read_ok n rest e :
  is_u64 n → var_int_read (rdr (var_int_write n ++ rest) e) = (Ok n, rdr rest e).
Proof.
  intros Hn. unfold var_int_read, var_int_write.
  destruct (Z.leb_spec n 252); [|destruct (Z.leb_spec n 0xffff);
    [|destruct (Z.leb_spec n 0xffffffff)]].
  - rewrite as_u8_id by ints. erewrite parser_bind_ok by (apply read_u8_ok; ints).
    repeat (rewrite (proj2 (Z.eqb_neq _ _)) by lia). done.
  - rewrite as_u16_id by ints. rewrite <- app_assoc.
    erewrite parser_bind_ok by (apply read_u8_ok; ints). apply read_u16_ok. ints.
  - rewrite as_u32_id by ints. rewrite <- app_assoc.
    erewrite parser_bind_ok by (apply read_u8_ok; ints). apply read_u32_ok. ints.
  - rewrite <- app_assoc.
    erewrite parser_bind_ok by (apply read_u8_ok; ints). by apply read_u64_ok.
Qed.

Lemma var_int_size_ok n : is_u64 n → var_int_size n = zlen (var_int_write n).
Proof.
  intros Hn. unfold var_int_size, var_int_write.
  destruct (Z.leb_spec n 252); [|destruct (Z.leb_spec n 0xffff);
    [|destruct (Z.leb_spec n 0xffffffff)]];
    rewrite ?as_u8_id, ?as_u16_id, ?as_u32_id by ints;
    rewrite ?zlen_app, ?zlen_write_u8, ?zlen_write_u16, ?zlen_write_u32,
      ?zlen_write_u64 by ints; done.
Qed.

End VarInt.

#[export] Hint Resolve var_int_read_ok : wire.

(** ** Properties *)

(** Reading a written variable-length integer returns it and leaves the
    bytes that follow, and [size] is the number of bytes written. *)
Theorem var_int_round_trip `{BO : ByteOrder} n rest e :
  is_u64 n →
  var_int_read (rdr (var_int_write n ++ rest) e) = (Ok n, rdr rest e)
  ∧ var_int_size n = zlen (var_int_write n).
Proof. intros. split; [by apply var_int_read_ok|by apply var_int_size_ok]. Qed.

Lemma var_int_round_trip_witness :
  @var_int_read std_byteorder (cursor (@var_int_write std_byteorder 70015 ++ [7]))
  = (Ok 70015, cursor [7]) ∧ var_int_size 70015 = 5.
Proof. apply (@var_int_round_trip std_byteorder 70015 [7] eof). by_eval. Defined.

(** The encoding of variable-length integers is prefix-free: two encodings,
    each followed by anything, agree only if the numbers and the rests agree. *)
Theorem var_int_prefix_free `{BO : ByteOrder} a b x y :
  is_u64 a → is_u64 b → var_int_write a ++ x = var_int_write b ++ y → a = b ∧ x = y.
Proof.
  intros Ha Hb H. pose proof (var_int_read_ok a x eof Ha) as H1.
  rewrite H, var_int_read_ok in H1 by done. by simplify_eq.
Qed.

Lemma var_int_prefix_free_witness : 300 = 300 ∧ [1] = [1].
Proof.
  apply (@var_int_prefix_free std_byteorder 300 300 [1] [1]); [by_eval..|done].
Defined.
