(* ===== verification/Hash256.v ===== *)
(** * 256-bit hashes and network constants ([node/src/util/hash256.rs],
    [node/src/util/network_const.rs], [node/src/util/serdes.rs])

    SHA-256 is the [ring] crate's and hexadecimal the [hex] crate's: both are
    parameters, with the documented facts the client relies on as laws. *)

From S2P Require Import Prelude Errors Io.

(** [ring::digest::digest(&SHA256, _)]: 32 bytes. *)
Class Sha256 := {
  sha256 : bytes → bytes;
  sha256_length b : length (sha256 b) = 32%nat;
  sha256_is_bytes b : is_bytes (sha256 b);
}.

(** [hex::encode] and [hex::decode]; the error carries its text. *)
Class Hex := {
  hex_encode : bytes → bytes;
  hex_decode : bytes → outcome bytes bytes;
  hex_decode_encode b : is_bytes b → hex_decode (hex_encode b) = Ok b;
  hex_decode_bytes s b : hex_decode s = Ok b → is_bytes b;
}.

(** The laws can be met.  For the digest: the first 32 bytes, padded. *)
Definition padded_digest (b : bytes) : bytes :=
  take 32 (map as_u8 b ++ replicate 32 0).

Lemma padded_digest_length b : length (padded_digest b) = 32%nat.
Proof. unfold padded_digest. rewrite length_take, length_app, length_replicate. lia. Qed.

Lemma padded_digest_is_bytes b : is_bytes (padded_digest b).
Proof.
  apply is_bytes_take, is_bytes_app. split.
  - apply Forall_map, Forall_true. intros z. apply Z.mod_pos_bound. lia.
  - apply Forall_replicate. ints.
Qed.

Definition padded_sha256 : Sha256 := {|
  sha256 := padded_digest;
  sha256_length := padded_digest_length;
  sha256_is_bytes := padded_digest_is_bytes;
|}.

(** Lower-case hexadecimal, decoding both cases. *)
Definition hex_digit (d : Z) : Z := if d <? 10 then 48 + d else 87 + d.

Definition hex_value (c : Z) : option Z :=
  if between 48 57 c then Some (c - 48)
  else if between 97 102 c then Some (c - 87)
  else if between 65 70 c then Some (c - 55)
  else None.

Definition std_hex_encode (b : bytes) : bytes :=
  concat (map (λ x, [hex_digit (x / 16); hex_digit (x mod 16)]) b).

Fixpoint std_hex_decode (s : bytes) : outcome bytes bytes :=
  match s with
  | [] => Ok []
  | c :: d :: s =>
    match hex_value c, hex_value d with
    | Some h, Some l => rest ← std_hex_decode s; Ok (16 * h + l :: rest)
    | _, _ => Err (str "Invalid character")
    end
  | _ => Err (str "Odd number of digits")
  end.

Lemma hex_value_digit d : 0 ≤ d < 16 → hex_value (hex_digit d) = Some d.
Proof.
  intros H. assert (d ∈ seqZ 0 16) as Hd by (apply elem_of_seqZ; lia).
  revert d H Hd. cut (Forall (λ d, hex_value (hex_digit d) = Some d) (seqZ 0 16)).
  { intros Hall d _ Hd. by apply (proj1 (Forall_forall _ _) Hall). }
  vm_compute. repeat constructor.
Qed.

Lemma hex_value_range c d : hex_value c = Some d → 0 ≤ d < 16.
Proof.
  unfold hex_value, between. repeat case_match; rewrite ?andb_true_iff, ?Z.leb_le in *;
    intros; simplify_eq; lia.
Qed.

Lemma std_hex_decode_encode b : is_bytes b → std_hex_decode (std_hex_encode b) = Ok b.
Proof.
  induction 1 as [|x b Hx Hb IH]; [done|]. unfold is_u8 in Hx.
  change (std_hex_encode (x :: b))
    with (hex_digit (x / 16) :: hex_digit (x mod 16) :: std_hex_encode b).
  cbn [std_hex_decode]. rewrite !hex_value_digit, IH.
  - cbn. do 2 f_equal. pose proof (Z.div_mod x 16). lia.
  - apply Z.mod_pos_bound. lia.
  - split; [apply Z.div_pos; lia|apply Z.div_lt_upper_bound; lia].
Qed.

Lemma std_hex_decode_bytes n s b :
  (length s ≤ n)%nat → std_hex_decode s = Ok b → is_bytes b.
Proof.
  revert s b. induction n as [|n IH]; intros s b Hlen Hs.
  - destruct s; cbn in Hlen; [|lia]. injection Hs as <-. constructor.
  - destruct s as [|c [|d s]]; cbn in Hs; simplify_eq; [constructor|].
    destruct (hex_value c) eqn:Hc; [|done]. destruct (hex_value d) eqn:Hd; [|done].
    apply outcome_bind_ok in Hs as (r & Hr & [= <-]).
    apply hex_value_range in Hc, Hd. constructor; [ints|].
    apply (IH s); [cbn in Hlen; lia|done].
Qed.

Definition std_hex : Hex := {|
  hex_encode := std_hex_encode;
  hex_decode := std_hex_decode;
  hex_decode_encode := std_hex_decode_encode;
  hex_decode_bytes s b := std_hex_decode_bytes (length s) s b (Nat.le_refl _);
|}.

(** The struct [Hash256(pub [u8; 32])]. *)
Record Hash256 := MkHash256 { hash_bytes : bytes }.

#[export] Instance Hash256_eq_dec : EqDecision Hash256.
Proof. solve_decision. Defined.

Definition hash_wf (h : Hash256) : Prop :=
  length (hash_bytes h) = 32%nat ∧ is_bytes (hash_bytes h).

#[export] Instance hash_wf_dec h : Decision (hash_wf h).
Proof. unfold hash_wf. apply _. Defined.

Section Hash256.
  Context `{BO : ByteOrder} `{SHA : Sha256} `{HX : Hex}.

Definition Hash256_encode (h : Hash256) : bytes := hex_encode (reverse (hash_bytes h)).

Definition Hash256_decode (s : bytes) : outcome Error Hash256 :=
  decoded_bytes ← map_err FromHexError (hex_decode s);
  if negb (zlen decoded_bytes =? 32)
  then Err (BadArgument (str "Length " ++ dec (zlen decoded_bytes) ++ str " of "
              ++ debug_bytes decoded_bytes))
  else Ok (MkHash256 (reverse decoded_bytes)).

Definition Hash256_read : parser Error Hash256 :=
  b ← io (read_buf 32); mret (MkHash256 b).

Definition Hash256_write (h : Hash256) : bytes := hash_bytes h.

(** Hashes a data array twice using SHA256. *)
Definition sha256d (data : bytes) : Hash256 := MkHash256 (sha256 (sha256 data)).

(** [Ord::cmp]: from the last byte to the first, the first difference decides. *)
Fixpoint cmp_below (i : nat) (a b : bytes) : comparison :=
  match i with
  | O => Eq
  | S i =>
    if nth i a 0 <? nth i b 0 then Lt
    else if nth i b 0 <? nth i a 0 then Gt
    else cmp_below i a b
  end.

Definition Hash256_cmp (a b : Hash256) : comparison :=
  cmp_below 32 (hash_bytes a) (hash_bytes b).

(** The arrays of [serdes.rs]: [[u8; 16]] and [[u8; 32]]. *)
Definition array_read (n : Z) : parser Error bytes := b ← io (read_buf n); mret b.
Definition array_write (b : bytes) : bytes := b.

#[export] Instance Hash256_Serializable : Serializable Hash256 :=
  {| read := Hash256_read; write := Hash256_write |}.

(** ** Laws *)

Lemma sha256d_wf b : hash_wf (sha256d b).
Proof. split; [apply sha256_length|apply sha256_is_bytes]. Qed.

Lemma Hash256_round_trip h rest e :
  hash_wf h → Hash256_read (rdr (Hash256_write h ++ rest) e) = (Ok h, rdr rest e).
Proof.
  intros [Hl _]. unfold Hash256_read, Hash256_write.
  erewrite parser_bind_ok by (apply io_ok, read_buf_ok; unfold zlen; lia).
  by destruct h.
Qed.

#[export] Instance Hash256_SerializableOk : SerializableOk Hash256 :=
  {| wf := hash_wf; round_trip := Hash256_round_trip |}.

Lemma Hash256_write_length h : hash_wf h → zlen (Hash256_write h) = 32.
Proof. intros [Hl _]. unfold Hash256_write, zlen. lia. Qed.

(** Reading a hash from a cursor never fails: missing bytes read as zeros. *)
Lemma Hash256_read_cursor l :
  Hash256_read (cursor l)
  = (Ok (MkHash256 (take 32 l ++ replicate (32 - length l) 0)), cursor (drop 32 l)).
Proof.
  unfold Hash256_read.
  by erewrite parser_bind_ok by (apply io_ok; by apply read_buf_cursor).
Qed.

(** ** The order *)

Lemma le_value_nth_S a i :
  (i < length a)%nat →
  le_value (take (S i) a) = le_value (take i a) + 256 ^ Z.of_nat i * nth i a 0.
Proof.
  intros Hi. destruct (lookup_lt_is_Some_2 a i Hi) as [x Hx].
  rewrite (take_S_r _ _ _ Hx), le_value_app. cbn [le_value].
  unfold zlen. rewrite length_take_le by lia.
  erewrite nth_lookup_Some by done. lia.
Qed.

Lemma nth_byte a i : is_bytes a → (i < length a)%nat → 0 ≤ nth i a 0 < 256.
Proof.
  intros Ha Hi. destruct (lookup_lt_is_Some_2 a i Hi) as [x Hx].
  erewrite nth_lookup_Some by done. exact (Forall_lookup_1 _ _ _ _ Ha Hx).
Qed.

Lemma cmp_below_spec i a b :
  is_bytes a → is_bytes b → (i ≤ length a)%nat → (i ≤ length b)%nat →
  cmp_below i a b = Z.compare (le_value (take i a)) (le_value (take i b)).
Proof.
  intros Ha Hb. induction i as [|i IH]; intros Hla Hlb; [done|].
  cbn [cmp_below]. rewrite !le_value_nth_S, IH by lia.
  pose proof (le_value_bound _ (is_bytes_take i a Ha)) as Ba.
  pose proof (le_value_bound _ (is_bytes_take i b Hb)) as Bb.
  unfold zlen in Ba, Bb. rewrite length_take_le in Ba, Bb by lia.
  set (P := 256 ^ Z.of_nat i) in *.
  destruct (Z.ltb_spec (nth i a 0) (nth i b 0)).
  - symmetry. apply Z.compare_lt_iff. nia.
  - destruct (Z.ltb_spec (nth i b 0) (nth i a 0)).
    + symmetry. apply Z.compare_gt_iff. nia.
    + replace (nth i a 0) with (nth i b 0) by lia. by rewrite (Z.add_comm (le_value (take i a))), (Z.add_comm (le_value (take i b))),
        Z.add_compare_mono_l.
Qed.

End Hash256.

(** ** Properties *)

(** The order on hashes, which walks the bytes from the last to the first,
    is the order of the 256-bit little-endian numbers they hold. *)
Theorem hash_cmp_value a b :
  hash_wf a → hash_wf b →
  Hash256_cmp a b = Z.compare (le_value (hash_bytes a)) (le_value (hash_bytes b)).
Proof.
  intros [La Ba] [Lb Bb]. unfold Hash256_cmp.
  rewrite cmp_below_spec by (done || lia). by rewrite !take_ge by lia.
Qed.

(** Decoding the hexadecimal form of a hash gives the hash back, and
    whatever decodes is a well-formed hash: 32 bytes, never fewer or more. *)
Theorem hash_hex_round_trip `{HX : Hex} h :
  hash_wf h →
  Hash256_decode (Hash256_encode h) = Ok h
  ∧ ∀ s h', Hash256_decode s = Ok h' → hash_wf h'.
Proof.
  intros [Hl Hb]. split.
  - unfold Hash256_decode, Hash256_encode.
    rewrite hex_decode_encode by (by apply Forall_reverse). cbn [map_err].
    unfold mbind, outcome_bind. rewrite zlen_reverse. unfold zlen. rewrite Hl. cbn.
    rewrite reverse_involutive. by destruct h.
  - intros s h' H. unfold Hash256_decode in H.
    apply outcome_bind_ok in H as (b & H1 & H2).
    destruct (hex_decode s) as [b'| |] eqn:Hs; simplify_eq/=.
    apply hex_decode_bytes in Hs. destruct (Z.eqb_spec (zlen b) 32) as [Hz|]; simplify_eq/=.
    split; cbn [hash_bytes]; [rewrite length_reverse; unfold zlen in Hz; lia|].
    by apply Forall_reverse.
Qed.

Lemma hash_cmp_value_witness :
  Hash256_cmp (MkHash256 (1 :: replicate 31 0)) (MkHash256 (replicate 31 0 ++ [1])) = Lt.
Proof.
  rewrite (hash_cmp_value (MkHash256 (1 :: replicate 31 0))
             (MkHash256 (replicate 31 0 ++ [1]))); [by vm_compute|by_eval..].
Defined.

Lemma hash_hex_round_trip_witness :
  @Hash256_decode std_hex (@Hash256_encode std_hex (MkHash256 (171 :: replicate 31 0)))
  = Ok (MkHash256 (171 :: replicate 31 0)).
Proof.
  apply (@hash_hex_round_trip std_hex (MkHash256 (171 :: replicate 31 0))). by_eval.
Defined.

(** ** Network constants *)

(** [bitcoin::Network] (the crate's enum is non-exhaustive; these are the
    variants the client names). *)
Inductive Network := Bitcoin | Testnet | Testnet4 | Signet | Regtest.

#[export] Instance Network_eq_dec : EqDecision Network.
Proof. solve_decision. Defined.

Definition REGTEST_MAGIC : bytes := [0xfa; 0xbf; 0xb5; 0xda].
Definition TESTNET_MAGIC : bytes := [0x0b; 0x11; 0x09; 0x07].
Definition MAINNET_MAGIC : bytes := [0xf9; 0xbe; 0xb4; 0xd9].
Definition SIGNET_MAGIC : bytes := [0x0a; 0x03; 0xcf; 0x40].

Definition magic_from_network (network : Network) : bytes :=
  match network with
  | Bitcoin => MAINNET_MAGIC
  | Testnet => TESTNET_MAGIC
  | Regtest => REGTEST_MAGIC
  | Signet => SIGNET_MAGIC
  | _ => MAINNET_MAGIC
  end.

Definition GENESIS_BLOCK_HASH_REGTEST : bytes :=
  str "0f9188f13cb7b2c71f2a335e3a4fc328bf5beb436012afca590b1a11466e2206".
Definition GENESIS_BLOCK_HASH_TESTNET : bytes :=
  str "000000000933ea01ad0ee984209779baaec3ced90fa3f408719526f8d77f4943".
Definition GENESIS_BLOCK_HASH_MAINNET : bytes :=
  str "000000000019d6689c085ae165831e934ff763ae46a2a6c172b3f1b60a8ce26f".
Definition GENESIS_BLOCK_HASH_SIGNET : bytes :=
  str "00000008819873e925422c1ff0f99f7cc9bbb232af63a077a480a3633bee1ef6".

Definition genesis_block_hash_from_network `{Hex} {E} (network : Network)
    : outcome E Hash256 :=
  unwrap "Failed to decode genesis blockhash"
    match network with
    | Bitcoin => Hash256_decode GENESIS_BLOCK_HASH_MAINNET
    | Testnet => Hash256_decode GENESIS_BLOCK_HASH_TESTNET
    | Regtest => Hash256_decode GENESIS_BLOCK_HASH_REGTEST
    | Signet => Hash256_decode GENESIS_BLOCK_HASH_SIGNET
    | _ => Hash256_decode GENESIS_BLOCK_HASH_MAINNET
    end.
