(* ===== verification/TxMsg.v ===== *)
(** * Transactions on the wire ([node/src/messages/{out_point,tx_in,tx_out,witness,tx}.rs]) *)

From S2P Require Import Prelude Errors Io VarInt Hash256.

(** ** Data *)

Record OutPoint := MkOutPoint { op_hash : Hash256; op_index : Z }.

Record TxIn := MkTxIn {
  txin_prev_output : OutPoint;
  txin_unlock_script : bytes;
  txin_sequence : Z;
}.

Record TxOut := MkTxOut { txout_satoshis : Z; txout_lock_script : bytes }.

Record TxWitnessData := MkTxWitnessData { witness_data : bytes }.

Record TxWitness := MkTxWitness { witness : list TxWitnessData }.

Record Tx := MkTx {
  tx_version : Z;
  tx_flag : option Z;
  tx_inputs : list TxIn;
  tx_outputs : list TxOut;
  tx_witnesses : option (list TxWitness);
  tx_lock_time : Z;
}.

#[export] Instance OutPoint_eq_dec : EqDecision OutPoint.
Proof. solve_decision. Defined.
#[export] Instance TxIn_eq_dec : EqDecision TxIn.
Proof. solve_decision. Defined.
#[export] Instance TxOut_eq_dec : EqDecision TxOut.
Proof. solve_decision. Defined.
#[export] Instance TxWitnessData_eq_dec : EqDecision TxWitnessData.
Proof. solve_decision. Defined.
#[export] Instance TxWitness_eq_dec : EqDecision TxWitness.
Proof. solve_decision. Defined.
#[export] Instance Tx_eq_dec : EqDecision Tx.
Proof. solve_decision. Defined.

Definition COINBASE_OUTPOINT_HASH : Hash256 := MkHash256 (replicate 32 0).
Definition COINBASE_OUTPOINT_INDEX : Z := 0xffffffff.
Definition OutPoint_SIZE : Z := 36.
Definition MAX_SATOSHIS : Z := 21000000 * 100000000.

(** [size_of] of the elements the readers preallocate, on wasm32: a [TxIn] is
    36 + 12 + 4 bytes, a [TxOut] 8 + 12 rounded up to the alignment of [i64], a
    [Tx] 46 rounded up to the alignment of [u32]. *)
Definition sizeof_TxIn : Z := 52.
Definition sizeof_TxOut : Z := 24.
Definition sizeof_Tx : Z := 48.

Section Tx.
  Context `{BO : ByteOrder} `{SHA : Sha256}.

(** ** Reading, writing, size *)

Definition OutPoint_read : parser Error OutPoint :=
  hash ← Hash256_read;
  index ← io read_u32;
  mret (MkOutPoint hash index).

Definition OutPoint_write (o : OutPoint) : bytes :=
  Hash256_write (op_hash o) ++ write_u32 (op_index o).

Definition OutPoint_size (o : OutPoint) : Z := OutPoint_SIZE.

Definition TxIn_read : parser Error TxIn :=
  prev_output ← OutPoint_read;
  script_len ← io var_int_read;
  unlock_script ← read_times (Z.to_nat script_len) (io read_u8);
  sequence ← io read_u32;
  mret (MkTxIn prev_output unlock_script sequence).

Definition TxIn_write (t : TxIn) : bytes :=
  OutPoint_write (txin_prev_output t)
  ++ var_int_write (zlen (txin_unlock_script t))
  ++ concat (map write_u8 (txin_unlock_script t))
  ++ write_u32 (txin_sequence t).

Definition TxIn_size (t : TxIn) : Z :=
  OutPoint_SIZE + var_int_size (zlen (txin_unlock_script t))
  + zlen (txin_unlock_script t) + 4.

Definition TxOut_read : parser Error TxOut :=
  satoshis ← io read_i64;
  script_len ← io var_int_read;
  lock_script ← read_times (Z.to_nat script_len) (io read_u8);
  mret (MkTxOut satoshis lock_script).

Definition TxOut_write (t : TxOut) : bytes :=
  write_i64 (txout_satoshis t)
  ++ var_int_write (zlen (txout_lock_script t))
  ++ concat (map write_u8 (txout_lock_script t)).

Definition TxOut_size (t : TxOut) : Z :=
  8 + var_int_size (zlen (txout_lock_script t)) + zlen (txout_lock_script t).

Definition TxWitnessData_read : parser Error TxWitnessData :=
  witness_len ← io var_int_read;
  witness_data ← read_times (Z.to_nat witness_len) (io read_u8);
  mret (MkTxWitnessData witness_data).

Definition TxWitnessData_write (w : TxWitnessData) : bytes :=
  var_int_write (zlen (witness_data w)) ++ concat (map write_u8 (witness_data w)).

Definition TxWitnessData_size (w : TxWitnessData) : Z :=
  var_int_size (zlen (witness_data w)) + zlen (witness_data w).

Definition TxWitness_read : parser Error TxWitness :=
  witness_len ← io var_int_read;
  witness ← read_times (Z.to_nat witness_len) TxWitnessData_read;
  mret (MkTxWitness witness).

Definition TxWitness_write (w : TxWitness) : bytes :=
  var_int_write (zlen (witness w)) ++ concat (map TxWitnessData_write (witness w)).

Definition TxWitness_size (w : TxWitness) : Z :=
  var_int_size (zlen (witness w))
  + foldr (λ d n, TxWitnessData_size d + n) 0 (witness w).

(** A zero input count announces the segwit format; any flag but 1 panics. *)
Definition Tx_read : parser Error Tx :=
  version ← io read_i32;
  let version := as_u32 version in
  n_inputs ← io var_int_read;
  if n_inputs =? 0 then
    segwit_flag ← io read_u8;
    if segwit_flag =? 1 then
      with_capacity sizeof_TxIn (as_usize n_inputs) ≫= λ _,
      n_inputs ← io var_int_read;
      inputs ← read_times (Z.to_nat n_inputs) TxIn_read;
      n_outputs ← io var_int_read;
      with_capacity sizeof_TxOut (as_usize n_outputs) ≫= λ _,
      outputs ← read_times (Z.to_nat n_outputs) TxOut_read;
      witnesses ← read_times (Z.to_nat n_inputs) TxWitness_read;
      lock_time ← io read_u32;
      mret (MkTx version (Some segwit_flag) inputs outputs (Some witnesses) lock_time)
    else lift (Panic "cant flag this")
  else
    with_capacity sizeof_TxIn (as_usize n_inputs) ≫= λ _,
    inputs ← read_times (Z.to_nat n_inputs) TxIn_read;
    n_outputs ← io var_int_read;
    with_capacity sizeof_TxOut (as_usize n_outputs) ≫= λ _,
    outputs ← read_times (Z.to_nat n_outputs) TxOut_read;
    lock_time ← io read_u32;
    mret (MkTx version None inputs outputs None lock_time).

Definition Tx_write (t : Tx) : bytes :=
  write_u32 (tx_version t) ++
  match tx_witnesses t with
  | Some witnesses =>
    write_u8 0 ++ write_u8 1
    ++ var_int_write (zlen (tx_inputs t)) ++ concat (map TxIn_write (tx_inputs t))
    ++ var_int_write (zlen (tx_outputs t)) ++ concat (map TxOut_write (tx_outputs t))
    ++ concat (map TxWitness_write witnesses)
    ++ write_u32 (tx_lock_time t)
  | None =>
    var_int_write (zlen (tx_inputs t)) ++ concat (map TxIn_write (tx_inputs t))
    ++ var_int_write (zlen (tx_outputs t)) ++ concat (map TxOut_write (tx_outputs t))
    ++ write_u32 (tx_lock_time t)
  end.

(** The sums are those of the encoded parts; a transaction in memory is far below the
    limit of a 32-bit [usize]. *)
Definition Tx_size (t : Tx) : Z :=
  8
  + match tx_witnesses t with
    | Some witnesses => 2 + foldr (λ w n, TxWitness_size w + n) 0 witnesses
    | None => 0
    end
  + var_int_size (zlen (tx_inputs t)) + foldr (λ i n, TxIn_size i + n) 0 (tx_inputs t)
  + var_int_size (zlen (tx_outputs t)) + foldr (λ o n, TxOut_size o + n) 0 (tx_outputs t).

(** [Tx::hash]: the double SHA-256 of the whole encoding. *)
Definition Tx_hash (t : Tx) : Hash256 := sha256d (Tx_write t).

Definition Tx_coinbase (t : Tx) : bool :=
  match tx_inputs t with
  | [i] =>
    bool_decide (op_hash (txin_prev_output i) = COINBASE_OUTPOINT_HASH)
    && (op_index (txin_prev_output i) =? COINBASE_OUTPOINT_INDEX)
  | _ => false
  end.

(** ** Values the wire format carries *)

Definition outpoint_wf (o : OutPoint) : Prop := hash_wf (op_hash o) ∧ is_u32 (op_index o).

Definition txin_wf (t : TxIn) : Prop :=
  outpoint_wf (txin_prev_output t) ∧ is_bytes (txin_unlock_script t)
  ∧ vec_ok 1 (txin_unlock_script t) ∧ is_u32 (txin_sequence t).

Definition txout_wf (t : TxOut) : Prop :=
  is_i64 (txout_satoshis t) ∧ is_bytes (txout_lock_script t)
  ∧ vec_ok 1 (txout_lock_script t).

Definition witness_data_wf (w : TxWitnessData) : Prop :=
  is_bytes (witness_data w) ∧ vec_ok 1 (witness_data w).

Definition witness_wf (w : TxWitness) : Prop :=
  Forall witness_data_wf (witness w) ∧ vec_ok 1 (witness w).

(** A transaction is either segwit (flag 1, one witness per input) or legacy (no
    flag, no witnesses, at least one input: zero inputs would read as segwit). *)
Definition tx_wf (t : Tx) : Prop :=
  is_u32 (tx_version t) ∧ is_u32 (tx_lock_time t)
  ∧ Forall txin_wf (tx_inputs t) ∧ vec_ok sizeof_TxIn (tx_inputs t)
  ∧ Forall txout_wf (tx_outputs t) ∧ vec_ok sizeof_TxOut (tx_outputs t)
  ∧ match tx_witnesses t with
    | Some ws => tx_flag t = Some 1 ∧ Forall witness_wf ws ∧ zlen ws = zlen (tx_inputs t)
    | None => tx_flag t = None ∧ tx_inputs t ≠ []
    end.

#[global] Instance outpoint_wf_dec o : Decision (outpoint_wf o).
Proof. unfold outpoint_wf. apply _. Defined.
#[global] Instance txin_wf_dec t : Decision (txin_wf t).
Proof. unfold txin_wf. apply _. Defined.
#[global] Instance txout_wf_dec t : Decision (txout_wf t).
Proof. unfold txout_wf. apply _. Defined.
#[global] Instance witness_data_wf_dec w : Decision (witness_data_wf w).
Proof. unfold witness_data_wf. apply _. Defined.
#[global] Instance witness_wf_dec w : Decision (witness_wf w).
Proof. unfold witness_wf. apply _. Defined.
#[global] Instance tx_wf_dec t : Decision (tx_wf t).
Proof. unfold tx_wf. destruct (tx_witnesses t); apply _. Defined.

(** ** Round trips *)

Lemma OutPoint_round_trip o rest e :
  outpoint_wf o → OutPoint_read (rdr (OutPoint_write o ++ rest) e) = (Ok o, rdr rest e).
Proof.
  intros [Hh Hi]. unfold OutPoint_read, OutPoint_write. destruct o.
  rewrite <- app_assoc. erewrite parser_bind_ok by (by apply Hash256_round_trip).
  by rt.
Qed.

Lemma TxIn_round_trip t rest e :
  txin_wf t → TxIn_read (rdr (TxIn_write t ++ rest) e) = (Ok t, rdr rest e).
Proof.
  intros (Ho & Hb & Hv%vec_ok_u64 & Hs); [|lia]. destruct t.
  unfold TxIn_read, TxIn_write. rewrite <- !app_assoc.
  erewrite parser_bind_ok by (by apply OutPoint_round_trip). by do 3 rt.
Qed.

Lemma TxOut_round_trip t rest e :
  txout_wf t → TxOut_read (rdr (TxOut_write t ++ rest) e) = (Ok t, rdr rest e).
Proof.
  intros (Ho & Hb & Hv%vec_ok_u64); [|lia]. destruct t.
  unfold TxOut_read, TxOut_write. rewrite <- !app_assoc. by do 3 rt.
Qed.

Lemma TxWitnessData_round_trip w rest e :
  witness_data_wf w →
  TxWitnessData_read (rdr (TxWitnessData_write w ++ rest) e) = (Ok w, rdr rest e).
Proof.
  intros (Hb & Hv%vec_ok_u64); [|lia]. destruct w.
  unfold TxWitnessData_read, TxWitnessData_write. rewrite <- !app_assoc. by do 2 rt.
Qed.

Lemma TxWitness_round_trip w rest e :
  witness_wf w → TxWitness_read (rdr (TxWitness_write w ++ rest) e) = (Ok w, rdr rest e).
Proof.
  intros (Hb & Hv%vec_ok_u64); [|lia]. destruct w.
  unfold TxWitness_read, TxWitness_write. rewrite <- !app_assoc. rt.
  by erewrite parser_bind_ok
    by (apply (read_list_ok _ TxWitnessData_write witness_data_wf);
        auto using TxWitnessData_round_trip).
Qed.

(** The version is written as a [u32] and read as an [i32]. *)
Lemma read_i32_of_u32 z rest e :
  is_u32 z → read_i32 (rdr (write_u32 z ++ rest) e) = (Ok (as_i32 z), rdr rest e).
Proof.
  intros. unfold read_i32, write_u32.
  by erewrite parser_bind_ok by (apply read_uint_ok; cbn; ints).
Qed.

Lemma read_txins_ok l rest e :
  Forall txin_wf l →
  read_times (Z.to_nat (zlen l)) TxIn_read (rdr (concat (map TxIn_write l) ++ rest) e)
  = (Ok l, rdr rest e).
Proof. intros. apply (read_list_ok _ TxIn_write txin_wf); auto using TxIn_round_trip. Qed.

Lemma read_txouts_ok l rest e :
  Forall txout_wf l →
  read_times (Z.to_nat (zlen l)) TxOut_read (rdr (concat (map TxOut_write l) ++ rest) e)
  = (Ok l, rdr rest e).
Proof. intros. apply (read_list_ok _ TxOut_write txout_wf); auto using TxOut_round_trip. Qed.

Lemma read_witnesses_ok l n rest e :
  Forall witness_wf l → zlen l = n →
  read_times (Z.to_nat n) TxWitness_read (rdr (concat (map TxWitness_write l) ++ rest) e)
  = (Ok l, rdr rest e).
Proof.
  intros ? <-. apply (read_list_ok _ TxWitness_write witness_wf);
    auto using TxWitness_round_trip.
Qed.

Lemma with_capacity_vec {E A} elem (l : list A) r :
  1 ≤ elem → vec_ok elem l → @with_capacity E elem (as_usize (zlen l)) r = (Ok tt, r).
Proof.
  intros He Hv. pose proof (vec_ok_u32 _ _ He Hv).
  rewrite as_usize_id by done. by apply with_capacity_ok.
Qed.

#[local] Hint Extern 1 (1 ≤ _) => done : wire.
#[local] Hint Resolve read_i32_of_u32 read_txins_ok read_txouts_ok read_witnesses_ok
  with_capacity_vec : wire.

Lemma Tx_round_trip t rest e :
  tx_wf t → Tx_read (rdr (Tx_write t ++ rest) e) = (Ok t, rdr rest e).
Proof.
  intros (Hver & Hlt & Hin & Hvin & Hout & Hvout & Hw).
  assert (is_u64 (zlen (tx_inputs t))) by (eapply vec_ok_u64, Hvin; done).
  assert (is_u64 (zlen (tx_outputs t))) by (eapply vec_ok_u64, Hvout; done).
  unfold Tx_read, Tx_write. destruct t as [v f ins outs ws lt]; cbn in *.
  destruct ws as [ws|]; rewrite <- !app_assoc; rt; rewrite as_u32_as_i32 by done.
  - destruct Hw as (-> & Hws & Hlen).
    change (write_u8 0) with (var_int_write 0).
    erewrite (parser_bind_ok (io var_int_read))
      by (apply io_ok, var_int_read_ok; ints).
    cbn [Z.eqb]. erewrite (parser_bind_ok (io read_u8)) by (apply io_ok, read_u8_ok; ints).
    cbn [Z.eqb Pos.eqb]. erewrite parser_bind_ok by (by apply with_capacity_ok).
    do 6 rt. by rt.
  - destruct Hw as (-> & Hne). rt.
    rewrite (proj2 (Z.eqb_neq _ _)) by (destruct ins; [done|]; rewrite zlen_cons;
      pose proof (zlen_nonneg ins); lia).
    by do 6 rt.
Qed.

(** ** Sizes *)

Lemma OutPoint_size_ok o : outpoint_wf o → OutPoint_size o = zlen (OutPoint_write o).
Proof.
  intros [Hh Hi]. unfold OutPoint_write.
  by rewrite zlen_app, Hash256_write_length, zlen_write_u32.
Qed.

Lemma TxIn_size_ok t : txin_wf t → TxIn_size t = zlen (TxIn_write t).
Proof.
  intros (Ho & Hb & Hv%vec_ok_u64 & Hs); [|lia]. unfold TxIn_size, TxIn_write.
  rewrite !zlen_app, <- OutPoint_size_ok, <- var_int_size_ok, zlen_write_bytes,
    zlen_write_u32 by done.
  unfold OutPoint_size. lia.
Qed.

Lemma TxOut_size_ok t : txout_wf t → TxOut_size t = zlen (TxOut_write t).
Proof.
  intros (Ho & Hb & Hv%vec_ok_u64); [|lia]. unfold TxOut_size, TxOut_write.
  rewrite !zlen_app, zlen_write_i64, <- var_int_size_ok, zlen_write_bytes by done. lia.
Qed.

Lemma TxWitnessData_size_ok w :
  witness_data_wf w → TxWitnessData_size w = zlen (TxWitnessData_write w).
Proof.
  intros (Hb & Hv%vec_ok_u64); [|lia]. unfold TxWitnessData_size, TxWitnessData_write.
  by rewrite !zlen_app, <- var_int_size_ok, zlen_write_bytes.
Qed.

Lemma TxWitness_size_ok w : witness_wf w → TxWitness_size w = zlen (TxWitness_write w).
Proof.
  intros (Hb & Hv%vec_ok_u64); [|lia]. unfold TxWitness_size, TxWitness_write.
  rewrite !zlen_app, <- var_int_size_ok by done.
  by rewrite (zlen_concat_map _ TxWitnessData_size witness_data_wf)
    by auto using TxWitnessData_size_ok.
Qed.

Lemma Tx_size_ok t : tx_wf t → Tx_size t = zlen (Tx_write t).
Proof.
  intros (Hver & Hlt & Hin & Hvin & Hout & Hvout & Hw).
  assert (is_u64 (zlen (tx_inputs t))) by (eapply vec_ok_u64, Hvin; done).
  assert (is_u64 (zlen (tx_outputs t))) by (eapply vec_ok_u64, Hvout; done).
  unfold Tx_size, Tx_write. destruct (tx_witnesses t) as [ws|];
    rewrite !zlen_app, !zlen_write_u32, <- !var_int_size_ok by done;
    rewrite (zlen_concat_map _ TxIn_size txin_wf) by auto using TxIn_size_ok;
    rewrite (zlen_concat_map _ TxOut_size txout_wf) by auto using TxOut_size_ok;
    [|lia].
  destruct Hw as (_ & Hws & _).
  rewrite (zlen_concat_map _ TxWitness_size witness_wf) by auto using TxWitness_size_ok.
  rewrite !zlen_write_u8 by ints. lia.
Qed.

#[export] Instance OutPoint_Serializable : Serializable OutPoint :=
  {| read := OutPoint_read; write := OutPoint_write |}.
#[export] Instance OutPoint_SerializableOk : SerializableOk OutPoint :=
  {| wf := outpoint_wf; round_trip := OutPoint_round_trip |}.
#[export] Instance TxIn_Serializable : Serializable TxIn :=
  {| read := TxIn_read; write := TxIn_write |}.
#[export] Instance TxIn_SerializableOk : SerializableOk TxIn :=
  {| wf := txin_wf; round_trip := TxIn_round_trip |}.
#[export] Instance TxOut_Serializable : Serializable TxOut :=
  {| read := TxOut_read; write := TxOut_write |}.
#[export] Instance TxOut_SerializableOk : SerializableOk TxOut :=
  {| wf := txout_wf; round_trip := TxOut_round_trip |}.
#[export] Instance TxWitness_Serializable : Serializable TxWitness :=
  {| read := TxWitness_read; write := TxWitness_write |}.
#[export] Instance TxWitness_SerializableOk : SerializableOk TxWitness :=
  {| wf := witness_wf; round_trip := TxWitness_round_trip |}.
#[export] Instance TxWitness_Payload : Payload TxWitness := {| size := TxWitness_size |}.
#[export] Instance TxWitness_PayloadOk : PayloadOk TxWitness := TxWitness_size_ok.
#[export] Instance Tx_Serializable : Serializable Tx :=
  {| read := Tx_read; write := Tx_write |}.
#[export] Instance Tx_SerializableOk : SerializableOk Tx :=
  {| wf := tx_wf; round_trip := Tx_round_trip |}.
#[export] Instance Tx_Payload : Payload Tx := {| size := Tx_size |}.
#[export] Instance Tx_PayloadOk : PayloadOk Tx := Tx_size_ok.

End Tx.

(** ** Properties *)

(** C15: a transaction, segwit or legacy, survives the wire: reading its encoding
    returns it and leaves what follows, and [size] is the length of the encoding. *)
Theorem tx_round_trip `{BO : ByteOrder} t rest e :
  tx_wf t →
  Tx_read (rdr (Tx_write t ++ rest) e) = (Ok t, rdr rest e)
  ∧ Tx_size t = zlen (Tx_write t).
Proof. intros. split; [by apply Tx_round_trip|by apply Tx_size_ok]. Qed.

(** A segwit transaction with one input and one output. *)
Definition example_tx : Tx :=
  MkTx 2 (Some 1) [MkTxIn (MkOutPoint COINBASE_OUTPOINT_HASH 3) [] 0xfffffffd]
    [MkTxOut 5000 [0; 20]] (Some [MkTxWitness [MkTxWitnessData [1; 2]]]) 100.

Lemma tx_round_trip_witness :
  @Tx_read std_byteorder (cursor (@Tx_write std_byteorder example_tx ++ [9]))
  = (Ok example_tx, cursor [9]) ∧ Tx_size example_tx = 68.
Proof. apply (@tx_round_trip std_byteorder example_tx [9] eof). by_eval. Defined.

(** A transaction that announces no inputs and a flag other than 1 makes the
    reader panic, whatever follows: remote data aborts the client instead of
    being rejected as bad data. *)
Theorem tx_bad_flag_panics `{BO : ByteOrder} version flag rest e :
  is_u32 version → is_u8 flag → flag ≠ 1 →
  ∃ msg r, Tx_read (rdr (write_u32 version ++ var_int_write 0 ++ write_u8 flag ++ rest) e)
           = (Panic msg, r).
Proof.
  intros Hv Hf Hne. eexists _, _. unfold Tx_read.
  erewrite parser_bind_ok by (by apply io_ok, read_i32_of_u32).
  erewrite parser_bind_ok by (apply io_ok, var_int_read_ok; ints).
  change (0 =? 0) with true. cbv iota.
  erewrite parser_bind_ok by (by apply io_ok, read_u8_ok).
  by rewrite (proj2 (Z.eqb_neq _ _)) by done.
Qed.

Lemma tx_bad_flag_panics_witness :
  ∃ msg r, @Tx_read std_byteorder (cursor [1; 0; 0; 0; 0; 2; 5]) = (Panic msg, r).
Proof. apply (@tx_bad_flag_panics std_byteorder 1 2 [5] eof); by_eval. Defined.
