(* ===== verification/BlockMsg.v ===== *)
(** * Blocks, headers, compact filters and locators on the wire
    ([node/src/messages/{block_header,block,headers,compact_filter,
    compact_filter_header,block_locator,filter_locator}.rs]) *)

From S2P Require Import Prelude Errors Io VarInt Hash256 TxMsg.

(** ** Data *)

Record BlockHeader := MkBlockHeader {
  bh_version : Z;
  bh_prev_hash : Hash256;
  bh_merkle_root : Hash256;
  bh_timestamp : Z;
  bh_bits : Z;
  bh_nonce : Z;
}.

Record Block := MkBlock { block_header : BlockHeader; block_txns : list Tx }.

Record Headers := MkHeaders { headers_inner : list BlockHeader }.

Record CompactFilter := MkCompactFilter {
  cf_filter_type : Z;
  cf_block_hash : Hash256;
  cf_filter_bytes : bytes;
}.

Record CompactFilterHeader := MkCompactFilterHeader {
  cfh_filter_type : Z;
  cfh_stop_hash : Hash256;
  cfh_previous_filter_header : Hash256;
  cfh_filter_hashes : list Hash256;
}.

Record BlockLocator := MkBlockLocator {
  bl_version : Z;
  bl_block_locator_hashes : list Hash256;
  bl_hash_stop : Hash256;
}.

Record FilterLocator := MkFilterLocator {
  fl_filter_type : Z;
  fl_start_height : Z;
  fl_hash_stop : Hash256;
}.

#[export] Instance BlockHeader_eq_dec : EqDecision BlockHeader.
Proof. solve_decision. Defined.
#[export] Instance Block_eq_dec : EqDecision Block.
Proof. solve_decision. Defined.
#[export] Instance Headers_eq_dec : EqDecision Headers.
Proof. solve_decision. Defined.
#[export] Instance CompactFilter_eq_dec : EqDecision CompactFilter.
Proof. solve_decision. Defined.
#[export] Instance CompactFilterHeader_eq_dec : EqDecision CompactFilterHeader.
Proof. solve_decision. Defined.
#[export] Instance BlockLocator_eq_dec : EqDecision BlockLocator.
Proof. solve_decision. Defined.
#[export] Instance FilterLocator_eq_dec : EqDecision FilterLocator.
Proof. solve_decision. Defined.

Definition BlockHeader_SIZE : Z := 80.
Definition NO_HASH_STOP : Hash256 := MkHash256 (replicate 32 0).
Definition PROTOCOL_VERSION : Z := 70015.
Definition MIN_SUPPORTED_PROTOCOL_VERSION : Z := 70001.

Section Block.
  Context `{BO : ByteOrder} `{SHA : Sha256}.

(** ** Block headers *)

Definition BlockHeader_read : parser Error BlockHeader :=
  version ← io read_u32;
  prev_hash ← Hash256_read;
  merkle_root ← Hash256_read;
  ts ← io read_u32;
  bits ← io read_u32;
  nonce ← io read_u32;
  mret (MkBlockHeader version prev_hash merkle_root ts bits nonce).

Definition BlockHeader_write (h : BlockHeader) : bytes :=
  write_u32 (bh_version h)
  ++ Hash256_write (bh_prev_hash h)
  ++ Hash256_write (bh_merkle_root h)
  ++ write_u32 (bh_timestamp h)
  ++ write_u32 (bh_bits h)
  ++ write_u32 (bh_nonce h).

Definition BlockHeader_size (h : BlockHeader) : Z := BlockHeader_SIZE.

Definition BlockHeader_hash (h : BlockHeader) : Hash256 :=
  sha256d (write_u32 (bh_version h)
           ++ Hash256_write (bh_prev_hash h)
           ++ Hash256_write (bh_merkle_root h)
           ++ write_u32 (bh_timestamp h)
           ++ write_u32 (bh_bits h)
           ++ write_u32 (bh_nonce h)).

(** The target: the three mantissa bytes placed at [exp - 1], [exp - 2] and
    [exp - 3] of a zeroed array. *)
Definition difficulty_target (h : BlockHeader) : outcome Error Hash256 :=
  let exp := Z.shiftr (bh_bits h) 24 in
  if negb ((3 <=? exp) && (exp <=? 32))
  then Err (BadArgument (str "Difficulty exponent out of range: " ++ dec (bh_bits h)))
  else
    let d0 := replicate 32 0 in
    let d1 := <[Z.to_nat (exp - 1) := Z.land (Z.shiftr (bh_bits h) 16) 0xff]> d0 in
    let d2 := <[Z.to_nat (exp - 2) := Z.land (Z.shiftr (bh_bits h) 8) 0xff]> d1 in
    let d3 := <[Z.to_nat (exp - 3) := Z.land (bh_bits h) 0xff]> d2 in
    Ok (MkHash256 d3).

(** The timestamps of the last eleven headers, sorted. *)
Definition last_timestamps (prev_headers : list BlockHeader) : list Z :=
  let n := length prev_headers in
  merge_sort Z.le (map bh_timestamp (drop (n - n `min` 11) prev_headers)).

Definition BlockHeader_validate (h : BlockHeader) (hash : Hash256)
    (prev_headers : list BlockHeader) : outcome Error unit :=
  let timestamps := last_timestamps prev_headers in
  if negb (bool_decide (prev_headers = []))
     && (bh_timestamp h <? nth (length timestamps / 2) timestamps 0)
  then Err (BadData (str "Timestamp is too old: " ++ dec (bh_timestamp h)))
  else
    target ← difficulty_target h;
    match Hash256_cmp hash target with
    | Gt => Err (BadData (str "Invalid POW"))
    | _ => Ok tt
    end.

(** ** Blocks *)

Definition Block_read : parser Error Block :=
  header ← BlockHeader_read;
  txn_count ← io var_int_read;
  with_capacity sizeof_Tx (as_usize txn_count) ≫= λ _,
  txns ← read_times (Z.to_nat txn_count) Tx_read;
  mret (MkBlock header txns).

Definition Block_write (b : Block) : bytes :=
  BlockHeader_write (block_header b)
  ++ var_int_write (zlen (block_txns b))
  ++ concat (map Tx_write (block_txns b)).

Definition Block_size (b : Block) : Z :=
  BlockHeader_SIZE + var_int_size (zlen (block_txns b))
  + foldr (λ t n, Tx_size t + n) 0 (block_txns b).

(** ** Headers messages *)

(** [let _ = p]: the result is dropped, an error too. *)
Definition ignore {E A} (p : parser E A) : parser Error unit := λ r,
  let '(m, r') := p r in
  (match m with Panic s => Panic s | _ => Ok tt end, r').

Definition Headers_read : parser Error Headers :=
  n ← io var_int_read;
  headers ← read_times (Z.to_nat n)
    (h ← BlockHeader_read; ignore read_u8 ≫= λ _, mret h);
  mret (MkHeaders headers).

Definition Headers_write (h : Headers) : bytes :=
  var_int_write (zlen (headers_inner h))
  ++ concat (map (λ header, BlockHeader_write header ++ write_u8 0) (headers_inner h)).

Definition Headers_size (h : Headers) : Z :=
  var_int_size (zlen (headers_inner h)) + (BlockHeader_SIZE + 1) * zlen (headers_inner h).

(** The hash of the header at an index, from the next header if there is one. *)
Definition header_hash (i : Z) (headers : list BlockHeader) : outcome Error Hash256 :=
  next ← add_u32 i 1;
  if next <? zlen headers then
    h ← unwrap_opt "index out of bounds" (headers !! Z.to_nat next);
    Ok (bh_prev_hash h)
  else if next =? zlen headers then
    h ← unwrap_opt "index out of bounds" (headers !! Z.to_nat i);
    Ok (BlockHeader_hash h)
  else Err (BadArgument (str "Index out of range")).

(** ** Compact filters *)

Definition CompactFilter_read : parser Error CompactFilter :=
  filter_type ← io read_u8;
  block_hash ← Hash256_read;
  filter_len ← io var_int_read;
  filter_bytes ← read_times (Z.to_nat filter_len) (io read_u8);
  mret (MkCompactFilter filter_type block_hash filter_bytes).

Definition CompactFilter_write (c : CompactFilter) : bytes :=
  write_u8 (cf_filter_type c)
  ++ Hash256_write (cf_block_hash c)
  ++ var_int_write (zlen (cf_filter_bytes c))
  ++ concat (map write_u8 (cf_filter_bytes c)).

Definition CompactFilter_size (c : CompactFilter) : Z :=
  1 + 32 + var_int_size (zlen (cf_filter_bytes c)) + zlen (cf_filter_bytes c).

Definition CompactFilterHeader_read : parser Error CompactFilterHeader :=
  filter_type ← io read_u8;
  stop_hash ← Hash256_read;
  previous_filter_header ← Hash256_read;
  filter_len ← io var_int_read;
  filter_hashes ← read_times (Z.to_nat filter_len) Hash256_read;
  mret (MkCompactFilterHeader filter_type stop_hash previous_filter_header filter_hashes).

Definition CompactFilterHeader_write (c : CompactFilterHeader) : bytes :=
  write_u8 (cfh_filter_type c)
  ++ Hash256_write (cfh_stop_hash c)
  ++ Hash256_write (cfh_previous_filter_header c)
  ++ var_int_write (zlen (cfh_filter_hashes c))
  ++ concat (map Hash256_write (cfh_filter_hashes c)).

Definition CompactFilterHeader_size (c : CompactFilterHeader) : Z :=
  1 + 32 + 32 + var_int_size (zlen (cfh_filter_hashes c))
  + zlen (cfh_filter_hashes c) * 32.

(** ** Locators *)

Definition BlockLocator_read : parser Error BlockLocator :=
  version ← io read_u32;
  num_hashes ← io var_int_read;
  block_locator_hashes ← read_times (Z.to_nat num_hashes) Hash256_read;
  hash_stop ← Hash256_read;
  mret (MkBlockLocator version block_locator_hashes hash_stop).

Definition BlockLocator_write (b : BlockLocator) : bytes :=
  write_u32 (bl_version b)
  ++ var_int_write (zlen (bl_block_locator_hashes b))
  ++ concat (map Hash256_write (bl_block_locator_hashes b))
  ++ Hash256_write (bl_hash_stop b).

Definition BlockLocator_size (b : BlockLocator) : Z :=
  4 + var_int_size (zlen (bl_block_locator_hashes b))
  + zlen (bl_block_locator_hashes b) * 32 + 32.

Definition BlockLocator_validate (b : BlockLocator) : outcome Error unit :=
  if bl_version b <? MIN_SUPPORTED_PROTOCOL_VERSION
  then Err (BadData (str "Unsupported protocol version: " ++ dec (bl_version b)))
  else Ok tt.

Definition FilterLocator_read : parser Error FilterLocator :=
  filter_type ← io read_u8;
  start_height ← io read_u32;
  hash_stop ← Hash256_read;
  mret (MkFilterLocator filter_type start_height hash_stop).

Definition FilterLocator_write (f : FilterLocator) : bytes :=
  write_u8 (fl_filter_type f)
  ++ write_u32 (fl_start_height f)
  ++ Hash256_write (fl_hash_stop f).

Definition FilterLocator_size (f : FilterLocator) : Z := 1 + 4 + 32.

(** ** Values the wire format carries *)

Definition block_header_wf (h : BlockHeader) : Prop :=
  is_u32 (bh_version h) ∧ hash_wf (bh_prev_hash h) ∧ hash_wf (bh_merkle_root h)
  ∧ is_u32 (bh_timestamp h) ∧ is_u32 (bh_bits h) ∧ is_u32 (bh_nonce h).

Definition block_wf (b : Block) : Prop :=
  block_header_wf (block_header b) ∧ Forall tx_wf (block_txns b)
  ∧ vec_ok sizeof_Tx (block_txns b).

Definition headers_wf (h : Headers) : Prop :=
  Forall block_header_wf (headers_inner h) ∧ vec_ok 1 (headers_inner h).

Definition compact_filter_wf (c : CompactFilter) : Prop :=
  is_u8 (cf_filter_type c) ∧ hash_wf (cf_block_hash c)
  ∧ is_bytes (cf_filter_bytes c) ∧ vec_ok 1 (cf_filter_bytes c).

Definition compact_filter_header_wf (c : CompactFilterHeader) : Prop :=
  is_u8 (cfh_filter_type c) ∧ hash_wf (cfh_stop_hash c)
  ∧ hash_wf (cfh_previous_filter_header c)
  ∧ Forall hash_wf (cfh_filter_hashes c) ∧ vec_ok 1 (cfh_filter_hashes c).

Definition block_locator_wf (b : BlockLocator) : Prop :=
  is_u32 (bl_version b) ∧ Forall hash_wf (bl_block_locator_hashes b)
  ∧ vec_ok 1 (bl_block_locator_hashes b) ∧ hash_wf (bl_hash_stop b).

Definition filter_locator_wf (f : FilterLocator) : Prop :=
  is_u8 (fl_filter_type f) ∧ is_u32 (fl_start_height f) ∧ hash_wf (fl_hash_stop f).

#[global] Instance block_header_wf_dec h : Decision (block_header_wf h).
Proof. unfold block_header_wf. apply _. Defined.
#[global] Instance block_wf_dec b : Decision (block_wf b).
Proof. unfold block_wf. apply _. Defined.
#[global] Instance headers_wf_dec h : Decision (headers_wf h).
Proof. unfold headers_wf. apply _. Defined.
#[global] Instance compact_filter_wf_dec c : Decision (compact_filter_wf c).
Proof. unfold compact_filter_wf. apply _. Defined.
#[global] Instance compact_filter_header_wf_dec c : Decision (compact_filter_header_wf c).
Proof. unfold compact_filter_header_wf. apply _. Defined.
#[global] Instance block_locator_wf_dec b : Decision (block_locator_wf b).
Proof. unfold block_locator_wf. apply _. Defined.
#[global] Instance filter_locator_wf_dec f : Decision (filter_locator_wf f).
Proof. unfold filter_locator_wf. apply _. Defined.

(** ** Round trips *)

Lemma read_hashes_ok l rest e :
  Forall hash_wf l →
  read_times (Z.to_nat (zlen l)) Hash256_read (rdr (concat (map Hash256_write l) ++ rest) e)
  = (Ok l, rdr rest e).
Proof.
  intros. apply (read_list_ok _ Hash256_write hash_wf); auto using Hash256_round_trip.
Qed.

#[local] Hint Resolve Hash256_round_trip read_hashes_ok with_capacity_vec : wire.
#[local] Hint Extern 1 (1 ≤ _) => done : wire.

Lemma BlockHeader_round_trip h rest e :
  block_header_wf h →
  BlockHeader_read (rdr (BlockHeader_write h ++ rest) e) = (Ok h, rdr rest e).
Proof.
  intros (?&?&?&?&?&?). destruct h. unfold BlockHeader_read, BlockHeader_write.
  rewrite <- !app_assoc. by do 6 rt.
Qed.

Lemma Block_round_trip b rest e :
  block_wf b → Block_read (rdr (Block_write b ++ rest) e) = (Ok b, rdr rest e).
Proof.
  intros (Hh & Htx & Hv). assert (is_u64 (zlen (block_txns b)))
    by (eapply vec_ok_u64, Hv; done).
  destruct b. unfold Block_read, Block_write. rewrite <- !app_assoc.
  erewrite parser_bind_ok by (by apply BlockHeader_round_trip). do 2 rt.
  by erewrite parser_bind_ok by (apply (read_list_ok _ Tx_write tx_wf);
    auto using Tx_round_trip).
Qed.

Lemma Headers_round_trip h rest e :
  headers_wf h → Headers_read (rdr (Headers_write h ++ rest) e) = (Ok h, rdr rest e).
Proof.
  intros (Hh & Hv%vec_ok_u64); [|lia]. destruct h.
  unfold Headers_read, Headers_write. rewrite <- !app_assoc. rt.
  erewrite parser_bind_ok; [done|].
  apply (read_list_ok _ (λ header, BlockHeader_write header ++ write_u8 0) block_header_wf);
    [done|]. intros x rest' Hx. rewrite <- app_assoc.
  erewrite parser_bind_ok by (by apply BlockHeader_round_trip).
  erewrite parser_bind_ok; [done|]. unfold ignore. by rewrite read_u8_ok by ints.
Qed.

Lemma CompactFilter_round_trip c rest e :
  compact_filter_wf c →
  CompactFilter_read (rdr (CompactFilter_write c ++ rest) e) = (Ok c, rdr rest e).
Proof.
  intros (?&?&?&Hv%vec_ok_u64); [|lia]. destruct c.
  unfold CompactFilter_read, CompactFilter_write. rewrite <- !app_assoc. by do 4 rt.
Qed.

Lemma CompactFilterHeader_round_trip c rest e :
  compact_filter_header_wf c →
  CompactFilterHeader_read (rdr (CompactFilterHeader_write c ++ rest) e)
  = (Ok c, rdr rest e).
Proof.
  intros (?&?&?&?&Hv%vec_ok_u64); [|lia]. destruct c.
  unfold CompactFilterHeader_read, CompactFilterHeader_write. rewrite <- !app_assoc.
  by do 5 rt.
Qed.

Lemma BlockLocator_round_trip b rest e :
  block_locator_wf b →
  BlockLocator_read (rdr (BlockLocator_write b ++ rest) e) = (Ok b, rdr rest e).
Proof.
  intros (?&?&Hv%vec_ok_u64&?); [|lia]. destruct b.
  unfold BlockLocator_read, BlockLocator_write. rewrite <- !app_assoc. by do 4 rt.
Qed.

Lemma FilterLocator_round_trip f rest e :
  filter_locator_wf f →
  FilterLocator_read (rdr (FilterLocator_write f ++ rest) e) = (Ok f, rdr rest e).
Proof.
  intros (?&?&?). destruct f.
  unfold FilterLocator_read, FilterLocator_write. rewrite <- !app_assoc. by do 3 rt.
Qed.

(** ** Sizes *)

Lemma zlen_hashes l : Forall hash_wf l → zlen (concat (map Hash256_write l)) = zlen l * 32.
Proof.
  induction 1 as [|h l Hh Hl IH]; [done|]. cbn [map concat].
  rewrite zlen_app, zlen_cons, IH, Hash256_write_length by done. lia.
Qed.

Lemma BlockHeader_size_ok h : block_header_wf h → zlen (BlockHeader_write h) = 80.
Proof.
  intros (?&?&?&?&?&?). unfold BlockHeader_write.
  by rewrite !zlen_app, !zlen_write_u32, !Hash256_write_length.
Qed.

Lemma Block_size_ok b : block_wf b → Block_size b = zlen (Block_write b).
Proof.
  intros (Hh & Htx & Hv). assert (is_u64 (zlen (block_txns b)))
    by (eapply vec_ok_u64, Hv; done).
  unfold Block_size, Block_write.
  rewrite !zlen_app, BlockHeader_size_ok, <- var_int_size_ok by done.
  rewrite (zlen_concat_map _ Tx_size tx_wf) by auto using Tx_size_ok.
  unfold BlockHeader_SIZE. lia.
Qed.

Lemma Headers_size_ok h : headers_wf h → Headers_size h = zlen (Headers_write h).
Proof.
  intros (Hh & Hv%vec_ok_u64); [|lia]. unfold Headers_size, Headers_write.
  rewrite zlen_app, <- var_int_size_ok by done. f_equal. clear Hv.
  induction Hh as [|x l Hx Hl IH]; [done|]. cbn [map concat].
  rewrite !zlen_app, zlen_cons, <- IH, BlockHeader_size_ok, zlen_write_u8 by (done || ints).
  unfold BlockHeader_SIZE. lia.
Qed.

Lemma CompactFilter_size_ok c :
  compact_filter_wf c → CompactFilter_size c = zlen (CompactFilter_write c).
Proof.
  intros (?&?&?&Hv%vec_ok_u64); [|lia]. unfold CompactFilter_size, CompactFilter_write.
  rewrite !zlen_app, zlen_write_u8, Hash256_write_length, <- var_int_size_ok,
    zlen_write_bytes by done. lia.
Qed.

Lemma CompactFilterHeader_size_ok c :
  compact_filter_header_wf c →
  CompactFilterHeader_size c = zlen (CompactFilterHeader_write c).
Proof.
  intros (?&?&?&?&Hv%vec_ok_u64); [|lia].
  unfold CompactFilterHeader_size, CompactFilterHeader_write.
  rewrite !zlen_app, zlen_write_u8, !Hash256_write_length, <- var_int_size_ok,
    zlen_hashes by done. lia.
Qed.

Lemma BlockLocator_size_ok b :
  block_locator_wf b → BlockLocator_size b = zlen (BlockLocator_write b).
Proof.
  intros (?&?&Hv%vec_ok_u64&?); [|lia]. unfold BlockLocator_size, BlockLocator_write.
  rewrite !zlen_app, zlen_write_u32, Hash256_write_length, <- var_int_size_ok,
    zlen_hashes by done. lia.
Qed.

Lemma FilterLocator_size_ok f :
  filter_locator_wf f → FilterLocator_size f = zlen (FilterLocator_write f).
Proof.
  intros (?&?&?). unfold FilterLocator_size, FilterLocator_write.
  by rewrite !zlen_app, zlen_write_u8, zlen_write_u32, Hash256_write_length.
Qed.

(** ** Proof of work *)

Lemma le_value_replicate n : le_value (replicate n 0) = 0.
Proof. induction n; cbn [replicate le_value]; lia. Qed.

Lemma le_value_insert l i x y :
  l !! i = Some y →
  le_value (<[i := x]> l) = le_value l + 256 ^ Z.of_nat i * (x - y).
Proof.
  revert i. induction l as [|b l IH]; intros [|i] Hi; try done.
  - injection Hi as ->. cbn [insert list_insert le_value]. rewrite Z.pow_0_r. lia.
  - change (b + 256 * le_value (<[i := x]> l)
      = b + 256 * le_value l + 256 ^ Z.of_nat (S i) * (x - y)). rewrite (IH i Hi).
    rewrite Nat2Z.inj_succ, Z.pow_succ_r by lia. lia.
Qed.

Lemma land_ff z : Z.land z 0xff = z mod 256.
Proof. apply (Z.land_ones z 8). lia. Qed.

(** The target is the mantissa times [256 ^ (exp - 3)], as a 256-bit hash. *)
Lemma difficulty_target_value h :
  is_u32 (bh_bits h) → 3 ≤ bh_bits h / 2 ^ 24 ≤ 32 →
  ∃ t, difficulty_target h = Ok t ∧ hash_wf t
    ∧ le_value (hash_bytes t)
      = bh_bits h mod 2 ^ 24 * 256 ^ (bh_bits h / 2 ^ 24 - 3).
Proof.
  intros Hb Hexp. unfold difficulty_target. rewrite Z.shiftr_div_pow2 by lia.
  set (e := bh_bits h / 2 ^ 24) in *.
  rewrite (proj2 (Z.leb_le 3 e)), (proj2 (Z.leb_le e 32)) by lia. cbn [negb andb].
  eexists. split; [done|]. rewrite !land_ff, !Z.shiftr_div_pow2 by lia.
  split; [split|].
  - cbn [hash_bytes]. by rewrite !length_insert, length_replicate.
  - cbn [hash_bytes]. repeat apply Forall_insert;
      try (unfold is_u8; apply Z.mod_pos_bound; lia).
    apply Forall_replicate. ints.
  - cbn [hash_bytes]. set (n := Z.to_nat (e - 3)).
    replace (Z.to_nat (e - 1)) with (S (S n)) by lia.
    replace (Z.to_nat (e - 2)) with (S n) by lia.
    rewrite (le_value_insert _ n _ 0), (le_value_insert _ (S n) _ 0),
      (le_value_insert _ (S (S n)) _ 0), le_value_replicate;
      rewrite ?list_lookup_insert_ne, ?lookup_replicate_2 by lia; try done.
    rewrite !Nat2Z.inj_succ, !Z.pow_succ_r by lia.
    replace (Z.of_nat n) with (e - 3) by lia. generalize (256 ^ (e - 3)). intros P.
    assert (Hm : bh_bits h mod 2 ^ 24 = bh_bits h mod 256
      + 256 * ((bh_bits h / 2 ^ 8) mod 256) + 65536 * ((bh_bits h / 2 ^ 16) mod 256)).
    { change (2 ^ 24) with 16777216. change (2 ^ 8) with 256. change (2 ^ 16) with 65536.
      clear. Z.to_euclidean_division_equations. lia. }
    rewrite Hm. lia.
Qed.

(** ** The median of the last timestamps *)

Lemma last_timestamps_perm prev :
  last_timestamps prev ≡ₚ map bh_timestamp (drop (length prev - length prev `min` 11) prev).
Proof. unfold last_timestamps. apply merge_sort_Permutation. Qed.

Lemma last_timestamps_length prev :
  length (last_timestamps prev) = (length prev `min` 11)%nat.
Proof.
  rewrite last_timestamps_perm, length_map, length_drop. lia.
Qed.

Lemma last_timestamps_sorted prev : StronglySorted Z.le (last_timestamps prev).
Proof. unfold last_timestamps. apply StronglySorted_merge_sort; [apply _..]. Qed.

(** In a sorted list, the elements above index [i] are not smaller. *)
Lemma sorted_nth_le l i x :
  StronglySorted Z.le l → (i < length l)%nat → x < nth i l 0 →
  (length l - i ≤ length (filter (λ y, (x < y)%Z) l))%nat.
Proof.
  intros Hs. revert i. induction Hs as [|y l Hs IH Hall]; intros i Hi Hx; [cbn in Hi; lia|].
  destruct i as [|i]; cbn in Hi, Hx; rewrite filter_cons.
  - rewrite decide_True by lia. cbn [length]. rewrite filter_all; [lia|].
    eapply Forall_impl; [exact Hall|]. cbn. lia.
  - specialize (IH i ltac:(lia) Hx). case_decide; cbn [length]; lia.
Qed.

Lemma sorted_nth_gt l i x :
  StronglySorted Z.le l → (i < length l)%nat → nth i l 0 ≤ x →
  (length (filter (λ y, (x < y)%Z) l) < length l - i)%nat.
Proof.
  intros Hs. revert i. induction Hs as [|y l Hs IH Hall]; intros i Hi Hx; [cbn in Hi; lia|].
  destruct i as [|i]; cbn in Hi, Hx; rewrite filter_cons.
  - rewrite decide_False by lia. pose proof (length_filter (λ y, x < y) l). cbn. lia.
  - specialize (IH i ltac:(lia) Hx). rewrite decide_False; [cbn; lia|]. intros Hlt.
    destruct (lookup_lt_is_Some_2 l i) as [z Hz]; [lia|].
    rewrite (nth_lookup_Some _ _ _ _ Hz) in Hx.
    pose proof (Forall_lookup_1 _ _ _ _ Hall Hz). cbn in *. lia.
Qed.

(** The headers whose timestamps the median is taken of. *)
Definition last_headers (prev : list BlockHeader) : list BlockHeader :=
  drop (length prev - length prev `min` 11) prev.

(** How many of them are strictly later than [t]. *)
Definition later_headers (t : Z) (prev : list BlockHeader) : nat :=
  length (filter (λ h, t < bh_timestamp h) (last_headers prev)).

Lemma filter_map_timestamps t hs :
  length (filter (λ y, t < y) (map bh_timestamp hs))
  = length (filter (λ h, t < bh_timestamp h) hs).
Proof.
  induction hs as [|h hs IH]; [done|]. cbn [map]. rewrite !filter_cons.
  by case_decide; cbn; rewrite IH.
Qed.

Lemma too_old_iff t prev :
  prev ≠ [] →
  t < nth (length (last_timestamps prev) / 2) (last_timestamps prev) 0
  ↔ (length prev `min` 11 - (length prev `min` 11) / 2 ≤ later_headers t prev)%nat.
Proof.
  intros Hne.
  assert (later_headers t prev = length (filter (λ y, t < y) (last_timestamps prev))) as ->.
  { unfold later_headers. by rewrite <- filter_map_timestamps, last_timestamps_perm. }
  assert (0 < length prev)%nat by (destruct prev; [done|cbn; lia]).
  rewrite <- last_timestamps_length.
  set (ts := last_timestamps prev).
  assert (length ts / 2 < length ts)%nat.
  { apply Nat.div_lt; [|lia]. subst ts. rewrite last_timestamps_length. lia. }
  pose proof (last_timestamps_sorted prev) as Hs. fold ts in Hs.
  destruct (Z.lt_ge_cases t (nth (length ts / 2) ts 0)) as [Hlt|Hge].
  - split; [|done]. intros _. by apply sorted_nth_le.
  - pose proof (sorted_nth_gt ts _ t Hs ltac:(done) Hge). split; lia.
Qed.

(** ** Instances *)

#[export] Instance BlockHeader_Serializable : Serializable BlockHeader :=
  {| read := BlockHeader_read; write := BlockHeader_write |}.
#[export] Instance BlockHeader_SerializableOk : SerializableOk BlockHeader :=
  {| wf := block_header_wf; round_trip := BlockHeader_round_trip |}.
#[export] Instance Block_Serializable : Serializable Block :=
  {| read := Block_read; write := Block_write |}.
#[export] Instance Block_SerializableOk : SerializableOk Block :=
  {| wf := block_wf; round_trip := Block_round_trip |}.
#[export] Instance Block_Payload : Payload Block := {| size := Block_size |}.
#[export] Instance Block_PayloadOk : PayloadOk Block := Block_size_ok.
#[export] Instance Headers_Serializable : Serializable Headers :=
  {| read := Headers_read; write := Headers_write |}.
#[export] Instance Headers_SerializableOk : SerializableOk Headers :=
  {| wf := headers_wf; round_trip := Headers_round_trip |}.
#[export] Instance Headers_Payload : Payload Headers := {| size := Headers_size |}.
#[export] Instance Headers_PayloadOk : PayloadOk Headers := Headers_size_ok.
#[export] Instance CompactFilter_Serializable : Serializable CompactFilter :=
  {| read := CompactFilter_read; write := CompactFilter_write |}.
#[export] Instance CompactFilter_SerializableOk : SerializableOk CompactFilter :=
  {| wf := compact_filter_wf; round_trip := CompactFilter_round_trip |}.
#[export] Instance CompactFilter_Payload : Payload CompactFilter :=
  {| size := CompactFilter_size |}.
#[export] Instance CompactFilter_PayloadOk : PayloadOk CompactFilter :=
  CompactFilter_size_ok.
#[export] Instance CompactFilterHeader_Serializable : Serializable CompactFilterHeader :=
  {| read := CompactFilterHeader_read; write := CompactFilterHeader_write |}.
#[export] Instance CompactFilterHeader_SerializableOk
  : SerializableOk CompactFilterHeader :=
  {| wf := compact_filter_header_wf; round_trip := CompactFilterHeader_round_trip |}.
#[export] Instance CompactFilterHeader_Payload : Payload CompactFilterHeader :=
  {| size := CompactFilterHeader_size |}.
#[export] Instance CompactFilterHeader_PayloadOk : PayloadOk CompactFilterHeader :=
  CompactFilterHeader_size_ok.
#[export] Instance BlockLocator_Serializable : Serializable BlockLocator :=
  {| read := BlockLocator_read; write := BlockLocator_write |}.
#[export] Instance BlockLocator_SerializableOk : SerializableOk BlockLocator :=
  {| wf := block_locator_wf; round_trip := BlockLocator_round_trip |}.
#[export] Instance BlockLocator_Payload : Payload BlockLocator :=
  {| size := BlockLocator_size |}.
#[export] Instance BlockLocator_PayloadOk : PayloadOk BlockLocator := BlockLocator_size_ok.
#[export] Instance FilterLocator_Serializable : Serializable FilterLocator :=
  {| read := FilterLocator_read; write := FilterLocator_write |}.
#[export] Instance FilterLocator_SerializableOk : SerializableOk FilterLocator :=
  {| wf := filter_locator_wf; round_trip := FilterLocator_round_trip |}.
#[export] Instance FilterLocator_Payload : Payload FilterLocator :=
  {| size := FilterLocator_size |}.
#[export] Instance FilterLocator_PayloadOk : PayloadOk FilterLocator :=
  FilterLocator_size_ok.

(** ** Properties *)

(** C20: header validation accepts a header exactly when fewer than half of the
    last (at most eleven) headers are strictly later than it, so a timestamp equal to
    their median is accepted, which the comment in the source excludes; the exponent of
    its compact target is in [3, 32] and its hash, read as a 256-bit
    little-endian number, is at most the target
    [mantissa * 256 ^ (exponent - 3)]. *)
Theorem header_validate_spec h hash prev :
  is_u32 (bh_bits h) → hash_wf hash →
  BlockHeader_validate h hash prev = Ok tt ↔
    (prev ≠ [] →
      (later_headers (bh_timestamp h) prev
       < length prev `min` 11 - (length prev `min` 11) / 2)%nat)
    ∧ 3 ≤ bh_bits h / 2 ^ 24 ≤ 32
    ∧ le_value (hash_bytes hash)
      ≤ bh_bits h mod 2 ^ 24 * 256 ^ (bh_bits h / 2 ^ 24 - 3).
Proof.
  intros Hb [Hlen Hbytes]. unfold BlockHeader_validate.
  destruct (decide (prev ≠ [] ∧ bh_timestamp h
    < nth (length (last_timestamps prev) / 2) (last_timestamps prev) 0)) as [[Hne Hold]|Hn].
  { rewrite bool_decide_eq_false_2, (proj2 (Z.ltb_lt _ _)) by done. cbn [negb andb].
    apply too_old_iff in Hold; [|done]. split; [done|]. intros [H _].
    specialize (H Hne). lia. }
  replace (negb _ && _) with false.
  2:{ symmetry. apply andb_false_iff. destruct (decide (prev = [])) as [->|Hne]; [by left|].
      right. apply Z.ltb_ge. apply Z.nlt_ge. tauto. }
  transitivity (3 ≤ bh_bits h / 2 ^ 24 ≤ 32 ∧ le_value (hash_bytes hash)
    ≤ bh_bits h mod 2 ^ 24 * 256 ^ (bh_bits h / 2 ^ 24 - 3)).
  2:{ split; [|tauto]. intros ?. split; [|done]. intros Hne.
      apply Nat.nle_gt. intros ?%(too_old_iff _ _ Hne). tauto. }
  destruct (decide (3 ≤ bh_bits h / 2 ^ 24 ≤ 32)) as [Hexp|Hexp].
  - destruct (difficulty_target_value h Hb Hexp) as (t & Ht & [Htl Htb] & Hv).
    rewrite Ht, <- Hv. unfold mbind, outcome_bind, Hash256_cmp.
    rewrite cmp_below_spec by (done || lia). rewrite !take_ge by lia.
    destruct (Z.compare_spec (le_value (hash_bytes hash)) (le_value (hash_bytes t)));
      (split; [intros ?; first [discriminate | split; [done|lia]]
              | intros [_ ?]; first [done | exfalso; lia]]).
  - unfold difficulty_target. rewrite Z.shiftr_div_pow2 by lia.
    set (e := bh_bits h / 2 ^ 24) in *.
    replace ((3 <=? e) && (e <=? 32)) with false; [cbn; split; [done|tauto]|].
    symmetry. apply andb_false_iff. rewrite !Z.leb_gt. lia.
Qed.

End Block.

(** The genesis header of the main network, with an empty hash. *)
Definition example_header : BlockHeader :=
  MkBlockHeader 1 NO_HASH_STOP NO_HASH_STOP 1231006505 0x1d00ffff 2083236893.

Lemma header_validate_spec_witness :
  BlockHeader_validate example_header NO_HASH_STOP [example_header] = Ok tt.
Proof.
  apply (header_validate_spec example_header NO_HASH_STOP [example_header]);
    [by_eval..|].
  split; [intros _; by_eval|]. split; [split; by_eval|by_eval].
Defined.

(** A [cfheaders] payload of 74 bytes (a 65-byte head and a nine-byte count,
    no hash behind it) is accepted with as many hashes as the count says, up to
    [2^64 - 1]: reading a hash at the end of the payload succeeds with zeros, so
    nothing bounds the memory the reader takes. *)
Theorem cfheaders_unbounded `{BO : ByteOrder} t stop prev n :
  is_u8 t → hash_wf stop → hash_wf prev → is_u64 n →
  (CompactFilterHeader_read
     (cursor (write_u8 t ++ Hash256_write stop ++ Hash256_write prev ++ var_int_write n))).1
  = Ok (MkCompactFilterHeader t stop prev (replicate (Z.to_nat n) NO_HASH_STOP)).
Proof.
  intros Ht Hs Hp Hn. unfold CompactFilterHeader_read, cursor.
  erewrite parser_bind_ok by (by apply io_ok, read_u8_ok).
  erewrite parser_bind_ok by (by apply Hash256_round_trip).
  erewrite parser_bind_ok by (by apply Hash256_round_trip).
  rewrite <- (app_nil_r (var_int_write n)).
  erewrite parser_bind_ok by (by apply io_ok, var_int_read_ok).
  erewrite parser_bind_ok by (apply (read_times_const _ NO_HASH_STOP), Hash256_read_cursor).
  done.
Qed.

Lemma cfheaders_unbounded_witness :
  (@CompactFilterHeader_read std_byteorder
     (cursor ([0] ++ replicate 64 0 ++ [3]))).1
  = Ok (MkCompactFilterHeader 0 NO_HASH_STOP NO_HASH_STOP
          [NO_HASH_STOP; NO_HASH_STOP; NO_HASH_STOP]).
Proof.
  apply (@cfheaders_unbounded std_byteorder 0 NO_HASH_STOP NO_HASH_STOP 3); by_eval.
Defined.

(** Blocks and headers messages survive the wire, and the size announced in
    the message header is the length of the payload. *)
Theorem block_headers_round_trip `{BO : ByteOrder} b hs rest e :
  block_wf b → headers_wf hs →
  (Block_read (rdr (Block_write b ++ rest) e) = (Ok b, rdr rest e)
   ∧ Block_size b = zlen (Block_write b))
  ∧ (Headers_read (rdr (Headers_write hs ++ rest) e) = (Ok hs, rdr rest e)
     ∧ Headers_size hs = zlen (Headers_write hs)).
Proof.
  intros Hb Hh. repeat split; auto using Block_round_trip, Block_size_ok,
    Headers_round_trip, Headers_size_ok.
Qed.

Lemma block_headers_round_trip_witness :
  @Headers_read std_byteorder
    (cursor (@Headers_write std_byteorder (MkHeaders [example_header]) ++ [1]))
  = (Ok (MkHeaders [example_header]), cursor [1]).
Proof.
  refine (proj1 (proj2 (@block_headers_round_trip std_byteorder
    (MkBlock example_header [example_tx]) (MkHeaders [example_header]) [1] eof _ _)));
    by_eval.
Defined.
