(* ===== verification/NetMsg.v ===== *)
(** * Peer-to-peer payloads: addresses, version, ping, reject, inventories
    ([node/src/messages/{node_addr,node_addr_ex,addr,version,ping,reject,
    send_cmpct,inv_vect,inv}.rs]) *)

From S2P Require Import Prelude Errors Io VarInt Hash256 TxMsg BlockMsg.

(** ** Data *)

(** An [Ipv6Addr] is its 16 octets. *)
Record NodeAddr := MkNodeAddr { na_services : Z; na_ip : bytes; na_port : Z }.

Inductive IpAddr := IpV4 (a b c d : Z) | IpV6 (octets : bytes).

Record NodeAddrEx := MkNodeAddrEx { nax_last_connected_time : Z; nax_addr : NodeAddr }.

Record Addr := MkAddr { addr_addrs : list NodeAddrEx }.

Record Version := MkVersion {
  ver_version : Z;
  ver_services : Z;
  ver_timestamp : Z;
  ver_recv_addr : NodeAddr;
  ver_tx_addr : NodeAddr;
  ver_nonce : Z;
  ver_user_agent : bytes;
  ver_start_height : Z;
  ver_relay : bool;
}.

Record Ping := MkPing { ping_nonce : Z }.

Record Reject := MkReject {
  rej_message : bytes;
  rej_code : Z;
  rej_reason : bytes;
  rej_data : bytes;
}.

Record SendCmpct := MkSendCmpct { sc_enable : Z; sc_version : Z }.

Record InvVect := MkInvVect { iv_obj_type : Z; iv_hash : Hash256 }.

Record Inv := MkInv { inv_objects : list InvVect }.

#[export] Instance NodeAddr_eq_dec : EqDecision NodeAddr.
Proof. solve_decision. Defined.
#[export] Instance NodeAddrEx_eq_dec : EqDecision NodeAddrEx.
Proof. solve_decision. Defined.
#[export] Instance Addr_eq_dec : EqDecision Addr.
Proof. solve_decision. Defined.
#[export] Instance Version_eq_dec : EqDecision Version.
Proof. solve_decision. Defined.
#[export] Instance Ping_eq_dec : EqDecision Ping.
Proof. solve_decision. Defined.
#[export] Instance Reject_eq_dec : EqDecision Reject.
Proof. solve_decision. Defined.
#[export] Instance SendCmpct_eq_dec : EqDecision SendCmpct.
Proof. solve_decision. Defined.
#[export] Instance InvVect_eq_dec : EqDecision InvVect.
Proof. solve_decision. Defined.
#[export] Instance Inv_eq_dec : EqDecision Inv.
Proof. solve_decision. Defined.

Definition NodeAddr_SIZE : Z := 26.
Definition NodeAddrEx_SIZE : Z := NodeAddr_SIZE + 4.
Definition MAX_ADDR_COUNT : Z := 1000.
Definition Ping_SIZE : Z := 8.
Definition SendCmpct_SIZE : Z := 9.
Definition InvVect_SIZE : Z := 36.
Definition MAX_INV_ENTRIES : Z := 50000.
(** The types of the objects of an inventory. *)
Definition INV_VECT_ERROR : Z := 0.
Definition INV_VECT_TX : Z := 1.
Definition INV_VECT_BLOCK : Z := 2.
Definition INV_VECT_FILTERED_BLOCK : Z := 3.
Definition INV_VECT_COMPACT_BLOCK : Z := 4.

(** The reasons of a rejection. *)
Definition REJECT_MALFORMED : Z := 0x01.
Definition REJECT_INVALID : Z := 0x10.
Definition REJECT_OBSOLETE : Z := 0x11.
Definition REJECT_DUPLICATE : Z := 0x12.
Definition REJECT_NONSTANDARD : Z := 0x40.
Definition REJECT_DUST : Z := 0x41.
Definition REJECT_INSUFFICIENT_FEE : Z := 0x42.
Definition REJECT_CHECKPOINT : Z := 0x43.

(** The services of a node, and the address of one that is not known. *)
Definition NODE_NONE : Z := 0.
Definition NODE_NETWORK : Z := 1.
Definition NODE_BITCOIN_CASH : Z := Z.shiftl 1 5.
Definition UNKNOWN_IP : bytes := [0; 0; 0; 0; 0; 0; 0; 0; 0; 0; 255; 255; 127; 0; 0; 1].

(** [size_of::<InvVect>()]: 4 + 32 bytes. *)
Definition sizeof_InvVect : Z := 36.

Section Net.
  Context `{BO : ByteOrder}.

(** ** Node addresses *)

(** [NodeAddr::new]; [to_ipv6_mapped] is [::ffff:a.b.c.d]. *)
Definition NodeAddr_new (ip : IpAddr) (port : Z) : NodeAddr :=
  MkNodeAddr 0
    match ip with
    | IpV4 a b c d => [0; 0; 0; 0; 0; 0; 0; 0; 0; 0; 255; 255; a; b; c; d]
    | IpV6 octets => octets
    end port.

Definition NodeAddr_default : NodeAddr := MkNodeAddr 0 (replicate 16 0) 0.

Definition NodeAddr_read : parser Error NodeAddr :=
  services ← io read_u64;
  ip ← io (read_buf 16);
  port ← io read_u16_be;
  mret (MkNodeAddr services ip port).

Definition NodeAddr_write (a : NodeAddr) : bytes :=
  write_u64 (na_services a) ++ na_ip a ++ write_u16_be (na_port a).

Definition NodeAddr_size (a : NodeAddr) : Z := NodeAddr_SIZE.

Definition NodeAddrEx_read : parser Error NodeAddrEx :=
  last_connected_time ← io read_u32;
  addr ← NodeAddr_read;
  mret (MkNodeAddrEx last_connected_time addr).

Definition NodeAddrEx_write (a : NodeAddrEx) : bytes :=
  write_u32 (nax_last_connected_time a) ++ NodeAddr_write (nax_addr a).

Definition NodeAddrEx_size (a : NodeAddrEx) : Z := NodeAddrEx_SIZE.

Definition Addr_read : parser Error Addr :=
  count ← io var_int_read;
  if MAX_ADDR_COUNT <? count
  then fail (BadData (str "Too many addrs: " ++ dec count))
  else
    addrs ← read_times (Z.to_nat count) NodeAddrEx_read;
    mret (MkAddr addrs).

Definition Addr_write (a : Addr) : bytes :=
  var_int_write (zlen (addr_addrs a)) ++ concat (map NodeAddrEx_write (addr_addrs a)).

Definition Addr_size (a : Addr) : Z :=
  var_int_size (zlen (addr_addrs a)) + zlen (addr_addrs a) * NodeAddrEx_SIZE.

(** ** Version *)

(** [String::from_utf8]. *)
Definition from_utf8 (l : bytes) : outcome Error bytes :=
  if utf8_valid l then Ok l else Err (FromUtf8Error (str "invalid utf-8 sequence")).

(** [secs_since(UNIX_EPOCH)], the clock's seconds cut to 32 bits. *)
Definition secs_since (now : Z) : Z := as_u32 now.

(** [(self.timestamp - now).abs() > 2 * 60 * 60] on [i64]. *)
Definition Version_validate (now : Z) (v : Version) : outcome Error unit :=
  if ver_version v <? MIN_SUPPORTED_PROTOCOL_VERSION
  then Err (BadData (str "Unsupported protocol version: " ++ dec (ver_version v)))
  else
    d ← sub_i64 (ver_timestamp v) (secs_since now);
    a ← checked (-9223372036854775808) 9223372036854775808
          "attempt to negate with overflow" (Z.abs d);
    if 2 * 60 * 60 <? a
    then Err (BadData (str "Timestamp too old: " ++ dec_signed (ver_timestamp v)))
    else Ok tt.

Definition Version_read : parser Error Version :=
  version ← io read_u32;
  services ← io read_u64;
  timestamp ← io read_i64;
  recv_addr ← NodeAddr_read;
  tx_addr ← NodeAddr_read;
  nonce ← io read_u64;
  n ← io var_int_read;
  let user_agent_size := as_usize n in
  with_capacity 1 user_agent_size ≫= λ _,
  user_agent_bytes ← io (read_buf user_agent_size);
  user_agent ← lift (from_utf8 user_agent_bytes);
  start_height ← io read_i32;
  relay ← io read_u8;
  mret (MkVersion version services timestamp recv_addr tx_addr nonce user_agent
          start_height (relay =? 1)).

Definition Version_write (v : Version) : bytes :=
  write_u32 (ver_version v)
  ++ write_u64 (ver_services v)
  ++ write_i64 (ver_timestamp v)
  ++ NodeAddr_write (ver_recv_addr v)
  ++ NodeAddr_write (ver_tx_addr v)
  ++ write_u64 (ver_nonce v)
  ++ var_int_write (zlen (ver_user_agent v))
  ++ ver_user_agent v
  ++ write_i32 (ver_start_height v)
  ++ write_u8 (if ver_relay v then 1 else 0).

Definition Version_size (v : Version) : Z :=
  33 + NodeAddr_size (ver_recv_addr v) + NodeAddr_size (ver_tx_addr v)
  + var_int_size (zlen (ver_user_agent v)) + zlen (ver_user_agent v).

(** ** Ping, reject, sendcmpct *)

Definition Ping_read : parser Error Ping := nonce ← io read_u64; mret (MkPing nonce).
Definition Ping_write (p : Ping) : bytes := write_u64 (ping_nonce p).
Definition Ping_size (p : Ping) : Z := Ping_SIZE.

(** Whether a rejection of this message type carries a hash. *)
Definition has_data (message : bytes) : bool :=
  bool_decide (message = str "block") || bool_decide (message = str "tx").

Definition Reject_read : parser Error Reject :=
  n ← io var_int_read;
  let message_size := as_usize n in
  with_capacity 1 message_size ≫= λ _,
  message_bytes ← io (read_buf message_size);
  message ← lift (from_utf8 message_bytes);
  code ← io read_u8;
  n ← io var_int_read;
  let reason_size := as_usize n in
  with_capacity 1 reason_size ≫= λ _,
  reason_bytes ← io (read_buf reason_size);
  reason ← lift (from_utf8 reason_bytes);
  data ← (if has_data message then io (read_buf 32) else mret []);
  mret (MkReject message code reason data).

Definition Reject_write (r : Reject) : bytes :=
  var_int_write (zlen (rej_message r)) ++ rej_message r
  ++ write_u8 (rej_code r)
  ++ var_int_write (zlen (rej_reason r)) ++ rej_reason r
  ++ rej_data r.

Definition Reject_size (r : Reject) : Z :=
  var_int_size (zlen (rej_message r)) + zlen (rej_message r) + 1
  + var_int_size (zlen (rej_reason r)) + zlen (rej_reason r) + zlen (rej_data r).

Definition Reject_txid (r : Reject) : outcome Error Hash256 :=
  if negb (zlen (rej_data r) =? 32)
  then Err (InvalidOperation (str "No transaction hash"))
  else Ok (MkHash256 (rej_data r)).

Definition SendCmpct_read : parser Error SendCmpct :=
  enable ← io read_u8; version ← io read_u64; mret (MkSendCmpct enable version).
Definition SendCmpct_write (s : SendCmpct) : bytes :=
  write_u8 (sc_enable s) ++ write_u64 (sc_version s).
Definition SendCmpct_size (s : SendCmpct) : Z := SendCmpct_SIZE.
Definition use_cmpctblock (s : SendCmpct) : bool := (sc_enable s =? 1) && (sc_version s =? 1).

(** ** Inventories *)

Definition InvVect_read : parser Error InvVect :=
  obj_type ← io read_u32; hash ← Hash256_read; mret (MkInvVect obj_type hash).
Definition InvVect_write (i : InvVect) : bytes :=
  write_u32 (iv_obj_type i) ++ Hash256_write (iv_hash i).
Definition InvVect_size (i : InvVect) : Z := InvVect_SIZE.

Definition Inv_read : parser Error Inv :=
  n ← io var_int_read;
  let num_objects := as_usize n in
  if MAX_INV_ENTRIES <? num_objects
  then fail (BadData (str "Num objects exceeded maximum: " ++ dec num_objects))
  else
    with_capacity sizeof_InvVect num_objects ≫= λ _,
    objects ← read_times (Z.to_nat num_objects) InvVect_read;
    mret (MkInv objects).

Definition Inv_write (i : Inv) : bytes :=
  var_int_write (zlen (inv_objects i)) ++ concat (map InvVect_write (inv_objects i)).

Definition Inv_size (i : Inv) : Z :=
  var_int_size (zlen (inv_objects i)) + InvVect_SIZE * zlen (inv_objects i).

(** ** Values the wire format carries *)

Definition node_addr_wf (a : NodeAddr) : Prop :=
  is_u64 (na_services a) ∧ zlen (na_ip a) = 16 ∧ is_bytes (na_ip a) ∧ is_u16 (na_port a).

Definition node_addr_ex_wf (a : NodeAddrEx) : Prop :=
  is_u32 (nax_last_connected_time a) ∧ node_addr_wf (nax_addr a).

Definition addr_wf (a : Addr) : Prop :=
  Forall node_addr_ex_wf (addr_addrs a) ∧ zlen (addr_addrs a) ≤ MAX_ADDR_COUNT.

Definition string_wf (s : bytes) : Prop :=
  is_bytes s ∧ vec_ok 1 s ∧ utf8_valid s = true.

Definition version_wf (v : Version) : Prop :=
  is_u32 (ver_version v) ∧ is_u64 (ver_services v) ∧ is_i64 (ver_timestamp v)
  ∧ node_addr_wf (ver_recv_addr v) ∧ node_addr_wf (ver_tx_addr v)
  ∧ is_u64 (ver_nonce v) ∧ string_wf (ver_user_agent v) ∧ is_i32 (ver_start_height v).

Definition ping_wf (p : Ping) : Prop := is_u64 (ping_nonce p).

Definition reject_wf (r : Reject) : Prop :=
  string_wf (rej_message r) ∧ is_u8 (rej_code r) ∧ string_wf (rej_reason r)
  ∧ is_bytes (rej_data r) ∧ zlen (rej_data r) = if has_data (rej_message r) then 32 else 0.

Definition send_cmpct_wf (s : SendCmpct) : Prop := is_u8 (sc_enable s) ∧ is_u64 (sc_version s).

Definition inv_vect_wf (i : InvVect) : Prop := is_u32 (iv_obj_type i) ∧ hash_wf (iv_hash i).

Definition inv_wf (i : Inv) : Prop :=
  Forall inv_vect_wf (inv_objects i) ∧ zlen (inv_objects i) ≤ MAX_INV_ENTRIES.

#[global] Instance node_addr_wf_dec a : Decision (node_addr_wf a).
Proof. unfold node_addr_wf. apply _. Defined.
#[global] Instance node_addr_ex_wf_dec a : Decision (node_addr_ex_wf a).
Proof. unfold node_addr_ex_wf. apply _. Defined.
#[global] Instance addr_wf_dec a : Decision (addr_wf a).
Proof. unfold addr_wf. apply _. Defined.
#[global] Instance string_wf_dec s : Decision (string_wf s).
Proof. unfold string_wf. apply _. Defined.
#[global] Instance version_wf_dec v : Decision (version_wf v).
Proof. unfold version_wf. apply _. Defined.
#[global] Instance ping_wf_dec p : Decision (ping_wf p).
Proof. unfold ping_wf. apply _. Defined.
#[global] Instance reject_wf_dec r : Decision (reject_wf r).
Proof. unfold reject_wf. apply _. Defined.
#[global] Instance send_cmpct_wf_dec s : Decision (send_cmpct_wf s).
Proof. unfold send_cmpct_wf. apply _. Defined.
#[global] Instance inv_vect_wf_dec i : Decision (inv_vect_wf i).
Proof. unfold inv_vect_wf. apply _. Defined.
#[global] Instance inv_wf_dec i : Decision (inv_wf i).
Proof. unfold inv_wf. apply _. Defined.

(** ** Round trips *)

#[local] Hint Resolve Hash256_round_trip : wire.
#[local] Hint Extern 1 (0 < _) => done : wire.

Lemma NodeAddr_round_trip a rest e :
  node_addr_wf a → NodeAddr_read (rdr (NodeAddr_write a ++ rest) e) = (Ok a, rdr rest e).
Proof.
  intros (?&?&?&?). destruct a. unfold NodeAddr_read, NodeAddr_write.
  rewrite <- !app_assoc. by do 3 rt.
Qed.

#[local] Hint Resolve NodeAddr_round_trip : wire.

Lemma NodeAddrEx_round_trip a rest e :
  node_addr_ex_wf a →
  NodeAddrEx_read (rdr (NodeAddrEx_write a ++ rest) e) = (Ok a, rdr rest e).
Proof.
  intros (?&?). destruct a. unfold NodeAddrEx_read, NodeAddrEx_write.
  rewrite <- !app_assoc. by do 2 rt.
Qed.

Lemma Addr_round_trip a rest e :
  addr_wf a → Addr_read (rdr (Addr_write a ++ rest) e) = (Ok a, rdr rest e).
Proof.
  intros (Ha & Hmax). destruct a as [l]; cbn in Ha, Hmax. pose proof (zlen_nonneg l).
  unfold MAX_ADDR_COUNT in *. unfold Addr_read, Addr_write. rewrite <- !app_assoc.
  erewrite parser_bind_ok by (apply io_ok, var_int_read_ok; cbn; ints).
  rewrite (proj2 (Z.ltb_ge _ _)) by (unfold MAX_ADDR_COUNT; cbn; lia).
  by erewrite parser_bind_ok by (apply (read_list_ok _ NodeAddrEx_write node_addr_ex_wf);
    auto using NodeAddrEx_round_trip).
Qed.

(** A string prefixed by its length. *)
Lemma read_string_ok {A} s (k : bytes → parser Error A) rest e :
  string_wf s →
  (n ← io var_int_read;
   let size := as_usize n in
   with_capacity 1 size ≫= λ _,
   b ← io (read_buf size);
   x ← lift (from_utf8 b); k x) (rdr (var_int_write (zlen s) ++ s ++ rest) e)
  = k s (rdr rest e).
Proof.
  intros (Hb & Hv & Hu). pose proof (vec_ok_u32 1 s ltac:(lia) Hv).
  erewrite parser_bind_ok by (apply io_ok, var_int_read_ok; ints).
  cbv zeta. rewrite as_usize_id by done.
  erewrite parser_bind_ok by (by apply with_capacity_ok).
  destruct (decide (s = [])) as [->|Hne].
  - erewrite parser_bind_ok by (by apply io_ok, read_buf_zero).
    by erewrite parser_bind_ok by done.
  - erewrite parser_bind_ok by (apply io_ok, read_buf_ok; [done|];
      destruct s; [done|]; rewrite zlen_cons; pose proof (zlen_nonneg s); lia).
    erewrite parser_bind_ok; [done|]. unfold lift, from_utf8. by rewrite Hu.
Qed.

Lemma Version_round_trip v rest e :
  version_wf v → Version_read (rdr (Version_write v ++ rest) e) = (Ok v, rdr rest e).
Proof.
  intros (?&?&?&?&?&?&Hs&?). destruct v as [? ? ? ? ? ? ? ? relay]; cbn in *.
  unfold Version_read, Version_write; cbn [ver_version ver_services ver_timestamp
    ver_recv_addr ver_tx_addr ver_nonce ver_user_agent ver_start_height ver_relay].
  rewrite <- !app_assoc. do 6 rt.
  rewrite (read_string_ok _ _ _ _ Hs). rt.
  erewrite parser_bind_ok by (apply io_ok, read_u8_ok; destruct relay; ints).
  by destruct relay.
Qed.

Lemma Ping_round_trip p rest e :
  ping_wf p → Ping_read (rdr (Ping_write p ++ rest) e) = (Ok p, rdr rest e).
Proof. intros H. destruct p. unfold Ping_read, Ping_write, ping_wf in *. by rt. Qed.

Lemma Reject_round_trip x rest e :
  reject_wf x → Reject_read (rdr (Reject_write x ++ rest) e) = (Ok x, rdr rest e).
Proof.
  intros (Hm & Hc & Hr & Hb & Hd). destruct x as [m c r d]; cbn in *.
  unfold Reject_read, Reject_write; cbn [rej_message rej_code rej_reason rej_data].
  rewrite <- !app_assoc, (read_string_ok _ _ _ _ Hm). rt.
  rewrite (read_string_ok _ _ _ _ Hr). destruct (has_data m).
  - by rt.
  - destruct d; [by erewrite parser_bind_ok by done|].
    rewrite zlen_cons in Hd. pose proof (zlen_nonneg d). lia.
Qed.

Lemma SendCmpct_round_trip s rest e :
  send_cmpct_wf s → SendCmpct_read (rdr (SendCmpct_write s ++ rest) e) = (Ok s, rdr rest e).
Proof.
  intros (?&?). destruct s. unfold SendCmpct_read, SendCmpct_write.
  rewrite <- !app_assoc. by do 2 rt.
Qed.

Lemma InvVect_round_trip i rest e :
  inv_vect_wf i → InvVect_read (rdr (InvVect_write i ++ rest) e) = (Ok i, rdr rest e).
Proof.
  intros (?&?). destruct i. unfold InvVect_read, InvVect_write.
  rewrite <- !app_assoc. by do 2 rt.
Qed.

Lemma Inv_round_trip i rest e :
  inv_wf i → Inv_read (rdr (Inv_write i ++ rest) e) = (Ok i, rdr rest e).
Proof.
  intros (Hi & Hmax). destruct i as [l]; cbn in Hi, Hmax. pose proof (zlen_nonneg l).
  unfold MAX_INV_ENTRIES in *. unfold Inv_read, Inv_write. rewrite <- !app_assoc.
  erewrite parser_bind_ok by (apply io_ok, var_int_read_ok; cbn; ints).
  cbn [inv_objects]. cbv zeta. rewrite as_usize_id by ints.
  rewrite (proj2 (Z.ltb_ge _ _)) by (unfold MAX_INV_ENTRIES; lia).
  erewrite parser_bind_ok by (apply with_capacity_ok; unfold sizeof_InvVect; ints).
  by erewrite parser_bind_ok by (apply (read_list_ok _ InvVect_write inv_vect_wf);
    auto using InvVect_round_trip).
Qed.

(** ** Sizes *)

Lemma NodeAddr_size_ok a : node_addr_wf a → NodeAddr_size a = zlen (NodeAddr_write a).
Proof.
  intros (?&Hip&?&?). unfold NodeAddr_write.
  by rewrite !zlen_app, zlen_write_u64, Hip, zlen_write_u16_be.
Qed.

Lemma NodeAddrEx_size_ok a :
  node_addr_ex_wf a → NodeAddrEx_size a = zlen (NodeAddrEx_write a).
Proof.
  intros (?&?). unfold NodeAddrEx_write.
  by rewrite !zlen_app, zlen_write_u32, <- NodeAddr_size_ok.
Qed.

Lemma foldr_const_sum {A} c (l : list A) : foldr (λ _ n, c + n) 0 l = zlen l * c.
Proof. induction l as [|x l IH]; [done|]. rewrite zlen_cons. cbn [foldr]. lia. Qed.

Lemma Addr_size_ok a : addr_wf a → Addr_size a = zlen (Addr_write a).
Proof.
  intros (Ha & Hmax). unfold Addr_size, Addr_write, MAX_ADDR_COUNT in *.
  pose proof (zlen_nonneg (addr_addrs a)).
  rewrite zlen_app, <- var_int_size_ok by ints.
  rewrite (zlen_concat_map _ NodeAddrEx_size node_addr_ex_wf)
    by auto using NodeAddrEx_size_ok.
  by rewrite <- foldr_const_sum.
Qed.

Lemma string_wf_u64 s : string_wf s → is_u64 (zlen s).
Proof. intros (_ & Hv & _). by apply (vec_ok_u64 1). Qed.

Lemma Version_size_ok v : version_wf v → Version_size v = zlen (Version_write v).
Proof.
  intros (?&?&?&?&?&?&Hs%string_wf_u64&?). unfold Version_size, Version_write.
  rewrite !zlen_app, zlen_write_u32, !zlen_write_u64, zlen_write_i64, zlen_write_i32,
    <- !NodeAddr_size_ok, <- var_int_size_ok by done.
  rewrite zlen_write_u8 by (destruct (ver_relay v); ints). lia.
Qed.

Lemma Ping_size_ok p : ping_wf p → Ping_size p = zlen (Ping_write p).
Proof. intros. unfold Ping_write. by rewrite zlen_write_u64. Qed.

Lemma Reject_size_ok r : reject_wf r → Reject_size r = zlen (Reject_write r).
Proof.
  intros (Hm%string_wf_u64 & Hc & Hr%string_wf_u64 & Hb & Hd).
  unfold Reject_size, Reject_write.
  rewrite !zlen_app, <- !var_int_size_ok, zlen_write_u8 by done. lia.
Qed.

Lemma SendCmpct_size_ok s : send_cmpct_wf s → SendCmpct_size s = zlen (SendCmpct_write s).
Proof.
  intros (?&?). unfold SendCmpct_write. by rewrite zlen_app, zlen_write_u8, zlen_write_u64.
Qed.

Lemma InvVect_size_ok i : inv_vect_wf i → InvVect_size i = zlen (InvVect_write i).
Proof.
  intros (?&?). unfold InvVect_write.
  by rewrite zlen_app, zlen_write_u32, Hash256_write_length.
Qed.

Lemma Inv_size_ok i : inv_wf i → Inv_size i = zlen (Inv_write i).
Proof.
  intros (Hi & Hmax). unfold Inv_size, Inv_write, MAX_INV_ENTRIES in *.
  pose proof (zlen_nonneg (inv_objects i)).
  rewrite zlen_app, <- var_int_size_ok by ints.
  rewrite (zlen_concat_map _ InvVect_size inv_vect_wf) by auto using InvVect_size_ok.
  unfold InvVect_size. rewrite (foldr_const_sum InvVect_SIZE). lia.
Qed.

(** ** Instances *)

#[export] Instance NodeAddr_Serializable : Serializable NodeAddr :=
  {| read := NodeAddr_read; write := NodeAddr_write |}.
#[export] Instance NodeAddr_SerializableOk : SerializableOk NodeAddr :=
  {| wf := node_addr_wf; round_trip := NodeAddr_round_trip |}.
#[export] Instance NodeAddrEx_Serializable : Serializable NodeAddrEx :=
  {| read := NodeAddrEx_read; write := NodeAddrEx_write |}.
#[export] Instance NodeAddrEx_SerializableOk : SerializableOk NodeAddrEx :=
  {| wf := node_addr_ex_wf; round_trip := NodeAddrEx_round_trip |}.
#[export] Instance Addr_Serializable : Serializable Addr :=
  {| read := Addr_read; write := Addr_write |}.
#[export] Instance Addr_SerializableOk : SerializableOk Addr :=
  {| wf := addr_wf; round_trip := Addr_round_trip |}.
#[export] Instance Addr_Payload : Payload Addr := {| size := Addr_size |}.
#[export] Instance Addr_PayloadOk : PayloadOk Addr := Addr_size_ok.
#[export] Instance Version_Serializable : Serializable Version :=
  {| read := Version_read; write := Version_write |}.
#[export] Instance Version_SerializableOk : SerializableOk Version :=
  {| wf := version_wf; round_trip := Version_round_trip |}.
#[export] Instance Version_Payload : Payload Version := {| size := Version_size |}.
#[export] Instance Version_PayloadOk : PayloadOk Version := Version_size_ok.
#[export] Instance Ping_Serializable : Serializable Ping :=
  {| read := Ping_read; write := Ping_write |}.
#[export] Instance Ping_SerializableOk : SerializableOk Ping :=
  {| wf := ping_wf; round_trip := Ping_round_trip |}.
#[export] Instance Ping_Payload : Payload Ping := {| size := Ping_size |}.
#[export] Instance Ping_PayloadOk : PayloadOk Ping := Ping_size_ok.
#[export] Instance Reject_Serializable : Serializable Reject :=
  {| read := Reject_read; write := Reject_write |}.
#[export] Instance Reject_SerializableOk : SerializableOk Reject :=
  {| wf := reject_wf; round_trip := Reject_round_trip |}.
#[export] Instance Reject_Payload : Payload Reject := {| size := Reject_size |}.
#[export] Instance Reject_PayloadOk : PayloadOk Reject := Reject_size_ok.
#[export] Instance SendCmpct_Serializable : Serializable SendCmpct :=
  {| read := SendCmpct_read; write := SendCmpct_write |}.
#[export] Instance SendCmpct_SerializableOk : SerializableOk SendCmpct :=
  {| wf := send_cmpct_wf; round_trip := SendCmpct_round_trip |}.
#[export] Instance SendCmpct_Payload : Payload SendCmpct := {| size := SendCmpct_size |}.
#[export] Instance SendCmpct_PayloadOk : PayloadOk SendCmpct := SendCmpct_size_ok.
#[export] Instance InvVect_Serializable : Serializable InvVect :=
  {| read := InvVect_read; write := InvVect_write |}.
#[export] Instance InvVect_SerializableOk : SerializableOk InvVect :=
  {| wf := inv_vect_wf; round_trip := InvVect_round_trip |}.
#[export] Instance Inv_Serializable : Serializable Inv :=
  {| read := Inv_read; write := Inv_write |}.
#[export] Instance Inv_SerializableOk : SerializableOk Inv :=
  {| wf := inv_wf; round_trip := Inv_round_trip |}.
#[export] Instance Inv_Payload : Payload Inv := {| size := Inv_size |}.
#[export] Instance Inv_PayloadOk : PayloadOk Inv := Inv_size_ok.

End Net.

(** ** Properties *)

(** Whatever bytes arrive, an accepted inventory has at most 50,000 objects. *)
Theorem inv_read_bounded `{BO : ByteOrder} r i r' :
  Inv_read r = (Ok i, r') → zlen (inv_objects i) ≤ MAX_INV_ENTRIES.
Proof.
  unfold Inv_read. intros (n & r1 & _ & H)%parser_bind_inv. cbv zeta in H.
  destruct (Z.ltb_spec MAX_INV_ENTRIES (as_usize n)); [done|].
  apply parser_bind_inv in H as (? & r2 & _ & H).
  apply parser_bind_inv in H as (objs & r3 & Hlen & H). injection H as <- _.
  apply read_times_length in Hlen. cbn. unfold zlen. rewrite Hlen.
  pose proof (as_u32_range n). unfold as_usize in *. ints.
Qed.

Lemma inv_read_bounded_witness :
  zlen (inv_objects (MkInv [MkInvVect 2 NO_HASH_STOP])) ≤ MAX_INV_ENTRIES.
Proof.
  apply (@inv_read_bounded std_byteorder (cursor ([1; 2; 0; 0; 0] ++ replicate 32 0))
    _ (cursor [])). by vm_compute.
Defined.

(** For a timestamp and a clock the subtraction can hold, the version check
    accepts exactly the supported protocol versions whose timestamp is within two
    hours of the clock; beyond that range the check panics on overflow. *)
Theorem version_validate_spec now v :
  is_i64 (ver_timestamp v) → is_u32 now →
  (Version_validate now v = Ok tt ↔
     MIN_SUPPORTED_PROTOCOL_VERSION ≤ ver_version v
     ∧ Z.abs (ver_timestamp v - now) ≤ 7200)
  ∧ (is_panic (Version_validate now v) = true ↔
     MIN_SUPPORTED_PROTOCOL_VERSION ≤ ver_version v
     ∧ ver_timestamp v - now ≤ -9223372036854775808).
Proof.
  intros Ht Hn. unfold Version_validate, secs_since, sub_i64, checked.
  rewrite as_u32_id by done.
  destruct (Z.ltb_spec (ver_version v) MIN_SUPPORTED_PROTOCOL_VERSION); [cbn; split; split; lia || done|].
  set (d := ver_timestamp v - now) in *.
  assert (d < 9223372036854775808) by ints.
  rewrite (proj2 (Z.ltb_lt d _)) by lia.
  destruct (Z.leb_spec (-9223372036854775808) d); cbn [andb mbind outcome_bind];
    [|cbn; split; split; (done || lia)].
  rewrite (proj2 (Z.leb_le _ (Z.abs d))) by lia.
  destruct (Z.ltb_spec (Z.abs d) 9223372036854775808); cbn [andb mbind outcome_bind];
    [|cbn; split; split; (done || lia)].
  destruct (Z.ltb_spec (2 * 60 * 60) (Z.abs d)); cbn; split; split; (done || lia).
Qed.

(** A version message of a peer with the clock at 1,700,000,000. *)
Definition example_version : Version :=
  let a := MkNodeAddr 1 (replicate 16 0) 8333 in
  MkVersion 70015 1 1700000100 a a 42 (str "/peer/") 800000 true.

Lemma version_validate_spec_witness :
  Version_validate 1700000000 example_version = Ok tt.
Proof.
  apply (proj1 (version_validate_spec 1700000000 example_version
    ltac:(by_eval) ltac:(by_eval))). split; by_eval.
Defined.
