(* ===== verification/Message.v ===== *)
(** * Messages with their header ([node/src/messages/{message_header,message}.rs]) *)

From S2P Require Import Prelude Errors Io VarInt Hash256 TxMsg BlockMsg NetMsg.

(** ** Header *)

Record MessageHeader := MkMessageHeader {
  mh_magic : bytes;
  mh_command : bytes;
  mh_payload_size : Z;
  mh_checksum : bytes;
}.

#[export] Instance MessageHeader_eq_dec : EqDecision MessageHeader.
Proof. solve_decision. Defined.

Definition MessageHeader_SIZE : Z := 24.
Definition NO_CHECKSUM : bytes := [0x5d; 0xf6; 0xe0; 0xe2].
Definition MAX_PAYLOAD_SIZE : Z := 0x02000000.

(** [*b"addr\0\0..."]: the name padded with zeros to twelve bytes. *)
Definition command (name : string) : bytes :=
  str name ++ replicate (12 - length (str name)) 0.

Module commands.
Definition ADDR : bytes := command "addr".
Definition ALERT : bytes := command "alert".
Definition BLOCK : bytes := command "block".
Definition BLOCKTXN : bytes := command "blocktxn".
Definition CMPCTBLOCK : bytes := command "cmpctblock".
Definition INV : bytes := command "inv".
Definition FEEFILTER : bytes := command "feefilter".
Definition FILTERADD : bytes := command "filteradd".
Definition FILTERCLEAR : bytes := command "filterclear".
Definition FILTERLOAD : bytes := command "filterload".
Definition GETADDR : bytes := command "getaddr".
Definition GETBLOCKS : bytes := command "getblocks".
Definition GETBLOCKTXN : bytes := command "getblocktxn".
Definition GETDATA : bytes := command "getdata".
Definition GETHEADERS : bytes := command "getheaders".
Definition HEADERS : bytes := command "headers".
Definition MEMPOOL : bytes := command "mempool".
Definition MERKLEBLOCK : bytes := command "merkleblock".
Definition NOTFOUND : bytes := command "notfound".
Definition PING : bytes := command "ping".
Definition PONG : bytes := command "pong".
Definition REJECT : bytes := command "reject".
Definition SENDCMPCT : bytes := command "sendcmpct".
Definition SENDHEADERS : bytes := command "sendheaders".
Definition TX : bytes := command "tx".
Definition VERSION : bytes := command "version".
Definition VERACK : bytes := command "verack".
Definition GETCFILTERS : bytes := command "getcfilters".
Definition GETCFHEADERS : bytes := command "getcfheaders".
Definition CFILTERS : bytes := command "cfilter".
Definition CFHEADERS : bytes := command "cfheaders".
End commands.

(** ** Messages *)

Inductive Message :=
| MBlock (p : Block)
| MGetAddr
| MGetBlocks (p : BlockLocator)
| MGetData (p : Inv)
| MGetHeaders (p : BlockLocator)
| MHeaders (p : Headers)
| MInv (p : Inv)
| MMempool
| MNotFound (p : Inv)
| MOther (s : bytes)
| MPartial (h : MessageHeader)
| MPing (p : Ping)
| MPong (p : Ping)
| MGetCFilters (p : FilterLocator)
| MGetCFHeaders (p : FilterLocator)
| MCFilters (p : CompactFilter)
| MCFHeaders (p : CompactFilterHeader)
| MReject (p : Reject)
| MSendHeaders
| MTx (p : Tx)
| MVerack
| MVersion (p : Version).

#[export] Instance Message_eq_dec : EqDecision Message.
Proof. solve_decision. Defined.

Section Message.
  Context `{BO : ByteOrder} `{SHA : Sha256}.

Definition MessageHeader_validate (h : MessageHeader) (magic : bytes) (max_size : Z)
    : outcome Error unit :=
  if negb (bool_decide (mh_magic h = magic))
  then Err (BadData (str "Bad magic: " ++ debug_bytes (mh_magic h)))
  else if max_size <? mh_payload_size h
  then Err (BadData (str "Bad size: " ++ dec (mh_payload_size h)))
  else Ok tt.

(** A reader of its own over a buffer, [&mut Cursor::new(b)]. *)
Definition on_cursor {A} (b : bytes) (p : parser Error A) : parser Error A :=
  lift (p (cursor b)).1.

Definition checksum_of (p : bytes) : bytes := take 4 (sha256 (sha256 p)).

(** Reads the payload and verifies its checksum. *)
Definition MessageHeader_payload (h : MessageHeader) : parser Error bytes :=
  with_capacity 1 (mh_payload_size h) ≫= λ _,
  p ← io (read_exact (mh_payload_size h));
  if negb (bool_decide (checksum_of p = mh_checksum h))
  then fail (BadData (str "Bad checksum: " ++ debug_bytes (checksum_of p) ++ str " != "
                      ++ debug_bytes (mh_checksum h)))
  else mret p.

Definition MessageHeader_read : parser Error MessageHeader :=
  p ← io (read_exact MessageHeader_SIZE);
  on_cursor p (
    magic ← io (read_buf 4);
    command ← io (read_buf 12);
    payload_size ← io read_u32;
    checksum ← io (read_buf 4);
    mret (MkMessageHeader magic command payload_size checksum)).

Definition MessageHeader_write (h : MessageHeader) : bytes :=
  mh_magic h ++ mh_command h ++ write_u32 (mh_payload_size h) ++ mh_checksum h.

(** [let payload = header.payload(reader)?; let x = T::read(&mut
    Cursor::new(payload))?; return Ok(k(x))]. *)
Definition with_payload {A} (h : MessageHeader) (p : parser Error A) (k : A → Message)
    : parser Error Message :=
  payload ← MessageHeader_payload h;
  x ← on_cursor payload p;
  mret (k x).

(** The messages without a payload. *)
Definition no_payload (h : MessageHeader) (m : Message) : parser Error Message :=
  if negb (mh_payload_size h =? 0)
  then fail (BadData (str "Bad payload"))
  else mret m.

(** [Message::read_partial]; [now] is the wall clock [Version::validate] asks. *)
Definition Message_read_partial (now : Z) (header : MessageHeader)
    : parser Error Message :=
  let cmd c := bool_decide (mh_command header = c) in
  if cmd commands.BLOCK then with_payload header Block_read MBlock
  else if cmd commands.GETADDR then no_payload header MGetAddr
  else if cmd commands.GETDATA then with_payload header Inv_read MGetData
  else if cmd commands.HEADERS then with_payload header Headers_read MHeaders
  else if cmd commands.CFILTERS then with_payload header CompactFilter_read MCFilters
  else if cmd commands.CFHEADERS
    then with_payload header CompactFilterHeader_read MCFHeaders
  else if cmd commands.INV then with_payload header Inv_read MInv
  else if cmd commands.MEMPOOL then no_payload header MMempool
  else if cmd commands.NOTFOUND then with_payload header Inv_read MNotFound
  else if cmd commands.PING then with_payload header Ping_read MPing
  else if cmd commands.PONG then with_payload header Ping_read MPong
  else if cmd commands.REJECT then with_payload header Reject_read MReject
  else if cmd commands.SENDHEADERS then no_payload header MSendHeaders
  else if cmd commands.TX then with_payload header Tx_read MTx
  else if cmd commands.VERSION then
    payload ← MessageHeader_payload header;
    version ← on_cursor payload Version_read;
    lift (Version_validate now version) ≫= λ _,
    mret (MVersion version)
  else if cmd commands.VERACK then no_payload header MVerack
  else
    (if 0 <? mh_payload_size header
     then MessageHeader_payload header ≫= λ _, mret tt
     else mret tt) ≫= λ _,
    mret (MOther (if utf8_valid (mh_command header) then mh_command header
                  else str "Unknown")).

(** The [match] of [Message::read] on the result of [read_partial]: a timeout in
    the payload gives a [Partial] message. *)
Definition or_partial (header : MessageHeader) (p : parser Error Message)
    : parser Error (Message * MessageHeader) := λ r,
  match p r with
  | (Ok msg, r') => (Ok (msg, header), r')
  | (Err (IOError e), r') =>
    if bool_decide (io_kind e = TimedOut) || bool_decide (io_kind e = WouldBlock)
    then (Ok (MPartial header, header), r')
    else (Err (IOError e), r')
  | (Err e, r') => (Err e, r')
  | (Panic s, r') => (Panic s, r')
  end.

Definition Message_read (now : Z) : parser Error (Message * MessageHeader) :=
  header ← MessageHeader_read;
  or_partial header (Message_read_partial now header).

Definition write_without_payload (command magic : bytes) : bytes :=
  MessageHeader_write (MkMessageHeader magic command 0 NO_CHECKSUM).

Definition write_with_payload {T} `{Payload T} (command : bytes) (payload : T)
    (magic : bytes) : bytes :=
  let header := MkMessageHeader magic command (as_u32 (size payload))
                  (checksum_of (write payload)) in
  MessageHeader_write header ++ write payload.

Definition Message_write (m : Message) (magic : bytes) : outcome io_error bytes :=
  match m with
  | MBlock p => Ok (write_with_payload commands.BLOCK p magic)
  | MTx p => Ok (write_with_payload commands.TX p magic)
  | MGetAddr => Ok (write_without_payload commands.GETADDR magic)
  | MGetBlocks p => Ok (write_with_payload commands.GETBLOCKS p magic)
  | MGetData p => Ok (write_with_payload commands.GETDATA p magic)
  | MGetHeaders p => Ok (write_with_payload commands.GETHEADERS p magic)
  | MGetCFilters p => Ok (write_with_payload commands.GETCFILTERS p magic)
  | MGetCFHeaders p => Ok (write_with_payload commands.GETCFHEADERS p magic)
  | MHeaders p => Ok (write_with_payload commands.HEADERS p magic)
  | MCFHeaders p => Ok (write_with_payload commands.CFHEADERS p magic)
  | MCFilters p => Ok (write_with_payload commands.CFILTERS p magic)
  | MMempool => Ok (write_without_payload commands.MEMPOOL magic)
  | MNotFound p => Ok (write_with_payload commands.NOTFOUND p magic)
  | MInv p => Ok (write_with_payload commands.INV p magic)
  | MOther s => Err (IoError InvalidData s)
  | MPartial _ => Err (IoError InvalidData (str "Cannot write partial message"))
  | MPing p => Ok (write_with_payload commands.PING p magic)
  | MPong p => Ok (write_with_payload commands.PONG p magic)
  | MReject p => Ok (write_with_payload commands.REJECT p magic)
  | MSendHeaders => Ok (write_without_payload commands.SENDHEADERS magic)
  | MVerack => Ok (write_without_payload commands.VERACK magic)
  | MVersion v => Ok (write_with_payload commands.VERSION v magic)
  end.

(** ** What the peer sees *)

(** The payload of a message: its well-formedness and its encoding. *)
Definition message_wf (now : Z) (m : Message) : Prop :=
  match m with
  | MBlock p => block_wf p
  | MTx p => tx_wf p
  | MGetBlocks p | MGetHeaders p => block_locator_wf p
  | MGetData p | MInv p | MNotFound p => inv_wf p
  | MGetCFilters p | MGetCFHeaders p => filter_locator_wf p
  | MHeaders p => headers_wf p
  | MCFHeaders p => compact_filter_header_wf p
  | MCFilters p => compact_filter_wf p
  | MPing p | MPong p => ping_wf p
  | MReject p => reject_wf p
  | MVersion v => version_wf v ∧ Version_validate now v = Ok tt
  | MGetAddr | MMempool | MSendHeaders | MVerack => True
  | MOther _ | MPartial _ => False
  end.

(** The payload bytes of a message. *)
Definition message_payload (m : Message) : bytes :=
  match m with
  | MBlock p => Block_write p
  | MTx p => Tx_write p
  | MGetBlocks p | MGetHeaders p => BlockLocator_write p
  | MGetData p | MInv p | MNotFound p => Inv_write p
  | MGetCFilters p | MGetCFHeaders p => FilterLocator_write p
  | MHeaders p => Headers_write p
  | MCFHeaders p => CompactFilterHeader_write p
  | MCFilters p => CompactFilter_write p
  | MPing p | MPong p => Ping_write p
  | MReject p => Reject_write p
  | MVersion v => Version_write v
  | _ => []
  end.

(** The requests the client only sends are not parsed: they read as [Other]. *)
Definition message_received (m : Message) : Message :=
  match m with
  | MGetBlocks _ => MOther commands.GETBLOCKS
  | MGetHeaders _ => MOther commands.GETHEADERS
  | MGetCFilters _ => MOther commands.GETCFILTERS
  | MGetCFHeaders _ => MOther commands.GETCFHEADERS
  | m => m
  end.

(** The command of a message, on the wire. *)
Definition message_command (m : Message) : bytes :=
  match m with
  | MBlock _ => commands.BLOCK
  | MTx _ => commands.TX
  | MGetAddr => commands.GETADDR
  | MGetBlocks _ => commands.GETBLOCKS
  | MGetData _ => commands.GETDATA
  | MGetHeaders _ => commands.GETHEADERS
  | MGetCFilters _ => commands.GETCFILTERS
  | MGetCFHeaders _ => commands.GETCFHEADERS
  | MHeaders _ => commands.HEADERS
  | MCFHeaders _ => commands.CFHEADERS
  | MCFilters _ => commands.CFILTERS
  | MMempool => commands.MEMPOOL
  | MNotFound _ => commands.NOTFOUND
  | MInv _ => commands.INV
  | MPing _ => commands.PING
  | MPong _ => commands.PONG
  | MReject _ => commands.REJECT
  | MSendHeaders => commands.SENDHEADERS
  | MVerack => commands.VERACK
  | MVersion _ => commands.VERSION
  | MOther s => s
  | MPartial h => mh_command h
  end.

(** The messages whose encoding has no payload part. *)
Definition message_empty (m : Message) : bool :=
  match m with MGetAddr | MMempool | MSendHeaders | MVerack => true | _ => false end.

(** The header a message is sent with. *)
Definition message_header (m : Message) (magic : bytes) : MessageHeader :=
  MkMessageHeader magic (message_command m) (zlen (message_payload m))
    (if message_empty m then NO_CHECKSUM else checksum_of (message_payload m)).

Definition header_wf (h : MessageHeader) : Prop :=
  zlen (mh_magic h) = 4 ∧ zlen (mh_command h) = 12 ∧ is_u32 (mh_payload_size h)
  ∧ zlen (mh_checksum h) = 4.

#[global] Instance header_wf_dec h : Decision (header_wf h).
Proof. unfold header_wf. apply _. Defined.

(** ** Lemmas *)

Lemma MessageHeader_write_length h : header_wf h → zlen (MessageHeader_write h) = 24.
Proof.
  intros (H1 & H2 & H3 & H4). unfold MessageHeader_write.
  rewrite !zlen_app, H1, H2, H4, zlen_write_u32 by done. done.
Qed.

Lemma on_cursor_ok {A} (p : parser Error A) w x r :
  p (rdr (w ++ []) eof) = (Ok x, rdr [] eof) → on_cursor w p r = (Ok x, r).
Proof.
  intros H. unfold on_cursor, lift, cursor. rewrite app_nil_r in H. by rewrite H.
Qed.

Lemma MessageHeader_round_trip h rest e :
  header_wf h →
  MessageHeader_read (rdr (MessageHeader_write h ++ rest) e) = (Ok h, rdr rest e).
Proof.
  intros Hwf. pose proof (MessageHeader_write_length h Hwf) as Hlen.
  destruct Hwf as (H1 & H2 & H3 & H4).
  unfold MessageHeader_read. erewrite parser_bind_ok by (by apply io_ok, read_exact_ok).
  apply on_cursor_ok. unfold MessageHeader_write. rewrite <- !app_assoc.
  erewrite parser_bind_ok by (apply io_ok, read_buf_ok; [done|lia]).
  erewrite parser_bind_ok by (apply io_ok, read_buf_ok; [done|lia]).
  erewrite parser_bind_ok by (by apply io_ok, read_u32_ok).
  erewrite parser_bind_ok by (apply io_ok, read_buf_ok; [done|lia]).
  by destruct h.
Qed.

(** [header_for h p]: the header announces the payload [p]. *)
Definition header_for (h : MessageHeader) (p : bytes) : Prop :=
  mh_payload_size h = zlen p ∧ mh_checksum h = checksum_of p ∧ zlen p ≤ isize_max.

Lemma MessageHeader_payload_ok h p rest e :
  header_for h p →
  MessageHeader_payload h (rdr (p ++ rest) e) = (Ok p, rdr rest e).
Proof.
  intros (Hs & Hc & Hmax). unfold MessageHeader_payload.
  erewrite parser_bind_ok by (apply with_capacity_ok; lia).
  erewrite parser_bind_ok by (by apply io_ok, read_exact_ok).
  by rewrite bool_decide_eq_true_2.
Qed.

Lemma with_payload_ok {T} `{SerializableOk T} h (x : T) k rest e :
  header_for h (write x) → wf x →
  with_payload h read k (rdr (write x ++ rest) e) = (Ok (k x), rdr rest e).
Proof.
  intros Hh Hx. unfold with_payload.
  erewrite parser_bind_ok by (by apply MessageHeader_payload_ok).
  by erewrite parser_bind_ok by (by apply on_cursor_ok, round_trip).
Qed.

End Message.

(** Decides the comparisons of the command of a known header. *)
Ltac eval_commands :=
  repeat match goal with
  | |- context [bool_decide (@eq (list Z) ?a ?b)] =>
    let v := eval vm_compute in (bool_decide (@eq (list Z) a b)) in
    change (bool_decide (@eq (list Z) a b)) with v; cbv iota
  end.

Section MessageLaws.
  Context `{BO : ByteOrder} `{SHA : Sha256}.

Lemma no_payload_ok h m r :
  mh_payload_size h = 0 → no_payload h m r = (Ok m, r).
Proof. intros H. unfold no_payload. by rewrite H. Qed.

(** A payload whose parser is not called is skipped. *)
Lemma skip_payload_ok h p rest e :
  header_for h p →
  (if 0 <? mh_payload_size h then MessageHeader_payload h ≫= λ _, mret tt else mret tt)
    (rdr (p ++ rest) e) = (Ok tt, rdr rest e).
Proof.
  intros Hh. destruct (Z.ltb_spec 0 (mh_payload_size h)).
  - by erewrite parser_bind_ok by (by apply MessageHeader_payload_ok).
  - destruct Hh as (Hs & _). destruct p; [done|].
    rewrite Hs, zlen_cons in *. pose proof (zlen_nonneg p). lia.
Qed.

Lemma read_partial_ok now m magic rest e :
  message_wf now m → zlen (message_payload m) ≤ isize_max →
  Message_read_partial now (message_header m magic) (rdr (message_payload m ++ rest) e)
  = (Ok (message_received m), rdr rest e).
Proof.
  intros Hwf Hmax.
  assert (message_empty m = false →
          header_for (message_header m magic) (message_payload m)) as Hh.
  { intros Hne. repeat split; [|done]. cbn. by rewrite Hne. }
  unfold Message_read_partial. cbv zeta beta.
  destruct m; try done; cbn [message_header mh_command message_command]; eval_commands;
    try match goal with
    | x : ?T |- with_payload ?h _ ?k _ = _ =>
      exact (with_payload_ok (T:=T) h x k rest e (Hh eq_refl) Hwf)
    end;
    try (by apply no_payload_ok).
  all: try (erewrite parser_bind_ok by (apply (skip_payload_ok _ _ _ _ (Hh eq_refl)));
    reflexivity).
  destruct Hwf as [Hv Hval].
  erewrite parser_bind_ok by (apply MessageHeader_payload_ok, (Hh eq_refl)).
  erewrite parser_bind_ok by (by apply on_cursor_ok, Version_round_trip).
  erewrite parser_bind_ok by (unfold lift; by rewrite Hval). done.
Qed.

Lemma write_with_payload_ok {T} `{PayloadOk T} cmd (x : T) magic :
  wf x → zlen (write x) ≤ isize_max →
  write_with_payload cmd x magic
  = MessageHeader_write
      (MkMessageHeader magic cmd (zlen (write x)) (checksum_of (write x))) ++ write x.
Proof.
  intros Hx Hmax. unfold write_with_payload. rewrite size_ok by done.
  pose proof (zlen_nonneg (write x)). by rewrite as_u32_id by ints.
Qed.

(** What [Message::write] emits: the header of the payload, then the payload. *)
Lemma Message_write_ok now m magic :
  message_wf now m → zlen (message_payload m) ≤ isize_max →
  Message_write m magic
  = Ok (MessageHeader_write (message_header m magic) ++ message_payload m).
Proof.
  intros Hwf Hmax.
  assert (∀ v, m = MVersion v → version_wf v) as Hv by (intros v ->; apply Hwf).
  destruct m; try done; cbn [Message_write message_payload];
    try (unfold write_without_payload; by rewrite app_nil_r); f_equal;
    match goal with
    | |- write_with_payload (T:=?T) ?c ?x _ = _ =>
      rewrite (write_with_payload_ok (T:=T) c x magic);
        [reflexivity | first [exact Hwf | by apply Hv] | exact Hmax]
    end.
Qed.

Lemma message_header_wf m magic :
  zlen magic = 4 → zlen (message_command m) = 12 → zlen (message_payload m) ≤ isize_max →
  header_wf (message_header m magic).
Proof.
  intros H1 H2 H3. pose proof (zlen_nonneg (message_payload m)).
  repeat split; try done; cbn; [ints|].
  destruct (message_empty m); [done|]. unfold checksum_of, zlen.
  by rewrite length_take, sha256_length.
Qed.

Lemma message_command_length now m : message_wf now m → zlen (message_command m) = 12.
Proof. by destruct m. Qed.

Lemma Message_read_ok now m magic rest e :
  message_wf now m → zlen magic = 4 → zlen (message_payload m) ≤ isize_max →
  Message_read now
    (rdr (MessageHeader_write (message_header m magic) ++ message_payload m ++ rest) e)
  = (Ok (message_received m, message_header m magic), rdr rest e).
Proof.
  intros Hwf Hm Hmax. unfold Message_read.
  erewrite parser_bind_ok by (apply MessageHeader_round_trip, message_header_wf;
    try done; by eapply message_command_length).
  unfold or_partial. by rewrite read_partial_ok.
Qed.

(** Reading a stream of messages, one [Message::read] after another. *)
Lemma Message_stream_ok now ms magic rest e :
  Forall (λ m, message_wf now m ∧ zlen (message_payload m) ≤ isize_max) ms →
  zlen magic = 4 →
  read_times (length ms) (Message_read now)
    (rdr (concat (map (λ m, MessageHeader_write (message_header m magic)
                            ++ message_payload m) ms) ++ rest) e)
  = (Ok (map (λ m, (message_received m, message_header m magic)) ms), rdr rest e).
Proof.
  intros Hms Hm. induction Hms as [|m ms [Hwf Hmax] _ IH]; [done|].
  cbn [length map concat read_times]. rewrite <- !app_assoc.
  erewrite parser_bind_ok by (by apply Message_read_ok).
  by erewrite parser_bind_ok by apply IH.
Qed.

End MessageLaws.

(** ** Properties *)

Section MessageProperties.
  Context `{BO : ByteOrder} `{SHA : Sha256}.

(** C7: a stream of messages written one after the other is read back one after
    the other, each with the header it was sent with, and what follows the stream
    is left unread.  What is read is the message, except for the four requests that the
    client only sends (getblocks, getheaders, getcfilters, getcfheaders): they read as
    [Other] with the command and without the payload. *)
Theorem message_stream_round_trip now ms magic rest e :
  Forall (λ m, message_wf now m ∧ zlen (message_payload m) ≤ isize_max) ms →
  zlen magic = 4 →
  ∃ ws, Forall2 (λ m w, Message_write m magic = Ok w) ms ws
    ∧ read_times (length ms) (Message_read now) (rdr (concat ws ++ rest) e)
      = (Ok (map (λ m, (message_received m, message_header m magic)) ms), rdr rest e).
Proof.
  intros Hms Hm.
  exists (map (λ m, MessageHeader_write (message_header m magic) ++ message_payload m) ms).
  split; [|by apply Message_stream_ok].
  apply Forall2_fmap_r, Forall_Forall2_diag. eapply Forall_impl; [exact Hms|].
  intros m [Hwf Hmax]. by apply (Message_write_ok now).
Qed.

(** C29: a payload that is returned has the announced length, its double SHA-256
    starts with the announced checksum, and exactly its bytes were consumed; a
    payload with another checksum is rejected as bad data. *)
Theorem payload_checked h data e :
  0 ≤ mh_payload_size h ≤ isize_max →
  (∀ p r', MessageHeader_payload h (rdr data e) = (Ok p, r') →
     zlen p = mh_payload_size h ∧ checksum_of p = mh_checksum h
     ∧ data = p ++ rd_data r' ∧ rd_end r' = e)
  ∧ (∀ p rest, data = p ++ rest → zlen p = mh_payload_size h →
       checksum_of p ≠ mh_checksum h →
       ∃ msg, MessageHeader_payload h (rdr data e) = (Err (BadData msg), rdr rest e)).
Proof.
  intros Hmax. unfold MessageHeader_payload. split.
  - intros p r' H. apply parser_bind_inv in H as (? & r1 & H1 & H).
    rewrite with_capacity_ok in H1 by lia. injection H1 as <- <-.
    apply parser_bind_inv in H as (p' & r2 & H2 & H).
    unfold io, read_exact in H2. cbn [rd_data rd_end] in H2.
    destruct (Z.leb_spec (mh_payload_size h) (zlen data)); [|done].
    injection H2 as <- <-. case_bool_decide as Hc; [|done]. injection H as <- <-.
    cbn [rd_data rd_end]. rewrite take_drop. repeat split; [|done].
    unfold zlen in *. rewrite length_take. lia.
  - intros p rest -> Hlen Hc.
    erewrite parser_bind_ok by (apply with_capacity_ok; lia).
    erewrite parser_bind_ok by (by apply io_ok, read_exact_ok).
    rewrite bool_decide_eq_false_2 by done. by eexists.
Qed.

(** When the connection times out inside the payload of a block, the reader
    returns a [Partial] message and has dropped the payload bytes that had
    arrived, so the message cannot be completed from the stream later. *)
Theorem message_partial_drops_bytes now h p e :
  header_wf h → mh_command h = commands.BLOCK → zlen p < mh_payload_size h ≤ isize_max →
  io_kind e = TimedOut ∨ io_kind e = WouldBlock →
  Message_read now (rdr (MessageHeader_write h ++ p) e)
  = (Ok (MPartial h, h), rdr [] e).
Proof.
  intros Hh Hc Hp He. unfold Message_read.
  erewrite parser_bind_ok by (by apply MessageHeader_round_trip).
  unfold or_partial, Message_read_partial. rewrite Hc. eval_commands.
  unfold with_payload, MessageHeader_payload, io, read_exact, with_capacity, lift,
    mbind, parser_bind.
  rewrite (proj2 (Z.leb_le _ _)) by lia. cbn [rd_data rd_end].
  rewrite (proj2 (Z.leb_gt _ _)) by lia. cbn [map_err].
  rewrite (proj2 (orb_true_iff _ _)); [done|].
  destruct He as [He|He]; rewrite He; [by left|by right].
Qed.

End MessageProperties.

Lemma message_stream_round_trip_witness :
  ∃ ws, Forall2 (λ m w, @Message_write std_byteorder padded_sha256 m MAINNET_MAGIC = Ok w)
          [MVerack; MPing (MkPing 7); MVersion example_version] ws
    ∧ read_times 3 (@Message_read std_byteorder padded_sha256 1700000000)
        (cursor (concat ws ++ [1]))
      = (Ok (map (λ m, (message_received m,
                        @message_header std_byteorder padded_sha256 m MAINNET_MAGIC))
               [MVerack; MPing (MkPing 7); MVersion example_version]), cursor [1]).
Proof.
  apply (@message_stream_round_trip std_byteorder padded_sha256 1700000000
    [MVerack; MPing (MkPing 7); MVersion example_version] MAINNET_MAGIC [1] eof);
    [|by vm_compute].
  repeat constructor; by_eval.
Defined.

Lemma payload_checked_witness :
  (∃ msg, @MessageHeader_payload padded_sha256
     (MkMessageHeader MAINNET_MAGIC commands.PING 2 [1; 2; 0; 1]) (cursor [1; 2; 9])
   = (Err (BadData msg), cursor [9])).
Proof.
  refine (proj2 (@payload_checked padded_sha256
    (MkMessageHeader MAINNET_MAGIC commands.PING 2 [1; 2; 0; 1]) [1; 2; 9] eof _)
    [1; 2] [9] eq_refl eq_refl _); [cbn; ints|by vm_compute].
Defined.

Lemma message_partial_drops_bytes_witness :
  @Message_read std_byteorder padded_sha256 0
    (rdr (@MessageHeader_write std_byteorder
            (MkMessageHeader MAINNET_MAGIC commands.BLOCK 9 [0; 0; 0; 0]) ++ [5; 5])
         (IoError TimedOut []))
  = (Ok (MPartial (MkMessageHeader MAINNET_MAGIC commands.BLOCK 9 [0; 0; 0; 0]),
         MkMessageHeader MAINNET_MAGIC commands.BLOCK 9 [0; 0; 0; 0]),
     rdr [] (IoError TimedOut [])).
Proof.
  apply (@message_partial_drops_bytes std_byteorder padded_sha256);
    [by_eval|done|cbn; split; by_eval|by left].
Defined.
