(* ===== verification/Typing.v ===== *)
(** * What the readers return

    Every value that is read off the wire has its fields within the widths of their
    machine integers, its hashes of 32 bytes and its strings valid, whatever bytes
    arrive: nothing in the rest of the client has to check them again. *)

From S2P Require Import Prelude Errors Io VarInt Hash256 TxMsg BlockMsg NetMsg Message.

(** ** Typed readers *)

(** Whatever bytes arrive, [p] leaves bytes and what it returns is in [P]. *)
Definition reads {E A} (p : parser E A) (P : A → Prop) : Prop :=
  ∀ r, is_bytes (rd_data r) →
    is_bytes (rd_data (p r).2) ∧ ∀ a, (p r).1 = Ok a → P a.

Create HintDb reads.

Lemma reads_ret {E A} (a : A) (P : A → Prop) : P a → reads (mret a : parser E A) P.
Proof. intros Ha r Hr. split; [done|]. by intros a' [= <-]. Qed.

Lemma reads_bind {E A B} (p : parser E A) (k : A → parser E B) P Q :
  reads p P → (∀ a, P a → reads (k a) Q) → reads (p ≫= k) Q.
Proof.
  intros Hp Hk r Hr. unfold mbind, parser_bind. destruct (Hp r Hr) as [Hb HP].
  destruct (p r) as [[a|e|s] r']; cbn in *; [|by split..]. apply (Hk a); [by apply HP|done].
Qed.

Lemma reads_lift {E A} (m : outcome E A) (P : A → Prop) :
  (∀ a, m = Ok a → P a) → reads (lift m) P.
Proof. intros Hm r Hr. by split. Qed.

Lemma reads_fail {E A} (e : E) (P : A → Prop) : reads (fail e) P.
Proof. intros r Hr. by split. Qed.

Lemma reads_io {A} (p : parser io_error A) P : reads p P → reads (io p) P.
Proof.
  intros Hp r Hr. unfold io. destruct (Hp r Hr) as [Hb HP]. destruct (p r) as [[a|e|s] r']; cbn in *;
    (split; [done|]); intros ? H; [|done..]. injection H as <-. by apply HP.
Qed.

Lemma reads_exact n :
  0 ≤ n → reads (read_exact n) (λ b, is_bytes b ∧ zlen b = n).
Proof.
  intros Hn r Hr. unfold read_exact. destruct (Z.leb_spec n (zlen (rd_data r))); cbn.
  - split; [by apply is_bytes_drop|]. intros b [= <-]. split; [by apply is_bytes_take|].
    unfold zlen in *. rewrite length_take. lia.
  - split; [apply is_bytes_nil|done].
Qed.

Lemma reads_buf n : 0 ≤ n → reads (read_buf n) (λ b, is_bytes b ∧ zlen b = n).
Proof.
  intros Hn r Hr. unfold read_buf. case_bool_decide; cbn; [by split|].
  split; [by apply is_bytes_drop|]. intros b [= <-]. split.
  - apply is_bytes_app. split; [by apply is_bytes_take|]. apply Forall_replicate. by_eval.
  - unfold zlen. rewrite length_app, length_replicate, length_take. lia.
Qed.

Lemma reads_capacity {E} elem n :
  reads (with_capacity (E := E) elem n) (λ _, n * elem ≤ isize_max).
Proof.
  apply reads_lift. intros a. by destruct (Z.leb_spec (n * elem) isize_max).
Qed.

Lemma reads_times {E A} n (p : parser E A) P :
  reads p P → reads (read_times n p) (λ l, Forall P l ∧ length l = n).
Proof.
  intros Hp. induction n as [|n IH]; cbn [read_times]; [by apply reads_ret|].
  eapply reads_bind; [done|intros x Hx]. eapply reads_bind; [done|intros xs [Hxs Hlen]].
  apply reads_ret. split; [by constructor|]. cbn. lia.
Qed.

Lemma reads_ignore {E A} (p : parser E A) P : reads p P → reads (ignore p) (λ _, True).
Proof.
  intros Hp r Hr. unfold ignore. destruct (Hp r Hr) as [Hb _]. by destruct (p r) as [[a|e|s] r'].
Qed.

Lemma reads_weaken {E A} (p : parser E A) (P Q : A → Prop) :
  reads p P → (∀ a, P a → Q a) → reads p Q.
Proof. intros Hp HPQ r Hr. destruct (Hp r Hr) as [? HP]. split; [done|]. intros a Ha. by apply HPQ, HP. Qed.

#[export] Hint Resolve reads_ret reads_io reads_exact reads_buf reads_capacity reads_times
  reads_ignore reads_fail : reads.

(** One bind of a reader: what the database knows of the first part. *)
Ltac rd := eapply reads_bind; [solve [eauto 6 with reads]|cbv beta; intros ? ?].
Ltac rds := repeat rd.

(** ** The primitives *)

Section Primitives.
  Context `{BO : ByteOrder}.

Lemma reads_uint n : reads (read_uint n) (λ z, 0 ≤ z < 256 ^ Z.of_nat n).
Proof.
  unfold read_uint. eapply reads_bind; [apply reads_exact; lia|intros b [Hb Hl]].
  apply reads_ret. rewrite bo_get_le_spec by done. rewrite <- Hl. by apply le_value_bound.
Qed.

Lemma reads_u8 : reads read_u8 is_u8.
Proof. eapply reads_weaken; [apply reads_uint|]. cbn. ints. Qed.
Lemma reads_u16 : reads read_u16 is_u16.
Proof. eapply reads_weaken; [apply reads_uint|]. cbn. ints. Qed.
Lemma reads_u32 : reads read_u32 is_u32.
Proof. eapply reads_weaken; [apply reads_uint|]. cbn. ints. Qed.
Lemma reads_u64 : reads read_u64 is_u64.
Proof. eapply reads_weaken; [apply reads_uint|]. cbn. ints. Qed.

Lemma reads_u16_be : reads read_u16_be is_u16.
Proof.
  unfold read_u16_be. eapply reads_bind; [apply reads_exact; lia|intros b [Hb Hl]].
  apply reads_ret. rewrite bo_get_be_spec by done. unfold be_value.
  pose proof (le_value_bound (reverse b) ltac:(by apply Forall_reverse)) as H.
  unfold zlen in *. rewrite length_reverse, Hl in H. cbn in H. ints.
Qed.

Lemma reads_i32 : reads read_i32 is_i32.
Proof.
  unfold read_i32. eapply reads_bind; [apply reads_uint|intros z _]. apply reads_ret.
  unfold as_i32. pose proof (as_u32_range z). destruct (Z.ltb_spec (as_u32 z) 2147483648); ints.
Qed.

Lemma reads_i64 : reads read_i64 is_i64.
Proof.
  unfold read_i64. eapply reads_bind; [apply reads_uint|intros z _]. apply reads_ret.
  unfold as_i64. pose proof (as_u64_range z).
  destruct (Z.ltb_spec (as_u64 z) 9223372036854775808); ints.
Qed.

Lemma reads_var_int : reads var_int_read is_u64.
Proof.
  unfold var_int_read. eapply reads_bind; [apply reads_u8|intros n0 Hn].
  destruct (n0 =? 0xff); [apply reads_u64|].
  destruct (n0 =? 0xfe); [eapply reads_weaken; [apply reads_u32|intros; ints]|].
  destruct (n0 =? 0xfd); [eapply reads_weaken; [apply reads_u16|intros; ints]|].
  apply reads_ret. ints.
Qed.

Lemma reads_hash : reads Hash256_read hash_wf.
Proof.
  unfold Hash256_read. eapply reads_bind; [apply reads_io, reads_buf; lia|intros b [Hb Hl]].
  apply reads_ret. split; [unfold zlen in Hl; cbn; lia|done].
Qed.

End Primitives.

#[export] Hint Resolve reads_u8 reads_u16 reads_u32 reads_u64 reads_u16_be reads_i32 reads_i64
  reads_var_int reads_hash : reads.

(** ** The types of the messages *)

Definition txin_typed (t : TxIn) : Prop :=
  outpoint_wf (txin_prev_output t) ∧ is_bytes (txin_unlock_script t) ∧ is_u32 (txin_sequence t).

Definition txout_typed (t : TxOut) : Prop :=
  is_i64 (txout_satoshis t) ∧ is_bytes (txout_lock_script t).

Definition witness_typed (w : TxWitness) : Prop :=
  Forall (λ d, is_bytes (witness_data d)) (witness w).

(** A transaction has the flag and one witness for each input, or neither. *)
Definition tx_typed (t : Tx) : Prop :=
  is_u32 (tx_version t) ∧ is_u32 (tx_lock_time t)
  ∧ Forall txin_typed (tx_inputs t) ∧ Forall txout_typed (tx_outputs t)
  ∧ match tx_witnesses t with
    | Some ws =>
      tx_flag t = Some 1 ∧ Forall witness_typed ws ∧ length ws = length (tx_inputs t)
    | None => tx_flag t = None ∧ tx_inputs t ≠ []
    end.

Definition block_typed (b : Block) : Prop :=
  block_header_wf (block_header b) ∧ Forall tx_typed (block_txns b).

Definition compact_filter_typed (c : CompactFilter) : Prop :=
  is_u8 (cf_filter_type c) ∧ hash_wf (cf_block_hash c) ∧ is_bytes (cf_filter_bytes c).

Definition compact_filter_header_typed (c : CompactFilterHeader) : Prop :=
  is_u8 (cfh_filter_type c) ∧ hash_wf (cfh_stop_hash c)
  ∧ hash_wf (cfh_previous_filter_header c) ∧ Forall hash_wf (cfh_filter_hashes c).

Definition header_typed (h : MessageHeader) : Prop :=
  header_wf h ∧ is_bytes (mh_magic h) ∧ is_bytes (mh_command h) ∧ is_bytes (mh_checksum h).

(** What a message that was read carries; the requests only a client sends are never
    read. *)
Definition message_typed (now : Z) (m : Message) : Prop :=
  match m with
  | MBlock p => block_typed p
  | MTx p => tx_typed p
  | MGetData p | MInv p | MNotFound p => inv_wf p
  | MHeaders p => Forall block_header_wf (headers_inner p)
  | MCFHeaders p => compact_filter_header_typed p
  | MCFilters p => compact_filter_typed p
  | MPing p | MPong p => ping_wf p
  | MReject p => reject_wf p
  | MVersion v => version_wf v ∧ Version_validate now v = Ok tt
  | MOther s => is_bytes s ∧ utf8_valid s = true
  | MPartial h => header_typed h
  | MGetAddr | MMempool | MSendHeaders | MVerack => True
  | MGetBlocks _ | MGetHeaders _ | MGetCFilters _ | MGetCFHeaders _ => False
  end.

(** ** The readers of the messages *)

Section Readers.
  Context `{BO : ByteOrder} `{SHA : Sha256}.

Lemma reads_bytes n : reads (read_times n (io read_u8)) (λ l, is_bytes l ∧ length l = n).
Proof. apply reads_times, reads_io, reads_u8. Qed.

#[local] Hint Resolve reads_bytes : reads.

Lemma reads_outpoint : reads OutPoint_read outpoint_wf.
Proof. unfold OutPoint_read. rds. by apply reads_ret. Qed.

#[local] Hint Resolve reads_outpoint : reads.

Lemma reads_txin : reads TxIn_read txin_typed.
Proof. unfold TxIn_read. rds. apply reads_ret. unfold txin_typed. naive_solver. Qed.

Lemma reads_txout : reads TxOut_read txout_typed.
Proof. unfold TxOut_read. rds. apply reads_ret. unfold txout_typed. naive_solver. Qed.

Lemma reads_witness_data : reads TxWitnessData_read (λ d, is_bytes (witness_data d)).
Proof. unfold TxWitnessData_read. rds. apply reads_ret. naive_solver. Qed.

#[local] Hint Resolve reads_txin reads_txout reads_witness_data : reads.

Lemma reads_witness : reads TxWitness_read witness_typed.
Proof. unfold TxWitness_read. rds. apply reads_ret. unfold witness_typed. naive_solver. Qed.

#[local] Hint Resolve reads_witness : reads.

Lemma reads_tx : reads Tx_read tx_typed.
Proof.
  unfold Tx_read. do 2 rd. destruct (Z.eqb_spec a0 0) as [Hz|Hz].
  - rd. destruct (Z.eqb_spec a1 1) as [->|]; [|by apply reads_lift]. rds. apply reads_ret.
    unfold tx_typed. cbn. pose proof (as_u32_range a). naive_solver congruence.
  - rds. apply reads_ret. unfold tx_typed. cbn. pose proof (as_u32_range a).
    split_and!; [done|done|naive_solver|naive_solver|done|]. intros Hi. destruct_and!. subst.
    cbn in *. ints || lia.
Qed.

#[local] Hint Resolve reads_tx : reads.

Lemma reads_header : reads BlockHeader_read block_header_wf.
Proof. unfold BlockHeader_read. rds. by apply reads_ret. Qed.

#[local] Hint Resolve reads_header : reads.

Lemma reads_block : reads Block_read block_typed.
Proof. unfold Block_read. rds. apply reads_ret. unfold block_typed. naive_solver. Qed.

Lemma reads_headers : reads Headers_read (λ h, Forall block_header_wf (headers_inner h)).
Proof.
  unfold Headers_read. rd. eapply reads_bind.
  - apply reads_times with (P := block_header_wf). rds. by apply reads_ret.
  - intros l [Hl _]. by apply reads_ret.
Qed.

Lemma reads_filter : reads CompactFilter_read compact_filter_typed.
Proof. unfold CompactFilter_read. rds. apply reads_ret. unfold compact_filter_typed. naive_solver. Qed.

Lemma reads_filter_header : reads CompactFilterHeader_read compact_filter_header_typed.
Proof.
  unfold CompactFilterHeader_read. rds. apply reads_ret. unfold compact_filter_header_typed. naive_solver.
Qed.

Lemma reads_addr : reads NodeAddr_read node_addr_wf.
Proof.
  unfold NodeAddr_read. rd. eapply reads_bind; [apply reads_io, reads_buf; lia|intros ip [??]].
  rd. by apply reads_ret.
Qed.

#[local] Hint Resolve reads_addr : reads.

(** A string: its length, its bytes, and that they are UTF-8. *)
Lemma reads_string {A} n (k : bytes → parser Error A) P :
  0 ≤ n → n * 1 ≤ isize_max → (∀ s, string_wf s → reads (k s) P) →
  reads (b ← io (read_buf n); s ← lift (from_utf8 b); k s) P.
Proof.
  intros Hn Hmax Hk. eapply reads_bind; [by apply reads_io, reads_buf|intros b [Hb Hl]].
  eapply (reads_bind _ _ string_wf); [|done]. apply reads_lift. intros s. unfold from_utf8.
  destruct (utf8_valid b) eqn:E; [|done]. intros [= <-]. split_and!; [done|unfold vec_ok; lia|done].
Qed.

Lemma as_usize_nonneg z : 0 ≤ as_usize z.
Proof. unfold as_usize. pose proof (as_u32_range z). ints. Qed.

Lemma reads_version : reads Version_read version_wf.
Proof.
  unfold Version_read. do 8 rd. apply reads_string; [apply as_usize_nonneg|done|intros s Hs].
  rds. apply reads_ret. by split_and!.
Qed.

Lemma reads_ping : reads Ping_read ping_wf.
Proof. unfold Ping_read. rds. by apply reads_ret. Qed.

Lemma reads_reject : reads Reject_read reject_wf.
Proof.
  unfold Reject_read. do 2 rd. apply reads_string; [apply as_usize_nonneg|done|intros m Hm].
  do 3 rd. apply reads_string; [apply as_usize_nonneg|done|intros s Hs].
  eapply (reads_bind _ _ (λ d, is_bytes d ∧ zlen d = if has_data m then 32 else 0)).
  - destruct (has_data m); [apply reads_io, reads_buf; lia|]. apply reads_ret. split; [apply is_bytes_nil|done].
  - intros d [??]. apply reads_ret. by split_and!.
Qed.

Lemma reads_inv_vect : reads InvVect_read inv_vect_wf.
Proof. unfold InvVect_read. rds. by apply reads_ret. Qed.

#[local] Hint Resolve reads_inv_vect : reads.

Lemma reads_inv : reads Inv_read inv_wf.
Proof.
  unfold Inv_read. rd. destruct (Z.ltb_spec MAX_INV_ENTRIES (as_usize a)); [apply reads_fail|].
  rds. apply reads_ret. destruct_and!. split; [done|]. pose proof (as_usize_nonneg a).
  unfold zlen. cbn. lia.
Qed.

(** ** Messages *)

Lemma reads_on_cursor {A} b (p : parser Error A) P :
  reads p P → is_bytes b → reads (on_cursor b p) P.
Proof. intros Hp Hb. apply reads_lift. by apply (Hp (cursor b)). Qed.

Lemma reads_message_header : reads MessageHeader_read header_typed.
Proof.
  unfold MessageHeader_read.
  eapply reads_bind; [apply reads_io, reads_exact; unfold MessageHeader_SIZE; lia|intros b [Hb _]].
  apply reads_on_cursor; [|done].
  eapply reads_bind; [apply reads_io, reads_buf; lia|intros ? [??]].
  eapply reads_bind; [apply reads_io, reads_buf; lia|intros ? [??]]. rd.
  eapply reads_bind; [apply reads_io, reads_buf; lia|intros ? [??]]. by apply reads_ret.
Qed.

Lemma reads_payload h : header_typed h → reads (MessageHeader_payload h) is_bytes.
Proof.
  intros ((_ & _ & Hs & _) & _). unfold MessageHeader_payload. rd.
  eapply reads_bind; [apply reads_io, reads_exact; ints|intros b [Hb _]].
  case_bool_decide; [by apply reads_ret|apply reads_fail].
Qed.

Lemma reads_with_payload {A} h (p : parser Error A) k P now :
  header_typed h → reads p P → (∀ a, P a → message_typed now (k a)) →
  reads (with_payload h p k) (message_typed now).
Proof.
  intros Hh Hp Hk. unfold with_payload. eapply reads_bind; [by apply reads_payload|intros b Hb].
  eapply reads_bind; [by apply reads_on_cursor|intros a Ha]. by apply reads_ret, Hk.
Qed.

Lemma reads_no_payload h m now :
  message_typed now m → reads (no_payload h m) (message_typed now).
Proof. intros Hm. unfold no_payload. destruct (_ =? 0); [by apply reads_ret|apply reads_fail]. Qed.

Lemma reads_partial now h :
  header_typed h → reads (Message_read_partial now h) (message_typed now).
Proof.
  intros Hh. unfold Message_read_partial.
  repeat (case_bool_decide;
    [first [by apply reads_no_payload
           |by apply (reads_with_payload h _ _ _ now Hh reads_block)
           |by apply (reads_with_payload h _ _ _ now Hh reads_inv)
           |by apply (reads_with_payload h _ _ _ now Hh reads_headers)
           |by apply (reads_with_payload h _ _ _ now Hh reads_filter)
           |by apply (reads_with_payload h _ _ _ now Hh reads_filter_header)
           |by apply (reads_with_payload h _ _ _ now Hh reads_ping)
           |by apply (reads_with_payload h _ _ _ now Hh reads_reject)
           |by apply (reads_with_payload h _ _ _ now Hh reads_tx)
           |idtac]|]).
  - eapply reads_bind; [by apply reads_payload|intros b Hb].
    eapply reads_bind; [by apply reads_on_cursor; [apply reads_version|]|intros v Hv].
    eapply (reads_bind _ _ (λ _, Version_validate now v = Ok tt)).
    + apply reads_lift. by intros [].
    + intros _ Hval. by apply reads_ret.
  - eapply (reads_bind _ _ (λ _, True)).
    + destruct (_ <? _); [|by apply reads_ret].
      eapply reads_bind; [by apply reads_payload|intros; by apply reads_ret].
    + intros _ _. apply reads_ret. destruct (utf8_valid (mh_command h)) eqn:E; (refine (conj _ _);
        [|done || by vm_compute]); [apply Hh|apply str_is_bytes].
Qed.

End Readers.

(** ** Properties *)

(** C19: what is read is well typed.  Whatever bytes a peer sends, a message that
    [Message::read] returns has every field within the width of its type: integers in
    range, hashes of 32 bytes, scripts and filters of bytes, strings valid UTF-8 and
    inventories within their limit; a transaction has the segwit flag and one witness
    for each input, or neither of them and at least one input; a version message
    passed its validation; and a request that only a client sends is never returned. *)
Theorem message_read_typed `{BO : ByteOrder} `{SHA : Sha256} now r m h r' :
  is_bytes (rd_data r) → Message_read now r = (Ok (m, h), r') →
  message_typed now m ∧ header_typed h ∧ is_bytes (rd_data r').
Proof.
  intros Hr H. unfold Message_read in H. apply parser_bind_inv in H as (h' & r1 & Hh & H).
  destruct (reads_message_header r Hr) as [Hr1 Hty]. rewrite Hh in Hr1, Hty. cbn in Hr1, Hty.
  specialize (Hty _ eq_refl). destruct (reads_partial now h' Hty r1 Hr1) as [Hr2 Hm].
  unfold or_partial in H.
  destruct (Message_read_partial now h' r1) as [[m'|e|s] r2]; cbn in Hr2, Hm.
  - simplify_eq. by split_and!; [apply Hm| |].
  - destruct e; try done. destruct (_ || _); by simplify_eq.
  - done.
Qed.

(** ** Witness: a transaction off the wire *)

Definition typed_stream : reader :=
  cursor match @Message_write std_byteorder padded_sha256 (MTx example_tx) [1; 2; 3; 4] with
         | Ok b => b
         | _ => []
         end.

Lemma message_read_typed_witness :
  ∃ h r', @Message_read std_byteorder padded_sha256 0 typed_stream = (Ok (MTx example_tx, h), r')
    ∧ tx_typed example_tx ∧ is_bytes (rd_data r').
Proof.
  destruct (@Message_read std_byteorder padded_sha256 0 typed_stream) as [[[m h]|e|s] r'] eqn:E;
    [|exfalso; vm_compute in E; discriminate E..].
  assert (m = MTx example_tx) as -> by (vm_compute in E; injection E as <- _ _; reflexivity).
  destruct (@message_read_typed std_byteorder padded_sha256 0 typed_stream (MTx example_tx) h r')
    as (H1 & _ & H2); [by_eval|exact E|].
  exists h, r'. split; [reflexivity|]. split; [exact H1|exact H2].
Defined.
