(* ===== verification/Latch.v ===== *)
(** * The one-way latch ([node/src/util/latch.rs])

    Threads that call the methods of one latch.  Every method runs under the mutex
    from [lock] to its return or to the [wait] of the condition variable, which gives
    the mutex back while the thread sleeps; a step of the model is such a section.
    A sleeping thread is woken by a notification, by its timeout, or spuriously, as
    the standard library allows. *)

From S2P Require Import Prelude Errors.

(** What a thread does in [wait] or [wait_timeout] ([timed]): it sleeps, it was woken
    ([timed_out] when the wait ended by its timeout) and wants the mutex back, or it
    returned. *)
Inductive Thread :=
| Sleeping (timed : bool)
| Woken (timed timed_out : bool)
| Returned (r : outcome Error ()).


Record Latch := MkLatch { latch_open : bool; latch_threads : list Thread }.

Definition Latch_new : Latch := MkLatch false [].

(** [self.condvar.notify_one()]: one of the sleeping threads, if there is one, [n]
    being the choice of the operating system. *)
Definition notify_one (n : nat) (ts : list Thread) : list Thread :=
  match ts !! n with
  | Some (Sleeping timed) => <[n := Woken timed false]> ts
  | _ => ts
  end.

Definition is_sleeping (t : Thread) : bool := match t with Sleeping _ => true | _ => false end.

Definition Latch_open (n : nat) (l : Latch) : Latch :=
  MkLatch true (notify_one n (latch_threads l)).

(** The loop of [wait] and [wait_timeout] with the mutex held: the thread returns or
    sleeps. *)
Definition enter (open timed : bool) : Thread :=
  if open then Returned (Ok ()) else Sleeping timed.

(** The call, by a new thread. *)
Definition Latch_wait (l : Latch) : Latch :=
  MkLatch (latch_open l) (latch_threads l ++ [enter (latch_open l) false]).

Definition Latch_wait_timeout (l : Latch) : Latch :=
  MkLatch (latch_open l) (latch_threads l ++ [enter (latch_open l) true]).

(** A woken thread has the mutex again: [wait_timeout] looks at the timeout first. *)
Definition resume (open : bool) (t : Thread) : Thread :=
  match t with
  | Woken timed timed_out => if timed_out then Returned (Err Timeout) else enter open timed
  | t => t
  end.

Definition Latch_resume (n : nat) (l : Latch) : Latch :=
  MkLatch (latch_open l) (alter (resume (latch_open l)) n (latch_threads l)).

(** The condition variable wakes a thread: by timeout, or spuriously. *)
Definition time_out (t : Thread) : Thread :=
  match t with Sleeping true => Woken true true | t => t end.
Definition wake (t : Thread) : Thread :=
  match t with Sleeping timed => Woken timed false | t => t end.

Definition Latch_opened (l : Latch) : bool := latch_open l.

Definition Latch_fmt (l : Latch) : bytes :=
  str "Latch(" ++ (if Latch_opened l then str "opened" else str "closed") ++ str ")".

(** ** Runs *)

(** A call of [open]: the notification goes to a sleeping thread if there is one. *)
Inductive open_step : Latch → Latch → Prop :=
| step_open n l :
    (∃ t, latch_threads l !! n = Some t ∧ is_sleeping t = true)
    ∨ Forall (λ t, is_sleeping t = false) (latch_threads l) →
    open_step l (Latch_open n l).

(** The other calls, and what happens to the threads inside them. *)
Inductive quiet_step : Latch → Latch → Prop :=
| step_wait l : quiet_step l (Latch_wait l)
| step_wait_timeout l : quiet_step l (Latch_wait_timeout l)
| step_resume n l : quiet_step l (Latch_resume n l)
| step_time_out n l :
    quiet_step l (MkLatch (latch_open l) (alter time_out n (latch_threads l))).

(** The steps that only exist because the library may wake a thread for no reason. *)
Inductive spurious_step : Latch → Latch → Prop :=
| step_spurious n l :
    spurious_step l (MkLatch (latch_open l) (alter wake n (latch_threads l))).

Definition any_step (l l' : Latch) : Prop :=
  open_step l l' ∨ quiet_step l l' ∨ spurious_step l l'.

(** ** Invariants *)

(** A thread returns successfully only through an open latch; only a timed wait
    times out. *)
Definition thread_ok (open : bool) (t : Thread) : Prop :=
  match t with
  | Returned (Ok _) => open = true
  | Returned (Err e) => e = Timeout
  | Returned (Panic _) => False
  | Woken timed true => timed = true
  | _ => True
  end.

Definition latch_inv (l : Latch) : Prop := Forall (thread_ok (latch_open l)) (latch_threads l).

Lemma thread_ok_mono t : ∀ open, thread_ok open t → thread_ok true t.
Proof. intros []; [done|]. destruct t as [|? []|[]]; done. Qed.

Lemma enter_ok open timed : thread_ok open (enter open timed).
Proof. by destruct open. Qed.

Lemma alter_ok (P Q : Thread → Prop) f n ts :
  (∀ t, P t → Q t) → (∀ t, P t → Q (f t)) → Forall P ts → Forall Q (alter f n ts).
Proof.
  intros HPQ Hf Hall. apply Forall_lookup. intros i t. rewrite list_lookup_alter.
  rewrite Forall_lookup in Hall. case_decide; subst.
  - intros (t' & Ht' & ->)%fmap_Some. eauto.
  - eauto.
Qed.

Lemma any_step_inv l l' : any_step l l' → latch_inv l → latch_inv l'.
Proof.
  unfold latch_inv. intros [[n l0 _]|[[l0|l0|n l0|n l0]|[n l0]]] Hi; cbn.
  - assert (Forall (thread_ok true) (latch_threads l0)) as Hi'
      by (eapply Forall_impl; [exact Hi|]; eauto using thread_ok_mono).
    unfold notify_one. repeat case_match; try done. by apply Forall_insert.
  - rewrite Forall_app, Forall_singleton. split; [done|apply enter_ok].
  - rewrite Forall_app, Forall_singleton. split; [done|apply enter_ok].
  - eapply alter_ok; [| |exact Hi]; [done|]. intros [|timed []|r]; cbn; try done.
    intros _. apply enter_ok.
  - eapply alter_ok; [| |exact Hi]; [done|]. by intros [[]|timed []|r].
  - eapply alter_ok; [| |exact Hi]; [done|]. by intros [timed|timed []|r].
Qed.

(** ** Sleepers *)

Definition sleepers (l : Latch) : nat :=
  length (base.filter (λ t, is_sleeping t = true) (latch_threads l)).

(** An [open] takes one thread out of its sleep. *)
Lemma open_step_sleepers l l' :
  open_step l l' → latch_open l' = true ∧ sleepers l' = (sleepers l - 1)%nat.
Proof.
  intros [n l0 Hn]. split; [done|]. unfold sleepers, Latch_open, notify_one. cbn.
  destruct Hn as [(t & Ht & Hs)|Hnone].
  - rewrite Ht. destruct t as [timed| |]; try done.
    rewrite insert_take_drop by (by eapply lookup_lt_Some).
    rewrite <- (take_drop_middle _ _ _ Ht) at 3. rewrite !filter_app, !length_app.
    rewrite filter_cons_False, filter_cons_True by done. cbn [length]. lia.
  - assert (base.filter (λ t, is_sleeping t = true) (latch_threads l0) = []) as Hf.
    { clear n. induction Hnone as [|t ts Ht _ IH]; [done|].
      rewrite filter_cons_False by (by rewrite Ht). exact IH. }
    rewrite Hf. cbn. destruct (latch_threads l0 !! n) as [[timed| |]|] eqn:E; rewrite ?Hf; try done.
    rewrite Forall_lookup in Hnone. by apply Hnone in E.
Qed.

Lemma open_steps_sleepers n l l' :
  nsteps open_step n l l' → (0 < n)%nat →
  latch_open l' = true ∧ sleepers l' = (sleepers l - n)%nat.
Proof.
  intros H Hn. induction H as [l|n l l1 l' Hs H IH]; [lia|].
  apply open_step_sleepers in Hs as [Ho Hs]. destruct n as [|n].
  - inversion H; subst. split; [done|lia].
  - destruct IH as [Ho' Hs']; [lia|]. split; [done|lia].
Qed.

(** ** Properties *)

(** C32: the latch is one-way and honest: in every state that calls of its methods reach,
    whatever the order of the threads and the wake-ups, a thread that came out of
    [wait] or [wait_timeout] successfully found the latch open, one that failed timed
    out, and none panicked. *)
Theorem latch_returns_open l :
  rtc any_step Latch_new l →
  ∀ i r, latch_threads l !! i = Some (Returned r) →
    (r = Ok () ∧ Latch_opened l = true) ∨ r = Err Timeout.
Proof.
  intros Hr. assert (latch_inv l) as Hi.
  { eapply (rtc_ind_r latch_inv); [| |exact Hr]; [constructor|eauto using any_step_inv]. }
  intros i r Hl. unfold latch_inv in Hi. rewrite Forall_lookup in Hi. apply Hi in Hl.
  destruct r as [[]|e|m]; cbn in Hl; [by left|right; congruence|done].
Qed.

(** [open] releases one waiter per call.  After as many calls as there are sleeping
    threads (and at least one) every thread returns as soon as it has the mutex. *)
Theorem opens_release_waiters n l l' :
  nsteps open_step n l l' → (0 < n)%nat → (sleepers l ≤ n)%nat →
  ∀ i t, latch_threads (Latch_resume i l') !! i = Some t → ∃ r, t = Returned r.
Proof.
  intros H Hn Hs. destruct (open_steps_sleepers _ _ _ H Hn) as [Ho Hz].
  intros i t. unfold Latch_resume. cbn [latch_threads]. rewrite list_lookup_alter_eq, Ho.
  intros (u & Hu & ->)%fmap_Some. destruct u as [timed|timed []|r]; cbn; eauto.
  exfalso. assert (Hin : Sleeping timed ∈ base.filter (λ t, is_sleeping t = true) (latch_threads l')).
  { apply list_elem_of_filter. split; [done|by eapply list_elem_of_lookup_2]. }
  unfold sleepers in *. destruct (base.filter _ (latch_threads l')); [set_solver|cbn in Hz; lia].
Qed.

(** [open] does not unblock all waiters.  It notifies one thread only: any other thread
    that sleeps in [wait] stays asleep with the latch open, through every further
    call and timeout, until another [open] or a spurious wake-up reaches it. *)
Theorem open_leaves_waiters l n i l' :
  latch_threads l !! i = Some (Sleeping false) → i ≠ n →
  rtc quiet_step (Latch_open n l) l' →
  Latch_opened l' = true ∧ latch_threads l' !! i = Some (Sleeping false).
Proof.
  intros Hi Hne Hr.
  eapply (rtc_ind_r (λ l', Latch_opened l' = true ∧ latch_threads l' !! i = Some (Sleeping false)));
    [| |exact Hr].
  - split; [done|]. cbn. unfold notify_one.
    repeat case_match; try done. by rewrite list_lookup_insert_ne.
  - intros l1 l2 _ [l0|l0|m l0|m l0] [Ho Ht]; (split; [exact Ho|]); cbn.
    + by apply lookup_app_l_Some.
    + by apply lookup_app_l_Some.
    + rewrite list_lookup_alter. case_decide; subst; by rewrite Ht.
    + rewrite list_lookup_alter. case_decide; subst; by rewrite Ht.
Qed.

(** ** Witnesses *)

Definition two_waiters : Latch := Latch_wait (Latch_wait Latch_new).

Lemma latch_returns_open_witness :
  let l := Latch_resume 0 (Latch_open 0 two_waiters) in
  latch_threads l = [Returned (Ok ()); Sleeping false] ∧ Latch_opened l = true.
Proof.
  cbv zeta. split; [reflexivity|].
  destruct (latch_returns_open (Latch_resume 0 (Latch_open 0 two_waiters))
    ltac:(eapply rtc_l; [right; left; apply step_wait|];
          eapply rtc_l; [right; left; apply step_wait|];
          eapply rtc_l; [left; apply (step_open 0); left; eexists; split; reflexivity|];
          eapply rtc_l; [right; left; apply (step_resume 0)|]; apply rtc_refl)
    0%nat (Ok ()) eq_refl) as [[_ H]|H]; [exact H|discriminate H].
Defined.

Lemma opens_release_waiters_witness :
  ∃ l', nsteps open_step 2 two_waiters l'
    ∧ ∀ i t, latch_threads (Latch_resume i l') !! i = Some t → ∃ r, t = Returned r.
Proof.
  exists (Latch_open 1 (Latch_open 0 two_waiters)).
  assert (nsteps open_step 2 two_waiters (Latch_open 1 (Latch_open 0 two_waiters))) as H.
  { eapply nsteps_l; [apply (step_open 0); left; eexists; split; reflexivity|].
    eapply nsteps_l; [apply (step_open 1); left; eexists; split; reflexivity|]. apply nsteps_O. }
  split; [exact H|].
  apply (opens_release_waiters 2 two_waiters _ H); vm_compute; lia.
Defined.

(** Two threads wait, the latch is opened, the first returns; the second sleeps. *)
Lemma open_leaves_waiters_witness :
  Latch_opened (Latch_resume 0 (Latch_open 0 two_waiters)) = true
  ∧ latch_threads (Latch_resume 0 (Latch_open 0 two_waiters)) !! 1%nat = Some (Sleeping false).
Proof.
  apply (open_leaves_waiters two_waiters 0 1); [reflexivity|lia|].
  eapply rtc_l; [apply (step_resume 0)|]. apply rtc_refl.
Defined.
