(* ===== verification/BitList.v ===== *)
(** * Bit strings

    Bit strings, most significant bit first, as the reference view of the
    bit-level readers of [node/src/util/bits.rs] and
    [node/src/util/block_filter.rs]. *)

From S2P Require Import Prelude.

(** The bits of a byte and of a byte string. *)
Definition byte_bits (b : Z) : list bool :=
  map (λ i, Z.testbit b (7 - i)) (seqZ 0 8).

Definition bits_of (l : bytes) : list bool := concat (map byte_bits l).

(** The number a bit string denotes. *)
Definition bits_value (l : list bool) : Z := foldl (λ acc b, 2 * acc + Z.b2z b) 0 l.

(** The [n] low bits of a number. *)
Fixpoint low_bits (n : nat) (z : Z) : list bool :=
  match n with
  | O => []
  | S n => low_bits n (z / 2) ++ [Z.odd z]
  end.

Lemma byte_bits_length b : length (byte_bits b) = 8%nat.
Proof. done. Qed.

Lemma bits_of_length l : length (bits_of l) = (8 * length l)%nat.
Proof.
  induction l as [|b l IH]; [done|]. unfold bits_of in *. cbn [map concat].
  rewrite length_app, IH, byte_bits_length. cbn [length]. lia.
Qed.

Lemma bits_of_cons b l : bits_of (b :: l) = byte_bits b ++ bits_of l.
Proof. done. Qed.

Lemma bits_of_app l k : bits_of (l ++ k) = bits_of l ++ bits_of k.
Proof. unfold bits_of. by rewrite map_app, concat_app. Qed.

Lemma foldl_bits acc l :
  foldl (λ acc b, 2 * acc + Z.b2z b) acc l = acc * 2 ^ zlen l + bits_value l.
Proof.
  unfold bits_value. revert acc. induction l as [|b l IH]; intros acc.
  - cbn. change (zlen []) with 0. lia.
  - cbn [foldl]. rewrite (IH (2 * acc + _)), (IH (2 * 0 + _)), zlen_cons.
    rewrite Z.pow_add_r by (pose proof (zlen_nonneg l); lia). lia.
Qed.

Lemma bits_value_app l k : bits_value (l ++ k) = bits_value l * 2 ^ zlen k + bits_value k.
Proof.
  unfold bits_value at 1. rewrite foldl_app. fold (bits_value l). apply foldl_bits.
Qed.

Lemma bits_value_bound l : 0 ≤ bits_value l < 2 ^ zlen l.
Proof.
  induction l as [|b l IH] using rev_ind; [done|].
  rewrite bits_value_app, zlen_app, Z.pow_add_r by apply zlen_nonneg.
  change (zlen [b]) with 1. change (bits_value [b]) with (Z.b2z b).
  rewrite Z.pow_1_r. destruct b; cbn [Z.b2z]; lia.
Qed.

Lemma low_bits_length n z : length (low_bits n z) = n.
Proof.
  revert z. induction n as [|n IH]; intros z; [done|]. cbn.
  rewrite length_app, IH. cbn. lia.
Qed.

Lemma bits_value_low_bits n z : 0 ≤ z < 2 ^ Z.of_nat n → bits_value (low_bits n z) = z.
Proof.
  revert z. induction n as [|n IH]; intros z Hz; [cbn in *; lia|].
  rewrite Nat2Z.inj_succ, Z.pow_succ_r in Hz by lia.
  cbn [low_bits]. rewrite bits_value_app, IH.
  - change (zlen [Z.odd z]) with 1. unfold bits_value. cbn [foldl].
    rewrite (Z.div_mod z 2) at 3 by lia. rewrite Zmod_odd. destruct (Z.odd z); cbn; lia.
  - split; [apply Z.div_pos; lia|apply Z.div_lt_upper_bound; lia].
Qed.

Lemma lor_disjoint a b n : 0 ≤ n → 0 ≤ b < 2 ^ n → Z.lor (Z.shiftl a n) b = a * 2 ^ n + b.
Proof.
  intros Hn Hb. rewrite <- Z.shiftl_mul_pow2 by done.
  rewrite Z.add_nocarry_lxor, Z.lxor_lor; [done|..];
    (apply Z.bits_inj'; intros i Hi; rewrite Z.land_spec, Z.bits_0;
     destruct (Z.lt_ge_cases i n);
     [by rewrite Z.shiftl_spec_low
     |rewrite <- (Z.mod_small b (2 ^ n)) by done;
      by rewrite Z.mod_pow2_bits_high, andb_false_r by lia]).
Qed.

(** ** Bytes, exhaustively *)

Lemma forall_byte (P : Z → bool) :
  forallb P (seqZ 0 256) = true → ∀ b, is_u8 b → P b = true.
Proof.
  intros H b Hb. rewrite forallb_forall in H. apply H.
  apply list_elem_of_In, elem_of_seqZ. ints.
Qed.

Lemma forall_below (n : Z) (P : Z → bool) :
  forallb P (seqZ 0 n) = true → ∀ i, 0 ≤ i < n → P i = true.
Proof.
  intros H i Hi. rewrite forallb_forall in H. apply H.
  apply list_elem_of_In, elem_of_seqZ. lia.
Qed.

(** [n] bits of a byte from an offset, the way both readers extract them. *)
Definition byte_slice_ok (b : Z) : bool :=
  forallb (λ off, forallb (λ n,
    (8 <? off + n) || (n =? 0)
    || (Z.shiftr (as_u8 (Z.shiftl b off)) (8 - n)
        =? bits_value (take (Z.to_nat n) (drop (Z.to_nat off) (byte_bits b)))))
    (seqZ 0 9)) (seqZ 0 8).

Lemma byte_slice b off n :
  is_u8 b → 0 ≤ off < 8 → 0 < n → off + n ≤ 8 →
  Z.shiftr (as_u8 (Z.shiftl b off)) (8 - n)
  = bits_value (take (Z.to_nat n) (drop (Z.to_nat off) (byte_bits b))).
Proof.
  intros Hb Ho Hn Hs.
  assert (byte_slice_ok b = true) as H
    by (revert b Hb; apply forall_byte; vm_compute; reflexivity).
  pose proof (forall_below _ _ H off Ho) as H1. cbv beta in H1.
  pose proof (forall_below _ _ H1 n ltac:(lia)) as H2. cbv beta in H2.
  rewrite !orb_true_iff, Z.ltb_lt, !Z.eqb_eq in H2. lia.
Qed.
