(* ===== verification/Bits.v ===== *)
(** * Bit arrays and shifts of byte strings ([node/src/util/bits.rs])

    [Bits] is an array of bits in bytes, most significant bit first; [lshift] and
    [rshift] shift a byte string.  The reference view is the list of bits. *)

From S2P Require Import Prelude BitList.

Record Bits := MkBits { bits_data : bytes; bits_len : Z }.

Definition Bits_new : Bits := MkBits [] 0.

(** [Vec::with_capacity] changes nothing that can be observed. *)
Definition Bits_with_capacity (capacity : Z) : Bits := MkBits [] 0.

(** [v[k] op= val] in range. *)
Definition update_at (f : Z → Z) (k : nat) (l : bytes) : bytes := alter f k l.

Definition Bits_from_slice {E} (data : bytes) (len : Z) : outcome E Bits :=
  capacity ← mul_u32 (zlen data) 8;
  let len := Z.min capacity len in
  let vec := if capacity <? len then take (Z.to_nat ((len + 7) / 8)) data else data in
  let rem := len mod 8 in
  let vec :=
    if rem =? 0 then vec
    else update_at (λ b, Z.land b (as_u8 (Z.lnot (Z.shiftl 1 (8 - rem) - 1))))
           (length vec - 1) vec in
  Ok (MkBits vec len).

Definition append_byte {E} (b : Bits) (byte len : Z) : outcome E Bits :=
  let end_ := bits_len b mod 8 in
  if end_ =? 0 then
    len' ← add_u32 (bits_len b) len; Ok (MkBits (bits_data b ++ [byte]) len')
  else
    last ← sub_u32 (zlen (bits_data b)) 1;
    let data := update_at (λ x, Z.lor x (Z.shiftr byte end_)) (Z.to_nat last) (bits_data b) in
    let data := if 8 - end_ <? len then data ++ [as_u8 (Z.shiftl byte (8 - end_))] else data in
    len' ← add_u32 (bits_len b) len;
    Ok (MkBits data len').

(** [other.data[i]]. *)
Definition byte_at {E} (data : bytes) (i : nat) : outcome E Z :=
  unwrap_opt "index out of bounds" (data !! i).

(** [while i < other.len / 8 { .. }], from [i], [n] turns. *)
Fixpoint append_bytes {E} (b : Bits) (data : bytes) (i n : nat) : outcome E Bits :=
  match n with
  | O => Ok b
  | S n => x ← byte_at data i; b ← append_byte b x 8; append_bytes b data (S i) n
  end.

Definition Bits_append {E} (b other : Bits) : outcome E Bits :=
  let n := Z.to_nat (bits_len other / 8) in
  b ← append_bytes b (bits_data other) 0 n;
  let rem := bits_len other mod 8 in
  if rem =? 0 then Ok b else x ← byte_at (bits_data other) n; append_byte b x rem.

(** [b >> n] on a [u8]: the shift itself panics from 8 on. *)
Definition shr_u8 {E} (b n : Z) : outcome E Z :=
  if n <? 8 then Ok (Z.shiftr b n) else Panic "attempt to shift right with overflow".

Definition extract_byte {E} (b : Bits) (i len : Z) : outcome E Z :=
  x ← byte_at (bits_data b) (Z.to_nat (i / 8));
  first ← sub_u32 8 (i mod 8);
  shift ← sub_u32 first len;
  y ← shr_u8 x shift;
  Ok (Z.land y (Z.shiftl 1 len - 1)).

(** The loop of [extract] over [j], [n] turns. *)
Fixpoint extract_loop {E} (b : Bits) (end_ : Z) (n : nat) (j i curr : Z) : outcome E Z :=
  match n with
  | O => Ok curr
  | S n =>
    let b_len := Z.min (end_ - i) (8 - (i - j * 8)) in
    x ← extract_byte b i b_len;
    extract_loop b end_ n (j + 1) (i + b_len) (Z.lor (as_u64 (Z.shiftl curr b_len)) x)
  end.

Definition Bits_extract {E} (b : Bits) (i len : Z) : outcome E Z :=
  end_ ← add_u32 i len;
  top ← add_u32 end_ 7;
  extract_loop b end_ (Z.to_nat (top / 8 - i / 8)) (i / 8) i 0.

(** ** Shifts *)

Definition LSHIFT_MASK : list Z := [0xff; 0x7f; 0x3f; 0x1f; 0x0f; 0x07; 0x03; 0x01].
Definition RSHIFT_MASK : list Z := [0xff; 0xfe; 0xfc; 0xf8; 0xf0; 0xe0; 0xc0; 0x80].

Definition mask_of (table : list Z) (bit_shift : Z) : Z := nth (Z.to_nat bit_shift) table 0.

(** [result[k] |= val]. *)
Definition or_at (k : nat) (val : Z) (l : bytes) : bytes := update_at (λ b, Z.lor b val) k l.

(** The two parts a byte is split into by a left shift. *)
Definition lshift_val (bit_shift b : Z) : Z :=
  as_u8 (Z.shiftl (Z.land b (mask_of LSHIFT_MASK bit_shift)) bit_shift).
Definition lshift_carry (bit_shift b : Z) : Z :=
  Z.shiftr (Z.land b (as_u8 (Z.lnot (mask_of LSHIFT_MASK bit_shift)))) ((8 - bit_shift) mod 8).

Definition lshift_turn (v : bytes) (bit_shift byte_shift : Z) (i : nat) (result : bytes) : bytes :=
  let k := Z.of_nat i - byte_shift in
  let b := nth i v 0 in
  let result := if 0 <=? k then or_at (Z.to_nat k) (lshift_val bit_shift b) result else result in
  if 0 <? k then or_at (Z.to_nat (k - 1)) (lshift_carry bit_shift b) result else result.

(** [for i in (0..v.len()).rev()]: the last index first. *)
Definition lshift (v : bytes) (n : Z) : bytes :=
  foldr (lshift_turn v (n mod 8) (n / 8)) (replicate (length v) 0) (seq 0 (length v)).

Definition rshift_val (bit_shift b : Z) : Z :=
  Z.shiftr (Z.land b (mask_of RSHIFT_MASK bit_shift)) bit_shift.
Definition rshift_carry (bit_shift b : Z) : Z :=
  as_u8 (Z.shiftl (Z.land b (as_u8 (Z.lnot (mask_of RSHIFT_MASK bit_shift))))
           ((8 - bit_shift) mod 8)).

Definition rshift_turn (v : bytes) (bit_shift byte_shift : Z) (result : bytes) (i : nat) : bytes :=
  let k := Z.of_nat i + byte_shift in
  let b := nth i v 0 in
  let result :=
    if k <? zlen v then or_at (Z.to_nat k) (rshift_val bit_shift b) result else result in
  if k + 1 <? zlen v then or_at (Z.to_nat (k + 1)) (rshift_carry bit_shift b) result
  else result.

Definition rshift (v : bytes) (n : Z) : bytes :=
  foldl (rshift_turn v (n mod 8) (n / 8)) (replicate (length v) 0) (seq 0 (length v)).

(** The tests of the source. *)
Example lshift_tests :
  lshift [] 1 = [] ∧ lshift [0x80; 0x10; 0x30; 0x55] 0 = [0x80; 0x10; 0x30; 0x55]
  ∧ lshift [0x80; 0; 0; 1] 1 = [0; 0; 0; 2] ∧ lshift [1; 0x23; 0x45; 0x67] 4 = [0x12; 0x34; 0x56; 0x70]
  ∧ lshift [1; 0x23; 0x45; 0x67] 8 = [0x23; 0x45; 0x67; 0]
  ∧ lshift [0x80; 0; 0; 0] 999999 = [0; 0; 0; 0].
Proof. by_eval. Qed.

Example rshift_tests :
  rshift [] 1 = [] ∧ rshift [0x80; 0x10; 0x30; 0x55] 0 = [0x80; 0x10; 0x30; 0x55]
  ∧ rshift [0x80; 0; 0; 2] 1 = [0x40; 0; 0; 1] ∧ rshift [1; 0x23; 0x45; 0x67] 4 = [0; 0x12; 0x34; 0x56]
  ∧ rshift [1; 0x23; 0x45; 0x67] 8 = [0; 1; 0x23; 0x45]
  ∧ rshift [0; 0; 0; 1] 999999 = [0; 0; 0; 0].
Proof. by_eval. Qed.

(** The append test of the source, and its extract test. *)
Example bits_append_test :
  (b ← Bits_from_slice [255] 8; c ← Bits_from_slice [0] 4; b ← Bits_append b c;
   c ← Bits_from_slice [255] 2; b ← Bits_append b c;
   c ← Bits_from_slice [63] 4; Bits_append (E := unit) b c)
  = Ok (MkBits [255; 12; 192] 18).
Proof. reflexivity. Qed.

Example bits_extract_test :
  (b ← Bits_from_slice [15; 23; 192] 24; Bits_extract (E := unit) b 4 13) = Ok 7727.
Proof. reflexivity. Qed.

(** ** Bits of bytes *)

Lemma byte_bits_lookup b q : (q < 8)%nat → byte_bits b !! q = Some (Z.testbit b (7 - Z.of_nat q)).
Proof. intros. do 8 (destruct q as [|q]; [reflexivity|]). lia. Qed.

Lemma bits_of_lookup l p :
  bits_of l !! p
  = (λ b, Z.testbit b (7 - Z.of_nat (p mod 8))) <$> l !! (p / 8)%nat.
Proof.
  revert p. induction l as [|b l IH]; intros p; [change (bits_of []) with (@nil bool); by rewrite !lookup_nil|].
  rewrite bits_of_cons. destruct (decide (p < 8)%nat).
  - rewrite lookup_app_l by (rewrite byte_bits_length; lia).
    rewrite Nat.div_small, Nat.mod_small by lia. by apply byte_bits_lookup.
  - rewrite lookup_app_r by (rewrite byte_bits_length; lia). rewrite byte_bits_length, IH.
    assert (Hp : p = (p - 8 + 1 * 8)%nat) by lia. remember (p - 8)%nat as k eqn:E. clear E. subst p.
    rewrite Nat.div_add, Nat.Div0.mod_add, (Nat.add_comm _ 1) by lia. done.
Qed.

Lemma bits_of_one b : bits_of [b] = byte_bits b.
Proof. apply app_nil_r. Qed.

Lemma as_u8_range z : is_u8 (as_u8 z).
Proof. unfold is_u8, as_u8. by apply Z.mod_pos_bound. Qed.

Lemma lor_u8 a b : is_u8 a → is_u8 b → is_u8 (Z.lor a b).
Proof.
  intros Ha Hb. assert (0 ≤ Z.lor a b) by (apply Z.lor_nonneg; ints). split; [done|].
  destruct (decide (Z.lor a b = 0)) as [->|]; [done|]. assert (0 < Z.lor a b) by lia.
  change 256 with (2 ^ 8). apply Z.log2_lt_pow2; [done|]. rewrite Z.log2_lor by ints.
  apply Z.max_lub_lt; (eapply Z.le_lt_trans; [apply (Z.log2_le_mono _ 255); ints|done]).
Qed.

Lemma land_u8 a b : is_u8 a → is_u8 b → is_u8 (Z.land a b).
Proof.
  intros Ha Hb. assert (0 ≤ Z.land a b) by (apply Z.land_nonneg; ints). split; [done|].
  rewrite <- (Z.mod_small b 256) by ints. change 256 with (2 ^ 8).
  rewrite <- Z.land_ones, Z.land_assoc, Z.land_ones by done. by apply Z.mod_pos_bound.
Qed.

Lemma shiftr_u8 b n : is_u8 b → 0 ≤ n → is_u8 (Z.shiftr b n).
Proof.
  intros Hb Hn. rewrite Z.shiftr_div_pow2 by done.
  pose proof (Z.pow_pos_nonneg 2 n eq_refl Hn). split; [apply Z.div_pos; ints|].
  apply Z.div_lt_upper_bound; [done|]. unfold is_u8 in *. nia.
Qed.

Lemma byte_bits_lor a b : byte_bits (Z.lor a b) = zip_with orb (byte_bits a) (byte_bits b).
Proof.
  unfold byte_bits. change (seqZ 0 8) with [0; 1; 2; 3; 4; 5; 6; 7]. cbn [map zip_with].
  by rewrite !Z.lor_spec.
Qed.

(** A statement about a byte and a number below [n], by evaluation. *)
Ltac by_bytes :=
  let P := fresh in
  lazymatch goal with
  | H : is_u8 ?b, H' : 0 ≤ ?i < ?m |- @eq ?T ?x ?y =>
    revert i H'; revert b H;
    let Q := lazymatch goal with |- ∀ b, is_u8 b → ∀ i, _ → @eq T (@?f b i) (@?g b i) => constr:(λ b i, bool_decide (f b i = g b i)) end in
    let F := fresh in
    assert (forallb (λ b, forallb (Q b) (seqZ 0 m)) (seqZ 0 256) = true) as F
      by (vm_compute; reflexivity);
    intros b Hb i Hi;
    pose proof (forall_below _ _ (forall_byte _ F b Hb) i Hi) as P;
    exact (bool_decide_eq_true_1 _ P)
  end.

Lemma byte_bits_shiftr b e :
  is_u8 b → 0 ≤ e < 8 →
  byte_bits (Z.shiftr b e) = replicate (Z.to_nat e) false ++ take (Z.to_nat (8 - e)) (byte_bits b).
Proof. intros Hb He. by_bytes. Qed.

Lemma byte_bits_shiftl b e :
  is_u8 b → 0 ≤ e < 8 →
  byte_bits (as_u8 (Z.shiftl b (8 - e)))
  = drop (Z.to_nat (8 - e)) (byte_bits b) ++ replicate (Z.to_nat (8 - e)) false.
Proof. intros Hb He. by_bytes. Qed.

Lemma byte_bits_mask b rem :
  is_u8 b → 0 ≤ rem < 8 →
  byte_bits (Z.land b (as_u8 (Z.lnot (Z.shiftl 1 (8 - rem) - 1))))
  = take (Z.to_nat rem) (byte_bits b) ++ replicate (Z.to_nat (8 - rem)) false.
Proof. intros Hb He. by_bytes. Qed.

Lemma byte_extract b off n :
  is_u8 b → 0 ≤ off < 8 → 0 ≤ n → off + n ≤ 8 →
  Z.land (Z.shiftr b (8 - off - n)) (Z.shiftl 1 n - 1)
  = bits_value (take (Z.to_nat n) (drop (Z.to_nat off) (byte_bits b))).
Proof.
  intros Hb Ho Hn Hs.
  assert (Hk : 0 ≤ off + 8 * n < 72) by lia.
  assert (Hoff : off = (off + 8 * n) mod 8) by (rewrite Z.mul_comm, Z.mod_add; [|lia]; rewrite Z.mod_small; lia).
  assert (Hnn : n = (off + 8 * n) / 8) by (rewrite Z.mul_comm, Z.div_add, Z.div_small; lia).
  assert (G : ∀ b k, is_u8 b → 0 ≤ k < 72 →
    (if k mod 8 + k / 8 <=? 8 then Z.land (Z.shiftr b (8 - k mod 8 - k / 8)) (Z.shiftl 1 (k / 8) - 1)
     else 0)
    = if k mod 8 + k / 8 <=? 8 then
        bits_value (take (Z.to_nat (k / 8)) (drop (Z.to_nat (k mod 8)) (byte_bits b))) else 0).
  { clear. intros b k Hb Hk. by_bytes. }
  specialize (G b _ Hb Hk). rewrite <- Hoff, <- Hnn in G.
  by replace (off + n <=? 8) with true in G by (symmetry; apply Z.leb_le; lia).
Qed.

(** ** What a bit array holds

    [Holds b l]: the array holds the bits [l], and every bit of its last byte
    beyond them is zero. *)

Record Holds (b : Bits) (l : list bool) : Prop := {
  holds_bytes : is_bytes (bits_data b);
  holds_len : bits_len b = zlen l;
  holds_pad : ∃ k, (k < 8)%nat ∧ bits_of (bits_data b) = l ++ replicate k false
}.

Lemma new_holds : Holds Bits_new [].
Proof. split; [constructor|done|]. exists 0%nat. split; [lia|done]. Qed.

Lemma alter_snoc (f : Z → Z) d z : update_at f (length (d ++ [z]) - 1) (d ++ [z]) = d ++ [f z].
Proof.
  unfold update_at. rewrite length_app. cbn [length].
  replace (length d + 1 - 1)%nat with (length d + 0)%nat by lia. by rewrite alter_app_r.
Qed.

(** The last byte of an array whose length is not a multiple of eight. *)
Lemma holds_last b l :
  Holds b l → zlen l mod 8 ≠ 0 →
  ∃ d z l2, bits_data b = d ++ [z] ∧ is_bytes d ∧ is_u8 z ∧ l = bits_of d ++ l2
    ∧ zlen l2 = zlen l mod 8
    ∧ byte_bits z = l2 ++ replicate (Z.to_nat (8 - zlen l mod 8)) false.
Proof.
  intros [Hb Hl (k & Hk & Hd)] Hm.
  assert (Hn : (8 * length (bits_data b) = length l + k)%nat)
    by (apply (f_equal length) in Hd; by rewrite bits_of_length, length_app, length_replicate in Hd).
  unfold zlen in *. assert (Hk' : Z.of_nat k = 8 - Z.of_nat (length l) mod 8)
    by (pose proof (Z.mod_pos_bound (Z.of_nat (length l)) 8 eq_refl);
        pose proof (Z.div_mod (Z.of_nat (length l)) 8 ltac:(done)); lia).
  destruct (bits_data b) as [|z d _] eqn:E using rev_ind.
  { destruct l; [done|cbn in Hn; lia]. }
  apply is_bytes_app in Hb as [Hb1 Hb2]. apply is_bytes_cons in Hb2 as [Hz _].
  rewrite bits_of_app, length_app in *. cbn [length] in Hn.
  rewrite bits_of_one in Hd. exists d, z, (drop (8 * length d) l).
  assert (Hlen : (8 * length d ≤ length l)%nat) by lia.
  assert (H1 : take (8 * length d) l = bits_of d).
  { apply (f_equal (take (8 * length d))) in Hd.
    rewrite take_app_length' in Hd by (by rewrite bits_of_length).
    by rewrite take_app_le in Hd by lia. }
  split_and!; try done.
  - by rewrite <- H1, take_drop.
  - rewrite length_drop. lia.
  - apply (f_equal (drop (8 * length d))) in Hd.
    rewrite drop_app_length' in Hd by (by rewrite bits_of_length).
    rewrite drop_app_le in Hd by lia. rewrite Hd. f_equal. f_equal. lia.
Qed.

Lemma zip_orb_pad (l m : list bool) :
  zip_with orb (l ++ replicate (length m) false) (replicate (length l) false ++ m) = l ++ m.
Proof.
  induction l as [|x l IH]; cbn; [|by rewrite IH, orb_false_r].
  induction m as [|y m IHm]; cbn; by rewrite ?IHm.
Qed.

Lemma append_byte_holds {E} b l byte x :
  Holds b l → is_u8 byte → (1 ≤ length x ≤ 8)%nat →
  byte_bits byte = x ++ replicate (8 - length x) false →
  zlen l + zlen x < 4294967296 →
  ∃ b', @append_byte E b byte (zlen x) = Ok b' ∧ Holds b' (l ++ x).
Proof.
  intros Hh Hbyte Hx Hbits Hlim. unfold append_byte. rewrite (holds_len _ _ Hh).
  pose proof (zlen_nonneg l). pose proof (zlen_nonneg x).
  unfold add_u32. rewrite checked_ok by lia.
  case (Z.eqb_spec (zlen l mod 8) 0); intros Hm.
  - destruct Hh as [Hb Hl (k & Hk & Hd)].
    assert (k = 0)%nat as ->.
    { apply (f_equal length) in Hd. rewrite bits_of_length, length_app, length_replicate in Hd.
      apply Z.mod_divide in Hm as [q Hq]; unfold zlen in *; lia. }
    eexists; split; [reflexivity|]. rewrite app_nil_r in Hd. split; cbn [bits_data bits_len].
    + rewrite is_bytes_app, is_bytes_cons. auto using is_bytes_nil.
    + by rewrite zlen_app.
    + exists (8 - length x)%nat. split; [lia|].
      rewrite bits_of_app, Hd, bits_of_cons, Hbits. by rewrite app_nil_r, app_assoc.
  - destruct (holds_last _ _ Hh Hm) as (d & z & l2 & Hdata & Hd & Hz & -> & Hl2 & Hzb).
    remember (zlen (bits_of d ++ l2) mod 8) as e eqn:Ee.
    assert (He : 0 ≤ e < 8) by (subst e; by apply Z.mod_pos_bound).
    pose proof (zlen_nonneg d). assert (zlen d < 4294967295).
    { rewrite zlen_app in Hlim. unfold zlen in *. rewrite bits_of_length in Hlim. lia. }
    unfold sub_u32. rewrite Hdata, checked_ok by (rewrite zlen_app; change (zlen [z]) with 1; lia).
    cbn [mbind outcome_bind].
    replace (Z.to_nat (zlen (d ++ [z]) - 1)) with (length (d ++ [z]) - 1)%nat by (unfold zlen; lia).
    rewrite alter_snoc.
    assert (Hor : byte_bits (Z.lor z (Z.shiftr byte e)) = l2 ++ take (Z.to_nat (8 - e)) (byte_bits byte)).
    { rewrite byte_bits_lor, byte_bits_shiftr, Hzb by done.
      etransitivity; [|apply zip_orb_pad]. f_equal; f_equal; f_equal;
        rewrite ?length_take, ?byte_bits_length; unfold zlen in *; lia. }
    assert (Hu : is_u8 (Z.lor z (Z.shiftr byte e))) by (apply lor_u8; [done|apply shiftr_u8; [done|lia]]).
    destruct (Z.ltb_spec (8 - e) (zlen x)); eexists; (split; [reflexivity|]); split; cbn [bits_data bits_len].
    1, 4: rewrite !is_bytes_app, !is_bytes_cons; auto using is_bytes_nil, as_u8_range.
    1, 3: by rewrite !zlen_app.
    + exists (8 - length x + Z.to_nat (8 - e))%nat. split; [unfold zlen in *; lia|].
      rewrite !bits_of_app, !bits_of_one, Hor, byte_bits_shiftl by done.
      rewrite replicate_add, <- !app_assoc. do 2 f_equal.
      rewrite (app_assoc (take _ _)), take_drop, Hbits. by rewrite <- app_assoc.
    + exists (Z.to_nat (8 - e) - length x)%nat. split; [unfold zlen in *; lia|].
      rewrite bits_of_app, bits_of_one, Hor, <- !app_assoc. do 2 f_equal.
      rewrite Hbits, take_app, take_replicate. unfold zlen in *.
      rewrite take_ge by lia. do 2 f_equal. lia.
Qed.

Lemma take_bits_of l n : bits_of (take n l) = take (8 * n) (bits_of l).
Proof.
  revert n. induction l as [|b l IH]; intros n.
  { rewrite take_nil. by destruct n. }
  destruct n as [|n]; [done|]. cbn [take]. rewrite !bits_of_cons, IH.
  replace (8 * S n)%nat with (length (byte_bits b) + 8 * n)%nat
    by (rewrite byte_bits_length; lia). by rewrite take_app_add.
Qed.

Lemma drop_bits_of l n : bits_of (drop n l) = drop (8 * n) (bits_of l).
Proof.
  revert n. induction l as [|b l IH]; intros n.
  { rewrite drop_nil. by destruct n. }
  destruct n as [|n]; [done|]. cbn [drop]. rewrite !bits_of_cons, IH.
  replace (8 * S n)%nat with (length (byte_bits b) + 8 * n)%nat
    by (rewrite byte_bits_length; lia). by rewrite drop_app_add.
Qed.

Lemma byte_of_bits l i b :
  l !! i = Some b → byte_bits b = take 8 (drop (8 * i) (bits_of l)).
Proof.
  intros H. rewrite <- drop_bits_of, (drop_S _ _ _ H), bits_of_cons.
  by rewrite (take_app_length' (byte_bits b)) by done.
Qed.

Lemma append_bytes_holds {E} n : ∀ b l data i,
  Holds b l → is_bytes data → (i + n ≤ length data)%nat →
  zlen l + 8 * Z.of_nat n < 4294967296 →
  ∃ b', @append_bytes E b data i n = Ok b'
    ∧ Holds b' (l ++ bits_of (take n (drop i data))).
Proof.
  induction n as [|n IH]; intros b l data i Hh Hd Hi Hlim.
  { exists b. rewrite take_0, app_nil_r. done. }
  cbn [append_bytes]. destruct (lookup_lt_is_Some_2 data i) as [x Hx]; [lia|].
  unfold byte_at. rewrite Hx. cbn [unwrap_opt mbind outcome_bind].
  assert (is_u8 x) by (eapply Forall_lookup_1; eassumption).
  destruct (append_byte_holds (E := E) b l x (byte_bits x)) as (b1 & Hb1 & Hh1);
    [done|done|rewrite byte_bits_length; lia|by rewrite app_nil_r|change (zlen (byte_bits x)) with 8; lia|].
  change (zlen (byte_bits x)) with 8 in Hb1. rewrite Hb1. cbn [mbind outcome_bind].
  destruct (IH b1 (l ++ byte_bits x) data (S i)) as (b2 & Hb2 & Hh2);
    [done|done|lia|rewrite zlen_app; change (zlen (byte_bits x)) with 8; lia|].
  exists b2. split; [done|]. rewrite (drop_S _ _ _ Hx). cbn [take].
  by rewrite bits_of_cons, app_assoc.
Qed.

Lemma holds_data_length b l :
  Holds b l → Z.of_nat (length (bits_data b)) = (zlen l + 7) / 8.
Proof.
  intros [_ _ (k & Hk & Hd)]. apply (f_equal length) in Hd.
  rewrite bits_of_length, length_app, length_replicate in Hd.
  apply Z.div_unique with (r := 7 - Z.of_nat k); unfold zlen; lia.
Qed.

Lemma append_holds {E} b l o m :
  Holds b l → Holds o m → zlen l + zlen m < 4294967296 →
  ∃ b', @Bits_append E b o = Ok b' ∧ Holds b' (l ++ m).
Proof.
  intros Hb Ho Hlim. pose proof (holds_data_length _ _ Ho) as Hlen.
  destruct (Ho) as [Hob Hol (k & Hk & Hbits)].
  unfold Bits_append. rewrite Hol. remember (Z.to_nat (zlen m / 8)) as n eqn:En.
  pose proof (zlen_nonneg m) as Hm0. pose proof (zlen_nonneg l) as Hl0.
  pose proof (Z.div_mod (zlen m) 8 ltac:(done)) as Hdm.
  pose proof (Z.mod_pos_bound (zlen m) 8 eq_refl) as Hmod.
  assert (Hn : Z.of_nat n = zlen m / 8) by (subst n; rewrite Z2Nat.id; [done|by apply Z.div_pos]).
  assert (Hnd : (n ≤ length (bits_data o))%nat).
  { assert (zlen m / 8 ≤ (zlen m + 7) / 8) by (apply Z.div_le_mono; lia). lia. }
  destruct (append_bytes_holds (E := E) n b l (bits_data o) 0) as (b1 & Hb1 & Hh1); [done..|lia|].
  rewrite Hb1. cbn [mbind outcome_bind]. rewrite drop_0, take_bits_of, Hbits in Hh1.
  rewrite take_app_le in Hh1 by (unfold zlen in *; lia).
  case (Z.eqb_spec (zlen m mod 8) 0); intros Hr.
  { exists b1. split; [done|]. by rewrite take_ge in Hh1 by (unfold zlen in *; lia). }
  destruct (lookup_lt_is_Some_2 (bits_data o) n) as [x Hx].
  { apply (f_equal length) in Hbits. rewrite bits_of_length, length_app in Hbits.
    unfold zlen in *. lia. }
  unfold byte_at. rewrite Hx. cbn [unwrap_opt mbind outcome_bind].
  pose proof (byte_of_bits _ _ _ Hx) as Hbx. rewrite Hbits in Hbx.
  rewrite drop_app_le, take_app in Hbx by (unfold zlen in *; lia).
  assert (Hd : length (drop (8 * n) m) = Z.to_nat (zlen m mod 8))
    by (rewrite length_drop; unfold zlen in *; lia).
  rewrite take_ge, take_replicate in Hbx by lia.
  destruct (append_byte_holds (E := E) b1 (l ++ take (8 * n) m) x (drop (8 * n) m))
    as (b2 & Hb2 & Hh2); [done|by eapply Forall_lookup_1|lia| | |].
  { rewrite Hbx. do 2 f_equal. apply (f_equal length) in Hbits.
    rewrite bits_of_length, length_app, length_replicate in Hbits. unfold zlen in *. lia. }
  { rewrite zlen_app. unfold zlen in *. rewrite length_take. lia. }
  replace (zlen (drop (8 * n) m)) with (zlen m mod 8) in Hb2 by (unfold zlen in *; lia).
  exists b2. split; [done|]. by rewrite <- app_assoc, take_drop in Hh2.
Qed.

(** ** Extraction *)

Lemma slice_within_byte l i n b :
  l !! (i / 8)%nat = Some b → (i mod 8 + n ≤ 8)%nat →
  take n (drop i (bits_of l)) = take n (drop (i mod 8) (byte_bits b)).
Proof.
  intros Hb Hn. rewrite (byte_of_bits _ _ _ Hb), skipn_firstn_comm, take_take, drop_drop.
  rewrite Nat.min_l by lia. by rewrite <- Nat.div_mod by lia.
Qed.

Lemma extract_byte_spec {E} b i n :
  is_bytes (bits_data b) → 0 ≤ i → 0 ≤ n → i mod 8 + n ≤ 8 → 0 < i mod 8 + n →
  i / 8 < zlen (bits_data b) →
  @extract_byte E b i n
  = Ok (bits_value (take (Z.to_nat n) (drop (Z.to_nat i) (bits_of (bits_data b))))).
Proof.
  intros Hb Hi Hn Hs Hp Hlt. pose proof (Z.mod_pos_bound i 8 eq_refl).
  destruct (lookup_lt_is_Some_2 (bits_data b) (Z.to_nat (i / 8))) as [x Hx];
    [pose proof (Z.div_pos i 8); unfold zlen in *; lia|].
  unfold extract_byte, byte_at, sub_u32. rewrite Hx. cbn [unwrap_opt mbind outcome_bind].
  rewrite checked_ok by lia. cbn [mbind outcome_bind]. rewrite checked_ok by lia.
  cbn [mbind outcome_bind]. unfold shr_u8. replace (8 - i mod 8 - n <? 8) with true by lia.
  cbn [mbind outcome_bind]. f_equal.
  rewrite byte_extract; [|by eapply Forall_lookup_1|lia..].
  assert (Hmod : Z.to_nat (i mod 8) = (Z.to_nat i mod 8)%nat) by (by rewrite Z2Nat.inj_mod by lia).
  rewrite (slice_within_byte _ (Z.to_nat i) _ x), Hmod; [done| |lia].
  by rewrite (Z2Nat.inj_div i 8) in Hx by lia.
Qed.

Lemma lor_shift curr n x :
  0 ≤ n → 0 ≤ curr → curr * 2 ^ n < 18446744073709551616 → 0 ≤ x < 2 ^ n →
  Z.lor (as_u64 (Z.shiftl curr n)) x = curr * 2 ^ n + x.
Proof.
  intros Hn Hc Hlim Hx. assert (0 < 2 ^ n) by (apply Z.pow_pos_nonneg; lia).
  rewrite as_u64_id; [by apply lor_disjoint|]. rewrite Z.shiftl_mul_pow2 by done.
  unfold is_u64. nia.
Qed.

Lemma extract_loop_spec {E} b end_ n : ∀ j i curr,
  is_bytes (bits_data b) → 0 ≤ i ≤ end_ → end_ ≤ 8 * zlen (bits_data b) →
  (n = O ∧ i = end_
   ∨ (0 < n)%nat ∧ j = i / 8 ∧ Z.of_nat n = (end_ + 7) / 8 - j) →
  0 ≤ curr → curr * 2 ^ (end_ - i) + 2 ^ (end_ - i) ≤ 18446744073709551616 →
  @extract_loop E b end_ n j i curr
  = Ok (curr * 2 ^ (end_ - i)
        + bits_value (take (Z.to_nat (end_ - i)) (drop (Z.to_nat i) (bits_of (bits_data b))))).
Proof.
  induction n as [|n IH]; intros j i curr Hb Hi He Hn Hc Hlim.
  { destruct Hn as [[_ ->]|[Hn _]]; [|lia]. rewrite Z.sub_diag, Z.pow_0_r, Z.mul_1_r.
    change (bits_value (take _ _)) with 0. by rewrite Z.add_0_r. }
  destruct Hn as [[Hn _]|(_ & -> & Hn)]; [lia|].
  pose proof (Z.mod_pos_bound i 8 eq_refl). pose proof (Z.div_mod i 8 ltac:(done)).
  pose proof (Z.div_mod (end_ + 7) 8 ltac:(done)).
  pose proof (Z.mod_pos_bound (end_ + 7) 8 eq_refl).
  cbn [extract_loop]. set (m := Z.min (end_ - i) (8 - (i - i / 8 * 8))).
  assert (Hm : m = Z.min (end_ - i) (8 - i mod 8)) by (unfold m; lia). clearbody m.
  rewrite extract_byte_spec by (done || lia). cbn [mbind outcome_bind].
  set (x := bits_value _).
  assert (Hmz : zlen (take (Z.to_nat m) (drop (Z.to_nat i) (bits_of (bits_data b)))) = m).
  { unfold zlen. rewrite length_take, length_drop, bits_of_length. unfold zlen in *. lia. }
  assert (Hx : 0 ≤ x < 2 ^ m) by (unfold x; rewrite <- Hmz at 3; apply bits_value_bound).
  assert (Hp : 2 ^ (end_ - i) = 2 ^ m * 2 ^ (end_ - (i + m)))
    by (rewrite <- Z.pow_add_r by lia; f_equal; lia).
  assert (0 < 2 ^ m) by (apply Z.pow_pos_nonneg; lia).
  assert (0 < 2 ^ (end_ - (i + m))) by (apply Z.pow_pos_nonneg; lia).
  rewrite lor_shift by (try done; try lia; nia).
  assert (Hnext : n = O ∧ i + m = end_
    ∨ (0 < n)%nat ∧ i / 8 + 1 = (i + m) / 8 ∧ Z.of_nat n = (end_ + 7) / 8 - (i / 8 + 1)).
  { destruct n as [|n]; [left; lia|right]. split_and!; [lia| |lia].
    apply Z.div_unique with (r := 0); lia. }
  rewrite IH; [|done|lia|lia|done|nia|rewrite Hp in Hlim; nia]. f_equal.
  rewrite Hp, Z.mul_add_distr_r, Z.mul_assoc, <- Z.add_assoc. f_equal.
  replace (Z.to_nat (end_ - i)) with (Z.to_nat m + Z.to_nat (end_ - (i + m)))%nat by lia.
  rewrite <- take_take_drop, bits_value_app, drop_drop. fold x. f_equal; [f_equal; f_equal|].
  - unfold zlen. rewrite length_take, length_drop, bits_of_length. unfold zlen in *. lia.
  - do 3 f_equal. lia.
Qed.

Lemma extract_spec {E} b l i n :
  Holds b l → 0 ≤ i → 0 ≤ n ≤ 64 → i + n ≤ zlen l → i + n + 7 < 4294967296 →
  @Bits_extract E b i n = Ok (bits_value (take (Z.to_nat n) (drop (Z.to_nat i) l))).
Proof.
  intros Hh Hi Hn Hl Hlim. pose proof (holds_data_length _ _ Hh) as Hd.
  destruct Hh as [Hb _ (k & Hk & Hbits)].
  pose proof (Z.div_mod (i + n + 7) 8 ltac:(done)). pose proof (Z.mod_pos_bound (i + n + 7) 8 eq_refl).
  pose proof (Z.div_mod i 8 ltac:(done)). pose proof (Z.mod_pos_bound i 8 eq_refl).
  assert (zlen l ≤ 8 * zlen (bits_data b)).
  { apply (f_equal length) in Hbits. rewrite bits_of_length, length_app in Hbits.
    unfold zlen. lia. }
  assert (0 < 2 ^ n ≤ 2 ^ 64) by (split; [apply Z.pow_pos_nonneg|apply Z.pow_le_mono_r]; lia).
  unfold Bits_extract, add_u32. rewrite checked_ok by lia. cbn [mbind outcome_bind].
  rewrite checked_ok by lia. cbn [mbind outcome_bind].
  replace (2 ^ 64) with 18446744073709551616 in * by done.
  rewrite extract_loop_spec; replace (i + n - i) with n by lia; try done; try lia.
  - rewrite Z.mul_0_l, Z.add_0_l, Hbits. do 2 f_equal.
    rewrite drop_app_le, take_app_le by (rewrite ?length_drop; unfold zlen in *; lia). done.
Qed.

Lemma from_slice_eq {E} data len :
  0 ≤ len ≤ 8 * zlen data → 8 * zlen data < 4294967296 →
  @Bits_from_slice E data len
  = Ok (MkBits (if len mod 8 =? 0 then data
                else update_at (λ b, Z.land b (as_u8 (Z.lnot (Z.shiftl 1 (8 - len mod 8) - 1))))
                       (length data - 1) data) len).
Proof.
  intros Hl Hlim. unfold Bits_from_slice, mul_u32. rewrite checked_ok by lia.
  cbn [mbind outcome_bind]. rewrite Z.min_r by lia.
  by replace (zlen data * 8 <? len) with false by lia.
Qed.

(** [from_slice] gives an array of the first [len] bits when the slice has no
    byte beyond them. *)
Lemma from_slice_holds {E} data len :
  is_bytes data → 0 ≤ len ≤ 8 * zlen data → 8 * zlen data < 4294967296 →
  8 * zlen data < len + 8 →
  ∃ b, @Bits_from_slice E data len = Ok b ∧ Holds b (take (Z.to_nat len) (bits_of data)).
Proof.
  intros Hb Hl Hlim Hs. rewrite from_slice_eq by done. eexists. split; [reflexivity|].
  assert (Hz : zlen (take (Z.to_nat len) (bits_of data)) = len).
  { unfold zlen. rewrite length_take, bits_of_length. unfold zlen in *. lia. }
  pose proof (Z.div_mod len 8 ltac:(done)). pose proof (Z.mod_pos_bound len 8 eq_refl).
  case (Z.eqb_spec (len mod 8) 0); intros Hr; (split; cbn [bits_data bits_len]; [|done|]).
  - done.
  - exists 0%nat. split; [lia|].
    rewrite app_nil_r, take_ge; [done|rewrite bits_of_length; unfold zlen in *; lia].
  - destruct data as [|z d _] using rev_ind; [constructor|]. rewrite alter_snoc.
    apply is_bytes_app in Hb as [Hd [Hz' _]%is_bytes_cons].
    rewrite is_bytes_app, is_bytes_cons. split_and!; [done| |by apply is_bytes_nil].
    apply land_u8; [done|apply as_u8_range].
  - destruct data as [|z d _] using rev_ind; [cbn in Hl; unfold zlen in *; cbn in *; lia|].
    rewrite alter_snoc. apply is_bytes_app in Hb as [Hd [Hz' _]%is_bytes_cons].
    rewrite zlen_app in *. change (zlen [z]) with 1 in *.
    exists (Z.to_nat (8 - len mod 8)). split; [lia|].
    rewrite !bits_of_app, !bits_of_one, byte_bits_mask by (done || lia).
    rewrite take_app, bits_of_length, (take_ge (bits_of d)) by (rewrite bits_of_length; unfold zlen in *; lia).
    rewrite <- app_assoc. do 3 f_equal. unfold zlen in *. lia.
Qed.

(** ** Shifts *)

(** The byte at an index, zero outside. *)
Definition byte_or_zero (v : bytes) (i : Z) : Z :=
  if 0 <=? i then default 0 (v !! Z.to_nat i) else 0.

Lemma byte_or_zero_u8 v i : is_bytes v → is_u8 (byte_or_zero v i).
Proof.
  intros Hv. unfold byte_or_zero. destruct (0 <=? i); [|done].
  destruct (v !! Z.to_nat i) eqn:E; [by eapply Forall_lookup_1|done].
Qed.

Lemma nth_byte_or_zero v j : nth j v 0 = byte_or_zero v (Z.of_nat j).
Proof.
  unfold byte_or_zero. destruct (Z.leb_spec 0 (Z.of_nat j)); [|lia].
  by rewrite Nat2Z.id, nth_lookup.
Qed.

Lemma byte_or_zero_neg v i : i < 0 → byte_or_zero v i = 0.
Proof. intros. unfold byte_or_zero. destruct (Z.leb_spec 0 i); [lia|done]. Qed.

Lemma byte_or_zero_ge v i : zlen v ≤ i → byte_or_zero v i = 0.
Proof.
  intros. unfold byte_or_zero. destruct (0 <=? i) eqn:E; [|done].
  by rewrite lookup_ge_None_2 by (unfold zlen in *; lia).
Qed.

Lemma or_at_lookup (c : bool) k val l i x :
  l !! i = Some x →
  (if c then or_at k val l else l) !! i
  = Some (Z.lor x (if c && bool_decide (k = i) then val else 0)).
Proof.
  intros Hx. destruct c; cbn [andb]; [|by rewrite Z.lor_0_r].
  unfold or_at, update_at. rewrite list_lookup_alter.
  case_decide; subst; [|by rewrite bool_decide_eq_false_2, Z.lor_0_r].
  by rewrite bool_decide_eq_true_2, Hx.
Qed.

(** After the turns [j..|v|) of the left shift, byte [k] holds the part of byte
    [k + bytes] and the carry of byte [k + bytes + 1], once those turns were made. *)
Definition lshift_byte (v : bytes) (s bs : Z) (j : nat) (k : nat) : Z :=
  Z.lor
    (if Z.of_nat j <=? Z.of_nat k + bs then lshift_val s (byte_or_zero v (Z.of_nat k + bs)) else 0)
    (if Z.of_nat j <=? Z.of_nat k + bs + 1
     then lshift_carry s (byte_or_zero v (Z.of_nat k + bs + 1)) else 0).

Lemma lshift_zero s : 0 ≤ s < 8 → lshift_val s 0 = 0 ∧ lshift_carry s 0 = 0.
Proof.
  intros Hs. assert (Hb : is_u8 0) by done. split.
  - unfold lshift_val. rewrite Z.land_0_l, Z.shiftl_0_l. done.
  - unfold lshift_carry. rewrite Z.land_0_l, Z.shiftr_0_l. done.
Qed.

Lemma rshift_zero s : 0 ≤ s < 8 → rshift_val s 0 = 0 ∧ rshift_carry s 0 = 0.
Proof.
  intros Hs. split.
  - unfold rshift_val. rewrite Z.land_0_l, Z.shiftr_0_l. done.
  - unfold rshift_carry. rewrite Z.land_0_l, Z.shiftl_0_l. done.
Qed.

(** The turns that reach a byte and those that do not, by cases. *)
Ltac turn_cases :=
  repeat match goal with
    | |- context [Z.leb ?a ?b] => destruct (Z.leb_spec a b)
    | |- context [Z.ltb ?a ?b] => destruct (Z.ltb_spec a b)
    | |- context [bool_decide ?P] => case_bool_decide
    end;
  try lia; cbn [andb].

Ltac by_turns :=
  turn_cases; rewrite ?Z.lor_0_r, ?Z.lor_0_l; try done;
  repeat match goal with
    | |- context [byte_or_zero ?v (Z.of_nat ?j)] =>
      match goal with
      | |- context [byte_or_zero v ?x] =>
        lazymatch x with Z.of_nat j => fail | _ => replace x with (Z.of_nat j) by lia end
      end
    end;
  first [done | apply Z.lor_comm].

Lemma lshift_fold v s bs m : ∀ j k,
  0 ≤ s < 8 → 0 ≤ bs → (j + m = length v)%nat → (k < length v)%nat →
  foldr (lshift_turn v s bs) (replicate (length v) 0) (seq j m) !! k
  = Some (lshift_byte v s bs j k).
Proof.
  induction m as [|m IH]; intros j k Hs Hbs Hj Hk.
  - cbn [seq foldr]. rewrite lookup_replicate_2 by done. f_equal. unfold lshift_byte, byte_or_zero.
    destruct (lshift_zero s Hs) as [H1 H2].
    repeat (case_match; try lia); rewrite ?lookup_ge_None_2 by lia; cbn [default];
      rewrite ?H1, ?H2; done.
  - cbn [seq foldr]. unfold lshift_turn at 1.
    rewrite nth_byte_or_zero. specialize (IH (S j) k Hs Hbs ltac:(lia) Hk). revert IH.
    generalize (foldr (lshift_turn v s bs) (replicate (length v) 0) (seq (S j) m)). intros r IH.
    erewrite or_at_lookup by (by apply or_at_lookup). f_equal. unfold lshift_byte.
    by_turns.
Qed.

Definition rshift_byte (v : bytes) (s bs : Z) (j : nat) (k : nat) : Z :=
  Z.lor
    (if Z.of_nat k - bs <? Z.of_nat j then rshift_val s (byte_or_zero v (Z.of_nat k - bs)) else 0)
    (if Z.of_nat k - bs - 1 <? Z.of_nat j
     then rshift_carry s (byte_or_zero v (Z.of_nat k - bs - 1)) else 0).

Lemma rshift_fold v s bs k m :
  0 ≤ s < 8 → 0 ≤ bs → (m ≤ length v)%nat → (k < length v)%nat →
  foldl (rshift_turn v s bs) (replicate (length v) 0) (seq 0 m) !! k
  = Some (rshift_byte v s bs m k).
Proof.
  intros Hs Hbs. destruct (rshift_zero s Hs) as [H1 H2].
  induction m as [|m IH]; intros Hm Hk.
  - cbn [seq foldl]. rewrite lookup_replicate_2 by done. f_equal. unfold rshift_byte.
    turn_cases; rewrite ?byte_or_zero_neg by lia; by rewrite ?H1, ?H2.
  - rewrite seq_S, foldl_snoc. unfold rshift_turn at 1. rewrite Nat.add_0_l, nth_byte_or_zero.
    specialize (IH ltac:(lia) Hk). revert IH.
    generalize (foldl (rshift_turn v s bs) (replicate (length v) 0) (seq 0 m)). intros r IH.
    erewrite or_at_lookup by (by apply or_at_lookup). f_equal. unfold rshift_byte, zlen.
    by_turns.
Qed.

(** Bit [p] of a byte string, zero outside. *)
Definition bit_at (v : bytes) (p : Z) : bool :=
  Z.testbit (byte_or_zero v (p / 8)) (7 - p mod 8).

Lemma bits_of_bit v p :
  (p < 8 * length v)%nat → bits_of v !! p = Some (bit_at v (Z.of_nat p)).
Proof.
  intros Hp. rewrite bits_of_lookup. unfold bit_at.
  assert (p / 8 < length v)%nat by (apply Nat.Div0.div_lt_upper_bound; lia).
  destruct (lookup_lt_is_Some_2 v (p / 8)) as [b Hb]; [done|]. rewrite Hb. cbn [fmap option_fmap option_map].
  change 8 with (Z.of_nat 8). rewrite <- Nat2Z.inj_div, <- Nat2Z.inj_mod, <- nth_byte_or_zero.
  by rewrite (nth_lookup_Some _ _ 0 b Hb).
Qed.

Lemma bit_at_outside v p : p < 0 ∨ 8 * zlen v ≤ p → bit_at v p = false.
Proof.
  intros Hp. unfold bit_at.
  assert (byte_or_zero v (p / 8) = 0) as ->; [|apply Z.bits_0].
  destruct Hp; [apply byte_or_zero_neg, Z.div_lt_upper_bound; lia|].
  apply byte_or_zero_ge, Z.div_le_lower_bound; lia.
Qed.

(** The bits of the parts a shift splits a byte into: [k] codes the position
    [k mod 8] and the shift [k / 8]. *)
Lemma shift_parts b k :
  is_u8 b → 0 ≤ k < 64 →
  (Z.testbit (lshift_val (k / 8) b) (7 - k mod 8),
   Z.testbit (lshift_carry (k / 8) b) (7 - k mod 8),
   Z.testbit (rshift_val (k / 8) b) (7 - k mod 8),
   Z.testbit (rshift_carry (k / 8) b) (7 - k mod 8))
  = ((k mod 8 + k / 8 <? 8) && Z.testbit b (7 - (k mod 8 + k / 8)),
     (8 <=? k mod 8 + k / 8) && Z.testbit b (15 - (k mod 8 + k / 8)),
     (0 <=? k mod 8 - k / 8) && Z.testbit b (7 - (k mod 8 - k / 8)),
     (k mod 8 - k / 8 <? 0) && Z.testbit b (-1 - (k mod 8 - k / 8))).
Proof. intros Hb Hk. by_bytes. Qed.

Lemma shift_part s q b :
  is_u8 b → 0 ≤ s < 8 → 0 ≤ q < 8 →
  Z.testbit (lshift_val s b) (7 - q) = (q + s <? 8) && Z.testbit b (7 - (q + s))
  ∧ Z.testbit (lshift_carry s b) (7 - q) = (8 <=? q + s) && Z.testbit b (15 - (q + s))
  ∧ Z.testbit (rshift_val s b) (7 - q) = (0 <=? q - s) && Z.testbit b (7 - (q - s))
  ∧ Z.testbit (rshift_carry s b) (7 - q) = (q - s <? 0) && Z.testbit b (-1 - (q - s)).
Proof.
  intros Hb Hs Hq. pose proof (shift_parts b (q + s * 8) Hb ltac:(lia)) as H.
  rewrite Z.mod_add, Z.div_add, Z.mod_small, Z.div_small, Z.add_0_l in H by lia.
  by simplify_eq.
Qed.

Lemma shift_length v n : length (lshift v n) = length v ∧ length (rshift v n) = length v.
Proof.
  split.
  - unfold lshift. generalize (n mod 8) (n / 8). intros s bs.
    induction (seq 0 (length v)) as [|j l IH]; cbn [foldr]; [by rewrite length_replicate|].
    unfold lshift_turn at 1, or_at, update_at. repeat case_match; by rewrite ?length_alter.
  - unfold rshift. generalize (n mod 8) (n / 8). intros s bs.
    induction (seq 0 (length v)) as [|j l IH] using rev_ind; [apply length_replicate|].
    rewrite foldl_snoc. unfold rshift_turn at 1, or_at, update_at.
    repeat case_match; by rewrite ?length_alter.
Qed.

(** Position [p + n] and [p - n], by the byte and bit shifts. *)
Lemma lshift_bit v n p :
  is_bytes v → 0 ≤ n → 0 ≤ p < 8 * zlen v → bit_at (lshift v n) p = bit_at v (p + n).
Proof.
  intros Hv Hn Hp. unfold bit_at.
  pose proof (Z.mod_pos_bound p 8 eq_refl). pose proof (Z.div_mod p 8 ltac:(done)).
  pose proof (Z.mod_pos_bound n 8 eq_refl). pose proof (Z.div_mod n 8 ltac:(done)).
  assert (Hb : byte_or_zero (lshift v n) (p / 8)
    = lshift_byte v (n mod 8) (n / 8) 0 (Z.to_nat (p / 8))).
  { unfold byte_or_zero. destruct (Z.leb_spec 0 (p / 8)); [|lia].
    unfold lshift. rewrite lshift_fold; [done|lia|lia|done|unfold zlen in *; lia]. }
  rewrite Hb. unfold lshift_byte. rewrite Z2Nat.id by lia.
  destruct (Z.leb_spec (Z.of_nat 0) (p / 8 + n / 8)); [|lia].
  destruct (Z.leb_spec (Z.of_nat 0) (p / 8 + n / 8 + 1)); [|lia].
  rewrite Z.lor_spec.
  destruct (shift_part (n mod 8) (p mod 8) (byte_or_zero v (p / 8 + n / 8))) as (-> & _);
    [by apply byte_or_zero_u8|lia|lia|].
  destruct (shift_part (n mod 8) (p mod 8) (byte_or_zero v (p / 8 + n / 8 + 1))) as (_ & -> & _);
    [by apply byte_or_zero_u8|lia|lia|].
  destruct (Z.ltb_spec (p mod 8 + n mod 8) 8), (Z.leb_spec 8 (p mod 8 + n mod 8)); try lia;
    cbn [andb orb]; rewrite ?orb_false_r; f_equal.
  - f_equal. apply Z.div_unique with (r := p mod 8 + n mod 8); lia.
  - f_equal. apply Z.mod_unique with (q := p / 8 + n / 8); lia.
  - f_equal. apply Z.div_unique with (r := p mod 8 + n mod 8 - 8); lia.
  - replace ((p + n) mod 8) with (p mod 8 + n mod 8 - 8); [lia|].
    apply Z.mod_unique with (q := p / 8 + n / 8 + 1); lia.
Qed.

Lemma rshift_bit v n p :
  is_bytes v → 0 ≤ n → 0 ≤ p < 8 * zlen v → bit_at (rshift v n) p = bit_at v (p - n).
Proof.
  intros Hv Hn Hp. unfold bit_at.
  pose proof (Z.mod_pos_bound p 8 eq_refl). pose proof (Z.div_mod p 8 ltac:(done)).
  pose proof (Z.mod_pos_bound n 8 eq_refl). pose proof (Z.div_mod n 8 ltac:(done)).
  assert (Hb : byte_or_zero (rshift v n) (p / 8)
    = rshift_byte v (n mod 8) (n / 8) (length v) (Z.to_nat (p / 8))).
  { unfold byte_or_zero. destruct (Z.leb_spec 0 (p / 8)); [|lia].
    unfold rshift. rewrite rshift_fold; [done|lia|lia|done|unfold zlen in *; lia]. }
  rewrite Hb. unfold rshift_byte. rewrite Z2Nat.id by lia. unfold zlen in *.
  destruct (Z.ltb_spec (p / 8 - n / 8) (Z.of_nat (length v))); [|lia].
  destruct (Z.ltb_spec (p / 8 - n / 8 - 1) (Z.of_nat (length v))); [|lia].
  rewrite Z.lor_spec.
  destruct (shift_part (n mod 8) (p mod 8) (byte_or_zero v (p / 8 - n / 8))) as (_ & _ & -> & _);
    [by apply byte_or_zero_u8|lia|lia|].
  destruct (shift_part (n mod 8) (p mod 8) (byte_or_zero v (p / 8 - n / 8 - 1))) as (_ & _ & _ & ->);
    [by apply byte_or_zero_u8|lia|lia|].
  destruct (Z.leb_spec 0 (p mod 8 - n mod 8)), (Z.ltb_spec (p mod 8 - n mod 8) 0); try lia;
    cbn [andb orb]; rewrite ?orb_false_r; f_equal.
  - f_equal. apply Z.div_unique with (r := p mod 8 - n mod 8); lia.
  - f_equal. apply Z.mod_unique with (q := p / 8 - n / 8); lia.
  - f_equal. apply Z.div_unique with (r := p mod 8 - n mod 8 + 8); lia.
  - replace ((p - n) mod 8) with (p mod 8 - n mod 8 + 8); [lia|].
    apply Z.mod_unique with (q := p / 8 - n / 8 - 1); lia.
Qed.

(** ** Properties *)

(** C22: a bit array is a list of bits.  Appending an array that holds [m] to one
    that holds [l] gives one that holds [l ++ m] (packed, the spare bits of the last
    byte zero), and [extract] of up to 64 bits from any position then reads those
    bits as a number, most significant first. *)
Theorem bits_append_extract b l o m i n :
  Holds b l → Holds o m → zlen l + zlen m + 7 < 4294967296 →
  0 ≤ i → 0 ≤ n ≤ 64 → i + n ≤ zlen l + zlen m →
  ∃ b', Bits_append (E := unit) b o = Ok b' ∧ Holds b' (l ++ m)
    ∧ Bits_extract (E := unit) b' i n
      = Ok (bits_value (take (Z.to_nat n) (drop (Z.to_nat i) (l ++ m)))).
Proof.
  intros Hb Ho Hlim Hi Hn Hr.
  destruct (append_holds (E := unit) b l o m Hb Ho) as (b' & Ha & Hh); [lia|].
  exists b'. split_and!; [done..|]. apply extract_spec; rewrite ?zlen_app; done || lia.
Qed.

(** [from_slice] builds an array of the first [len] bits of a slice exactly when
    the slice has no whole byte beyond them: its [truncate] is guarded by a condition
    that never holds, so a longer slice is kept entire and what is appended later
    lands after bits that were never part of the array. *)
Theorem from_slice_no_truncation data len :
  is_bytes data → 0 ≤ len ≤ 8 * zlen data → 8 * zlen data < 4294967296 →
  (∃ b, Bits_from_slice (E := unit) data len = Ok b ∧ Holds b (take (Z.to_nat len) (bits_of data)))
  ↔ 8 * zlen data < len + 8.
Proof.
  intros Hd Hl Hlim. split; [|by apply from_slice_holds].
  intros (b & Hb & Hh). apply holds_data_length in Hh. rewrite from_slice_eq in Hb by done.
  assert (zlen (take (Z.to_nat len) (bits_of data)) = len) as Hz.
  { unfold zlen. rewrite length_take, bits_of_length. unfold zlen in *. lia. }
  assert (length (bits_data b) = length data) as Hlen.
  { injection Hb as <-. cbn [bits_data]. unfold update_at. case_match; by rewrite ?length_alter. }
  rewrite Hlen, Hz in Hh. pose proof (Z.div_mod (len + 7) 8 ltac:(done)).
  pose proof (Z.mod_pos_bound (len + 7) 8 eq_refl). unfold zlen in *. lia.
Qed.

(** C23: the two shifts of a byte string are the shifts of its bit string: [lshift] drops
    the first [n] bits and fills with zeros at the end, [rshift] puts [n] zero bits in
    front and drops as many at the end, for every [n], the length being kept. *)
Theorem shifts_refine_bits v n :
  is_bytes v → is_u32 n →
  bits_of (lshift v n)
  = drop (Z.to_nat n) (bits_of v) ++ replicate (Nat.min (Z.to_nat n) (8 * length v)) false
  ∧ bits_of (rshift v n)
    = replicate (Nat.min (Z.to_nat n) (8 * length v)) false
      ++ take (8 * length v - Z.to_nat n) (bits_of v).
Proof.
  intros Hv [Hn _]. destruct (shift_length v n) as [Hll Hlr].
  split; apply list_eq_same_length with (n := (8 * length v)%nat);
    rewrite ?length_app, ?length_drop, ?length_take, ?length_replicate, ?bits_of_length, ?Hll, ?Hlr;
    try lia; intros p x y Hp Hx Hy;
    rewrite bits_of_bit in Hx by lia; rewrite ?lshift_bit, ?rshift_bit in Hx by (unfold zlen; done || lia);
    injection Hx as <-.
  - destruct (decide (p + Z.to_nat n < 8 * length v)%nat).
    + rewrite lookup_app_l, lookup_drop, bits_of_bit in Hy by (rewrite ?length_drop, ?bits_of_length; lia).
      injection Hy as <-. f_equal. lia.
    + rewrite bit_at_outside by (unfold zlen; lia).
      rewrite lookup_app_r, lookup_replicate in Hy by (rewrite ?length_drop, ?bits_of_length; lia).
      by destruct Hy.
  - destruct (decide (p < Z.to_nat n)%nat).
    + rewrite bit_at_outside by lia.
      rewrite lookup_app_l, lookup_replicate in Hy by (rewrite ?length_replicate; lia). by destruct Hy.
    + rewrite lookup_app_r, length_replicate, lookup_take_lt, bits_of_bit in Hy
        by (rewrite ?length_replicate; lia).
      injection Hy as <-. f_equal. lia.
Qed.

(** Witnesses: five bits appended to three, and short slices. *)
Lemma bits_append_extract_witness :
  ∃ b', Bits_append (E := unit) (MkBits [160] 3) (MkBits [216] 5) = Ok b'
    ∧ Holds b' ([true; false; true] ++ [true; true; false; true; true])
    ∧ Bits_extract (E := unit) b' 2 4
      = Ok (bits_value (take (Z.to_nat 4) (drop (Z.to_nat 2)
              ([true; false; true] ++ [true; true; false; true; true])))).
Proof.
  apply (bits_append_extract (MkBits [160] 3) [true; false; true]
           (MkBits [216] 5) [true; true; false; true; true] 2 4).
  - split; [repeat constructor; done|done|exists 5%nat; split; [lia|reflexivity]].
  - split; [repeat constructor; done|done|exists 3%nat; split; [lia|reflexivity]].
  - vm_compute. reflexivity.
  - done.
  - done.
  - vm_compute. done.
Defined.

Lemma from_slice_no_truncation_witness :
  (∃ b, Bits_from_slice (E := unit) [255; 255] 4 = Ok b
        ∧ Holds b (take (Z.to_nat 4) (bits_of [255; 255])))
  ↔ 8 * zlen [255; 255] < 4 + 8.
Proof.
  apply (from_slice_no_truncation [255; 255] 4); [repeat constructor; done|done|done].
Defined.

Lemma shifts_refine_bits_witness :
  bits_of (lshift [1; 0x23] 4)
  = drop (Z.to_nat 4) (bits_of [1; 0x23]) ++ replicate (Nat.min (Z.to_nat 4) (8 * 2)) false
  ∧ bits_of (rshift [1; 0x23] 4)
    = replicate (Nat.min (Z.to_nat 4) (8 * 2)) false
      ++ take (8 * 2 - Z.to_nat 4) (bits_of [1; 0x23]).
Proof. apply (shifts_refine_bits [1; 0x23] 4); [repeat constructor; done|done]. Defined.

(** What the missing truncation does: a zero bit appended to four one bits of a
    two-byte slice is not read back at position 4. *)
Example append_after_long_slice :
  (b ← Bits_from_slice [255; 255] 4; Bits_append (E := unit) b (MkBits [0] 1))
  = Ok (MkBits [255; 240] 5)
  ∧ Bits_extract (E := unit) (MkBits [255; 240] 5) 4 1 = Ok 1.
Proof. split; reflexivity. Qed.
