(* ===== verification/BlockFilter.v ===== *)
(** * BIP 158 block filters ([node/src/util/block_filter.rs])

    The client downloads a Golomb-coded set per block and asks whether one of its
    scripts may be in the block.  The bit reader, the Golomb-Rice decoder and the
    one-pass matchers are modelled; the theorems relate them to the bit string of
    the filter and to the set of values it encodes. *)

From S2P Require Import Prelude Errors Io VarInt Hash256 BitList.

Definition P : Z := 19.
Definition M : Z := 784931.

(** [bitcoin::hashes::siphash24]: a keyed hash to 64 bits. *)
Class SipHash := {
  siphash24 : Z → Z → bytes → Z;
  siphash24_u64 k0 k1 b : is_u64 (siphash24 k0 k1 b);
}.

(** ** The bit reader *)

Record BitStreamReader := MkBitStreamReader {
  bsr_buffer : Z;
  bsr_offset : Z;
  bsr_reader : reader;
}.

Definition BitStreamReader_new (r : reader) : BitStreamReader :=
  MkBitStreamReader 0 8 r.

(** The bits that are still to come. *)
Definition bits_left (s : BitStreamReader) : list bool :=
  drop (Z.to_nat (bsr_offset s)) (byte_bits (bsr_buffer s))
  ++ bits_of (rd_data (bsr_reader s)).

Definition bitparser (A : Type) : Type :=
  BitStreamReader → outcome io_error A * BitStreamReader.

(** [if self.offset == 8 { self.reader.read_exact(&mut self.buffer).unwrap(); ... }]. *)
Definition refill : bitparser unit := λ s,
  if bsr_offset s =? 8 then
    match read_exact 1 (bsr_reader s) with
    | (Ok b, r) => (Ok tt, MkBitStreamReader (nth 0 b 0) 0 r)
    | (_, r) => (Panic "called `Result::unwrap()` on an `Err` value",
                 MkBitStreamReader (bsr_buffer s) (bsr_offset s) r)
    end
  else (Ok tt, s).

(** The loop of [BitStreamReader::read]; every turn reads at least one bit, so
    [nbits] turns are enough. *)
Fixpoint read_loop (fuel : nat) (nbits data : Z) (s : BitStreamReader)
    : outcome io_error Z * BitStreamReader :=
  if 0 <? nbits then
    match fuel with
    | O => (Panic "out of fuel", s)
    | S fuel =>
      match refill s with
      | (Ok _, s) =>
        let bits := Z.min (8 - bsr_offset s) nbits in
        let data := as_u64 (Z.shiftl data bits) in
        let data := Z.lor data
          (Z.shiftr (as_u8 (Z.shiftl (bsr_buffer s) (bsr_offset s))) (8 - bits)) in
        read_loop fuel (nbits - bits) data
          (MkBitStreamReader (bsr_buffer s) (bsr_offset s + bits) (bsr_reader s))
      | (Err e, s) => (Err e, s)
      | (Panic m, s) => (Panic m, s)
      end
    end
  else (Ok data, s).

Definition BitStreamReader_read (nbits : Z) : bitparser Z := λ s,
  if 64 <? nbits
  then (Err (IoError OtherKind (str "can not read more than 64 bits at once")), s)
  else read_loop (Z.to_nat nbits) nbits 0 s.

(** ** Golomb-Rice decoding *)

Record GcsFilter := MkGcsFilter { gcs_k0 : Z; gcs_k1 : Z; gcs_p : Z }.

(** [while reader.read(1).unwrap() == 1 { q += 1 }]: every turn reads a bit. *)
Fixpoint unary_loop (fuel : nat) (q : Z) (s : BitStreamReader)
    : outcome io_error Z * BitStreamReader :=
  match fuel with
  | O => (Panic "out of fuel", s)
  | S fuel =>
    match BitStreamReader_read 1 s with
    | (Ok b, s) => if b =? 1 then unary_loop fuel (q + 1) s else (Ok q, s)
    | (Err _, s) => (Panic "called `Result::unwrap()` on an `Err` value", s)
    | (Panic m, s) => (Panic m, s)
    end
  end.

Definition golomb_rice_decode (f : GcsFilter) : bitparser Z := λ s,
  match unary_loop (S (length (bits_left s))) 0 s with
  | (Ok q, s) =>
    match BitStreamReader_read (gcs_p f) s with
    | (Ok r, s) => (add_u64 (as_u64 (Z.shiftl q (gcs_p f))) r, s)
    | (Err _, s) => (Panic "called `Result::unwrap()` on an `Err` value", s)
    | (Panic m, s) => (Panic m, s)
    end
  | (Err e, s) => (Err e, s)
  | (Panic m, s) => (Panic m, s)
  end.

(** Fast reduction of a hash to [[0, nm)]. *)
Definition map_to_range (hash nm : Z) : Z := as_u64 (Z.shiftr (hash * nm) 64).

(** ** Matching *)

(** Where the scan stands: the current value, the number of values not yet
    decoded and the bit reader. *)
Record scan := MkScan { sc_data : Z; sc_remaining : Z; sc_bits : BitStreamReader }.

(** How the inner loop of both matchers ends: at a value equal to the query, at a
    greater one, or at the end of the set ([return Ok(false)]). *)
Inductive seek_result := SeekEqual (s : scan) | SeekGreater (s : scan) | SeekEnd.

(** [loop { match data.cmp(&p) { ... } }]: every turn that goes on has decoded a
    value, which takes at least a bit. *)
Fixpoint seek (f : GcsFilter) (fuel : nat) (p : Z) (s : scan)
    : outcome io_error seek_result :=
  match fuel with
  | O => Panic "out of fuel"
  | S fuel =>
    match Z.compare (sc_data s) p with
    | Eq => Ok (SeekEqual s)
    | Gt => Ok (SeekGreater s)
    | Lt =>
      if 0 <? sc_remaining s then
        match golomb_rice_decode f (sc_bits s) with
        | (Ok d, b) =>
          data ← add_u64 (sc_data s) d;
          seek f fuel p (MkScan data (sc_remaining s - 1) b)
        | (Err _, _) => Panic "called `Result::unwrap()` on an `Err` value"
        | (Panic m, _) => Panic m
        end
      else Ok SeekEnd
    end
  end.

Definition seek_from (f : GcsFilter) (p : Z) (s : scan) : outcome io_error seek_result :=
  seek f (S (length (bits_left (sc_bits s)))) p s.

Fixpoint any_loop (f : GcsFilter) (mapped : list Z) (s : scan) : outcome io_error bool :=
  match mapped with
  | [] => Ok false
  | p :: mapped =>
    r ← seek_from f p s;
    match r with
    | SeekEqual _ => Ok true
    | SeekGreater s => any_loop f mapped s
    | SeekEnd => Ok false
    end
  end.

Fixpoint all_loop (f : GcsFilter) (mapped : list Z) (s : scan) : outcome io_error bool :=
  match mapped with
  | [] => Ok true
  | p :: mapped =>
    r ← seek_from f p s;
    match r with
    | SeekEqual s => all_loop f mapped s
    | SeekGreater _ => Ok false
    | SeekEnd => Ok false
    end
  end.

(** [Vec::dedup] on integers. *)
Fixpoint dedup (l : list Z) : list Z :=
  match l with
  | x :: ((y :: _) as l') => if x =? y then dedup l' else x :: dedup l'
  | _ => l
  end.

Record GcsFilterReader := MkGcsFilterReader { gfr_filter : GcsFilter; gfr_m : Z }.

Section Matching.
  Context `{BO : ByteOrder} `{SIP : SipHash}.

Definition GcsFilter_hash (f : GcsFilter) (element : bytes) : Z :=
  siphash24 (gcs_k0 f) (gcs_k1 f) element.

(** [var_int::read(reader).unwrap_or(0)]. *)
Definition read_count (r : reader) : Z * reader :=
  match var_int_read r with
  | (Ok n, r) => (n, r)
  | (_, r) => (0, r)
  end.

(** The part both matchers start with; [k] is their loop. *)
Definition match_with (g : GcsFilterReader) (r : reader) (query : list bytes)
    (prepare : list Z → list Z) (k : list Z → scan → outcome io_error bool)
    : outcome io_error bool :=
  let '(n_elements, r) := read_count r in
  nm ← mul_u64 n_elements (gfr_m g);
  let mapped :=
    prepare (merge_sort Z.le
      (map (λ e, map_to_range (GcsFilter_hash (gfr_filter g) e) nm) query)) in
  if bool_decide (mapped = []) then Ok true
  else if n_elements =? 0 then Ok false
  else
    match golomb_rice_decode (gfr_filter g) (BitStreamReader_new r) with
    | (Ok data, b) => k mapped (MkScan data (n_elements - 1) b)
    | (Err _, _) => Panic "called `Result::unwrap()` on an `Err` value"
    | (Panic m, _) => Panic m
    end.

Definition GcsFilterReader_match_any (g : GcsFilterReader) (r : reader)
    (query : list bytes) : outcome io_error bool :=
  match_with g r query (λ l, l) (any_loop (gfr_filter g)).

Definition GcsFilterReader_match_all (g : GcsFilterReader) (r : reader)
    (query : list bytes) : outcome io_error bool :=
  match_with g r query dedup (all_loop (gfr_filter g)).

(** [BlockFilterReader::new]: the keys are the first 16 bytes of the hash. *)
Definition BlockFilterReader_new (block_hash : Hash256) : GcsFilterReader :=
  let k0 := le_value (take 8 (hash_bytes block_hash)) in
  let k1 := le_value (take 8 (drop 8 (hash_bytes block_hash))) in
  MkGcsFilterReader (MkGcsFilter k0 k1 P) M.

(** [BlockFilter { content }]: a filter as received. *)
Definition BlockFilter_match_any (content : bytes) (block_hash : Hash256)
    (query : list bytes) : outcome io_error bool :=
  GcsFilterReader_match_any (BlockFilterReader_new block_hash) (cursor content) query.

Definition BlockFilter_match_all (content : bytes) (block_hash : Hash256)
    (query : list bytes) : outcome io_error bool :=
  GcsFilterReader_match_all (BlockFilterReader_new block_hash) (cursor content) query.

End Matching.

(** ** The bit reader reads the bit string *)

Definition bsr_wf (s : BitStreamReader) : Prop :=
  0 ≤ bsr_offset s ≤ 8 ∧ is_u8 (bsr_buffer s) ∧ is_bytes (rd_data (bsr_reader s)).

Lemma refill_ok s :
  bsr_wf s → bits_left s ≠ [] →
  ∃ s', refill s = (Ok tt, s') ∧ bsr_wf s' ∧ bsr_offset s' < 8
    ∧ bits_left s' = bits_left s.
Proof.
  intros (Ho & Hb & Hd) Hne. unfold refill.
  destruct (Z.eqb_spec (bsr_offset s) 8) as [E|E].
  - unfold bits_left in Hne |- *. rewrite E in *.
    destruct (rd_data (bsr_reader s)) as [|b l] eqn:Hl; [done|].
    unfold read_exact. rewrite Hl, zlen_cons. pose proof (zlen_nonneg l).
    rewrite (proj2 (Z.leb_le _ _)) by lia. eexists. split; [done|].
    apply is_bytes_cons in Hd as [Hb' Hd].
    split; [split; [cbn; lia|done]|split; [cbn; lia|done]].
  - exists s. split; [done|]. split; [done|]. split; [lia|done].
Qed.

Lemma refill_end s :
  bsr_wf s → bits_left s = [] → ∃ m s', refill s = (Panic m, s').
Proof.
  intros (Ho & Hb & Hd) He. unfold bits_left in He. apply app_nil in He as [H1 H2].
  apply (f_equal length) in H1. rewrite length_drop, byte_bits_length in H1. cbn in H1.
  unfold refill. rewrite (proj2 (Z.eqb_eq _ _)) by lia.
  destruct (rd_data (bsr_reader s)) as [|b l] eqn:Hl;
    [|apply (f_equal length) in H2; by rewrite bits_of_cons in H2].
  unfold read_exact. rewrite Hl. by eexists _, _.
Qed.

(** The bits of the buffer that one turn of the loop takes. *)
Lemma buffer_bits s n :
  bsr_wf s → bsr_offset s < 8 → 0 < n ≤ 8 - bsr_offset s →
  Z.shiftr (as_u8 (Z.shiftl (bsr_buffer s) (bsr_offset s))) (8 - n)
  = bits_value (take (Z.to_nat n) (bits_left s))
  ∧ drop (Z.to_nat n) (bits_left s)
    = bits_left (MkBitStreamReader (bsr_buffer s) (bsr_offset s + n) (bsr_reader s)).
Proof.
  intros (Ho & Hb & Hd) Hlt Hn. unfold bits_left. cbn [bsr_buffer bsr_offset bsr_reader].
  assert (length (drop (Z.to_nat (bsr_offset s)) (byte_bits (bsr_buffer s)))
          = Z.to_nat (8 - bsr_offset s)) as Hlen.
  { rewrite length_drop, byte_bits_length. lia. }
  split.
  - rewrite take_app_le by lia. apply byte_slice; [done|lia..].
  - rewrite drop_app_le by lia. rewrite drop_drop. do 2 f_equal. lia.
Qed.

Lemma take_split {A} (l : list A) (n m : nat) :
  (m ≤ n)%nat → take n l = take m l ++ take (n - m) (drop m l).
Proof.
  intros. rewrite <- (take_drop m (take n l)), take_take, <- skipn_firstn_comm.
  by rewrite Nat.min_l by lia.
Qed.

Lemma read_loop_ok fuel nbits data s :
  bsr_wf s → 0 ≤ nbits ≤ Z.of_nat fuel → nbits ≤ zlen (bits_left s) →
  0 ≤ data → (data + 1) * 2 ^ nbits ≤ 2 ^ 64 →
  ∃ s', read_loop fuel nbits data s
        = (Ok (data * 2 ^ nbits + bits_value (take (Z.to_nat nbits) (bits_left s))), s')
    ∧ bsr_wf s' ∧ bits_left s' = drop (Z.to_nat nbits) (bits_left s).
Proof.
  revert nbits data s. induction fuel as [|fuel IH]; intros nbits data s Hwf Hf Hl Hd Hmax.
  { replace nbits with 0 by lia. exists s. cbn. by rewrite Z.mul_1_r, Z.add_0_r. }
  destruct (Z.ltb_spec 0 nbits) as [Hpos|Hz].
  2:{ replace nbits with 0 by lia. exists s. cbn. by rewrite Z.mul_1_r, Z.add_0_r. }
  cbn [read_loop]. rewrite (proj2 (Z.ltb_lt _ _)) by done.
  destruct (refill_ok s Hwf) as (s1 & -> & Hwf1 & Ho1 & E1).
  { intros E. rewrite E in Hl. change (zlen (@nil bool)) with 0 in Hl. lia. }
  cbv zeta. set (n := Z.min (8 - bsr_offset s1) nbits).
  assert (0 < n ≤ nbits ∧ n ≤ 8 - bsr_offset s1) as [Hn Hn8] by (destruct Hwf1; lia).
  destruct (buffer_bits s1 n Hwf1 Ho1 ltac:(lia)) as [Hv Hdrop]. rewrite Hv, E1 in *.
  set (B := bits_left s) in *.
  assert (zlen (take (Z.to_nat n) B) = n) as Hzl by (apply zlen_take; lia).
  pose proof (bits_value_bound (take (Z.to_nat n) B)) as Hb. rewrite Hzl in Hb.
  set (v := bits_value (take (Z.to_nat n) B)) in *.
  replace nbits with (n + (nbits - n)) in Hmax |- * by lia.
  rewrite Z.pow_add_r in Hmax |- * by lia.
  set (K := 2 ^ (nbits - n)) in *. set (N := 2 ^ n) in *.
  assert (0 < K) by (apply Z.pow_pos_nonneg; lia).
  rewrite Z.add_simpl_l.
  assert (as_u64 (Z.shiftl data n) = Z.shiftl data n) as ->.
  { rewrite Z.shiftl_mul_pow2 by lia. fold N. apply as_u64_id. unfold is_u64. nia. }
  rewrite lor_disjoint by lia. fold N.
  edestruct (IH (nbits - n) (data * N + v)) as (s' & Hr & Hwf' & Hs').
  6:{ exists s'. rewrite Hr. split; [|split; [done|]].
      - do 2 f_equal. rewrite (take_split B (Z.to_nat (n + (nbits - n))) (Z.to_nat n)) by lia.
        rewrite bits_value_app, <- Hdrop.
        replace (Z.to_nat (n + (nbits - n)) - Z.to_nat n)%nat
          with (Z.to_nat (nbits - n)) by lia.
        rewrite zlen_take; [fold v K; lia|]. split; [lia|].
        unfold zlen in *. rewrite length_drop. lia.
      - rewrite Hs', <- Hdrop, drop_drop. f_equal. lia. }
  - destruct Hwf1 as (? & ? & ?). split; [cbn; lia|done].
  - lia.
  - rewrite <- Hdrop. unfold zlen in *. rewrite length_drop. lia.
  - unfold N in *. nia.
  - fold K. nia.
Qed.

Lemma BitStreamReader_read_ok n s :
  bsr_wf s → 0 ≤ n ≤ 64 → n ≤ zlen (bits_left s) →
  ∃ s', BitStreamReader_read n s
        = (Ok (bits_value (take (Z.to_nat n) (bits_left s))), s')
    ∧ bsr_wf s' ∧ bits_left s' = drop (Z.to_nat n) (bits_left s).
Proof.
  intros Hwf Hn Hl. unfold BitStreamReader_read. rewrite (proj2 (Z.ltb_ge _ _)) by lia.
  destruct (read_loop_ok (Z.to_nat n) n 0 s) as (s' & Hr & Hs); try done; [lia| |].
  - rewrite Z.add_0_l, Z.mul_1_l. apply Z.pow_le_mono_r; lia.
  - exists s'. by rewrite Hr.
Qed.

Lemma bits_left_buffer s : bsr_wf s → 8 - bsr_offset s ≤ zlen (bits_left s).
Proof.
  intros (Ho & _ & _). unfold bits_left, zlen.
  rewrite length_app, length_drop, byte_bits_length. lia.
Qed.

(** Reading past the end of the filter panics ([unwrap] of the end of file). *)
Lemma read_loop_end fuel nbits data s :
  bsr_wf s → 0 ≤ nbits ≤ Z.of_nat fuel → zlen (bits_left s) < nbits →
  ∃ m s', read_loop fuel nbits data s = (Panic m, s').
Proof.
  revert nbits data s. induction fuel as [|fuel IH]; intros nbits data s Hwf Hf Hl.
  { pose proof (zlen_nonneg (bits_left s)). lia. }
  pose proof (zlen_nonneg (bits_left s)).
  cbn [read_loop]. rewrite (proj2 (Z.ltb_lt _ _)) by lia.
  destruct (decide (bits_left s = [])) as [He|Hne].
  { destruct (refill_end s Hwf He) as (m & s' & ->). by eexists _, _. }
  destruct (refill_ok s Hwf Hne) as (s1 & -> & Hwf1 & Ho1 & E1).
  cbv zeta. set (n := Z.min (8 - bsr_offset s1) nbits).
  destruct (buffer_bits s1 n Hwf1 Ho1) as [_ Hdrop]; [destruct Hwf1; lia|].
  pose proof (bits_left_buffer s1 Hwf1) as Hbuf. rewrite E1 in Hbuf.
  apply IH.
  - destruct Hwf1 as (? & ? & ?). split; [cbn; lia|done].
  - destruct Hwf1; lia.
  - rewrite <- Hdrop, E1. unfold zlen in *. rewrite length_drop. destruct Hwf1; lia.
Qed.

(** ** Golomb-Rice codes *)

(** The code of [x] with parameter [p]: the quotient by [2^p] in unary, a zero,
    the remainder in [p] bits. *)
Definition gr_code (p x : Z) : list bool :=
  replicate (Z.to_nat (x / 2 ^ p)) true ++ [false] ++ low_bits (Z.to_nat p) (x mod 2 ^ p).

Lemma BitStreamReader_read_app n l k s :
  bsr_wf s → 0 ≤ n ≤ 64 → zlen l = n → bits_left s = l ++ k →
  ∃ s', BitStreamReader_read n s = (Ok (bits_value l), s')
    ∧ bsr_wf s' ∧ bits_left s' = k.
Proof.
  intros Hwf Hn Hl Hb. destruct (BitStreamReader_read_ok n s) as (s' & Hr & Hw & Hd);
    try done.
  { rewrite Hb, zlen_app. pose proof (zlen_nonneg k). lia. }
  rewrite Hb, take_app_zlen in Hr by done. rewrite Hb, drop_app_zlen in Hd by done.
  eauto.
Qed.

Lemma unary_loop_ok n fuel q k s :
  bsr_wf s → (n < fuel)%nat → bits_left s = replicate n true ++ [false] ++ k →
  ∃ s', unary_loop fuel q s = (Ok (q + Z.of_nat n), s') ∧ bsr_wf s' ∧ bits_left s' = k.
Proof.
  revert fuel q s. induction n as [|n IH]; intros [|fuel] q s Hwf Hf Hb; try lia;
    cbn [unary_loop].
  - destruct (BitStreamReader_read_app 1 [false] k s) as (s' & -> & ? & ?); try done.
    exists s'. split; [|done]. change (bits_value [false] =? 1) with false. cbn.
    by rewrite Z.add_0_r.
  - destruct (BitStreamReader_read_app 1 [true] (replicate n true ++ [false] ++ k) s)
      as (s' & -> & ? & ?); try done.
    destruct (IH fuel (q + 1) s') as (s'' & Hr & ?); try done; [lia|].
    exists s''. change (bits_value [true] =? 1) with true. cbv iota. rewrite Hr.
    split; [|done]. do 2 f_equal. lia.
Qed.

Lemma golomb_rice_decode_ok f x k s :
  bsr_wf s → 0 ≤ gcs_p f ≤ 64 → is_u64 x → bits_left s = gr_code (gcs_p f) x ++ k →
  ∃ s', golomb_rice_decode f s = (Ok x, s') ∧ bsr_wf s' ∧ bits_left s' = k.
Proof.
  intros Hwf Hp Hx Hb. unfold golomb_rice_decode. set (p := gcs_p f) in *.
  unfold is_u64 in Hx. assert (0 < 2 ^ p) by (apply Z.pow_pos_nonneg; lia).
  pose proof (Z.mod_pos_bound x (2 ^ p) ltac:(done)) as Hm.
  pose proof (Z.div_mod x (2 ^ p) ltac:(lia)) as Hdm.
  assert (0 ≤ x / 2 ^ p) by (apply Z.div_pos; lia).
  unfold gr_code in Hb. rewrite <- !app_assoc in Hb.
  destruct (unary_loop_ok (Z.to_nat (x / 2 ^ p)) (S (length (bits_left s))) 0 _ s Hwf
    ltac:(rewrite Hb, length_app, length_replicate; lia) Hb) as (s1 & -> & Hwf1 & Hb1).
  destruct (BitStreamReader_read_app p (low_bits (Z.to_nat p) (x mod 2 ^ p)) k s1)
    as (s2 & -> & Hwf2 & Hb2); try done.
  { unfold zlen. rewrite low_bits_length. lia. }
  exists s2. split; [|done]. rewrite bits_value_low_bits by (rewrite Z2Nat.id; lia).
  rewrite Z.shiftl_mul_pow2, Z.add_0_l, Z2Nat.id by lia.
  rewrite as_u64_id by (unfold is_u64; nia).
  unfold add_u64. rewrite checked_ok by nia. do 2 f_equal. lia.
Qed.

(** ** The scan *)

(** The values a filter encodes: running sums of its differences. *)
Fixpoint values (data : Z) (deltas : list Z) : list Z :=
  data :: match deltas with [] => [] | d :: ds => values (data + d) ds end.

(** The scan stands at [data] with the codes of [deltas] ahead. *)
Definition scan_at (f : GcsFilter) (data : Z) (deltas : list Z) (s : scan) : Prop :=
  sc_data s = data ∧ sc_remaining s = zlen deltas ∧ bsr_wf (sc_bits s)
  ∧ Forall (λ d, 0 ≤ d) deltas ∧ 0 ≤ data ∧ Forall is_u64 (values data deltas)
  ∧ ∃ pad, bits_left (sc_bits s) = concat (map (gr_code (gcs_p f)) deltas) ++ pad.

Lemma values_head_le data deltas :
  Forall (λ d, 0 ≤ d) deltas → Forall (λ v, data ≤ v) (values data deltas).
Proof.
  revert data. induction deltas as [|d ds IH]; intros data H; cbn; constructor; try lia.
  - constructor.
  - apply Forall_cons in H as [Hd Hds]. eapply Forall_impl; [by apply IH|]. cbn. lia.
Qed.

Lemma seek_ok f fuel p data deltas s :
  0 ≤ gcs_p f ≤ 64 → scan_at f data deltas s →
  (length (bits_left (sc_bits s)) < fuel)%nat →
  ∃ r, seek f fuel p s = Ok r ∧
    match r with
    | SeekEqual s' => p ∈ values data deltas ∧
        ∃ data' deltas', scan_at f data' deltas' s'
          ∧ ∀ q, p ≤ q → (q ∈ values data' deltas' ↔ q ∈ values data deltas)
    | SeekGreater s' => ¬ (p ∈ values data deltas) ∧
        ∃ data' deltas', scan_at f data' deltas' s'
          ∧ ∀ q, p ≤ q → (q ∈ values data' deltas' ↔ q ∈ values data deltas)
    | SeekEnd => ∀ q, p ≤ q → q ∉ values data deltas
    end.
Proof.
  intros Hp. revert data deltas s. induction fuel as [|fuel IH];
    intros data deltas s Hat Hf; [lia|].
  pose proof Hat as (Hd & Hr & Hwf & Hds & Hd0 & Hu & pad & Hb).
  cbn [seek]. rewrite Hd. destruct (Z.compare_spec data p) as [->|Hlt|Hgt].
  - eexists. split; [done|]. cbn beta iota. split; [destruct deltas; left|]. eauto.
  - destruct deltas as [|d ds].
    { rewrite Hr. change (0 <? zlen []) with false. eexists. split; [done|].
      intros q Hq. cbn. rewrite list_elem_of_singleton. lia. }
    rewrite Hr, zlen_cons. pose proof (zlen_nonneg ds).
    rewrite (proj2 (Z.ltb_lt _ _)) by lia.
    apply Forall_cons in Hds as [Hd1 Hds]. cbn [values] in Hu.
    apply Forall_cons in Hu as [Hu0 Hu].
    assert (is_u64 (data + d)) as Hsum by (destruct ds; by apply Forall_cons in Hu as [? _]).
    cbn [map concat] in Hb. rewrite <- app_assoc in Hb.
    destruct (golomb_rice_decode_ok f d _ _ Hwf Hp ltac:(ints) Hb)
      as (b & -> & Hwf' & Hb').
    unfold add_u64. rewrite checked_ok by ints. cbn [mbind outcome_bind].
    destruct (IH (data + d) ds (MkScan (data + d) (1 + zlen ds - 1) b)) as (r & -> & Hres).
    { unfold scan_at. cbn [sc_data sc_remaining sc_bits].
      split_and!; try done; [lia..|by exists pad]. }
    { cbn [sc_bits]. rewrite Hb'. rewrite Hb, length_app in Hf.
      assert (0 < length (gr_code (gcs_p f) d))%nat; [|lia].
      unfold gr_code. rewrite !length_app. cbn. lia. }
    exists r. split; [done|].
    assert (∀ q, p ≤ q → (q ∈ values data (d :: ds) ↔ q ∈ values (data + d) ds)) as Heq.
    { intros q Hq. cbn [values]. rewrite elem_of_cons. split; [|tauto].
      intros [->|]; [lia|done]. }
    destruct r as [s'|s'|]; cbn beta iota in Hres |- *.
    + destruct Hres as (Hin & d' & ds' & Hat' & Hq). split; [by apply Heq|].
      exists d', ds'. split; [done|]. intros q ?. by rewrite Heq, Hq.
    + destruct Hres as (Hin & d' & ds' & Hat' & Hq). split; [by rewrite Heq|].
      exists d', ds'. split; [done|]. intros q ?. by rewrite Heq, Hq.
    + intros q ?. rewrite Heq by done. by apply Hres.
  - eexists. split; [done|]. cbn beta iota. split; [|eauto].
    intros Hin. pose proof (values_head_le data deltas Hds) as Hle.
    rewrite Forall_forall in Hle. specialize (Hle p Hin). lia.
Qed.

Lemma any_loop_ok f mapped data deltas s :
  0 ≤ gcs_p f ≤ 64 → StronglySorted Z.le mapped → scan_at f data deltas s →
  any_loop f mapped s = Ok (bool_decide (Exists (λ q, q ∈ values data deltas) mapped)).
Proof.
  intros Hp Hs. revert data deltas s.
  induction Hs as [|p mapped Hs IH Hall]; intros data deltas s Hat.
  { rewrite bool_decide_eq_false_2; [done|]. rewrite Exists_nil. tauto. }
  cbn [any_loop]. unfold seek_from.
  destruct (seek_ok f (S (length (bits_left (sc_bits s)))) p data deltas s Hp Hat ltac:(lia))
    as (r & -> & Hr). cbn [mbind outcome_bind].
  rewrite Forall_forall in Hall.
  destruct r as [s'|s'|]; cbn beta iota in Hr |- *.
  - destruct Hr as [Hin _]. by rewrite bool_decide_eq_true_2 by (by left).
  - destruct Hr as (Hnin & d' & ds' & Hat' & Hq). rewrite (IH d' ds' s' Hat').
    f_equal. apply bool_decide_ext. rewrite Exists_cons, !Exists_exists.
    split; [intros (q & Hqm & Hv); right; exists q; by rewrite <- Hq by auto|].
    intros [?|(q & Hqm & Hv)]; [done|]. exists q. by rewrite Hq by auto.
  - rewrite bool_decide_eq_false_2; [done|]. rewrite Exists_cons, Exists_exists.
    intros [H|(q & Hqm & Hv)]; [by apply (Hr p)|]. by apply (Hr q); auto.
Qed.

Lemma all_loop_ok f mapped data deltas s :
  0 ≤ gcs_p f ≤ 64 → StronglySorted Z.le mapped → scan_at f data deltas s →
  all_loop f mapped s = Ok (bool_decide (Forall (λ q, q ∈ values data deltas) mapped)).
Proof.
  intros Hp Hs. revert data deltas s.
  induction Hs as [|p mapped Hs IH Hall]; intros data deltas s Hat.
  { by rewrite bool_decide_eq_true_2 by constructor. }
  cbn [all_loop]. unfold seek_from.
  destruct (seek_ok f (S (length (bits_left (sc_bits s)))) p data deltas s Hp Hat ltac:(lia))
    as (r & -> & Hr). cbn [mbind outcome_bind].
  rewrite Forall_forall in Hall.
  destruct r as [s'|s'|]; cbn beta iota in Hr |- *.
  - destruct Hr as (Hin & d' & ds' & Hat' & Hq). rewrite (IH d' ds' s' Hat').
    f_equal. apply bool_decide_ext. rewrite Forall_cons, !Forall_forall.
    split; [intros H; split; [done|]; intros q Hqm; apply Hq; auto|].
    intros [_ H] q Hqm. apply Hq; auto.
  - destruct Hr as [Hnin _]. rewrite bool_decide_eq_false_2; [done|].
    by intros [? _]%Forall_cons.
  - rewrite bool_decide_eq_false_2; [done|]. intros [H _]%Forall_cons. by apply (Hr p).
Qed.

(** ** Encoded sets *)

(** The differences between consecutive values of a sorted list. *)
Fixpoint differences (prev : Z) (vals : list Z) : list Z :=
  match vals with
  | [] => []
  | v :: vals => v - prev :: differences v vals
  end.

(** The bit string of a sorted list of values (BIP 158). *)
Definition gcs_bits (p : Z) (vals : list Z) : list bool :=
  concat (map (gr_code p) (differences 0 vals)).

(** A filter content that encodes the values: their number, then a byte string
    that starts with their bit string (the last byte may be padded). *)
Definition encodes `{BO : ByteOrder} (p : Z) (content : bytes) (vals : list Z) : Prop :=
  ∃ body pad, content = var_int_write (zlen vals) ++ body ∧ is_bytes body
    ∧ bits_of body = gcs_bits p vals ++ pad.

Lemma values_differences v vals : values v (differences v vals) = v :: vals.
Proof.
  revert v. induction vals as [|w vals IH]; intros v; cbn; [done|].
  f_equal. replace (v + (w - v)) with w by lia. apply IH.
Qed.

Lemma differences_length prev vals : zlen (differences prev vals) = zlen vals.
Proof.
  revert prev. induction vals as [|v vals IH]; intros prev; [done|].
  cbn [differences]. by rewrite !zlen_cons, IH.
Qed.

Lemma differences_nonneg prev vals :
  StronglySorted Z.le (prev :: vals) → Forall (λ d, 0 ≤ d) (differences prev vals).
Proof.
  revert prev. induction vals as [|v vals IH]; intros prev Hs; cbn; constructor.
  - apply StronglySorted_inv in Hs as [_ [? _]%Forall_cons]. lia.
  - apply IH. by apply StronglySorted_inv in Hs as [? _].
Qed.

Lemma dedup_elem x l : x ∈ dedup l ↔ x ∈ l.
Proof.
  induction l as [|y [|z l] IH]; [done|done|].
  change (x ∈ (if y =? z then dedup (z :: l) else y :: dedup (z :: l)) ↔ x ∈ y :: z :: l).
  destruct (Z.eqb_spec y z) as [->|Hne]; [rewrite IH|rewrite elem_of_cons, IH];
    rewrite !elem_of_cons; tauto.
Qed.

Lemma dedup_sorted l : StronglySorted Z.le l → StronglySorted Z.le (dedup l).
Proof.
  induction l as [|y [|z l] IH]; [done|done|]. intros [Hs Hall]%StronglySorted_inv.
  change (StronglySorted Z.le (if y =? z then dedup (z :: l) else y :: dedup (z :: l))).
  destruct (y =? z); [by apply IH|]. constructor; [by apply IH|].
  rewrite Forall_forall in Hall |- *. intros x Hx. by apply Hall, dedup_elem.
Qed.

Lemma Z_merge_sort_sorted l : StronglySorted Z.le (merge_sort Z.le l).
Proof. apply StronglySorted_merge_sort; apply _. Qed.

Section MatchLaws.
  Context `{BO : ByteOrder} `{SIP : SipHash}.

(** The value a script is mapped to in a filter with [n] elements. *)
Definition query_value (g : GcsFilterReader) (n : Z) (e : bytes) : Z :=
  map_to_range (GcsFilter_hash (gfr_filter g) e) (n * gfr_m g).

(** Both matchers, given that their loop decides [Q] on sorted lists. *)
Lemma match_with_ok g content vals query prepare k (Q : list Z → list Z → Prop)
    `{!∀ a b, Decision (Q a b)} :
  0 ≤ gcs_p (gfr_filter g) ≤ 64 →
  StronglySorted Z.le vals → Forall is_u64 vals → is_u64 (zlen vals * gfr_m g) →
  is_u64 (zlen vals) → encodes (gcs_p (gfr_filter g)) content vals →
  (∀ l, prepare l = [] ↔ l = []) →
  (∀ l, StronglySorted Z.le l → StronglySorted Z.le (prepare l)) →
  (∀ l data deltas s, StronglySorted Z.le l → scan_at (gfr_filter g) data deltas s →
     k l s = Ok (bool_decide (Q (values data deltas) l))) →
  match_with g (cursor content) query prepare k
  = Ok (bool_decide (query = [] ∨ vals ≠ [] ∧
        Q vals (prepare (merge_sort Z.le (map (query_value g (zlen vals)) query))))).
Proof.
  intros Hp Hs Hu Hnm Hn (body & pad & -> & Hby & Hbits) Hprep Hps Hk.
  unfold match_with, read_count, cursor. rewrite var_int_read_ok by done.
  unfold mul_u64. rewrite checked_ok by (unfold is_u64 in Hnm; lia).
  cbn [mbind outcome_bind]. fold (query_value g (zlen vals)).
  change (λ e, map_to_range (GcsFilter_hash (gfr_filter g) e) (zlen vals * gfr_m g))
    with (query_value g (zlen vals)).
  set (mapped := merge_sort Z.le (map (query_value g (zlen vals)) query)).
  assert (prepare mapped = [] ↔ query = []) as Hempty.
  { rewrite Hprep. subst mapped. split; [|by intros ->].
    intros E. apply (f_equal length) in E.
    rewrite merge_sort_Permutation, length_map in E. by destruct query. }
  case_bool_decide as Hm.
  { rewrite bool_decide_eq_true_2; [done|]. left. by apply Hempty. }
  destruct vals as [|v vals].
  { rewrite bool_decide_eq_false_2; [done|]. rewrite <- Hempty. naive_solver. }
  rewrite zlen_cons. pose proof (zlen_nonneg vals).
  rewrite (proj2 (Z.eqb_neq _ _)) by lia.
  unfold gcs_bits in Hbits. cbn [differences map concat] in Hbits.
  rewrite Z.sub_0_r, <- app_assoc in Hbits.
  apply Forall_cons in Hu as [Hv Hu].
  destruct (golomb_rice_decode_ok (gfr_filter g) v _ (BitStreamReader_new (rdr body eof))
    ltac:(done) Hp Hv Hbits) as (b & -> & Hwf & Hb).
  rewrite (Hk _ v (differences v vals)).
  - rewrite values_differences. f_equal. apply bool_decide_ext. rewrite <- Hempty.
    naive_solver.
  - apply Hps, Z_merge_sort_sorted.
  - unfold scan_at. cbn [sc_data sc_remaining sc_bits]. rewrite differences_length.
    split_and!; try done; [lia|by apply differences_nonneg|ints| |by exists pad].
    rewrite values_differences. by constructor.
Qed.

(** The values of a filter built for a list of scripts. *)
Lemma built_values g items :
  gfr_m g = M → is_u64 (zlen items * M) →
  let vals := merge_sort Z.le (map (query_value g (zlen items)) items) in
  zlen vals = zlen items ∧ StronglySorted Z.le vals ∧ Forall is_u64 vals
  ∧ is_u64 (zlen vals * gfr_m g) ∧ is_u64 (zlen vals)
  ∧ ∀ q, q ∈ items → query_value g (zlen vals) q ∈ vals.
Proof.
  intros Hm Hnm. cbv zeta. set (vals := merge_sort Z.le (map (query_value g (zlen items)) items)).
  assert (zlen vals = zlen items) as Hlen.
  { unfold zlen, vals. by rewrite merge_sort_Permutation, length_map. }
  pose proof (zlen_nonneg vals). rewrite Hm. split_and!; [done|apply Z_merge_sort_sorted|..].
  - unfold vals. rewrite merge_sort_Permutation. apply Forall_fmap, Forall_true.
    intros x. apply as_u64_range.
  - by rewrite Hlen.
  - unfold is_u64, M in *. lia.
  - intros q Hq. rewrite Hlen. unfold vals. rewrite merge_sort_Permutation.
    by apply list_elem_of_fmap_2.
Qed.

(** On a filter built for [items], [match_any] returns, and says yes to a query that
    contains one of them. *)
Lemma match_any_built content items block_hash query :
  let g := BlockFilterReader_new block_hash in
  is_u64 (zlen items * M) →
  encodes P content (merge_sort Z.le (map (query_value g (zlen items)) items)) →
  ∃ b, BlockFilter_match_any content block_hash query = Ok b
    ∧ ((∃ q, q ∈ query ∧ q ∈ items) → b = true).
Proof.
  intros g Hnm He. destruct (built_values g items eq_refl Hnm) as (Hlen & Hs & Hu & Hn & Hl & Hin).
  set (vals := merge_sort Z.le (map (query_value g (zlen items)) items)) in *.
  unfold BlockFilter_match_any, GcsFilterReader_match_any.
  rewrite (match_with_ok _ content vals query _ _ (λ vs, Exists (λ q, q ∈ vs)));
    try done; [|intros; by apply any_loop_ok].
  eexists. split; [done|]. intros (q & Hq & Hi). apply bool_decide_eq_true_2. right.
  split; [specialize (Hin q Hi); by intros E; rewrite E in Hin; apply not_elem_of_nil in Hin|].
  rewrite merge_sort_Permutation, Exists_fmap, Exists_exists. exists q. auto.
Qed.

Lemma match_all_built content items block_hash query :
  let g := BlockFilterReader_new block_hash in
  is_u64 (zlen items * M) →
  encodes P content (merge_sort Z.le (map (query_value g (zlen items)) items)) →
  query ⊆ items → BlockFilter_match_all content block_hash query = Ok true.
Proof.
  intros g Hnm He Hq.
  destruct (built_values g items eq_refl Hnm) as (Hlen & Hs & Hu & Hn & Hl & Hin).
  set (vals := merge_sort Z.le (map (query_value g (zlen items)) items)) in *.
  unfold BlockFilter_match_all, GcsFilterReader_match_all.
  rewrite (match_with_ok _ content vals query _ _ (λ vs, Forall (λ q, q ∈ vs))); try done.
  - rewrite bool_decide_eq_true_2; [done|].
    destruct query as [|q0 query]; [by left|right]. split.
    + intros E. specialize (Hin q0 (Hq q0 ltac:(left))).
      rewrite E in Hin. by apply not_elem_of_nil in Hin.
    + apply Forall_forall. intros v. rewrite dedup_elem, merge_sort_Permutation.
      intros (q & -> & Hqin)%list_elem_of_fmap. by apply Hin, Hq.
  - intros l. split; [|by intros ->]. intros E. destruct l as [|x l]; [done|].
    assert (x ∈ dedup (x :: l)) as Hx by (apply dedup_elem; left). rewrite E in Hx.
    by apply not_elem_of_nil in Hx.
  - apply dedup_sorted.
  - intros. by apply all_loop_ok.
Qed.

End MatchLaws.

(** ** Properties *)

Section FilterProperties.
  Context `{BO : ByteOrder} `{SIP : SipHash}.

(** Reading [n <= 64] bits from a filter returns the number the next [n] bits
    denote, most significant first, and leaves the others; with fewer than [n]
    bits left the reader panics. *)
Theorem bit_reader_spec n s :
  bsr_wf s → 0 ≤ n ≤ 64 →
  (n ≤ zlen (bits_left s) → ∃ s',
     BitStreamReader_read n s = (Ok (bits_value (take (Z.to_nat n) (bits_left s))), s')
     ∧ bits_left s' = drop (Z.to_nat n) (bits_left s) ∧ bsr_wf s')
  ∧ (zlen (bits_left s) < n → is_panic (BitStreamReader_read n s).1 = true).
Proof.
  intros Hwf Hn. split; intros Hl.
  - destruct (BitStreamReader_read_ok n s) as (s' & ? & ? & ?); eauto.
  - unfold BitStreamReader_read. rewrite (proj2 (Z.ltb_ge _ _)) by lia.
    by destruct (read_loop_end (Z.to_nat n) n 0 s Hwf ltac:(lia) Hl) as (m & s' & ->).
Qed.

(** C21: on a filter that encodes a sorted set of values, [match_any] terminates
    without a panic and answers whether one of the queried scripts maps to a value
    of the set (an empty query matches). *)
Theorem match_any_spec content vals block_hash query :
  StronglySorted Z.le vals → Forall is_u64 vals → is_u64 (zlen vals * M) →
  encodes P content vals →
  BlockFilter_match_any content block_hash query
  = Ok (bool_decide (query = [] ∨ Exists (λ q,
          query_value (BlockFilterReader_new block_hash) (zlen vals) q ∈ vals) query)).
Proof.
  intros Hs Hu Hnm He. unfold BlockFilter_match_any, GcsFilterReader_match_any.
  rewrite (match_with_ok _ content vals query _ _ (λ vs, Exists (λ q, q ∈ vs))); try done.
  - f_equal. apply bool_decide_ext. rewrite merge_sort_Permutation, Exists_fmap.
    rewrite !Exists_exists. split; [naive_solver|].
    intros [?|(q & ? & Hq)]; [by left|]. right. split; [by intros ->; apply not_elem_of_nil in Hq|].
    by exists q.
  - pose proof (zlen_nonneg vals). unfold is_u64, M in *. lia.
  - intros. by apply any_loop_ok.
Qed.

(** C8: the filter never misses a payment: when the filter was built for a list
    of scripts as BIP 158 prescribes, [match_any] says yes to every query that
    contains one of them and [match_all] to every query that contains only them. *)
Theorem match_no_false_negatives content items block_hash query :
  let g := BlockFilterReader_new block_hash in
  is_u64 (zlen items * M) →
  encodes P content (merge_sort Z.le (map (query_value g (zlen items)) items)) →
  ((∃ q, q ∈ query ∧ q ∈ items) → BlockFilter_match_any content block_hash query = Ok true)
  ∧ (query ⊆ items → BlockFilter_match_all content block_hash query = Ok true).
Proof.
  intros g Hnm He. split; intros Hq.
  - destruct (match_any_built content items block_hash query Hnm He) as (b & -> & Hb).
    by rewrite Hb.
  - by apply (match_all_built content items).
Qed.

(** A filter whose announced number of elements times [M] exceeds 64 bits, or
    which announces an element and has no bits, panics on every non-empty query:
    a peer can abort the client with a nine-byte filter. *)
Theorem match_any_malformed_panics n block_hash query :
  is_u64 n → (18446744073709551616 ≤ n * M ∨ 0 < n ∧ query ≠ []) →
  is_panic (BlockFilter_match_any (var_int_write n) block_hash query) = true.
Proof.
  intros Hn Hcase. unfold BlockFilter_match_any, GcsFilterReader_match_any, match_with,
    read_count, cursor. rewrite <- (app_nil_r (var_int_write n)), var_int_read_ok by done.
  change (gfr_m (BlockFilterReader_new block_hash)) with M.
  unfold mul_u64, checked. destruct (Z.leb_spec 0 (n * M)); [|done].
  destruct (Z.ltb_spec (n * M) 18446744073709551616); [|done].
  destruct Hcase as [?|[Hpos Hne]]; [lia|]. cbn [andb mbind outcome_bind].
  rewrite bool_decide_eq_false_2.
  2:{ intros E. apply (f_equal length) in E.
      rewrite merge_sort_Permutation, length_map in E. by destruct query. }
  rewrite (proj2 (Z.eqb_neq _ _)) by lia.
  by destruct (golomb_rice_decode _ _) as [[]] eqn:E.
Qed.

End FilterProperties.

(** A keyed hash that meets the law, and a filter for the scripts [[1]] and [[2]]. *)
Definition example_siphash : SipHash := {|
  siphash24 _ _ b := as_u64 (2 ^ 62 * le_value b);
  siphash24_u64 _ _ b := as_u64_range (2 ^ 62 * le_value b);
|}.

Definition example_block_hash : Hash256 := MkHash256 (replicate 32 0).
Definition example_filter : bytes := [2; 95; 209; 21; 253; 18].

Lemma bit_reader_spec_witness :
  ∃ s', BitStreamReader_read 12 (BitStreamReader_new (cursor [0xab; 0xcd])) = (Ok 0xabc, s')
    ∧ bits_left s' = [true; true; false; true] ∧ bsr_wf s'.
Proof.
  apply (bit_reader_spec 12 (BitStreamReader_new (cursor [0xab; 0xcd])));
    [split; [cbn; lia|split; by_eval]|lia|by_eval].
Defined.

Lemma match_any_spec_witness :
  @BlockFilter_match_any std_byteorder example_siphash example_filter example_block_hash
    [[3]; [2]] = Ok true.
Proof.
  rewrite (@match_any_spec std_byteorder example_siphash example_filter [392465; 784931]
    example_block_hash [[3]; [2]]); [by vm_compute| |by_eval..|].
  - repeat constructor; by_eval.
  - exists [95; 209; 21; 253; 18], []. split_and!; [done|by_eval|by vm_compute].
Defined.

Lemma match_no_false_negatives_witness :
  (@BlockFilter_match_any std_byteorder example_siphash example_filter example_block_hash
     [[7]; [1]] = Ok true)
  ∧ @BlockFilter_match_all std_byteorder example_siphash example_filter example_block_hash
      [[2]; [1]] = Ok true.
Proof.
  assert (@encodes std_byteorder P example_filter (merge_sort Z.le
    (map (@query_value example_siphash (BlockFilterReader_new example_block_hash) 2)
       [[1]; [2]]))) as He.
  { exists [95; 209; 21; 253; 18], []. split_and!; [done|by_eval|by vm_compute]. }
  split.
  - apply (@match_no_false_negatives std_byteorder example_siphash example_filter
      [[1]; [2]] example_block_hash [[7]; [1]]); [by_eval|exact He|].
    exists [1]. split; by_eval.
  - apply (@match_no_false_negatives std_byteorder example_siphash example_filter
      [[1]; [2]] example_block_hash [[2]; [1]]); [by_eval|exact He|].
    intros q. rewrite !elem_of_cons. tauto.
Defined.

Lemma match_any_malformed_panics_witness :
  is_panic (@BlockFilter_match_any std_byteorder example_siphash [1] example_block_hash
    [[1]]) = true.
Proof.
  apply (@match_any_malformed_panics std_byteorder example_siphash 1 example_block_hash
    [[1]]); [by_eval|]. right. split; [lia|done].
Defined.
