(* ===== verification/Crypto.v ===== *)
(** * SHA-256 and SipHash-2-4

    The digest of the [ring] crate and the keyed hash of the [siphasher] crate are
    parameters of the development ([Sha256], [SipHash]).  This file gives the two
    functions themselves, as the standards define them, as instances that meet the
    parameters' laws: the repository's own test vectors are then evaluated with the
    functions the client really uses. *)

From S2P Require Import Prelude Errors Io Hash256 BlockFilter.

(** ** Words of 32 bits *)

Definition word (z : Z) : Z := Z.land z 0xffffffff.
Definition rotr (n x : Z) : Z := Z.lor (Z.shiftr x n) (word (Z.shiftl x (32 - n))).

(** ** The constants

    Fractional parts of the square roots of the first eight primes and of the cube
    roots of the first sixty-four, 32 bits of each. *)

Definition primes (n : nat) : list Z :=
  take n (filter (λ p, forallb (λ d, negb (p mod d =? 0)) (seqZ 2 (p - 2))) (seqZ 2 320)).

(** The integer cube root of [z], bit by bit from [2 ^ n]. *)
Fixpoint cbrt (n : nat) (z : Z) (r : Z) : Z :=
  match n with
  | O => r
  | S n => let r' := r + 2 ^ Z.of_nat n in cbrt n z (if r' ^ 3 <=? z then r' else r)
  end.

Definition round_constants : list Z :=
  Eval vm_compute in map (λ p, word (cbrt 40 (p * 2 ^ 96) 0)) (primes 64).

Definition initial_words : list Z :=
  Eval vm_compute in map (λ p, word (Z.sqrt (p * 2 ^ 64))) (primes 8).

(** ** The compression of a block *)

Record digest_state := MkDigest { da : Z; db : Z; dc : Z; dd : Z; de : Z; df : Z; dg : Z; dh : Z }.

Definition digest_words (s : digest_state) : list Z :=
  [da s; db s; dc s; dd s; de s; df s; dg s; dh s].

Definition initial_digest : digest_state :=
  match initial_words with
  | [a; b; c; d; e; f; g; h] => MkDigest a b c d e f g h
  | _ => MkDigest 0 0 0 0 0 0 0 0
  end.

Definition choose (x y z : Z) : Z := Z.lxor (Z.land x y) (Z.land (Z.lxor x 0xffffffff) z).
Definition majority (x y z : Z) : Z := Z.lxor (Z.lxor (Z.land x y) (Z.land x z)) (Z.land y z).

Definition mix (i j k x : Z) : Z := Z.lxor (Z.lxor (rotr i x) (rotr j x)) (rotr k x).
Definition spread (i j k x : Z) : Z := Z.lxor (Z.lxor (rotr i x) (rotr j x)) (Z.shiftr x k).

Definition digest_round (k w : Z) (s : digest_state) : digest_state :=
  let t1 := dh s + mix 6 11 25 (de s) + choose (de s) (df s) (dg s) + k + w in
  let t2 := mix 2 13 22 (da s) + majority (da s) (db s) (dc s) in
  MkDigest (word (t1 + t2)) (da s) (db s) (dc s) (word (dd s + t1)) (de s) (df s) (dg s).

(** The rounds, with the sixteen message words that are still to come. *)
Fixpoint digest_rounds (ks window : list Z) (s : digest_state) : digest_state :=
  match ks, window with
  | k :: ks, w :: window =>
    let next := word (spread 17 19 10 (nth 13 window 0) + nth 8 window 0
                      + spread 7 18 3 (nth 0 window 0) + w) in
    digest_rounds ks (window ++ [next]) (digest_round k w s)
  | _, _ => s
  end.

Definition add_digest (s t : digest_state) : digest_state :=
  MkDigest (word (da s + da t)) (word (db s + db t)) (word (dc s + dc t)) (word (dd s + dd t))
    (word (de s + de t)) (word (df s + df t)) (word (dg s + dg t)) (word (dh s + dh t)).

(** Big-endian words of four bytes. *)
Fixpoint words_of (b : bytes) : list Z :=
  match b with
  | w :: x :: y :: z :: b => (((w * 256 + x) * 256 + y) * 256 + z) :: words_of b
  | _ => []
  end.

Fixpoint digest_blocks (n : nat) (words : list Z) (s : digest_state) : digest_state :=
  match n with
  | O => s
  | S n =>
    digest_blocks n (drop 16 words)
      (add_digest s (digest_rounds round_constants (take 16 words) s))
  end.

(** The message, a one bit, zeros up to 56 modulo 64 bytes, and the length in bits. *)
Definition pad_message (b : bytes) : bytes :=
  b ++ [0x80] ++ replicate (Z.to_nat ((55 - zlen b) mod 64)) 0 ++ be_bytes 8 (8 * zlen b).

Definition sha256_digest (b : bytes) : bytes :=
  let m := pad_message b in
  concat (map (be_bytes 4)
    (digest_words (digest_blocks (length m / 64) (words_of m) initial_digest))).

Lemma be_bytes_length n z : length (be_bytes n z) = n.
Proof. pose proof (zlen_be_bytes n z). unfold zlen in *. lia. Qed.

Lemma sha256_digest_length b : length (sha256_digest b) = 32%nat.
Proof.
  unfold sha256_digest, digest_words. cbn [map concat].
  rewrite !length_app, !be_bytes_length. done.
Qed.

Lemma sha256_digest_is_bytes b : is_bytes (sha256_digest b).
Proof.
  unfold sha256_digest, digest_words. cbn [map concat]. unfold is_bytes.
  rewrite !Forall_app. split_and!; try apply be_bytes_is_bytes. constructor.
Qed.

Definition std_sha256 : Sha256 := {|
  sha256 := sha256_digest;
  sha256_length := sha256_digest_length;
  sha256_is_bytes := sha256_digest_is_bytes;
|}.

(** ** SipHash-2-4 *)

Definition word64 (z : Z) : Z := Z.land z 0xffffffffffffffff.
Definition rotl64 (n x : Z) : Z := Z.lor (word64 (Z.shiftl x n)) (Z.shiftr x (64 - n)).

Definition sip_round (v : Z * Z * Z * Z) : Z * Z * Z * Z :=
  let '(v0, v1, v2, v3) := v in
  let v0 := word64 (v0 + v1) in
  let v1 := Z.lxor (rotl64 13 v1) v0 in
  let v0 := rotl64 32 v0 in
  let v2 := word64 (v2 + v3) in
  let v3 := Z.lxor (rotl64 16 v3) v2 in
  let v0 := word64 (v0 + v3) in
  let v3 := Z.lxor (rotl64 21 v3) v0 in
  let v2 := word64 (v2 + v1) in
  let v1 := Z.lxor (rotl64 17 v1) v2 in
  let v2 := rotl64 32 v2 in
  (v0, v1, v2, v3).

Definition sip_word (m : Z) (v : Z * Z * Z * Z) : Z * Z * Z * Z :=
  let '(v0, v1, v2, v3) := v in
  let '(v0, v1, v2, v3) := sip_round (sip_round (v0, v1, v2, Z.lxor v3 m)) in
  (Z.lxor v0 m, v1, v2, v3).

(** Eight bytes at a time; the last word holds the length. *)
Fixpoint sip_words (n : nat) (len : Z) (b : bytes) (v : Z * Z * Z * Z) : Z * Z * Z * Z :=
  match n with
  | O => sip_word (Z.lor (le_value b) (Z.shiftl (len mod 256) 56)) v
  | S n => sip_words n len (drop 8 b) (sip_word (le_value (take 8 b)) v)
  end.

Definition sip24 (k0 k1 : Z) (b : bytes) : Z :=
  let v := (Z.lxor k0 0x736f6d6570736575, Z.lxor k1 0x646f72616e646f6d,
            Z.lxor k0 0x6c7967656e657261, Z.lxor k1 0x7465646279746573) in
  let '(v0, v1, v2, v3) := sip_words (length b / 8) (zlen b) b v in
  let '(v0, v1, v2, v3) :=
    sip_round (sip_round (sip_round (sip_round (v0, v1, Z.lxor v2 0xff, v3)))) in
  word64 (Z.lxor (Z.lxor v0 v1) (Z.lxor v2 v3)).

Lemma sip24_u64 k0 k1 b : is_u64 (sip24 k0 k1 b).
Proof.
  unfold sip24. repeat case_match. unfold word64.
  change 0xffffffffffffffff with (Z.ones 64). rewrite Z.land_ones by lia.
  apply Z.mod_pos_bound. lia.
Qed.

Definition std_siphash : SipHash := {| siphash24 := sip24; siphash24_u64 := sip24_u64 |}.

(** ** Test vectors of the standards *)

Example sha256_abc :
  std_hex_encode (sha256_digest (str "abc"))
  = str "ba7816bf8f01cfea414140de5dae2223b00361a396177a9cb410ff61f20015ad".
Proof. vm_compute. reflexivity. Qed.

Example sip24_reference :
  sip24 0x0706050403020100 0x0f0e0d0c0b0a0908 (seqZ 0 15) = 0xa129ca6149be45e5.
Proof. vm_compute. reflexivity. Qed.
