(* ===== verification/UnitTests.v ===== *)
(** * The unit tests of the node

    The tests of [node/src/messages] and [node/src/util] as programs over the model:
    a test returns [Ok], or panics at an [unwrap] or an assertion.  Each is evaluated,
    with the digest the client uses: the model agrees with the code on every input
    the repository's authors chose. *)

From S2P Require Import Prelude Errors Io VarInt Hash256 TxMsg BlockMsg NetMsg Message Bits Latch BlockFilter Crypto.

#[local] Existing Instance std_byteorder.
#[local] Existing Instance std_sha256.
#[local] Existing Instance std_hex.

(** ** Tests *)

Definition test : Type := outcome Empty_set unit.

Definition assert (b : bool) : test := if b then Ok tt else Panic "assertion failed".

Definition unwrapped {E A} (m : outcome E A) : outcome Empty_set A :=
  match m with
  | Ok a => Ok a
  | Err _ => Panic "called `Result::unwrap()` on an `Err` value"
  | Panic s => Panic s
  end.

(** [is_ok] and [is_err] of a result; a panic ends the test. *)
Definition assert_ok {E A} (m : outcome E A) : test :=
  match m with Ok _ => Ok tt | Err _ => Panic "assertion failed" | Panic s => Panic s end.
Definition assert_err {E A} (m : outcome E A) : test :=
  match m with Err _ => Ok tt | Ok _ => Panic "assertion failed" | Panic s => Panic s end.

Notation "a ==? b" := (assert (bool_decide (a = b))) (at level 70) : outcome_scope.
Notation "m ;; k" := (m ≫= λ _, k) (at level 100, right associativity) : outcome_scope.

(** [hex::decode(s).unwrap()] and [Hash256::decode(s).unwrap()]. *)
Definition hex (s : string) : outcome Empty_set bytes := unwrapped (hex_decode (str s)).
Definition hash (s : string) : outcome Empty_set Hash256 := unwrapped (Hash256_decode (str s)).

(** [T::read(&mut Cursor::new(&b))]. *)
Definition read_from {A} (p : parser Error A) (b : bytes) : outcome Error A := (p (cursor b)).1.

(** What most tests do: write, compare the length with the size, read back. *)
Definition write_read {A} `{EqDecision A} (p : parser Error A) (w : A → bytes) (sz : A → Z) (x : A)
    : test :=
  zlen (w x) ==? sz x;; y ← unwrapped (read_from p (w x)); y ==? x.

(** ** [util/var_int.rs] *)

Definition write_read_value (n : Z) : test :=
  m ← unwrapped (var_int_read (cursor (var_int_write n))).1; m ==? n.

Definition var_int_size_test : test :=
  var_int_size 0 ==? 1;;
  var_int_size 253 ==? 3;;
  var_int_size 65535 ==? 3;;
  var_int_size 4294967295 ==? 5;;
  var_int_size 18446744073709551615 ==? 9.

Definition var_int_write_read : test :=
  write_read_value 0;;
  write_read_value 253;;
  write_read_value 65535;;
  write_read_value 4294967295;;
  write_read_value 18446744073709551615.

(** ** [util/hash256.rs] *)

Definition sha256d_test : test :=
  x ← hex "0123456789abcdef";
  hex_encode (hash_bytes (sha256d x))
    ==? str "137ad663f79da06e282ed0abbec4d70523ced5ff8e39d5c2e5641d978c5925aa".

Definition hash_decode : test :=
  assert_ok (Hash256_decode (str "0000000000000000000000000000000000000000000000000000000000000000"));;
  assert_ok (Hash256_decode (str "ffffffffffffffffffffffffffffffffffffffffffffffffffffffffffffffff"));;
  assert_ok (Hash256_decode (str "abcdef0000112233445566778899abcdef000011223344556677889912345678"));;
  assert_err (Hash256_decode (str "000000000000000000000000000000000000000000000000000000000000000"));;
  assert_err (Hash256_decode (str "00000000000000000000000000000000000000000000000000000000000000000"));;
  assert_err (Hash256_decode (str "000000000000000000000000000000000000000000000000000000000000000g")).

Definition hash_decode_write_read_encode : test :=
  let s1 := "abcdef0000112233445566778899abcdef000011223344556677889912345678"%string in
  h1 ← hash s1;
  h2 ← unwrapped (read_from Hash256_read (Hash256_write h1));
  Hash256_encode h2 ==? str s1.

Definition compare_as (s1 s2 : string) (c : comparison) : test :=
  h1 ← hash s1; h2 ← hash s2; Hash256_cmp h1 h2 ==? c.

Definition hash_compare : test :=
  h1 ← hash "5555555555555555555555555555555555555555555555555555555555555555";
  h2 ← hash "5555555555555555555555555555555555555555555555555555555555555555";
  h1 ==? h2;;
  compare_as "0555555555555555555555555555555555555555555555555555555555555555"
    "5555555555555555555555555555555555555555555555555555555555555555" Lt;;
  compare_as "5555555555555555555555555555555555555555555555555555555555555550"
    "5555555555555555555555555555555555555555555555555555555555555555" Lt;;
  compare_as "6555555555555555555555555555555555555555555555555555555555555555"
    "5555555555555555555555555555555555555555555555555555555555555555" Gt;;
  compare_as "5555555555555555555555555555555555555555555555555555555555555556"
    "5555555555555555555555555555555555555555555555555555555555555555" Gt.

(** ** [util/bits.rs] *)

Definition bits_append_test : test :=
  b ← Bits_from_slice [255] 8;
  b4 ← Bits_from_slice [0] 4; b ← Bits_append b b4;
  b2 ← Bits_from_slice [255] 2; b ← Bits_append b b2;
  b4 ← Bits_from_slice [63] 4; b ← Bits_append b b4;
  bits_len b ==? 18;;
  bits_data b !! 0%nat ==? Some 255;;
  bits_data b !! 1%nat ==? Some 12;;
  bits_data b !! 2%nat ==? Some 192.

Definition bits_extract_test : test :=
  b ← Bits_from_slice [15; 23; 192] 24;
  e ← Bits_extract b 4 13;
  e ==? 7727.

Definition lshift_test : test :=
  lshift [] 0 ==? [];;
  lshift [] 1 ==? [];;
  lshift [] 999999 ==? [];;
  lshift [0x80; 0x10; 0x30; 0x55] 0 ==? [0x80; 0x10; 0x30; 0x55];;
  lshift [0xff] 0 ==? [0xff];;
  lshift [0x80; 0x00; 0x00; 0x01] 1 ==? [0x00; 0x00; 0x00; 0x02];;
  lshift [0x80; 0x00; 0x00; 0x00] 999999 ==? [0x00; 0x00; 0x00; 0x00];;
  lshift [0x01; 0x23; 0x45; 0x67] 4 ==? [0x12; 0x34; 0x56; 0x70];;
  lshift [0x01; 0x23; 0x45; 0x67] 8 ==? [0x23; 0x45; 0x67; 0x00].

Definition rshift_test : test :=
  rshift [] 0 ==? [];;
  rshift [] 1 ==? [];;
  rshift [] 999999 ==? [];;
  rshift [0x80; 0x10; 0x30; 0x55] 0 ==? [0x80; 0x10; 0x30; 0x55];;
  rshift [0xff] 0 ==? [0xff];;
  rshift [0x80; 0x00; 0x00; 0x02] 1 ==? [0x40; 0x00; 0x00; 0x01];;
  rshift [0x00; 0x00; 0x00; 0x01] 999999 ==? [0x00; 0x00; 0x00; 0x00];;
  rshift [0x01; 0x23; 0x45; 0x67] 4 ==? [0x00; 0x12; 0x34; 0x56];;
  rshift [0x01; 0x23; 0x45; 0x67] 8 ==? [0x00; 0x01; 0x23; 0x45].

(** ** Addresses, pings, rejections, inventories *)

Definition addr_read_bytes : test :=
  b ← hex "013c93dd5a250000000000000000000000000000000000ffff43cdb3a1479d";
  a ← unwrapped (read_from Addr_read b);
  zlen (addr_addrs a) ==? 1;;
  match addr_addrs a with
  | a0 :: _ =>
    nax_last_connected_time a0 ==? 1524470588;;
    na_services (nax_addr a0) ==? 37;;
    na_ip (nax_addr a0) ==? [0; 0; 0; 0; 0; 0; 0; 0; 0; 0; 255; 255; 67; 205; 179; 161];;
    na_port (nax_addr a0) ==? 18333
  | [] => Panic "index out of bounds"
  end.

Definition addr_write_read : test :=
  let addr1 := MkNodeAddrEx 100 (MkNodeAddr 900 (replicate 16 1) 2000) in
  let addr2 := MkNodeAddrEx 200 (MkNodeAddr 800 (replicate 16 2) 3000) in
  let addr3 := MkNodeAddrEx 700 (MkNodeAddr 900 (replicate 16 3) 4000) in
  write_read Addr_read Addr_write Addr_size (MkAddr [addr1; addr2; addr3]).

Definition node_addr_read_bytes : test :=
  b ← hex "250000000000000000000000000000000000ffff2d32bffbddd3";
  a ← unwrapped (read_from NodeAddr_read b);
  na_services a ==? 37;;
  na_ip a ==? [0; 0; 0; 0; 0; 0; 0; 0; 0; 0; 255; 255; 45; 50; 191; 251];;
  na_port a ==? 56787.

Definition node_addr_write_read : test :=
  write_read NodeAddr_read NodeAddr_write NodeAddr_size (MkNodeAddr 1 (seqZ 0 16) 123).

Definition node_addr_ex_write_read : test :=
  write_read NodeAddrEx_read NodeAddrEx_write NodeAddrEx_size
    (MkNodeAddrEx 12345 (MkNodeAddr 1 (seqZ 0 16) 123)).

Definition ping_read_bytes : test :=
  b ← hex "86b19332b96c657d";
  f ← unwrapped (read_from Ping_read b);
  ping_nonce f ==? 9035747770062057862.

Definition ping_write_read : test := write_read Ping_read Ping_write Ping_size (MkPing 13579).

Definition reject_txid : test :=
  assert_ok (Reject_txid (MkReject [] 0 [] (replicate 32 5)));;
  assert_err (Reject_txid (MkReject [] 0 [] (replicate 33 3))).

Definition reject_read_bytes : test :=
  b ← hex "027478104f6d616e6461746f72792d7363726970742d7665726966792d666c61672d6661696c65642028536372697074206661696c656420616e204f505f455155414c564552494659206f7065726174696f6e292f174bfe9e5b6e32ef2fabd164df5469f44977d93e0625238465ded771083993";
  m ← unwrapped (read_from Reject_read b);
  rej_message m ==? str "tx";;
  rej_code m ==? REJECT_INVALID;;
  rej_reason m ==? str "mandatory-script-verify-flag-failed (Script failed an OP_EQUALVERIFY operation)";;
  data ← hex "2f174bfe9e5b6e32ef2fabd164df5469f44977d93e0625238465ded771083993";
  rej_data m ==? data.

Definition reject_write_read : test :=
  write_read Reject_read Reject_write Reject_size
    (MkReject (str "block") REJECT_INVALID (str "Block too small") (replicate 32 5)).

Definition send_cmpct_read_bytes : test :=
  b ← hex "000100000000000000";
  f ← unwrapped (read_from SendCmpct_read b);
  sc_enable f ==? 0;;
  sc_version f ==? 1.

Definition send_cmpct_write_read : test :=
  write_read SendCmpct_read SendCmpct_write SendCmpct_size (MkSendCmpct 1 1).

Definition inv_vect_write_read : test :=
  write_read InvVect_read InvVect_write InvVect_size
    (MkInvVect INV_VECT_TX (MkHash256 (replicate 32 8))).

Definition inv_write_read : test :=
  let iv1 := MkInvVect INV_VECT_TX (MkHash256 (replicate 32 8)) in
  let iv2 := MkInvVect INV_VECT_BLOCK (MkHash256 (replicate 32 9)) in
  write_read Inv_read Inv_write Inv_size (MkInv [iv1; iv2]).

Definition too_many_objects : test :=
  let inv := MkInv (replicate (Z.to_nat (MAX_INV_ENTRIES + 1))
                      (MkInvVect INV_VECT_TX (MkHash256 (replicate 32 8)))) in
  assert_err (read_from Inv_read (Inv_write inv)).

(** ** Versions *)

Definition version_read_bytes : test :=
  b ← hex "7f1101002500000000000000f2d2d25a00000000000000000000000000000000000000000000ffff2d32bffbdd1725000000000000000000000000000000000000000000000000008d501d3bb5369deb242f426974636f696e204142433a302e31362e30284542382e303b20626974636f7265292f6606080001";
  v ← unwrapped (read_from Version_read b);
  ver_version v ==? 70015;;
  ver_services v ==? 37;;
  ver_timestamp v ==? 1523766002;;
  na_services (ver_recv_addr v) ==? 0;;
  na_ip (ver_recv_addr v) ==? [0; 0; 0; 0; 0; 0; 0; 0; 0; 0; 255; 255; 45; 50; 191; 251];;
  na_port (ver_recv_addr v) ==? 56599;;
  na_services (ver_tx_addr v) ==? 37;;
  na_ip (ver_tx_addr v) ==? [0; 0; 0; 0; 0; 0; 0; 0; 0; 0; 0; 0; 0; 0; 0; 0];;
  na_port (ver_tx_addr v) ==? 0;;
  ver_nonce v ==? 16977786322265395341;;
  ver_user_agent v ==? str "/Bitcoin ABC:0.16.0(EB8.0; bitcore)/";;
  ver_start_height v ==? 525926;;
  assert (ver_relay v).

Definition version_write_read : test :=
  write_read Version_read Version_write Version_size
    (MkVersion MIN_SUPPORTED_PROTOCOL_VERSION 77 1234 NodeAddr_default NodeAddr_default 99
       (str "dummy") 22 true).

(** [now] is what the wall clock shows during the test. *)
Definition version_validate_test (now : Z) : test :=
  let m version timestamp :=
    MkVersion version 77 timestamp NodeAddr_default NodeAddr_default 99 (str "dummy") 22 true in
  assert_ok (Version_validate now (m MIN_SUPPORTED_PROTOCOL_VERSION (secs_since now)));;
  assert_err (Version_validate now (m 0 (secs_since now)));;
  assert_err (Version_validate now (m MIN_SUPPORTED_PROTOCOL_VERSION 0)).

(** ** Transactions *)

Definition out_point_write_read : test :=
  h ← hash "123412345678567890ab90abcdefcdef123412345678567890ab90abcdefcdef";
  write_read OutPoint_read OutPoint_write OutPoint_size (MkOutPoint h 0).

Definition tx_in_write_read : test :=
  write_read TxIn_read TxIn_write TxIn_size
    (MkTxIn (MkOutPoint (MkHash256 (replicate 32 6)) 8) (replicate 254 255) 100).

Definition tx_out_write_read : test :=
  write_read TxOut_read TxOut_write TxOut_size
    (MkTxOut 4400044000 [1; 2; 3; 4; 5; 6; 7; 8; 9; 100; 99; 98; 97; 96]).

(** The coinbase from block 2. *)
Definition tx_hash_test : test :=
  let tx := MkTx 1 None
    [MkTxIn (MkOutPoint (MkHash256 (replicate 32 0)) 4294967295) [4; 255; 255; 0; 29; 1; 11]
       4294967295]
    [MkTxOut 5000000000
       [65; 4; 114; 17; 168; 36; 245; 91; 80; 82; 40; 228; 195; 213; 25; 76; 31; 207;
        170; 21; 164; 86; 171; 223; 55; 249; 185; 217; 122; 64; 64; 175; 192; 115; 222;
        230; 200; 144; 100; 152; 79; 3; 56; 82; 55; 217; 33; 103; 193; 62; 35; 100; 70;
        180; 23; 171; 121; 160; 252; 174; 65; 42; 227; 49; 107; 119; 172]] None 0 in
  h ← hash "9b0fc92260312ce44e74ef369f5c66bbb85848f2eddd5a7a1cde251e54ccfdd5";
  Tx_hash tx ==? h;;
  assert (Tx_coinbase tx).

(** ** Block headers and locators *)

Definition header_12345 : outcome Empty_set BlockHeader :=
  p ← hash "7766009988776600998877660099887766009988776600998877660099887766";
  m ← hash "2211554433221155443322115544332211554433221155443322115544332211";
  Ok (MkBlockHeader 12345 p m 66 4488 9999).

Definition header_67890 (p : Hash256) : outcome Empty_set BlockHeader :=
  m ← hash "6677889900667788990066778899006677889900667788990066778899006677";
  Ok (MkBlockHeader 67890 p m 77 5599 1111).

Definition block_header_write_read : test :=
  h ← header_12345; write_read BlockHeader_read BlockHeader_write BlockHeader_size h.

(** The header both tests of hashes use. *)
Definition mainnet_header : outcome Empty_set BlockHeader :=
  p ← hash "00000000000008a3a41b85b8b29ad444def299fee21793cd8b9e567eab02cd81";
  m ← hash "2b12fcf1b09288fcaff797d71e950e71ae42b91e8bdb2304758dfcffc2b620e3";
  Ok (MkBlockHeader 0x00000001 p m 0x4dd7f5c7 0x1a44b9f2 0x9546a142).

Definition block_header_hash_test : test :=
  h ← mainnet_header;
  Hash256_encode (BlockHeader_hash h)
    ==? str "00000000000000001e8d6829a8a21adc5d38d0a473b144b6765798e61f98bd1d".

Definition with_timestamp (t : Z) (h : BlockHeader) : BlockHeader :=
  MkBlockHeader (bh_version h) (bh_prev_hash h) (bh_merkle_root h) t (bh_bits h) (bh_nonce h).
Definition with_nonce (n : Z) (h : BlockHeader) : BlockHeader :=
  MkBlockHeader (bh_version h) (bh_prev_hash h) (bh_merkle_root h) (bh_timestamp h) (bh_bits h) n.

(** [BlockHeader::default()]. *)
Definition BlockHeader_default : BlockHeader := MkBlockHeader 0 NO_HASH_STOP NO_HASH_STOP 0 0 0.

Definition block_header_validate_test : test :=
  let headers := map (λ i, with_timestamp (i * 10) BlockHeader_default) (seqZ 0 11) in
  valid ← mainnet_header;
  assert_ok (BlockHeader_validate valid (BlockHeader_hash valid) headers);;
  let headers := map (with_timestamp (bh_timestamp valid + 1)) headers in
  assert_err (BlockHeader_validate valid (BlockHeader_hash valid) headers);;
  let h := with_nonce 0 valid in
  assert_err (BlockHeader_validate h (BlockHeader_hash h) headers).

Definition block_locator_write_read : test :=
  h1 ← hash "6677889900667788990066778899006677889900667788990066778899006677";
  h2 ← hash "1122334455112233445511223344551122334455112233445511223344551122";
  write_read BlockLocator_read BlockLocator_write BlockLocator_size
    (MkBlockLocator 12345 [NO_HASH_STOP; h1] h2).

(** The test of [filter_locator.rs] is the one of [block_locator.rs] again. *)
Definition filter_locator_write_read : test :=
  h1 ← hash "6677889900667788990066778899006677889900667788990066778899006677";
  h2 ← hash "1122334455112233445511223344551122334455112233445511223344551122";
  write_read BlockLocator_read BlockLocator_write BlockLocator_size
    (MkBlockLocator 12345 [NO_HASH_STOP; h1] h2).

Definition headers_write_read : test :=
  h1 ← header_12345;
  p ← hash "1122334455112233445511223344551122334455112233445511223344551122";
  h2 ← header_67890 p;
  write_read Headers_read Headers_write Headers_size (MkHeaders [h1; h2]).

Definition header_hash_test : test :=
  header1 ← header_12345;
  header2 ← header_67890 (BlockHeader_hash header1);
  assert_err (header_hash 0 []);;
  h ← unwrapped (header_hash 0 [header1]); h ==? BlockHeader_hash header1;;
  assert_err (header_hash 1 [header1]);;
  h ← unwrapped (header_hash 0 [header1; header2]); h ==? BlockHeader_hash header1;;
  h ← unwrapped (header_hash 1 [header1; header2]); h ==? BlockHeader_hash header2;;
  assert_err (header_hash 2 [header1; header2]).

(** ** Message headers *)

Definition message_header_read_bytes : test :=
  b ← hex "f9beb4d976657273696f6e00000000007a0000002a1957bb";
  h ← unwrapped (read_from MessageHeader_read b);
  mh_magic h ==? [0xf9; 0xbe; 0xb4; 0xd9];;
  mh_command h ==? command "version";;
  mh_payload_size h ==? 122;;
  mh_checksum h ==? [0x2a; 0x19; 0x57; 0xbb].

Definition message_header_write_read : test :=
  write_read MessageHeader_read MessageHeader_write (λ _, MessageHeader_SIZE)
    (MkMessageHeader [0x00; 0x01; 0x02; 0x03] (command "command") 42 [0xa0; 0xa1; 0xa2; 0xa3]).

Definition message_header_validate : test :=
  let magic := [0xa0; 0xa1; 0xa2; 0xa3] in
  let h := MkMessageHeader magic (command "verack") 88 [0x12; 0x34; 0x56; 0x78] in
  assert_ok (MessageHeader_validate h magic 100);;
  assert_err (MessageHeader_validate h [0xb0; 0xb1; 0xb2; 0xb3] 100);;
  assert_err (MessageHeader_validate h magic 50).

Definition message_header_payload : test :=
  let p := [0x22; 0x33; 0x44; 0x00; 0x11; 0x22; 0x45; 0x67; 0x89] in
  let checksum := take 4 (sha256 (sha256 p)) in
  let header := MkMessageHeader [0; 0; 0; 0] (command "version") (as_u32 (zlen p)) checksum in
  v ← unwrapped (read_from (MessageHeader_payload header) p); v ==? p;;
  let p2 := [0xf2; 0xf3; 0xf4; 0xf0; 0xf1; 0xf2; 0xf5; 0xf7; 0xf9] in
  assert_err (read_from (MessageHeader_payload header) p2).

(** ** [util/latch.rs] *)

(** What the [n]-th call of [wait] returned, if it did. *)
Definition returned (n : nat) (l : Latch) : option (outcome Error ()) :=
  match latch_threads l !! n with Some (Returned r) => Some r | _ => None end.

Definition came_back (n : nat) (l : Latch) : test :=
  match returned n l with Some r => assert_ok r | None => Panic "the test does not end" end.

Definition latch_one_thread : test :=
  let l := Latch_new in
  assert (negb (Latch_opened l));;
  let l := Latch_open 0 l in
  assert (Latch_opened l);;
  came_back 0 (Latch_wait l).

(** The other thread asserts that the latch is closed and opens it, before the main
    thread waits or while it sleeps. *)
Definition latch_two_threads (waits_first : bool) : test :=
  let l := Latch_new in
  if waits_first then
    let l := Latch_wait l in
    assert (negb (Latch_opened l));;
    let l := Latch_resume 0 (Latch_open 0 l) in
    came_back 0 l;;
    assert (Latch_opened l)
  else
    assert (negb (Latch_opened l));;
    let l := Latch_wait (Latch_open 0 l) in
    came_back 0 l;;
    assert (Latch_opened l).

Definition latch_opens_and_waits : test :=
  let l := Latch_wait (Latch_open 0 Latch_new) in
  came_back 0 l;;
  let l := Latch_wait l in
  came_back 1 l;;
  let l := Latch_wait (Latch_open 0 l) in
  came_back 2 l;;
  assert (Latch_opened l).

(** The first wait sleeps until its time is over. *)
Definition latch_timeout : test :=
  let l := Latch_wait_timeout Latch_new in
  let l := MkLatch (latch_open l) (alter time_out 0%nat (latch_threads l)) in
  let l := Latch_resume 0 l in
  match returned 0 l with Some r => assert_err r | None => Panic "the test does not end" end;;
  came_back 1 (Latch_wait_timeout (Latch_open 0 l)).

Example var_int_tests_pass : var_int_size_test = Ok tt ∧ var_int_write_read = Ok tt.
Proof. vm_compute. done. Qed.

Example hash256_tests_pass :
  sha256d_test = Ok tt ∧ hash_decode = Ok tt
  ∧ hash_decode_write_read_encode = Ok tt ∧ hash_compare = Ok tt.
Proof. vm_compute. done. Qed.

Example bits_tests_pass :
  bits_append_test = Ok tt ∧ bits_extract_test = Ok tt ∧ lshift_test = Ok tt ∧ rshift_test = Ok tt.
Proof. vm_compute. done. Qed.

Example net_tests_pass :
  addr_read_bytes = Ok tt ∧ addr_write_read = Ok tt ∧ node_addr_read_bytes = Ok tt
  ∧ node_addr_write_read = Ok tt ∧ node_addr_ex_write_read = Ok tt ∧ ping_read_bytes = Ok tt
  ∧ ping_write_read = Ok tt ∧ reject_txid = Ok tt ∧ reject_read_bytes = Ok tt
  ∧ reject_write_read = Ok tt ∧ send_cmpct_read_bytes = Ok tt ∧ send_cmpct_write_read = Ok tt
  ∧ inv_vect_write_read = Ok tt ∧ inv_write_read = Ok tt.
Proof. vm_compute. done. Qed.

Example version_tests_pass : version_read_bytes = Ok tt ∧ version_write_read = Ok tt.
Proof. vm_compute. done. Qed.

Example tx_tests_pass :
  out_point_write_read = Ok tt ∧ tx_in_write_read = Ok tt ∧ tx_out_write_read = Ok tt
  ∧ tx_hash_test = Ok tt.
Proof. vm_compute. done. Qed.

Example block_tests_pass :
  block_header_write_read = Ok tt ∧ block_header_hash_test = Ok tt
  ∧ block_header_validate_test = Ok tt ∧ block_locator_write_read = Ok tt
  ∧ filter_locator_write_read = Ok tt ∧ headers_write_read = Ok tt ∧ header_hash_test = Ok tt.
Proof. vm_compute. done. Qed.

Example message_header_tests_pass :
  message_header_read_bytes = Ok tt ∧ message_header_write_read = Ok tt
  ∧ message_header_validate = Ok tt ∧ message_header_payload = Ok tt.
Proof. vm_compute. done. Qed.

Example latch_tests_pass :
  latch_one_thread = Ok tt ∧ latch_two_threads true = Ok tt ∧ latch_two_threads false = Ok tt
  ∧ latch_opens_and_waits = Ok tt ∧ latch_timeout = Ok tt.
Proof. vm_compute. done. Qed.

(** ** Tests that need an argument *)

(** A list longer than the limit is refused before any entry is read. *)
Lemma too_many_refused inv :
  MAX_INV_ENTRIES < zlen (inv_objects inv) → is_u32 (zlen (inv_objects inv)) →
  assert_err (read_from Inv_read (Inv_write inv)) = Ok tt.
Proof.
  intros Hmax Hu. unfold read_from, Inv_read, Inv_write, cursor.
  erewrite parser_bind_ok by (apply io_ok, var_int_read_ok; ints).
  unfold as_usize. rewrite as_u32_id by done.
  by rewrite (proj2 (Z.ltb_lt _ _)) by done.
Qed.

Lemma too_many_objects_passes : too_many_objects = Ok tt.
Proof.
  apply too_many_refused; cbn [inv_objects]; unfold zlen; rewrite length_replicate;
    unfold MAX_INV_ENTRIES; ints.
Qed.

(** The test of [validate] passes whenever the clock, cut to 32 bits, shows more than
    two hours: not in the first two hours of 1970, and not in those of 2106. *)
Lemma version_validate_test_passes now :
  version_validate_test now = Ok tt ↔ 2 * 60 * 60 < as_u32 now.
Proof.
  pose proof (as_u32_range now) as Hr. unfold is_u32 in Hr. set (t := as_u32 now) in *.
  unfold version_validate_test, Version_validate, secs_since. cbn [ver_version ver_timestamp].
  fold t. change (MIN_SUPPORTED_PROTOCOL_VERSION <? MIN_SUPPORTED_PROTOCOL_VERSION) with false.
  change (0 <? MIN_SUPPORTED_PROTOCOL_VERSION) with true. cbv iota.
  unfold sub_i64. rewrite (checked_ok _ _ _ (t - t)), (checked_ok _ _ _ (0 - t)) by lia.
  cbn [mbind outcome_bind]. rewrite (checked_ok _ _ _ (Z.abs (t - t))), (checked_ok _ _ _ (Z.abs (0 - t))) by lia.
  cbn [mbind outcome_bind]. rewrite Z.sub_diag. cbn [Z.abs].
  change (2 * 60 * 60 <? 0) with false. cbn [assert_ok assert_err mbind outcome_bind].
  destruct (Z.ltb_spec (2 * 60 * 60) (Z.abs (0 - t))); cbn [assert_err];
    (split; intros ?; [discriminate || lia|done || lia]).
Qed.

(** The third case of [validate] is meant for the proof of work, but the timestamps it
    runs with are those of the second: what is refused is the timestamp, and with the
    first headers the nonce is refused for the proof of work. *)
Example bad_pow_is_bad_timestamp :
  ∃ h, mainnet_header = Ok h
    ∧ let headers := map (λ i, with_timestamp (i * 10) BlockHeader_default) (seqZ 0 11) in
      let late := map (with_timestamp (bh_timestamp h + 1)) headers in
      let h := with_nonce 0 h in
      BlockHeader_validate h (BlockHeader_hash h) late
        = Err (BadData (str "Timestamp is too old: 1305998791"))
      ∧ BlockHeader_validate h (BlockHeader_hash h) headers = Err (BadData (str "Invalid POW")).
Proof. eexists. split; [vm_compute; reflexivity|]. vm_compute. done. Qed.
