(* ===== verification/KvEntry.v ===== *)
(** * Log entries of the key-value store ([crates/kv/src/{entry,bit_cask_key}.rs])

    An entry is a header of three 32-bit words (timestamp, key size, value size),
    the key, the value and a tombstone byte.  The clock is a parameter: the
    seconds it shows when an entry without a timestamp is encoded. *)

From S2P Require Import Prelude Errors Io.

(** [UUIDWasiKey(String)]: the bytes of the string. *)
Abbreviation UUIDWasiKey := bytes.

Definition key_serialize (k : UUIDWasiKey) : bytes := k.

(** [UUIDWasiKeyFrom]: [String::from_utf8(..).unwrap()]. *)
Definition UUIDWasiKeyFrom {E} (value : bytes) : outcome E UUIDWasiKey :=
  if utf8_valid value then Ok value
  else Panic "called `Result::unwrap()` on an `Err` value".

Definition RESERVED_KEY_SIZE : Z := 4.
Definition RESERVED_VALUE_SIZE : Z := 4.
Definition RESERVED_TIMESTAMP_SIZE : Z := 4.
Definition TOMBSTONE_MARKER_SIZE : Z := 1.

Record ValueReference := MkValueReference { vr_value : bytes; vr_tombstone : Z }.

Record Entry := MkEntry {
  entry_key : UUIDWasiKey;
  entry_value : ValueReference;
  entry_timestamp : Z;
}.

Definition Entry_new (key : UUIDWasiKey) (value : bytes) : Entry :=
  MkEntry key (MkValueReference value 0) 0.

Definition Entry_new_preserving_timestamp (key : UUIDWasiKey) (value : bytes) (ts : Z)
    : Entry :=
  MkEntry key (MkValueReference value 0) ts.

Definition Entry_new_deleted_entry (key : UUIDWasiKey) : Entry :=
  MkEntry key (MkValueReference [] 1) 0.

(** [encode], with [now] the clock's seconds; the sizes are added as [u32]. *)
Definition Entry_encode {E} (now : Z) (e : Entry) : outcome E bytes :=
  let serialized_key := key_serialize (entry_key e) in
  let key_len_size := as_u32 (zlen serialized_key) in
  value_len_size ← add_u32 (as_u32 (zlen (vr_value (entry_value e)))) TOMBSTONE_MARKER_SIZE;
  capacity ← add_u32 (RESERVED_TIMESTAMP_SIZE + RESERVED_KEY_SIZE + RESERVED_VALUE_SIZE)
               key_len_size;
  add_u32 capacity value_len_size ≫= λ _,
  let timestamp := if entry_timestamp e =? 0 then as_u32 now else entry_timestamp e in
  Ok (le_bytes 4 timestamp ++ le_bytes 4 key_len_size ++ le_bytes 4 value_len_size
      ++ serialized_key ++ vr_value (entry_value e) ++ [vr_tombstone (entry_value e)]).

Record StoredEntry := MkStoredEntry {
  se_key : bytes;
  se_value : bytes;
  se_deleted : bool;
  se_timestamp : Z;
}.

Record MappedStoredEntry := MkMappedStoredEntry {
  mse_key : UUIDWasiKey;
  mse_value : bytes;
  mse_deleted : bool;
  mse_timestamp : Z;
  mse_key_offset : Z;
  mse_entry_length : Z;
}.

#[export] Instance StoredEntry_eq_dec : EqDecision StoredEntry.
Proof. solve_decision. Defined.
#[export] Instance MappedStoredEntry_eq_dec : EqDecision MappedStoredEntry.
Proof. solve_decision. Defined.

(** [&content[from..to]] and [&content[from..]]. *)
Definition slice {E} (content : bytes) (from to : Z) : outcome E bytes :=
  if (0 <=? from) && (from <=? to) && (to <=? zlen content)
  then Ok (take (Z.to_nat (to - from)) (drop (Z.to_nat from) content))
  else Panic "range out of range for slice".

Section Decode.
  Context `{BO : ByteOrder}.

(** [LittleEndian::read_u32(&content[offset..])]: panics on fewer than 4 bytes. *)
Definition read_u32_at {E} (content : bytes) (offset : Z) : outcome E Z :=
  rest ← slice content offset (zlen content);
  b ← slice rest 0 4;
  Ok (bo_get_le b).

Definition decode_from {E} (content : bytes) (offset : Z) : outcome E (StoredEntry * Z) :=
  timestamp ← read_u32_at content offset;
  offset ← add_u32 offset RESERVED_TIMESTAMP_SIZE;
  key_size ← read_u32_at content offset;
  offset ← add_u32 offset RESERVED_KEY_SIZE;
  value_size ← read_u32_at content offset;
  offset ← add_u32 offset RESERVED_VALUE_SIZE;
  key_end ← add_u32 offset key_size;
  serialized_key ← slice content offset key_end;
  let offset := key_end in
  value_end ← add_u32 offset value_size;
  value ← slice content offset value_end;
  let offset := value_end in
  let value_length := zlen value in
  last ← unwrap_opt "attempt to subtract with overflow" (value !! Z.to_nat (value_length - 1));
  Ok (MkStoredEntry serialized_key (take (Z.to_nat (value_length - 1)) value)
        (Z.land last 1 =? 1) timestamp, offset).

Definition decode {E} (content : bytes) : outcome E StoredEntry :=
  r ← decode_from content 0; Ok r.1.

(** The loop of [decode_multi]: every turn moves past a header, so the length of
    the content bounds the number of turns. *)
Fixpoint decode_loop {E} (fuel : nat) (key_mapper : bytes → outcome E UUIDWasiKey)
    (content : bytes) (content_length offset : Z) : outcome E (list MappedStoredEntry) :=
  if offset <? content_length then
    match fuel with
    | O => Panic "out of fuel"
    | S fuel =>
      r ← decode_from content offset;
      let '(entry, traversed_offset) := (r : StoredEntry * Z) in
      key ← key_mapper (se_key entry);
      entries ← decode_loop fuel key_mapper content content_length traversed_offset;
      Ok (MkMappedStoredEntry key (se_value entry) (se_deleted entry) (se_timestamp entry)
            offset (traversed_offset - offset) :: entries)
    end
  else Ok [].

Definition decode_multi {E} (content : bytes) (key_mapper : bytes → outcome E UUIDWasiKey)
    : outcome E (list MappedStoredEntry) :=
  decode_loop (length content) key_mapper content (as_u32 (zlen content)) 0.

End Decode.

(** ** The record format *)

(** The bytes of a record. *)
Definition record_bytes (ts : Z) (k v : bytes) (tomb : Z) : bytes :=
  le_bytes 4 ts ++ le_bytes 4 (zlen k) ++ le_bytes 4 (zlen v + 1) ++ k ++ v ++ [tomb].

(** The length of a record. *)
Definition record_length (k v : bytes) : Z := 13 + zlen k + zlen v.

(** Keys are UTF-8 strings and a record's length fits 32 bits. *)
Definition kv_wf (k v : bytes) : Prop :=
  is_bytes k ∧ is_bytes v ∧ utf8_valid k = true ∧ record_length k v < 4294967296.

#[export] Instance kv_wf_dec k v : Decision (kv_wf k v).
Proof. unfold kv_wf. apply _. Defined.

Lemma record_bytes_length ts k v tomb : zlen (record_bytes ts k v tomb) = record_length k v.
Proof.
  unfold record_bytes, record_length. rewrite !zlen_app, !zlen_le_bytes.
  change (zlen [tomb]) with 1. lia.
Qed.

(** The timestamp an entry is written with. *)
Definition stamp (now : Z) (e : Entry) : Z :=
  if entry_timestamp e =? 0 then as_u32 now else entry_timestamp e.

Lemma Entry_encode_ok {E} now e :
  kv_wf (entry_key e) (vr_value (entry_value e)) →
  @Entry_encode E now e
  = Ok (record_bytes (stamp now e) (entry_key e) (vr_value (entry_value e))
          (vr_tombstone (entry_value e))).
Proof.
  intros (_ & _ & _ & Hlen). unfold record_length in Hlen.
  pose proof (zlen_nonneg (entry_key e)). pose proof (zlen_nonneg (vr_value (entry_value e))).
  unfold Entry_encode, key_serialize, add_u32.
  rewrite (as_u32_id (zlen (entry_key e))),
    (as_u32_id (zlen (vr_value (entry_value e)))) by ints.
  change TOMBSTONE_MARKER_SIZE with 1.
  change (RESERVED_TIMESTAMP_SIZE + RESERVED_KEY_SIZE + RESERVED_VALUE_SIZE) with 12.
  rewrite checked_ok by lia. cbn [mbind outcome_bind].
  rewrite checked_ok by lia. cbn [mbind outcome_bind].
  by rewrite checked_ok by lia.
Qed.

Lemma slice_app {E} pre mid post from to :
  zlen pre = from → from + zlen mid = to →
  @slice E (pre ++ mid ++ post) from to = Ok mid.
Proof.
  intros <- <-. unfold slice. rewrite !zlen_app.
  pose proof (zlen_nonneg pre). pose proof (zlen_nonneg mid). pose proof (zlen_nonneg post).
  rewrite !(proj2 (Z.leb_le _ _)) by lia. cbn [andb].
  rewrite to_nat_zlen, drop_app_length, Z.add_simpl_l, to_nat_zlen, take_app_length. done.
Qed.

Section DecodeLaws.
  Context `{BO : ByteOrder}.

Lemma read_u32_at_ok {E} pre z post from :
  zlen pre = from → is_u32 z → @read_u32_at BO E (pre ++ le_bytes 4 z ++ post) from = Ok z.
Proof.
  intros Hp Hz. unfold read_u32_at.
  rewrite <- (app_nil_r (le_bytes 4 z ++ post)), slice_app with (mid := le_bytes 4 z ++ post);
    [|done|rewrite !zlen_app; subst; change (zlen []) with 0; lia].
  cbn [mbind outcome_bind].
  rewrite (slice_app [] (le_bytes 4 z) post) by (done || rewrite zlen_le_bytes; done).
  cbn [mbind outcome_bind]. rewrite bo_get_le_spec by apply le_bytes_is_bytes.
  by rewrite le_value_le_bytes by (cbn; ints).
Qed.

(** One offset addition of [decode_from]. *)
#[local] Ltac next :=
  cbn [mbind outcome_bind]; rewrite checked_ok by lia; cbn [mbind outcome_bind].

(** A record decodes from wherever it stands in a file. *)
Lemma decode_from_ok {E} pre ts k v tomb post :
  is_u32 ts → kv_wf k v → zlen pre + record_length k v < 4294967296 →
  @decode_from BO E (pre ++ record_bytes ts k v tomb ++ post) (zlen pre)
  = Ok (MkStoredEntry k v (Z.land tomb 1 =? 1) ts, zlen pre + record_length k v).
Proof.
  intros Hts (Hk & Hv & _ & Hlen) Hmax. unfold record_length in *.
  pose proof (zlen_nonneg k). pose proof (zlen_nonneg v). pose proof (zlen_nonneg pre).
  unfold record_bytes. rewrite <- !app_assoc.
  set (c := pre ++ _). unfold decode_from, add_u32, RESERVED_TIMESTAMP_SIZE,
    RESERVED_KEY_SIZE, RESERVED_VALUE_SIZE.
  assert (∀ z q a b, c = a ++ le_bytes 4 z ++ b → zlen a = q → is_u32 z →
    @read_u32_at BO E c q = Ok z) as R.
  { intros z q a b -> Hq Hz. by apply read_u32_at_ok. }
  rewrite (R ts _ pre (le_bytes 4 (zlen k) ++ le_bytes 4 (zlen v + 1) ++ k ++ v ++ [tomb] ++ post))
    by done.
  next.
  rewrite (R (zlen k) _ (pre ++ le_bytes 4 ts) (le_bytes 4 (zlen v + 1) ++ k ++ v ++ [tomb] ++ post));
    [|unfold c; by rewrite <- !app_assoc|by rewrite zlen_app, zlen_le_bytes|ints].
  next.
  rewrite (R (zlen v + 1) _ (pre ++ le_bytes 4 ts ++ le_bytes 4 (zlen k)) (k ++ v ++ [tomb] ++ post));
    [|unfold c; by rewrite <- !app_assoc|rewrite !zlen_app, !zlen_le_bytes; lia|ints].
  next. rewrite checked_ok by lia. cbn [mbind outcome_bind].
  set (hd := pre ++ le_bytes 4 ts ++ le_bytes 4 (zlen k) ++ le_bytes 4 (zlen v + 1)).
  assert (zlen hd = zlen pre + 12) as Hhd
    by (unfold hd; rewrite !zlen_app, !zlen_le_bytes; lia).
  replace c with (hd ++ k ++ v ++ [tomb] ++ post) by (unfold c, hd; by rewrite <- !app_assoc).
  rewrite slice_app by lia. next.
  replace (hd ++ k ++ v ++ [tomb] ++ post) with ((hd ++ k) ++ (v ++ [tomb]) ++ post)
    by (by rewrite <- !app_assoc).
  rewrite slice_app by (rewrite ?zlen_app; change (zlen [tomb]) with 1; lia).
  cbn [mbind outcome_bind]. rewrite zlen_app. change (zlen [tomb]) with 1.
  rewrite Z.add_simpl_r, to_nat_zlen, lookup_app_r, Nat.sub_diag by lia. cbn [lookup].
  rewrite take_app_length. cbn. do 2 f_equal. lia.
Qed.

(** ** Segment files *)

(** A record of a segment file. *)
Record log_record := LogRecord { lr_ts : Z; lr_key : bytes; lr_value : bytes; lr_tomb : Z }.

Definition log_bytes (r : log_record) : bytes :=
  record_bytes (lr_ts r) (lr_key r) (lr_value r) (lr_tomb r).

Definition log_length (r : log_record) : Z := record_length (lr_key r) (lr_value r).

Definition log_wf (r : log_record) : Prop :=
  is_u32 (lr_ts r) ∧ kv_wf (lr_key r) (lr_value r).

#[global] Instance log_wf_dec r : Decision (log_wf r).
Proof. unfold log_wf. apply _. Defined.

(** What reading a whole file reports: every record, with its position. *)
Fixpoint mapped_log (offset : Z) (log : list log_record) : list MappedStoredEntry :=
  match log with
  | [] => []
  | r :: log =>
    MkMappedStoredEntry (lr_key r) (lr_value r) (Z.land (lr_tomb r) 1 =? 1) (lr_ts r)
      offset (log_length r)
    :: mapped_log (offset + log_length r) log
  end.

Lemma log_length_pos r : 13 ≤ log_length r.
Proof.
  unfold log_length, record_length. pose proof (zlen_nonneg (lr_key r)).
  pose proof (zlen_nonneg (lr_value r)). lia.
Qed.

Lemma zlen_log_bytes r : zlen (log_bytes r) = log_length r.
Proof. apply record_bytes_length. Qed.

Lemma UUIDWasiKeyFrom_ok {E} k : utf8_valid k = true → @UUIDWasiKeyFrom E k = Ok k.
Proof. intros H. unfold UUIDWasiKeyFrom. by rewrite H. Qed.

Lemma decode_loop_ok {E} log fuel pre :
  Forall log_wf log → zlen pre + zlen (concat (map log_bytes log)) < 4294967296 →
  zlen (concat (map log_bytes log)) ≤ Z.of_nat fuel →
  @decode_loop BO E fuel UUIDWasiKeyFrom (pre ++ concat (map log_bytes log))
    (zlen (pre ++ concat (map log_bytes log))) (zlen pre)
  = Ok (mapped_log (zlen pre) log).
Proof.
  intros Hlog. revert fuel pre. induction Hlog as [|r log Hr Hlog IH]; intros fuel pre Hmax Hf.
  { cbn [map concat mapped_log]. rewrite app_nil_r.
    destruct fuel; cbn [decode_loop]; by rewrite Z.ltb_irrefl. }
  cbn [map concat] in *. pose proof (log_length_pos r).
  set (tl := concat (map log_bytes log)) in *.
  pose proof (zlen_nonneg tl). pose proof (zlen_nonneg pre).
  rewrite zlen_app, zlen_log_bytes in Hmax, Hf.
  assert (zlen (pre ++ log_bytes r ++ tl) = zlen pre + log_length r + zlen tl) as Hl
    by (rewrite !zlen_app, zlen_log_bytes; lia).
  destruct fuel as [|fuel]; [lia|]. cbn [decode_loop].
  rewrite (proj2 (Z.ltb_lt _ _)) by lia.
  destruct Hr as [Hts Hkv].
  rewrite (decode_from_ok pre (lr_ts r) (lr_key r) (lr_value r) (lr_tomb r) tl)
    by (done || unfold log_length in *; lia).
  cbn [mbind outcome_bind se_key se_value se_deleted se_timestamp].
  destruct Hkv as (_ & _ & Hu & _). rewrite (UUIDWasiKeyFrom_ok _ Hu).
  cbn [mbind outcome_bind]. fold (log_length r).
  specialize (IH fuel (pre ++ log_bytes r)).
  rewrite <- app_assoc, zlen_app, zlen_log_bytes in IH. fold tl in IH.
  rewrite IH by lia. cbn [mbind outcome_bind mapped_log].
  do 3 f_equal. unfold log_length. lia.
Qed.

(** ** Properties *)

(** An entry written at any position of a segment file decodes to its key, its
    value, its tombstone and the timestamp it was stamped with. *)
Theorem entry_round_trip now e pre post :
  is_u32 (entry_timestamp e) →
  kv_wf (entry_key e) (vr_value (entry_value e)) →
  zlen pre + record_length (entry_key e) (vr_value (entry_value e)) < 4294967296 →
  ∃ b, @Entry_encode StoreError now e = Ok b
    ∧ zlen b = record_length (entry_key e) (vr_value (entry_value e))
    ∧ @decode_from BO StoreError (pre ++ b ++ post) (zlen pre)
      = Ok (MkStoredEntry (entry_key e) (vr_value (entry_value e))
              (Z.land (vr_tombstone (entry_value e)) 1 =? 1) (stamp now e),
            zlen pre + zlen b).
Proof.
  intros Hts Hkv Hmax. eexists. split; [by apply Entry_encode_ok|].
  rewrite record_bytes_length. split; [done|]. apply decode_from_ok; [|done..].
  unfold stamp. destruct (_ =? _); [apply as_u32_range|done].
Qed.

(** Reading a whole segment file returns its records in order, each with its
    position and length, and consumes every byte. *)
Theorem decode_multi_records log :
  Forall log_wf log → zlen (concat (map log_bytes log)) < 4294967296 →
  @decode_multi BO StoreError (concat (map log_bytes log)) UUIDWasiKeyFrom
  = Ok (mapped_log 0 log).
Proof.
  intros Hlog Hmax. unfold decode_multi.
  pose proof (zlen_nonneg (concat (map log_bytes log))).
  rewrite as_u32_id by ints. 
  apply (decode_loop_ok log _ []); [done|rewrite zlen_nil; lia|unfold zlen; lia].
Qed.

End DecodeLaws.

Lemma entry_round_trip_witness :
  ∃ b, @Entry_encode StoreError 5 (Entry_new (str "key") [1; 2]) = Ok b
    ∧ zlen b = 18
    ∧ @decode_from std_byteorder StoreError ([9; 9] ++ b ++ [7]) 2
      = Ok (MkStoredEntry (str "key") [1; 2] false 5, 2 + zlen b).
Proof.
  apply (@entry_round_trip std_byteorder 5 (Entry_new (str "key") [1; 2]) [9; 9] [7]);
    by_eval.
Defined.

Lemma decode_multi_records_witness :
  @decode_multi std_byteorder StoreError
    (concat (map log_bytes [LogRecord 1 (str "a") [5] 0; LogRecord 2 (str "a") [] 1]))
    UUIDWasiKeyFrom
  = Ok [MkMappedStoredEntry (str "a") [5] false 1 0 15;
        MkMappedStoredEntry (str "a") [] true 2 15 14].
Proof.
  apply (@decode_multi_records std_byteorder
    [LogRecord 1 (str "a") [5] 0; LogRecord 2 (str "a") [] 1]); by_eval.
Defined.
