(* ===== verification/KvStore.v ===== *)
(** * The file store of the key-value component ([crates/kv/src/store.rs])

    The file system and the clocks are WASI's: a class [Wasi] of operations on an
    abstract world, with a view of the files and the laws of its documentation.
    The trait [Store] is a class with the laws its clients rely on, and
    [WasiStore] an instance that discharges them. *)

From S2P Require Import Prelude Errors.

(** ** WASI *)

(** [wasi::filesystem::types::ErrorCode]: the code distinguishes one of them. *)
Inductive fs_error := Exist | FsError (name : bytes).

#[export] Instance fs_error_eq_dec : EqDecision fs_error.
Proof. solve_decision. Defined.

(** A file is named by its directory and its name; [file] is the view of the
    contents that the laws speak of, no operation of the program. *)
Class Wasi := {
  world : Type;
  file : world → bytes * bytes → option bytes;
  wall_now : world → Z;
  monotonic_now : world → Z;
  create_directory_at : world → bytes → (fs_error + unit) * world;
  open_directory : world → bytes → fs_error + unit;
  open_file : world → bytes * bytes → (fs_error + unit) * world;
  file_write : world → bytes * bytes → bytes → Z → (fs_error + Z) * world;
  file_read : world → bytes * bytes → Z → Z → fs_error + bytes;
  file_stream : world → bytes * bytes → fs_error + unit;
  stream_read_to_end : world → bytes * bytes → fs_error + bytes;
  file_sync : world → bytes * bytes → world;
  read_directory : world → bytes → fs_error + list (fs_error + bytes);
  unlink_file_at : world → bytes * bytes → (fs_error + unit) * world;
}.

(** Overwriting a file from an offset inside it. *)
Definition overwrite (c : bytes) (offset : Z) (b : bytes) : bytes :=
  take (Z.to_nat offset) c ++ b ++ drop (Z.to_nat (offset + zlen b)) c.

(** The documented effects, for I/O that is not interrupted: a write that succeeds
    writes all bytes, a read returns what the file holds of the range.  A failed
    write may leave anything from its offset on. *)
Class WasiLaws `{Wasi} := {
  create_directory_law w d p : file (create_directory_at w d).2 p = file w p;
  open_file_law w q p :
    file (open_file w q).2 p =
      match (open_file w q).1 with
      | inr _ => if decide (p = q) then Some (default [] (file w q)) else file w p
      | inl _ => file w p
      end;
  file_write_other w q b o p : p ≠ q → file (file_write w q b o).2 p = file w p;
  file_write_ok w q b o n c :
    (file_write w q b o).1 = inr n → file w q = Some c → 0 ≤ o ≤ zlen c →
    file (file_write w q b o).2 q = Some (overwrite c o b);
  file_write_err w q b o e c :
    (file_write w q b o).1 = inl e → file w q = Some c → 0 ≤ o ≤ zlen c →
    ∃ t, file (file_write w q b o).2 q = Some (take (Z.to_nat o) c ++ t);
  file_read_law w q n o b c :
    file_read w q n o = inr b → file w q = Some c → 0 ≤ o → 0 ≤ n →
    b = take (Z.to_nat n) (drop (Z.to_nat o) c);
  stream_law w q b : stream_read_to_end w q = inr b → file w q = Some b;
  file_sync_law w q p : file (file_sync w q) p = file w p;
  read_directory_law w d l :
    read_directory w d = inr l → ∀ n, inr n ∈ l ↔ is_Some (file w (d, n));
  unlink_other w q p : p ≠ q → file (unlink_file_at w q).2 p = file w p;
}.

(** ** The [Store] trait *)

Class Store (S : Type) `{Wasi} := {
  store_open : world → bytes → bytes → outcome StoreError S * world;
  store_append : world → S → bytes → outcome StoreError Z * (S * world);
  store_read : world → S → Z → Z → outcome StoreError bytes;
  store_read_full : world → S → outcome StoreError bytes;
  store_size_in_bytes : S → Z;
  store_sync : world → S → world;
  store_get_files : world → bytes → outcome StoreError (list bytes);
  store_remove : world → S → world;
}.

(** What the segments rely on.  [store_path] is the file a store is on; the sizes
    are those a file can have, below [2^63]. *)
Class StoreOk (S : Type) `{Store S} := {
  store_path : S → bytes * bytes;
  store_inv : S → Prop;
  store_open_ok w name dir s w' :
    store_open w name dir = (Ok s, w') →
    store_inv s ∧ store_path s = (dir, name) ∧ store_size_in_bytes s = 0
    ∧ (∀ p, p ≠ (dir, name) → file w' p = file w p)
    ∧ file w' (dir, name) = Some (default [] (file w (dir, name)));
  store_open_fail w name dir r w' :
    store_open w name dir = (r, w') → is_ok r = false → ∀ p, file w' p = file w p;
  store_append_frame w s b r s' w' :
    store_append w s b = (r, (s', w')) → store_inv s →
    store_inv s' ∧ store_path s' = store_path s
    ∧ ∀ p, p ≠ store_path s → file w' p = file w p;
  store_append_ok w s b off s' w' c :
    store_append w s b = (Ok off, (s', w')) → store_inv s →
    file w (store_path s) = Some c → 0 ≤ store_size_in_bytes s ≤ zlen c →
    zlen c < 9223372036854775808 → is_u32 (zlen b) →
    off = store_size_in_bytes s
    ∧ store_size_in_bytes s' = store_size_in_bytes s + zlen b
    ∧ file w' (store_path s) = Some (overwrite c (store_size_in_bytes s) b);
  store_append_fail w s b r s' w' c :
    store_append w s b = (r, (s', w')) → is_ok r = false → store_inv s →
    file w (store_path s) = Some c → 0 ≤ store_size_in_bytes s ≤ zlen c →
    zlen c < 9223372036854775808 →
    s' = s ∧ ∃ t, file w' (store_path s)
                  = Some (take (Z.to_nat (store_size_in_bytes s)) c ++ t);
  store_read_ok w s off n b c :
    store_read w s off n = Ok b → store_inv s →
    file w (store_path s) = Some c → 0 ≤ off < 9223372036854775808 → is_u32 n →
    b = take (Z.to_nat n) (drop (Z.to_nat off) c);
  store_read_full_ok w s b :
    store_read_full w s = Ok b → store_inv s → file w (store_path s) = Some b;
  store_get_files_ok w dir l n :
    store_get_files w dir = Ok l → n ∈ l → is_Some (file w (dir, n));
  store_sync_ok w s p : file (store_sync w s) p = file w p;
  store_remove_ok w s p :
    store_inv s → p ≠ store_path s → file (store_remove w s) p = file w p;
}.

(** ** [WasiStore] *)

Record WasiStore := MkWasiStore {
  ws_file_descriptor : bytes * bytes;
  ws_current_write_offset : Z;
  ws_directory_path : bytes;
  ws_file_name : bytes;
}.

#[export] Instance WasiStore_eq_dec : EqDecision WasiStore.
Proof. solve_decision. Defined.

Section WasiStore.
  Context `{WA : Wasi}.

(** A failure to create the directory, other than that it exists, panics. *)
Definition WasiStore_open (w : world) (file_path directory_path : bytes)
    : outcome StoreError WasiStore * world :=
  let '(created, w) := create_directory_at w directory_path in
  if match created with inl err => negb (bool_decide (err = Exist)) | inr _ => false end
  then (Panic "create_directory_at", w)
  else
    match open_directory w directory_path with
    | inl _ => (Err OpenFileError, w)
    | inr _ =>
      let '(opened, w) := open_file w (directory_path, file_path) in
      match opened with
      | inl _ => (Err OpenFileError, w)
      | inr _ => (Ok (MkWasiStore (directory_path, file_path) 0 directory_path file_path), w)
      end
    end.

Definition WasiStore_append (w : world) (s : WasiStore) (b : bytes)
    : outcome StoreError Z * (WasiStore * world) :=
  let '(written, w) := file_write w (ws_file_descriptor s) b (as_u64 (ws_current_write_offset s)) in
  match written with
  | inl _ => (Err OpenFileError, (s, w))
  | inr _ =>
    let offset := ws_current_write_offset s in
    match @add_i64 StoreError offset (as_i64 (zlen b)) with
    | Ok next =>
      (Ok offset,
       (MkWasiStore (ws_file_descriptor s) next (ws_directory_path s) (ws_file_name s), w))
    | Err e => (Err e, (s, w))
    | Panic m => (Panic m, (s, w))
    end
  end.

Definition WasiStore_read (w : world) (s : WasiStore) (offset size : Z)
    : outcome StoreError bytes :=
  match file_read w (ws_file_descriptor s) (as_u64 size) (as_u64 offset) with
  | inl _ => Err OpenFileError
  | inr buffer => Ok buffer
  end.

Definition WasiStore_read_full (w : world) (s : WasiStore) : outcome StoreError bytes :=
  match file_stream w (ws_file_descriptor s) with
  | inl _ => Err OpenFileError
  | inr _ =>
    match stream_read_to_end w (ws_file_descriptor s) with
    | inl _ => Err StreamError
    | inr buffer => Ok buffer
    end
  end.

(** The loop over the directory stream: it stops at the end or at an error. *)
Fixpoint entries_until_error (l : list (fs_error + bytes)) : list bytes :=
  match l with
  | inr name :: l => name :: entries_until_error l
  | _ => []
  end.

Definition WasiStore_get_files (w : world) (directory_path : bytes)
    : outcome StoreError (list bytes) :=
  match open_directory w directory_path with
  | inl _ => Err OpenFileError
  | inr _ =>
    match read_directory w directory_path with
    | inl _ => Panic "called `Result::unwrap()` on an `Err` value"
    | inr files => Ok (entries_until_error files)
    end
  end.

Definition WasiStore_remove (w : world) (s : WasiStore) : world :=
  match open_directory w (ws_directory_path s) with
  | inl _ => w
  | inr _ => (unlink_file_at w (ws_directory_path s, ws_file_name s)).2
  end.

#[export] Instance WasiStore_Store : Store WasiStore := {|
  store_open := WasiStore_open;
  store_append := WasiStore_append;
  store_read := WasiStore_read;
  store_read_full := WasiStore_read_full;
  store_size_in_bytes := ws_current_write_offset;
  store_sync w s := file_sync w (ws_file_descriptor s);
  store_get_files := WasiStore_get_files;
  store_remove := WasiStore_remove;
|}.


(** ** [WasiStore] keeps the promises of [Store] *)

Context `{WL : !WasiLaws}.

Definition ws_inv (s : WasiStore) : Prop :=
  ws_file_descriptor s = (ws_directory_path s, ws_file_name s).

Lemma WasiStore_open_ok w name dir s w' :
  WasiStore_open w name dir = (Ok s, w') →
  ws_inv s ∧ ws_file_descriptor s = (dir, name) ∧ ws_current_write_offset s = 0
  ∧ (∀ p, p ≠ (dir, name) → file w' p = file w p)
  ∧ file w' (dir, name) = Some (default [] (file w (dir, name))).
Proof.
  unfold WasiStore_open. pose proof (create_directory_law w dir) as Hc.
  destruct (create_directory_at w dir) as [created w1]. cbn [snd] in Hc.
  destruct (match created with inl _ => _ | inr _ => _ end); [done|].
  destruct (open_directory w1 dir); [done|].
  pose proof (open_file_law w1 (dir, name)) as Ho.
  destruct (open_file w1 (dir, name)) as [[|] w2]; [done|]. cbn [fst snd] in Ho.
  intros [= <- <-]. split; [done|]. split; [done|]. split; [done|]. split.
  - intros p Hp. by rewrite Ho, decide_False, Hc by done.
  - by rewrite Ho, decide_True, Hc by done.
Qed.

Lemma WasiStore_open_fail w name dir r w' :
  WasiStore_open w name dir = (r, w') → is_ok r = false → ∀ p, file w' p = file w p.
Proof.
  unfold WasiStore_open. pose proof (create_directory_law w dir) as Hc.
  destruct (create_directory_at w dir) as [created w1]. cbn [snd] in Hc.
  destruct (match created with inl _ => _ | inr _ => _ end); [intros [= <- <-]; auto|].
  destruct (open_directory w1 dir); [intros [= <- <-]; auto|].
  pose proof (open_file_law w1 (dir, name)) as Ho.
  destruct (open_file w1 (dir, name)) as [[|] w2]; intros [= <- <-] Hf p; [|done].
  cbn [fst snd] in Ho. by rewrite Ho, Hc.
Qed.

Lemma WasiStore_append_frame w s b r s' w' :
  WasiStore_append w s b = (r, (s', w')) → ws_inv s →
  ws_inv s' ∧ ws_file_descriptor s' = ws_file_descriptor s
  ∧ ∀ p, p ≠ ws_file_descriptor s → file w' p = file w p.
Proof.
  unfold WasiStore_append. intros H Hi.
  pose proof (file_write_other w (ws_file_descriptor s) b
    (as_u64 (ws_current_write_offset s))) as Ho.
  destruct (file_write _ _ _ _) as [[e|n] w1]; cbn [snd] in Ho; [by simplify_eq|].
  destruct (add_i64 _ _); by simplify_eq.
Qed.

Lemma WasiStore_append_ok w s b off s' w' c :
  WasiStore_append w s b = (Ok off, (s', w')) → ws_inv s →
  file w (ws_file_descriptor s) = Some c → 0 ≤ ws_current_write_offset s ≤ zlen c →
  zlen c < 9223372036854775808 → is_u32 (zlen b) →
  off = ws_current_write_offset s
  ∧ ws_current_write_offset s' = ws_current_write_offset s + zlen b
  ∧ file w' (ws_file_descriptor s) = Some (overwrite c (ws_current_write_offset s) b).
Proof.
  unfold WasiStore_append. intros H Hi Hc Ho Hmax Hb.
  rewrite as_u64_id in H by ints.
  pose proof (file_write_ok w (ws_file_descriptor s) b (ws_current_write_offset s)) as Hw.
  destruct (file_write _ _ _ _) as [[e|n] w1]; [done|]. cbn [fst snd] in Hw.
  destruct (add_i64 _ _) as [next| |] eqn:Ha; simplify_eq.
  apply checked_inv in Ha as [-> _]. split; [done|]. split; [|by eapply Hw].
  cbn [ws_current_write_offset]. f_equal. unfold as_i64. rewrite as_u64_id by ints.
  rewrite (proj2 (Z.ltb_lt _ _)); [done|ints].
Qed.

Lemma WasiStore_append_fail w s b r s' w' c :
  WasiStore_append w s b = (r, (s', w')) → is_ok r = false → ws_inv s →
  file w (ws_file_descriptor s) = Some c → 0 ≤ ws_current_write_offset s ≤ zlen c →
  zlen c < 9223372036854775808 →
  s' = s ∧ ∃ t, file w' (ws_file_descriptor s)
                = Some (take (Z.to_nat (ws_current_write_offset s)) c ++ t).
Proof.
  unfold WasiStore_append. intros H Hr Hi Hc Ho Hmax.
  rewrite as_u64_id in H by ints.
  pose proof (file_write_ok w (ws_file_descriptor s) b (ws_current_write_offset s)) as Hw.
  pose proof (file_write_err w (ws_file_descriptor s) b (ws_current_write_offset s)) as He.
  destruct (file_write _ _ _ _) as [[e|n] w1]; cbn [fst snd] in Hw, He.
  - simplify_eq. split; [done|]. by eapply He.
  - destruct (add_i64 _ _) as [next| |]; simplify_eq;
      (split; [done|]; eexists; by eapply Hw).
Qed.

Lemma entries_until_error_elem n l : n ∈ entries_until_error l → inr n ∈ l.
Proof.
  induction l as [|[e|x] l IH]; cbn; [by intros ?%not_elem_of_nil..|].
  rewrite !elem_of_cons. intros [->|H]; [by left|right; auto].
Qed.

#[export] Instance WasiStore_StoreOk : StoreOk WasiStore.
Proof.
  refine {| store_path := ws_file_descriptor; store_inv := ws_inv;
    store_open_ok := WasiStore_open_ok; store_open_fail := WasiStore_open_fail;
    store_append_frame := WasiStore_append_frame; store_append_ok := WasiStore_append_ok;
    store_append_fail := WasiStore_append_fail |}.
  - intros w s off n b c H _ Hc Ho Hn. cbn in H. unfold WasiStore_read in H.
    rewrite !as_u64_id in H by ints.
    destruct (file_read _ _ _ _) eqn:E; simplify_eq. eapply file_read_law; [done..|lia|ints].
  - intros w s b H _. cbn in H. unfold WasiStore_read_full in H.
    destruct (file_stream _ _); [done|].
    destruct (stream_read_to_end _ _) eqn:E; simplify_eq. by apply stream_law.
  - intros w dir l n H Hn. cbn in H. unfold WasiStore_get_files in H.
    destruct (open_directory _ _); [done|].
    destruct (read_directory w dir) as [|files] eqn:E; simplify_eq.
    apply (read_directory_law w dir files E), entries_until_error_elem, Hn.
  - intros w s p. apply file_sync_law.
  - intros w s p Hi Hp. cbn. unfold WasiStore_remove.
    destruct (open_directory _ _); [done|]. apply unlink_other. by rewrite <- Hi.
Defined.

End WasiStore.

(** ** A file system in memory

    The laws can be met: files in a map, a clock that ticks at every operation
    that changes something. *)

Record mem_world := MkMem { mem_files : gmap (bytes * bytes) bytes; mem_clock : Z }.

Definition mem_tick (files : gmap (bytes * bytes) bytes) (w : mem_world) : mem_world :=
  MkMem files (mem_clock w + 1).

Definition mem_write (w : mem_world) (q : bytes * bytes) (b : bytes) (o : Z)
    : (fs_error + Z) * mem_world :=
  match mem_files w !! q with
  | Some c => (inr (zlen b), mem_tick (<[q := overwrite c o b]> (mem_files w)) w)
  | None => (inl (FsError (str "bad-descriptor")), w)
  end.

Definition mem_names (w : mem_world) (d : bytes) : list (fs_error + bytes) :=
  map (λ x, inr x.1.2) (filter (λ x, x.1.1 = d) (map_to_list (mem_files w))).

Definition mem_wasi : Wasi := {|
  world := mem_world;
  file w q := mem_files w !! q;
  wall_now := mem_clock;
  monotonic_now := mem_clock;
  create_directory_at w _ := (inl Exist, w);
  open_directory _ _ := inr tt;
  open_file w q := (inr tt, mem_tick (<[q := default [] (mem_files w !! q)]> (mem_files w)) w);
  file_write := mem_write;
  file_read w q n o :=
    match mem_files w !! q with
    | Some c => inr (take (Z.to_nat n) (drop (Z.to_nat o) c))
    | None => inl (FsError (str "bad-descriptor"))
    end;
  file_stream _ _ := inr tt;
  stream_read_to_end w q :=
    match mem_files w !! q with
    | Some c => inr c
    | None => inl (FsError (str "bad-descriptor"))
    end;
  file_sync w _ := w;
  read_directory w d := inr (mem_names w d);
  unlink_file_at w q := (inr tt, mem_tick (delete q (mem_files w)) w);
|}.

Lemma mem_names_spec w d n : inr n ∈ mem_names w d ↔ is_Some (mem_files w !! (d, n)).
Proof.
  unfold mem_names. rewrite list_elem_of_fmap. split.
  - intros ([[d' n'] c] & [= ->] & H). rewrite list_elem_of_filter in H.
    destruct H as [Hd H]. cbn in Hd. subst. apply elem_of_map_to_list in H. by exists c.
  - intros [c Hc]. exists (d, n, c). split; [done|]. rewrite list_elem_of_filter.
    split; [done|]. by apply elem_of_map_to_list.
Qed.

Lemma mem_wasi_laws : @WasiLaws mem_wasi.
Proof.
  constructor; cbn; try done.
  - intros w q p. case_decide as E; [subst; by rewrite lookup_insert_eq|].
    by rewrite lookup_insert_ne.
  - intros w q b o p Hp. unfold mem_write. destruct (mem_files w !! q); [|done].
    cbn. by rewrite lookup_insert_ne.
  - intros w q b o n c H Hc _. unfold mem_write in *. rewrite Hc in *. cbn.
    by rewrite lookup_insert_eq.
  - intros w q b o e c H Hc _. unfold mem_write in H. by rewrite Hc in H.
  - intros w q n o b c H Hc _ _. rewrite Hc in H. by simplify_eq.
  - intros w q b H. destruct (mem_files w !! q); by simplify_eq.
  - intros w d l [= <-] n. apply mem_names_spec.
  - intros w q p Hp. cbn. by rewrite lookup_delete_ne.
Qed.

#[export] Existing Instance mem_wasi_laws.
