(* ===== verification/KvSegments.v ===== *)
(** * Append-only segments ([crates/kv/src/{segment,segments,field_generator}.rs])

    One active segment takes the appends; when it has reached the threshold it
    joins the inactive ones and a new file, named by the monotonic clock, takes its
    place.  The order in which a [HashMap] is iterated is a parameter. *)

From S2P Require Import Prelude Errors Io KvEntry KvStore.

(** [HashMap] iteration: every pair once, in an order of its own. *)
Class HashIter (K : Type) `{Countable K} := {
  hash_iter : ∀ V, gmap K V → list (K * V);
  hash_iter_perm V (m : gmap K V) : hash_iter V m ≡ₚ map_to_list m;
}.
Arguments hash_iter {K _ _ _ V} m.

(** The law can be met. *)
Definition std_iter K `{Countable K} : HashIter K := {|
  hash_iter V m := map_to_list m;
  hash_iter_perm V m := Permutation_refl _;
|}.

Definition SEGMENT_FILE_PREFIX : bytes := str "bitcask".
Definition SEGMENT_FILE_SUFFIX : bytes := str "data".

(** [format!("{}_{}.{}", file_id, PREFIX, SUFFIX)]. *)
Definition segment_name (file_id : Z) : bytes :=
  dec file_id ++ str "_" ++ SEGMENT_FILE_PREFIX ++ str "." ++ SEGMENT_FILE_SUFFIX.

Record AppendEntryResponse := MkAppendEntryResponse {
  aer_file_id : Z;
  aer_offset : Z;
  aer_entry_length : Z;
}.

Record WriteBackResponse := MkWriteBackResponse {
  wbr_key : UUIDWasiKey;
  wbr_append_entry_response : AppendEntryResponse;
}.

Record Segment (S : Type) := MkSegment {
  seg_file_id : Z;
  seg_file_path : bytes;
  seg_store : S;
}.
Arguments MkSegment {S}.
Arguments seg_file_id {S}.
Arguments seg_file_path {S}.
Arguments seg_store {S}.

(** The clock and the file id generator are the world's. *)
Record Segments (S : Type) := MkSegments {
  sgs_active_segment : Segment S;
  sgs_inactive_segments : gmap Z (Segment S);
  sgs_max_segment_size_bytes : Z;
  sgs_directory : bytes;
}.
Arguments MkSegments {S}.
Arguments sgs_active_segment {S}.
Arguments sgs_inactive_segments {S}.
Arguments sgs_max_segment_size_bytes {S}.
Arguments sgs_directory {S}.

(** [str::ends_with] and [str::split(c).next()]. *)
Definition ends_with (l suffix : bytes) : bool :=
  bool_decide (drop (length l - length suffix) l = suffix).

Fixpoint before (c : Z) (l : bytes) : bytes :=
  match l with
  | [] => []
  | b :: l => if b =? c then [] else b :: before c l
  end.

Section Segments.
  Context `{BO : ByteOrder} `{WA : Wasi} {S : Type} `{ST : !Store S}.
  Context `{HI : !HashIter Z} `{HK : !HashIter bytes}.

(** ** Segments *)

Definition Segment_new (w : world) (file_id : Z) (directory : bytes)
    : outcome StoreError (Segment S) * world :=
  let file_path := segment_name file_id in
  try (store, w) := store_open w file_path directory in
  (Ok (MkSegment file_id file_path store), w).

Definition with_store (seg : Segment S) (s : S) : Segment S :=
  MkSegment (seg_file_id seg) (seg_file_path seg) s.

Definition Segment_append (w : world) (seg : Segment S) (e : Entry)
    : outcome StoreError AppendEntryResponse * (Segment S * world) :=
  match Entry_encode (wall_now w) e with
  | Ok encoded =>
    match store_append w (seg_store seg) encoded with
    | (Ok offset, (s, w)) =>
      (Ok (MkAppendEntryResponse (seg_file_id seg) offset (as_u32 (zlen encoded))),
       (with_store seg s, w))
    | (Err e, (s, w)) => (Err e, (with_store seg s, w))
    | (Panic m, (s, w)) => (Panic m, (with_store seg s, w))
    end
  | Err e => (Err e, (seg, w))
  | Panic m => (Panic m, (seg, w))
  end.

Definition Segment_read (w : world) (seg : Segment S) (offset size : Z)
    : outcome StoreError StoredEntry :=
  b ← store_read w (seg_store seg) offset size;
  decode b.

Definition Segment_read_full (w : world) (seg : Segment S)
    (key_mapper : bytes → outcome StoreError UUIDWasiKey)
    : outcome StoreError (list MappedStoredEntry) :=
  b ← store_read_full w (seg_store seg);
  decode_multi b key_mapper.

Definition Segment_size_in_bytes (seg : Segment S) : Z := store_size_in_bytes (seg_store seg).
Definition Segment_sync (w : world) (seg : Segment S) : world := store_sync w (seg_store seg).
Definition Segment_remove (w : world) (seg : Segment S) : world :=
  store_remove w (seg_store seg).

(** ** The active and the inactive segments *)

Definition set_active (s : Segments S) (seg : Segment S) : Segments S :=
  MkSegments seg (sgs_inactive_segments s) (sgs_max_segment_size_bytes s) (sgs_directory s).

Definition set_inactive (s : Segments S) (m : gmap Z (Segment S)) : Segments S :=
  MkSegments (sgs_active_segment s) m (sgs_max_segment_size_bytes s) (sgs_directory s).

(** [TimestampBasedFileIdGenerator::next]. *)
Definition next_file_id (w : world) : Z := monotonic_now w.

Definition maybe_rollover_segment (w : world) (s : Segments S) (segment : Segment S)
    : outcome StoreError (option (Segment S)) * world :=
  if as_i64 (sgs_max_segment_size_bytes s) <=? Segment_size_in_bytes segment then
    try (new_segment, w) := Segment_new w (next_file_id w) (sgs_directory s) in
    (Ok (Some new_segment), w)
  else (Ok None, w).

Definition maybe_rollover_active_segment (w : world) (s : Segments S)
    : outcome StoreError unit * (Segments S * world) :=
  let active := sgs_active_segment s in
  match maybe_rollover_segment w s active with
  | (Ok (Some new_segment), w) =>
    let s := set_inactive s (<[seg_file_id active := active]> (sgs_inactive_segments s)) in
    (Ok tt, (set_active s new_segment, w))
  | (Ok None, w) => (Ok tt, (s, w))
  | (Err e, w) => (Err e, (s, w))
  | (Panic m, w) => (Panic m, (s, w))
  end.

(** [self.active_segment.append(&entry)]. *)
Definition append_to_active (w : world) (s : Segments S) (e : Entry)
    : outcome StoreError AppendEntryResponse * (Segments S * world) :=
  let '(r, (seg, w)) := Segment_append w (sgs_active_segment s) e in
  (r, (set_active s seg, w)).

Definition Segments_append (w : world) (s : Segments S) (key : UUIDWasiKey) (value : bytes)
    : outcome StoreError AppendEntryResponse * (Segments S * world) :=
  try (_, (s, w)) := maybe_rollover_active_segment w s in
  append_to_active w s (Entry_new key value).

Definition Segments_append_deleted (w : world) (s : Segments S) (key : UUIDWasiKey)
    : outcome StoreError AppendEntryResponse * (Segments S * world) :=
  try (_, (s, w)) := maybe_rollover_active_segment w s in
  append_to_active w s (Entry_new_deleted_entry key).

Definition Segments_read (w : world) (s : Segments S) (file_id offset size : Z)
    : outcome StoreError StoredEntry :=
  if file_id =? seg_file_id (sgs_active_segment s)
  then Segment_read w (sgs_active_segment s) offset size
  else
    match sgs_inactive_segments s !! file_id with
    | Some segment => Segment_read w segment offset size
    | None => Err (FileNotFound file_id)
    end.

(** The loop over the inactive segments, at most [total_segments] of them. *)
Fixpoint read_segments (w : world) (total_segments : nat) (l : list (Z * Segment S))
    (key_mapper : bytes → outcome StoreError UUIDWasiKey)
    : outcome StoreError (list Z * list (list MappedStoredEntry)) :=
  match l, total_segments with
  | (file_id, segment) :: l, Datatypes.S total =>
    entries ← Segment_read_full w segment key_mapper;
    r ← read_segments w total l key_mapper;
    Ok (file_id :: r.1, entries :: r.2)
  | _, _ => Ok ([], [])
  end.

Definition read_inactive_segments (w : world) (s : Segments S) (total_segments : nat)
    (key_mapper : bytes → outcome StoreError UUIDWasiKey)
    : outcome StoreError (list Z * list (list MappedStoredEntry)) :=
  read_segments w total_segments (hash_iter (sgs_inactive_segments s)) key_mapper.

Definition read_all_inactive_segments (w : world) (s : Segments S)
    (key_mapper : bytes → outcome StoreError UUIDWasiKey)
    : outcome StoreError (list Z * list (list MappedStoredEntry)) :=
  read_inactive_segments w s (base.size (sgs_inactive_segments s)) key_mapper.

Definition insert_inactive (s : Segments S) (seg : Segment S) : Segments S :=
  set_inactive s (<[seg_file_id seg := seg]> (sgs_inactive_segments s)).

(** The loop of [write_back]; [segment] is the local one that takes the appends,
    the map holds the clone made when it was created. *)
Fixpoint write_back_loop (w : world) (s : Segments S) (segment : Segment S)
    (changes : list (UUIDWasiKey * MappedStoredEntry))
    : outcome StoreError (list WriteBackResponse) * (Segments S * world) :=
  match changes with
  | [] => (Ok [], (s, w))
  | (key, value) :: changes =>
    match Segment_append w segment
            (Entry_new_preserving_timestamp key (mse_value value) (mse_timestamp value)) with
    | (Ok append_entry_response, (segment, w)) =>
      match maybe_rollover_segment w s segment with
      | (Ok new_segment, w) =>
        let '(s, segment) :=
          match new_segment with
          | Some new_segment => (insert_inactive s new_segment, new_segment)
          | None => (s, segment)
          end in
        try (responses, sw) := write_back_loop w s segment changes in
        (Ok (MkWriteBackResponse key append_entry_response :: responses), sw)
      | (Err e, w) => (Err e, (s, w))
      | (Panic m, w) => (Panic m, (s, w))
      end
    | (Err e, (_, w)) => (Err e, (s, w))
    | (Panic m, (_, w)) => (Panic m, (s, w))
    end
  end.

Definition Segments_write_back (w : world) (s : Segments S)
    (changes : gmap UUIDWasiKey MappedStoredEntry)
    : outcome StoreError (list WriteBackResponse) * (Segments S * world) :=
  match Segment_new w (next_file_id w) (sgs_directory s) with
  | (Ok segment, w) =>
    write_back_loop w (insert_inactive s segment) segment (hash_iter changes)
  | (Err e, w) => (Err e, (s, w))
  | (Panic m, w) => (Panic m, (s, w))
  end.

Definition Segments_remove_active (w : world) (s : Segments S) : Segments S * world :=
  (s, Segment_remove w (sgs_active_segment s)).

Definition Segments_remove_all_inactive (w : world) (s : Segments S) : Segments S * world :=
  (set_inactive s ∅,
   foldl (λ w x, Segment_remove w x.2) w (hash_iter (sgs_inactive_segments s))).

Fixpoint Segments_remove (w : world) (s : Segments S) (file_ids : list Z)
    : Segments S * world :=
  match file_ids with
  | [] => (s, w)
  | file_id :: file_ids =>
    match sgs_inactive_segments s !! file_id with
    | Some segment =>
      Segments_remove (Segment_remove w segment)
        (set_inactive s (delete file_id (sgs_inactive_segments s))) file_ids
    | None => Segments_remove w s file_ids
    end
  end.

Definition Segments_sync (w : world) (s : Segments S) : world :=
  foldl (λ w x, Segment_sync w x.2) (Segment_sync w (sgs_active_segment s))
    (hash_iter (sgs_inactive_segments s)).

(** ** Start-up *)

Definition reload_inactive_segment (w : world) (file_id : Z) (directory : bytes)
    : outcome StoreError (Segment S) * world :=
  let file_path := segment_name file_id in
  try (store, w) := store_open w file_path directory in
  (Ok (MkSegment file_id file_path store), w).

Definition segment_suffix : bytes := SEGMENT_FILE_PREFIX ++ str "." ++ SEGMENT_FILE_SUFFIX.

Fixpoint reload_files (w : world) (s : Segments S) (entries : list bytes)
    : outcome StoreError unit * (Segments S * world) :=
  match entries with
  | [] => (Ok tt, (s, w))
  | entry :: entries =>
    if ends_with entry segment_suffix then
      match parse_u64 (before 95 entry) with
      | None => (Err ParseError, (s, w))
      | Some file_id =>
        if negb (file_id =? seg_file_id (sgs_active_segment s)) then
          match reload_inactive_segment w file_id (sgs_directory s) with
          | (Ok segment, w) =>
            reload_files w
              (set_inactive s (<[file_id := segment]> (sgs_inactive_segments s))) entries
          | (Err e, w) => (Err e, (s, w))
          | (Panic m, w) => (Panic m, (s, w))
          end
        else reload_files w s entries
      end
    else reload_files w s entries
  end.

Definition Segments_reload (w : world) (s : Segments S)
    : outcome StoreError unit * (Segments S * world) :=
  match store_get_files w (sgs_directory s) with
  | Ok entries => reload_files w s entries
  | Err e => (Err e, (s, w))
  | Panic m => (Panic m, (s, w))
  end.

Definition Segments_new (w : world) (directory : bytes) (max_segment_size_bytes : Z)
    : outcome StoreError (Segments S) * world :=
  match Segment_new w (next_file_id w) directory with
  | (Ok active_segment, w) =>
    match Segments_reload w
            (MkSegments active_segment ∅ max_segment_size_bytes directory) with
    | (Ok _, (s, w)) => (Ok s, w)
    | (Err e, (_, w)) => (Err e, w)
    | (Panic m, (_, w)) => (Panic m, w)
    end
  | (Err e, w) => (Err e, w)
  | (Panic m, w) => (Panic m, w)
  end.

End Segments.

(** ** File names *)

Lemma before_digits l c k :
  Forall (λ b, is_digit b = true) l → is_digit c = false → before c (l ++ c :: k) = l.
Proof.
  intros Hl Hc. induction Hl as [|b l Hb Hl IH]; cbn; [by rewrite Z.eqb_refl|].
  destruct (Z.eqb_spec b c) as [->|]; [congruence|]. by rewrite IH.
Qed.

Lemma ends_with_app l suffix : ends_with (l ++ suffix) suffix = true.
Proof.
  unfold ends_with. apply bool_decide_eq_true_2. rewrite length_app, Nat.add_sub.
  by rewrite drop_app_length.
Qed.

(** A segment name is recognised at start-up and gives its id back. *)
Lemma segment_name_parse id :
  is_u64 id → ends_with (segment_name id) segment_suffix = true
              ∧ parse_u64 (before 95 (segment_name id)) = Some id.
Proof.
  intros Hid. split.
  - unfold segment_name. rewrite app_assoc. apply ends_with_app.
  - destruct (dec_spec id) as (_ & _ & Hd); [ints|].
    change (segment_name id) with (dec id ++ 95 :: (SEGMENT_FILE_PREFIX ++ str "." ++ SEGMENT_FILE_SUFFIX)).
    rewrite before_digits by done. by apply parse_u64_dec.
Qed.

Lemma segment_name_inj i j : is_u64 i → is_u64 j → segment_name i = segment_name j → i = j.
Proof.
  intros Hi Hj E. destruct (segment_name_parse i Hi) as [_ H1].
  destruct (segment_name_parse j Hj) as [_ H2]. rewrite E in H1. congruence.
Qed.

(** ** The invariant *)

Section SegmentsLaws.
  Context `{BO : ByteOrder} `{WA : Wasi} {S : Type} `{ST : !Store S} `{SO : !StoreOk S}.

(** The file of a segment. *)
Definition seg_path (s : Segments S) (id : Z) : bytes * bytes :=
  (sgs_directory s, segment_name id).

Definition seg_on (s : Segments S) (seg : Segment S) : Prop :=
  is_u64 (seg_file_id seg) ∧ store_inv (seg_store seg)
  ∧ store_path (seg_store seg) = seg_path s (seg_file_id seg).

(** The active segment writes inside its file; the inactive ones are filed under
    their id and have a file; no file belongs to two segments. *)
Definition segments_inv (w : world) (s : Segments S) : Prop :=
  let a := sgs_active_segment s in
  seg_on s a
  ∧ (∃ c, file w (seg_path s (seg_file_id a)) = Some c
          ∧ 0 ≤ Segment_size_in_bytes a ≤ zlen c)
  ∧ ∀ id seg, sgs_inactive_segments s !! id = Some seg →
      seg_file_id seg = id ∧ id ≠ seg_file_id a ∧ seg_on s seg
      ∧ is_Some (file w (seg_path s id)).

(** The segment [id] is readable and its file starts with [l]. *)
Definition holds (w : world) (s : Segments S) (id : Z) (l : bytes) : Prop :=
  (∃ post, file w (seg_path s id) = Some (l ++ post))
  ∧ (id = seg_file_id (sgs_active_segment s)
       ∧ zlen l ≤ Segment_size_in_bytes (sgs_active_segment s)
     ∨ is_Some (sgs_inactive_segments s !! id)).

(** Nothing that was readable is lost. *)
Definition extends (w : world) (s : Segments S) (w' : world) (s' : Segments S) : Prop :=
  sgs_directory s' = sgs_directory s ∧ ∀ id l, holds w s id l → holds w' s' id l.

(** The active file is smaller than [2^62] bytes. *)
Definition room (w : world) (s : Segments S) : Prop :=
  ∀ c, file w (seg_path s (seg_file_id (sgs_active_segment s))) = Some c →
       zlen c < 4611686018427387904.

(** A healthy disk: opening and appending succeed, and files can be read. *)
Definition disk_ok : Prop :=
  (∀ w n d, ∃ (st : S) w', store_open w n d = (Ok st, w'))
  ∧ ∀ w (st : S) b c, store_inv st → file w (store_path st) = Some c →
      0 ≤ store_size_in_bytes st ≤ zlen c → zlen c < 4611686018427387904 →
      is_u32 (zlen b) → ∃ off st' w', store_append w st b = (Ok off, (st', w')).

Definition readable (w : world) : Prop :=
  ∀ (st : S) off n, store_inv st → is_Some (file w (store_path st)) →
    ∃ b, store_read w st off n = Ok b.

(** The clock gives an id no file has. *)
Definition fresh (w : world) (s : Segments S) : Prop :=
  is_u64 (next_file_id w) ∧ file w (seg_path s (next_file_id w)) = None.

Lemma extends_refl w s : extends w s w s.
Proof. by split. Qed.

Lemma extends_trans w1 s1 w2 s2 w3 s3 :
  extends w1 s1 w2 s2 → extends w2 s2 w3 s3 → extends w1 s1 w3 s3.
Proof. intros [E1 H1] [E2 H2]. split; [congruence|]. auto. Qed.

Lemma seg_path_ne s i j : is_u64 i → is_u64 j → i ≠ j → seg_path s i ≠ seg_path s j.
Proof. intros Hi Hj Hne E. unfold seg_path in E. apply Hne, segment_name_inj; congruence. Qed.

(** Worlds with the same files and the same segments are the same to readers. *)
Lemma segments_inv_files w w' s :
  (∀ p, file w' p = file w p) → segments_inv w s → segments_inv w' s ∧ extends w s w' s.
Proof.
  intros Hf (H1 & H2 & H3). split; [|split; [done|]].
  - split; [done|]. rewrite Hf. split; [done|]. intros id seg Hseg. rewrite Hf. by apply H3.
  - intros id l [Hl Hr]. split; [by rewrite Hf|done].
Qed.

Lemma take_prefix (l post : bytes) o :
  zlen l ≤ o → ∃ y, ∀ x, take (Z.to_nat o) (l ++ post) ++ x = l ++ y ++ x.
Proof.
  intros H. exists (take (Z.to_nat o - length l) post). intros x.
  rewrite take_app, take_ge by (unfold zlen in H; lia). by rewrite <- app_assoc.
Qed.

(** A new segment file, given that its id is new. *)
Lemma Segment_new_ok w s seg w' :
  segments_inv w s → fresh w s →
  Segment_new w (next_file_id w) (sgs_directory s) = (Ok seg, w') →
  seg_file_id seg = next_file_id w ∧ seg_on s seg ∧ Segment_size_in_bytes seg = 0
  ∧ file w' (seg_path s (next_file_id w)) = Some []
  ∧ ∀ p, p ≠ seg_path s (next_file_id w) → file w' p = file w p.
Proof.
  intros Hinv [Hid Hfresh] H. unfold Segment_new, try_bind in H.
  destruct (store_open _ _ _) as [[store| |] w1] eqn:E; simplify_eq.
  destruct (store_open_ok _ _ _ _ _ E) as (Hi & Hp & Hsz & Ho & Hf).
  split; [done|]. split; [by split_and!|]. split; [done|]. split; [|done].
  unfold seg_path in *. by rewrite Hf, Hfresh.
Qed.

Lemma Segment_new_fail w id dir r w' :
  Segment_new (S:=S) w id dir = (r, w') → is_ok r = false → ∀ p, file w' p = file w p.
Proof.
  unfold Segment_new, try_bind. destruct (store_open _ _ _) as [[store| |] w1] eqn:E;
    intros; simplify_eq; try done; by eapply store_open_fail.
Qed.

Lemma fresh_active w s : segments_inv w s → fresh w s →
  next_file_id w ≠ seg_file_id (sgs_active_segment s).
Proof. intros (_ & (c & Hc & _) & _) [_ Hf] E. rewrite E in Hf. congruence. Qed.

Lemma fresh_inactive w s : segments_inv w s → fresh w s →
  sgs_inactive_segments s !! next_file_id w = None.
Proof.
  intros (_ & _ & Hin) [_ Hf]. destruct (_ !! _) as [seg|] eqn:E; [|done].
  destruct (Hin _ _ E) as (_ & _ & _ & [c Hc]). congruence.
Qed.

Lemma holds_u64 w s id l : segments_inv w s → holds w s id l → is_u64 id.
Proof.
  intros ((Ha & _) & _ & Hin) [_ [[-> _]|[seg Hseg]]]; [done|].
  by destruct (Hin _ _ Hseg) as (<- & _ & (? & _) & _).
Qed.

(** Rolling over keeps everything readable, whatever its outcome. *)
Lemma rollover_ok w s r s' w' :
  segments_inv w s → fresh w s → room w s →
  maybe_rollover_active_segment w s = (r, (s', w')) →
  segments_inv w' s' ∧ extends w s w' s' ∧ room w' s'.
Proof.
  intros Hinv Hfresh Hroom H. unfold maybe_rollover_active_segment, maybe_rollover_segment in H.
  destruct (as_i64 _ <=? _); [|simplify_eq; auto using extends_refl].
  unfold try_bind in H.
  destruct (Segment_new w (next_file_id w) (sgs_directory s)) as [[seg| |] w1] eqn:E;
    cbn in H; simplify_eq.
  2,3: (pose proof (Segment_new_fail _ _ _ _ _ E eq_refl) as Hf;
        destruct (segments_inv_files w w' s' Hf Hinv); split_and!; try done;
        intros c; rewrite Hf; apply Hroom).
  destruct (Segment_new_ok _ _ _ _ Hinv Hfresh E) as (Hid & Hon & Hsz & Hnew & Hold).
  pose proof (fresh_active _ _ Hinv Hfresh) as Hne.
  pose proof (fresh_inactive _ _ Hinv Hfresh) as Hnone.
  destruct Hfresh as [Hfid Hfile].
  pose proof Hinv as (Ha & (c & Hc & Hcs) & Hin).
  assert (∀ id, is_u64 id → id ≠ next_file_id w → file w' (seg_path s id) = file w (seg_path s id))
    as Hsame by (intros; by apply Hold, seg_path_ne).
  set (s' := set_active _ seg).
  assert (∀ id, seg_path s' id = seg_path s id) as Hsp by done.
  assert (sgs_inactive_segments s' = <[seg_file_id (sgs_active_segment s) :=
    sgs_active_segment s]> (sgs_inactive_segments s)) as Hina by done.
  split; [|split].
  - unfold segments_inv. cbv zeta. change (sgs_active_segment s') with seg.
    split; [done|]. rewrite Hsp. split; [exists []; rewrite Hsz, Hid; split; [done|by vm_compute]|].
    intros id seg' Hseg'. rewrite Hsp, Hid. rewrite Hina in Hseg'.
    apply lookup_insert_Some in Hseg' as [[<- <-]|[Hne' Hseg']].
    + split; [done|]. split; [done|]. split; [done|].
      rewrite Hsame by (done || by destruct Ha). by eexists.
    + destruct (Hin _ _ Hseg') as (? & ? & Hon' & Hfile').
      assert (id ≠ next_file_id w) by (intros ->; congruence).
      split_and!; try done. rewrite Hsame; [done| |done]. destruct Hon' as [? _]. by subst.
  - split; [done|]. intros id l Hh. pose proof (holds_u64 _ _ _ _ Hinv Hh).
    destruct Hh as [[post Hp] Hr].
    assert (id ≠ next_file_id w) by (intros ->; congruence).
    split; [exists post; by rewrite Hsp, Hsame|].
    right. rewrite Hina.
    destruct (decide (id = seg_file_id (sgs_active_segment s))) as [->|];
      [rewrite lookup_insert_eq; by eexists|].
    rewrite lookup_insert_ne by done. by destruct Hr as [[-> _]|?].
  - intros c' Hc'. rewrite Hsp in Hc'. change (sgs_active_segment s') with seg in Hc'.
    rewrite Hid, Hnew in Hc'. injection Hc' as <-. by rewrite zlen_nil.
Qed.

(** The record of an entry, as encoded at time [now]. *)
Definition entry_record (now : Z) (e : Entry) : bytes :=
  record_bytes (stamp now e) (entry_key e) (vr_value (entry_value e))
    (vr_tombstone (entry_value e)).

Definition entry_wf (e : Entry) : Prop := kv_wf (entry_key e) (vr_value (entry_value e)).

(** The bytes of a file before the write offset survive a write at the offset. *)
Lemma holds_write w w' (s : Segments S) seg' o c x id l :
  seg_on s (sgs_active_segment s) → is_u64 id →
  (∀ p, p ≠ seg_path s (seg_file_id (sgs_active_segment s)) → file w' p = file w p) →
  file w (seg_path s (seg_file_id (sgs_active_segment s))) = Some c →
  file w' (seg_path s (seg_file_id (sgs_active_segment s))) = Some (take (Z.to_nat o) c ++ x) →
  seg_file_id seg' = seg_file_id (sgs_active_segment s) →
  o = Segment_size_in_bytes (sgs_active_segment s) → o ≤ Segment_size_in_bytes seg' →
  (∀ seg, sgs_inactive_segments s !! id = Some seg →
     id ≠ seg_file_id (sgs_active_segment s)) →
  holds w s id l → holds w' (set_active s seg') id l.
Proof.
  intros Ha Hid Hother Hc Hc' Hseg' -> Hsz Hina [[post Hp] Hr].
  destruct Hr as [[-> Hl]|[seg Hs]].
  - rewrite Hc in Hp. injection Hp as ->. destruct (take_prefix l post _ Hl) as [y Hy].
    rewrite Hy in Hc'. split; [by eexists|]. left. cbn. split; [done|lia].
  - split; [|right; by exists seg]. exists post.
    rewrite <- Hp. apply Hother, seg_path_ne; [done|apply Ha|by eapply Hina].
Qed.

(** What an append leaves in the file, whether it succeeds or not: everything up to
    the write offset, and after it, on success, the new bytes. *)
Lemma store_append_effect w (st : S) b res st' w' c :
  store_append w st b = (res, (st', w')) → store_inv st →
  file w (store_path st) = Some c → 0 ≤ store_size_in_bytes st ≤ zlen c →
  zlen c < 9223372036854775808 → is_u32 (zlen b) →
  ∃ x, file w' (store_path st)
       = Some (take (Z.to_nat (store_size_in_bytes st)) c ++ x)
    ∧ store_size_in_bytes st ≤ store_size_in_bytes st' ≤ store_size_in_bytes st + zlen x
    ∧ ∀ off, res = Ok off → off = store_size_in_bytes st ∧ (∃ y, x = b ++ y)
        ∧ store_size_in_bytes st' = store_size_in_bytes st + zlen b.
Proof.
  intros Eap Hsi Hc Hcs Hroom Hbu. destruct (is_ok res) eqn:Eok.
  - destruct res as [off| |]; try done.
    destruct (store_append_ok _ _ _ _ _ _ c Eap Hsi Hc Hcs Hroom Hbu) as (-> & Hs' & Hf).
    eexists. split; [exact Hf|]. rewrite Hs', zlen_app. pose proof (zlen_nonneg b).
    pose proof (zlen_nonneg (drop (Z.to_nat (store_size_in_bytes st + zlen b)) c)).
    split; [lia|]. intros off [= <-]. eauto.
  - destruct (store_append_fail _ _ _ _ _ _ c Eap Eok Hsi Hc Hcs Hroom) as (-> & t & Hf).
    exists t. split; [exact Hf|]. pose proof (zlen_nonneg t). split; [lia|]. by intros off ->.
Qed.

Lemma append_to_active_ok w s e r s' w' :
  segments_inv w s → room w s → entry_wf e → is_u32 (entry_timestamp e) →
  append_to_active w s e = (r, (s', w')) →
  segments_inv w' s' ∧ extends w s w' s'
  ∧ ∀ resp, r = Ok resp → ∃ pre ts,
      aer_offset resp = zlen pre ∧ aer_offset resp < 9223372036854775808
      ∧ aer_entry_length resp = record_length (entry_key e) (vr_value (entry_value e))
      ∧ is_u32 ts
      ∧ holds w' s' (aer_file_id resp)
          (pre ++ record_bytes ts (entry_key e) (vr_value (entry_value e))
                    (vr_tombstone (entry_value e))).
Proof.
  intros Hinv Hroom Hwf Hts H. pose proof Hinv as (Ha & (c & Hc & Hcs) & Hin).
  unfold append_to_active, Segment_append in H. rewrite Entry_encode_ok in H by done.
  fold (entry_record (wall_now w) e) in H. set (b := entry_record (wall_now w) e) in *.
  assert (zlen b = record_length (entry_key e) (vr_value (entry_value e))) as Hb
    by apply record_bytes_length.
  assert (is_u32 (zlen b)) as Hbu.
  { pose proof (zlen_nonneg b). destruct Hwf as (_ & _ & _ & ?). ints. }
  set (a := sgs_active_segment s) in *. specialize (Hroom c Hc).
  pose proof Ha as (Hid & Hsi & Hsp).
  destruct (store_append w (seg_store a) b) as [res [st w1]] eqn:Eap.
  destruct (store_append_frame _ _ _ _ _ _ Eap Hsi) as (Hsi' & Hsp' & Hother).
  rewrite Hsp in Hother.
  assert (s' = set_active s (with_store a st) ∧ w' = w1) as [-> ->]
    by (destruct res; by simplify_eq).
  rewrite <- Hsp in Hc.
  destruct (store_append_effect _ _ _ _ _ _ c Eap Hsi Hc Hcs ltac:(lia) Hbu)
    as (x & Hx & Hsz & Hres). rewrite Hsp in Hx, Hc.
  change (store_size_in_bytes (seg_store a)) with (Segment_size_in_bytes a) in *.
  assert (∀ id seg, sgs_inactive_segments s !! id = Some seg → id ≠ seg_file_id a) as Hne
    by (intros id seg Hseg; by destruct (Hin _ _ Hseg) as (_ & ? & _)).
  split; [|split].
  - split; [|split].
    + split; [done|]. split; [done|]. cbn. by rewrite Hsp'.
    + eexists. split; [exact Hx|]. cbn. rewrite zlen_app, zlen_take by lia.
      unfold Segment_size_in_bytes in *. cbn. lia.
    + intros id seg Hseg. destruct (Hin _ _ Hseg) as (Hi & Hne' & Hon & Hf).
      split_and!; try done. destruct Hon as [Hu _].
      change (is_Some (file w1 (seg_path s id))). rewrite Hother; [done|]. apply seg_path_ne; [by subst|done|done].
  - split; [done|]. intros id l Hh. eapply (holds_write w w1 s _ _ c x id l); try done.
    + by eapply holds_u64.
    + cbn. unfold Segment_size_in_bytes in *. cbn. lia.
    + intros seg Hseg. by eapply Hne.
  - intros resp ->. destruct res as [off| |]; simplify_eq.
    destruct (Hres off eq_refl) as (-> & [y ->] & Hst).
    exists (take (Z.to_nat (Segment_size_in_bytes a)) c), (stamp (wall_now w) e).
    cbn [aer_offset aer_entry_length aer_file_id].
    rewrite zlen_take by lia. rewrite as_u32_id, Hb by done.
    split; [done|]. split; [lia|]. split; [done|]. split.
    { unfold stamp. destruct (_ =? _); [apply as_u32_range|done]. }
    split; [exists y; rewrite <- app_assoc; exact Hx|]. left.
    split; [done|]. change (record_bytes _ _ _ _) with b.
    rewrite zlen_app, zlen_take by lia.
    change (Segment_size_in_bytes a + zlen b ≤ store_size_in_bytes st). lia.
Qed.

(** An append, after the rollover it may start with. *)
Lemma append_after_rollover_ok w s e r s' w' :
  segments_inv w s → fresh w s → room w s → entry_wf e → is_u32 (entry_timestamp e) →
  (try (_, (s, w)) := maybe_rollover_active_segment w s in append_to_active w s e)
    = (r, (s', w')) →
  segments_inv w' s' ∧ extends w s w' s'
  ∧ ∀ resp, r = Ok resp → ∃ pre ts,
      aer_offset resp = zlen pre ∧ aer_offset resp < 9223372036854775808
      ∧ aer_entry_length resp = record_length (entry_key e) (vr_value (entry_value e))
      ∧ is_u32 ts
      ∧ holds w' s' (aer_file_id resp)
          (pre ++ record_bytes ts (entry_key e) (vr_value (entry_value e))
                    (vr_tombstone (entry_value e))).
Proof.
  intros Hinv Hfresh Hroom Hwf Hts H. unfold try_bind in H.
  destruct (maybe_rollover_active_segment w s) as [r1 [s1 w1]] eqn:E.
  destruct (rollover_ok _ _ _ _ _ Hinv Hfresh Hroom E) as (Hinv1 & Hext1 & Hroom1).
  destruct r1 as [u| |]; [|simplify_eq; by split_and!..].
  destruct (append_to_active_ok _ _ _ _ _ _ Hinv1 Hroom1 Hwf Hts H) as (Hinv2 & Hext2 & Hr).
  split_and!; [done|by eapply extends_trans|done].
Qed.

(** On a healthy disk an append succeeds. *)
Lemma append_succeeds w s e :
  disk_ok → segments_inv w s → fresh w s → room w s → entry_wf e →
  is_ok (try (_, (s, w)) := maybe_rollover_active_segment w s in append_to_active w s e).1
  = true.
Proof.
  intros [Hopen Happ] Hinv Hfresh Hroom Hwf. unfold try_bind.
  destruct (maybe_rollover_active_segment w s) as [r1 [s1 w1]] eqn:E.
  destruct (rollover_ok _ _ _ _ _ Hinv Hfresh Hroom E) as (Hinv1 & _ & Hroom1).
  assert (r1 = Ok tt) as ->.
  { unfold maybe_rollover_active_segment, maybe_rollover_segment, Segment_new in E.
    destruct (as_i64 _ <=? _); [|by simplify_eq].
    destruct (Hopen w (segment_name (next_file_id w)) (sgs_directory s)) as (st & w2 & Ho).
    rewrite Ho in E. cbn in E. by simplify_eq. }
  unfold append_to_active, Segment_append. rewrite Entry_encode_ok by done.
  destruct Hinv1 as ((_ & Hsi & Hsp) & (c & Hc & Hcs) & _).
  specialize (Hroom1 c Hc). rewrite <- Hsp in Hc.
  edestruct (Happ w1) as (off & st' & w' & ->); [done..| |done].
  rewrite record_bytes_length. destruct Hwf as (_ & _ & _ & ?). unfold record_length in *.
  pose proof (zlen_nonneg (entry_key e)).
  pose proof (zlen_nonneg (vr_value (entry_value e))). ints.
Qed.

(** The segment behind a readable position. *)
Lemma holds_segment w s id l off n :
  segments_inv w s → holds w s id l →
  ∃ seg, Segments_read w s id off n = Segment_read w seg off n
    ∧ store_inv (seg_store seg) ∧ store_path (seg_store seg) = seg_path s id.
Proof.
  intros (Ha & _ & Hin) [_ Hr]. unfold Segments_read.
  destruct (Z.eqb_spec id (seg_file_id (sgs_active_segment s))) as [->|Hne].
  - destruct Ha as (_ & ? & ?). eauto.
  - destruct Hr as [[? _]|[seg Hseg]]; [done|]. rewrite Hseg.
    destruct (Hin _ _ Hseg) as (<- & _ & (_ & ? & ?) & _). eauto.
Qed.

(** Reading a record at its position returns it, unless the file cannot be read. *)
Lemma Segments_read_ok w s id pre ts k v tomb :
  segments_inv w s → holds w s id (pre ++ record_bytes ts k v tomb) →
  is_u32 ts → kv_wf k v → zlen pre < 9223372036854775808 →
  (∀ b, Segments_read w s id (zlen pre) (record_length k v) = Ok b →
     b = MkStoredEntry k v (Z.land tomb 1 =? 1) ts)
  ∧ (readable w → Segments_read w s id (zlen pre) (record_length k v)
                  = Ok (MkStoredEntry k v (Z.land tomb 1 =? 1) ts)).
Proof.
  intros Hinv Hh Hts Hkv Hpre.
  destruct (holds_segment _ _ _ _ (zlen pre) (record_length k v) Hinv Hh)
    as (seg & -> & Hsi & Hsp).
  destruct Hh as [[post Hf] _]. rewrite <- Hsp, <- app_assoc in Hf.
  assert (is_u32 (record_length k v)) as Hlen.
  { destruct Hkv as (_ & _ & _ & ?). unfold record_length in *.
    pose proof (zlen_nonneg k). pose proof (zlen_nonneg v). ints. }
  pose proof (zlen_nonneg pre).
  assert (∀ c, store_read w (seg_store seg) (zlen pre) (record_length k v) = Ok c →
    Segment_read w seg (zlen pre) (record_length k v)
    = Ok (MkStoredEntry k v (Z.land tomb 1 =? 1) ts)) as Hok.
  { intros c Hc. unfold Segment_read. rewrite Hc. cbn [mbind outcome_bind].
    rewrite (store_read_ok _ _ _ _ _ _ Hc Hsi Hf ltac:(lia) Hlen).
    rewrite drop_app_zlen, take_app_zlen by (done || apply record_bytes_length).
    unfold decode. pose proof (decode_from_ok (E:=StoreError) [] ts k v tomb [] Hts Hkv) as Hd.
    rewrite app_nil_r in Hd. cbn [app] in Hd. change (zlen []) with 0 in Hd.
    by rewrite Hd by (unfold is_u32 in Hlen; lia). }
  split.
  - intros b Hb. pose proof Hb as Hb'. unfold Segment_read in Hb'.
    apply outcome_bind_ok in Hb' as (c & Hc & _). rewrite (Hok c Hc) in Hb. by injection Hb.
  - intros Hread. destruct (Hread (seg_store seg) (zlen pre) (record_length k v)) as [c Hc];
      [done|by eexists|]. by apply (Hok c).
Qed.

(** ** Start-up in an empty directory *)

Lemma reload_files_active w s entries :
  is_u64 (seg_file_id (sgs_active_segment s)) →
  Forall (λ n, n = segment_name (seg_file_id (sgs_active_segment s))) entries →
  reload_files w s entries = (Ok tt, (s, w)).
Proof.
  intros Hid. induction 1 as [|n entries -> _ IH]; [done|]. cbn [reload_files].
  destruct (segment_name_parse _ Hid) as [-> ->]. by rewrite Z.eqb_refl.
Qed.

Lemma Segments_new_empty w dir max r w' :
  (∀ n, file w (dir, n) = None) → is_u64 (next_file_id w) →
  Segments_new w dir max = (Ok r, w') →
  segments_inv w' r ∧ sgs_inactive_segments r = ∅.
Proof.
  intros Hempty Hid H. unfold Segments_new, Segment_new, try_bind in H.
  destruct (store_open w (segment_name (next_file_id w)) dir) as [[st| |] w1] eqn:E;
    simplify_eq.
  destruct (store_open_ok _ _ _ _ _ E) as (Hsi & Hsp & Hsz & Hother & Hf).
  unfold Segments_reload in H. cbn [sgs_directory] in H.
  destruct (store_get_files w1 dir) as [l| |] eqn:Eg; simplify_eq.
  rewrite reload_files_active in H; [|done|].
  - simplify_eq. split; [|done]. split; [done|]. split.
    2:{ intros id seg Hseg. change ((∅ : gmap Z (Segment S)) !! id = Some seg) in Hseg.
        by rewrite lookup_empty in Hseg. }
    eexists. split; [exact Hf|]. unfold Segment_size_in_bytes. cbn. rewrite Hsz.
    rewrite Hempty. by vm_compute.
  - apply Forall_forall. intros n Hn. cbn.
    destruct (store_get_files_ok _ _ _ _ Eg Hn) as [c Hc].
    destruct (decide (n = segment_name (next_file_id w))) as [|Hne]; [done|].
    rewrite Hother, Hempty in Hc by congruence. done.
Qed.

(** ** Properties *)

(** C37: an append that succeeds leaves the active segment no longer than the
    threshold plus one record: segments do not grow without bound. *)
Theorem active_segment_bounded w s k v resp s' w' :
  segments_inv w s → fresh w s → room w s → kv_wf k v →
  0 ≤ sgs_max_segment_size_bytes s < 9223372036854775808 →
  Segments_append w s k v = (Ok resp, (s', w')) →
  Segment_size_in_bytes (sgs_active_segment s')
  ≤ sgs_max_segment_size_bytes s + record_length k v.
Proof.
  intros Hinv Hfresh Hroom Hwf Hmax H. unfold Segments_append, try_bind in H.
  destruct (maybe_rollover_active_segment w s) as [[u| |] [s1 w1]] eqn:E; try done.
  destruct (rollover_ok _ _ _ _ _ Hinv Hfresh Hroom E) as (Hinv1 & _ & Hroom1).
  assert (Segment_size_in_bytes (sgs_active_segment s1) ≤ sgs_max_segment_size_bytes s) as Hs1.
  { unfold maybe_rollover_active_segment, maybe_rollover_segment in E.
    unfold as_i64 in E. rewrite as_u64_id in E by ints.
    rewrite (proj2 (Z.ltb_lt _ _)) in E by lia.
    destruct (Z.leb_spec (sgs_max_segment_size_bytes s)
      (Segment_size_in_bytes (sgs_active_segment s))); [|simplify_eq; lia].
    unfold try_bind in E. destruct (Segment_new _ _ _) as [[seg| |] w2] eqn:En; simplify_eq.
    destruct (Segment_new_ok _ _ _ _ Hinv Hfresh En) as (_ & _ & Hsz & _).
    cbn. rewrite Hsz. lia. }
  pose proof Hinv1 as ((_ & Hsi & Hsp) & (c & Hc & Hcs) & _).
  specialize (Hroom1 c Hc). rewrite <- Hsp in Hc.
  unfold append_to_active, Segment_append in H.
  rewrite Entry_encode_ok in H by done.
  destruct (store_append _ _ _) as [[off| |] [st w2]] eqn:Eap; simplify_eq.
  destruct (store_append_effect _ _ _ _ _ _ c Eap Hsi Hc Hcs ltac:(lia)) as (x & _ & _ & Hres).
  { rewrite record_bytes_length. destruct Hwf as (_ & _ & _ & ?). unfold record_length in *.
    cbn. pose proof (zlen_nonneg k). pose proof (zlen_nonneg v). ints. }
  destruct (Hres off eq_refl) as (_ & _ & Hst). rewrite record_bytes_length in Hst.
  cbn. unfold Segment_size_in_bytes in *. cbn in *. rewrite Hst. lia.
Qed.

End SegmentsLaws.

(** The name of a segment file is recognised at start-up and yields the file id
    it was made from, and different ids have different names. *)
Theorem segment_name_round_trip i j :
  is_u64 i → is_u64 j →
  (ends_with (segment_name i) segment_suffix = true
   ∧ parse_u64 (before 95 (segment_name i)) = Some i)
  ∧ (segment_name i = segment_name j ↔ i = j).
Proof.
  intros Hi Hj. split; [by apply segment_name_parse|].
  split; [by apply segment_name_inj|by intros ->].
Qed.

Lemma segment_name_round_trip_witness :
  (ends_with (str "1234_bitcask.data") segment_suffix = true
   ∧ parse_u64 (before 95 (str "1234_bitcask.data")) = Some 1234)
  ∧ (segment_name 1234 = segment_name 7 ↔ 1234 = 7).
Proof. apply (segment_name_round_trip 1234 7); by_eval. Defined.

#[local] Existing Instance mem_wasi.

(** A store in memory whose active segment, file 1, has reached the threshold. *)
Definition example_dir : bytes := str "bitcoin-wasm".
Definition example_segment : Segment WasiStore :=
  MkSegment 1 (segment_name 1)
    (MkWasiStore (example_dir, segment_name 1) 20 example_dir (segment_name 1)).
Definition example_segments : Segments WasiStore :=
  MkSegments example_segment ∅ 16 example_dir.
Definition example_world : @world mem_wasi :=
  MkMem {[ (example_dir, segment_name 1) := replicate 20 0 ]} 5.

Lemma example_segments_inv :
  @segments_inv mem_wasi WasiStore _ _ example_world example_segments.
Proof.
  split; [split_and!; [by_eval|done|done]|]. split; [by exists (replicate 20 0)|].
  intros id seg H. change ((∅ : gmap Z (Segment WasiStore)) !! id = Some seg) in H.
  by rewrite lookup_empty in H.
Qed.

Lemma active_segment_bounded_witness :
  ∃ resp s' w', @Segments_append mem_wasi WasiStore _ example_world example_segments
                  (str "k") [1; 2] = (Ok resp, (s', w'))
    ∧ Segment_size_in_bytes (sgs_active_segment s') ≤ 16 + 16.
Proof.
  eexists _, _, _. split; [by vm_compute|].
  eapply (@active_segment_bounded mem_wasi WasiStore _ _ example_world example_segments
    (str "k") [1; 2]); [apply example_segments_inv|split; by_eval| |by_eval|cbn; lia|
    by vm_compute].
  intros c H. assert (Some c = Some (replicate 20 0)) as [= ->] by (rewrite <- H; reflexivity).
  by_eval.
Defined.
