(* ===== verification/KvBitcask.v ===== *)
(** * The key-value store ([crates/kv/src/{kvstore,key_directory,merged_state,
    config,merge_config,lib}.rs])

    An in-memory directory maps every key to the position of its latest record in
    the segment files; merging rewrites the inactive segments. *)

From S2P Require Import Prelude Errors Io KvEntry KvStore KvSegments.

(** ** The key directory *)

Record KeyDirectoryEntry := MkKeyDirectoryEntry {
  kde_file_id : Z;
  kde_offset : Z;
  kde_entry_length : Z;
}.

#[export] Instance KeyDirectoryEntry_eq_dec : EqDecision KeyDirectoryEntry.
Proof. solve_decision. Defined.

Abbreviation KeyDirectory := (gmap UUIDWasiKey KeyDirectoryEntry).

Definition KeyDirectoryEntry_from (r : AppendEntryResponse) : KeyDirectoryEntry :=
  MkKeyDirectoryEntry (aer_file_id r) (aer_offset r) (aer_entry_length r).

Definition KeyDirectory_new : KeyDirectory := ∅.

Definition KeyDirectory_reload (d : KeyDirectory) (file_id : Z)
    (entries : list MappedStoredEntry) : KeyDirectory :=
  foldl (λ d entry,
    <[mse_key entry := MkKeyDirectoryEntry file_id (mse_key_offset entry)
                         (mse_entry_length entry)]> d) d entries.

Definition KeyDirectory_put (d : KeyDirectory) (key : UUIDWasiKey) (value : KeyDirectoryEntry)
    : KeyDirectory := <[key := value]> d.

Definition KeyDirectory_bulk_update (d : KeyDirectory) (changes : list WriteBackResponse)
    : KeyDirectory :=
  foldl (λ d change,
    <[wbr_key change := KeyDirectoryEntry_from (wbr_append_entry_response change)]> d)
    d changes.

Definition KeyDirectory_delete (d : KeyDirectory) (key : UUIDWasiKey) : KeyDirectory :=
  delete key d.

Definition KeyDirectory_get (d : KeyDirectory) (key : UUIDWasiKey) : option KeyDirectoryEntry :=
  d !! key.

(** ** Merging *)

Record MergedState := MkMergedState {
  ms_value_by_key : gmap UUIDWasiKey MappedStoredEntry;
  ms_deleted_keys : gmap UUIDWasiKey MappedStoredEntry;
}.

Definition MergedState_new : MergedState := MkMergedState ∅ ∅.

Definition MergedState_take (m : MergedState) (entry : MappedStoredEntry) : MergedState :=
  if mse_deleted entry
  then MkMergedState (ms_value_by_key m) (<[mse_key entry := entry]> (ms_deleted_keys m))
  else MkMergedState (<[mse_key entry := entry]> (ms_value_by_key m)) (ms_deleted_keys m).

Definition MergedState_take_all (m : MergedState) (mapped_entries : list MappedStoredEntry)
    : MergedState :=
  foldl MergedState_take m mapped_entries.

Definition maybe_update (m : MergedState) (existing_entry new_entry : MappedStoredEntry)
    : MergedState :=
  if mse_timestamp existing_entry <? mse_timestamp new_entry then
    if mse_deleted new_entry
    then MkMergedState (delete (mse_key existing_entry) (ms_value_by_key m))
           (ms_deleted_keys m)
    else MkMergedState (<[mse_key existing_entry := new_entry]> (ms_value_by_key m))
           (ms_deleted_keys m)
  else m.

Definition merge_entry (m : MergedState) (new_entry : MappedStoredEntry) : MergedState :=
  match ms_value_by_key m !! mse_key new_entry with
  | Some existing => maybe_update m existing new_entry
  | None =>
    match ms_deleted_keys m !! mse_key new_entry with
    | Some deleted_entry =>
      maybe_update
        (MkMergedState (ms_value_by_key m) (delete (mse_key new_entry) (ms_deleted_keys m)))
        deleted_entry new_entry
    | None =>
      MkMergedState (<[mse_key new_entry := new_entry]> (ms_value_by_key m))
        (ms_deleted_keys m)
    end
  end.

Definition MergedState_merge_with (m : MergedState) (mapped_entries : list MappedStoredEntry)
    : MergedState :=
  foldl merge_entry m mapped_entries.

Definition MergedState_merge (m : MergedState) (entries other_entries : list MappedStoredEntry)
    : MergedState :=
  MergedState_merge_with (MergedState_take_all m entries) other_entries.

(** ** Configuration *)

Record MergeConfig := MkMergeConfig {
  mc_total_segments_to_read : nat;
  mc_should_read_all_segments : bool;
  mc_key_mapper : bytes → outcome StoreError UUIDWasiKey;
  mc_run_merge_every : Z;
}.

Definition MergeConfig_new (total_segments_to_read : nat)
    (key_mapper : bytes → outcome StoreError UUIDWasiKey) : MergeConfig :=
  MkMergeConfig total_segments_to_read false key_mapper 1000.

Definition MergeConfig_new_with_duration (total_segments_to_read : nat) (run_merge_every : Z)
    (key_mapper : bytes → outcome StoreError UUIDWasiKey) : MergeConfig :=
  MkMergeConfig total_segments_to_read false key_mapper run_merge_every.

Definition MergeConfig_new_with_all_segments_to_read
    (key_mapper : bytes → outcome StoreError UUIDWasiKey) : MergeConfig :=
  MkMergeConfig 0 true key_mapper 1000.

Definition MergeConfig_new_with_all_segments_to_read_every_fixed_duration
    (run_merge_every : Z) (key_mapper : bytes → outcome StoreError UUIDWasiKey)
    : MergeConfig :=
  MkMergeConfig 0 true key_mapper run_merge_every.

Record Config := MkConfig {
  cfg_directory : bytes;
  cfg_max_segment_size_bytes : Z;
  cfg_key_directory_capacity : Z;
  cfg_merge_config : option MergeConfig;
}.

(** ** The store *)

Record KVStore (S : Type) := MkKVStore {
  kv_segments : Segments S;
  kv_key_directory : KeyDirectory;
  kv_merge_config : MergeConfig;
  kv_counter : Z;
}.
Arguments MkKVStore {S}.
Arguments kv_segments {S}.
Arguments kv_key_directory {S}.
Arguments kv_merge_config {S}.
Arguments kv_counter {S}.

Section KVStore.
  Context `{BO : ByteOrder} `{WA : Wasi} {S : Type} `{ST : !Store S}.
  Context `{HI : !HashIter Z} `{HK : !HashIter bytes}.

Definition set_segments (kv : KVStore S) (s : Segments S) : KVStore S :=
  MkKVStore s (kv_key_directory kv) (kv_merge_config kv) (kv_counter kv).
Definition set_key_directory (kv : KVStore S) (d : KeyDirectory) : KVStore S :=
  MkKVStore (kv_segments kv) d (kv_merge_config kv) (kv_counter kv).
Definition set_counter (kv : KVStore S) (n : Z) : KVStore S :=
  MkKVStore (kv_segments kv) (kv_key_directory kv) (kv_merge_config kv) n.

(** The loop of [reload]: all inactive segments, in the map's order. *)
Fixpoint reload_segments (w : world) (d : KeyDirectory) (l : list (Z * Segment S))
    (key_mapper : bytes → outcome StoreError UUIDWasiKey) : outcome StoreError KeyDirectory :=
  match l with
  | [] => Ok d
  | (file_id, segment) :: l =>
    entries ← Segment_read_full w segment key_mapper;
    reload_segments w (KeyDirectory_reload d file_id entries) l key_mapper
  end.

Definition KVStore_reload (w : world) (kv : KVStore S) : outcome StoreError (KVStore S) :=
  d ← reload_segments w (kv_key_directory kv)
        (hash_iter (sgs_inactive_segments (kv_segments kv)))
        (mc_key_mapper (kv_merge_config kv));
  Ok (set_key_directory kv d).

Definition KVStore_new (w : world) (config : Config)
    : outcome StoreError (KVStore S) * world :=
  try (segments, w) := Segments_new w (cfg_directory config) (cfg_max_segment_size_bytes config) in
  match cfg_merge_config config with
  | None => (Panic "called `Option::unwrap()` on a `None` value", w)
  | Some merge_config =>
    (KVStore_reload w (MkKVStore segments KeyDirectory_new merge_config 0), w)
  end.

Definition KVStore_write_back (w : world) (kv : KVStore S) (file_ids : list Z)
    (changes : gmap UUIDWasiKey MappedStoredEntry)
    : outcome StoreError unit * (KVStore S * world) :=
  match Segments_write_back w (kv_segments kv) changes with
  | (Ok write_back_responses, (s, w)) =>
    let d := KeyDirectory_bulk_update (kv_key_directory kv) write_back_responses in
    let '(s, w) := Segments_remove w s file_ids in
    (Ok tt, (set_key_directory (set_segments kv s) d, w))
  | (Err e, (s, w)) => (Err e, (set_segments kv s, w))
  | (Panic m, (s, w)) => (Panic m, (set_segments kv s, w))
  end.

Definition KVStore_sync (w : world) (kv : KVStore S) : world :=
  Segments_sync w (kv_segments kv).

(** The merge proper, [let _ = self.write_back(..)]: its error is dropped. *)
Definition merge_segments (w : world) (kv : KVStore S) (file_ids : list Z)
    (segments : list (list MappedStoredEntry)) : outcome StoreError unit * (KVStore S * world) :=
  match segments with
  | first :: ((_ :: _) as others) =>
    let merged_state := MergedState_take_all MergedState_new first in
    let merged_state := foldl MergedState_merge_with merged_state others in
    match KVStore_write_back w kv file_ids (ms_value_by_key merged_state) with
    | (Panic m, t) => (Panic m, t)
    | (_, t) => (Ok tt, t)
    end
  | _ => (Ok tt, (kv, w))
  end.

Definition begin_merge (w : world) (kv : KVStore S) : outcome StoreError unit * (KVStore S * world) :=
  let mc := kv_merge_config kv in
  match (if mc_should_read_all_segments mc
         then read_all_inactive_segments w (kv_segments kv) (mc_key_mapper mc)
         else read_inactive_segments w (kv_segments kv) (mc_total_segments_to_read mc)
                (mc_key_mapper mc)) with
  | Ok (file_ids, segments) =>
    try (_, (kv, w)) := merge_segments w kv file_ids segments in
    (Ok tt, (kv, KVStore_sync w kv))
  | Err e => (Err e, (kv, w))
  | Panic m => (Panic m, (kv, w))
  end.

(** The part of [put] after the merge. *)
Definition put_record (w : world) (kv : KVStore S) (key : UUIDWasiKey) (value : bytes)
    : outcome StoreError unit * (KVStore S * world) :=
  match Segments_append w (kv_segments kv) key value with
  | (Ok append_entry_response, (s, w)) =>
    let kv := set_key_directory (set_segments kv s)
      (KeyDirectory_put (kv_key_directory kv) key
         (KeyDirectoryEntry_from append_entry_response)) in
    match @add_u64 StoreError (kv_counter kv) 1 with
    | Ok n => (Ok tt, (set_counter kv n, w))
    | Err e => (Err e, (kv, w))
    | Panic m => (Panic m, (kv, w))
    end
  | (Err e, (s, w)) => (Err e, (set_segments kv s, w))
  | (Panic m, (s, w)) => (Panic m, (set_segments kv s, w))
  end.

Definition KVStore_put (w : world) (kv : KVStore S) (key : UUIDWasiKey) (value : bytes)
    : outcome StoreError unit * (KVStore S * world) :=
  if mc_run_merge_every (kv_merge_config kv) <=? kv_counter kv then
    try (_, (kv, w)) := begin_merge w kv in
    put_record w (set_counter kv 0) key value
  else put_record w kv key value.

Definition KVStore_update (w : world) (kv : KVStore S) (key : UUIDWasiKey) (value : bytes)
    : outcome StoreError unit * (KVStore S * world) :=
  KVStore_put w kv key value.

Definition KVStore_delete (w : world) (kv : KVStore S) (key : UUIDWasiKey)
    : outcome StoreError unit * (KVStore S * world) :=
  match Segments_append_deleted w (kv_segments kv) key with
  | (Ok _, (s, w)) =>
    (Ok tt, (set_key_directory (set_segments kv s)
               (KeyDirectory_delete (kv_key_directory kv) key), w))
  | (Err e, (s, w)) => (Err e, (set_segments kv s, w))
  | (Panic m, (s, w)) => (Panic m, (set_segments kv s, w))
  end.

Definition KVStore_get (w : world) (kv : KVStore S) (key : UUIDWasiKey)
    : outcome StoreError bytes :=
  match KeyDirectory_get (kv_key_directory kv) key with
  | Some entry =>
    stored_entry ← Segments_read w (kv_segments kv) (kde_file_id entry) (kde_offset entry)
                     (kde_entry_length entry);
    Ok (se_value stored_entry)
  | None => Err EntryNotFound
  end.

Definition KVStore_clear_log (w : world) (kv : KVStore S) : KVStore S * world :=
  let '(s, w) := Segments_remove_active w (kv_segments kv) in
  let '(s, w) := Segments_remove_all_inactive w s in
  (set_segments kv s, w).

(** ** The exported component ([lib.rs]) *)

Definition default_config : Config :=
  MkConfig (str "bitcoin-wasm") 1048576 1024
    (Some (MergeConfig_new_with_all_segments_to_read UUIDWasiKeyFrom)).

Definition guest_new (w : world) : outcome StoreError (KVStore S) * world :=
  let '(r, w) := KVStore_new w default_config in
  (unwrap "called `Result::unwrap()` on an `Err` value" r, w).

Definition guest_insert (w : world) (kv : KVStore S) (key value : bytes)
    : outcome StoreError unit * (KVStore S * world) :=
  let '(r, t) := KVStore_update w kv key value in (map_err guest_error r, t).

Definition guest_get (w : world) (kv : KVStore S) (key : bytes) : outcome StoreError bytes :=
  map_err guest_error (KVStore_get w kv key).

Definition guest_delete (w : world) (kv : KVStore S) (key : bytes)
    : outcome StoreError unit * (KVStore S * world) :=
  let '(r, t) := KVStore_delete w kv key in (map_err guest_error r, t).

End KVStore.

(** ** Refinement: the store implements a map *)

Section Refinement.
  Context `{BO : ByteOrder} `{WA : Wasi} {S : Type} `{ST : !Store S} `{SO : !StoreOk S}.
  Context `{HI : !HashIter Z} `{HK : !HashIter bytes}.

(** A directory entry points to a live record of the key with the value. *)
Definition points_to (w : world) (s : Segments S) (e : KeyDirectoryEntry) (k v : bytes)
    : Prop :=
  ∃ pre ts, holds w s (kde_file_id e) (pre ++ record_bytes ts k v 0)
    ∧ kde_offset e = zlen pre ∧ kde_offset e < 9223372036854775808
    ∧ kde_entry_length e = record_length k v ∧ is_u32 ts ∧ kv_wf k v.

(** The store represents the map [m]. *)
Definition kv_rep (w : world) (kv : KVStore S) (m : gmap bytes bytes) : Prop :=
  segments_inv w (kv_segments kv)
  ∧ ∀ k, match kv_key_directory kv !! k, m !! k with
         | Some e, Some v => points_to w (kv_segments kv) e k v
         | None, None => True
         | _, _ => False
         end.

Lemma points_to_extends w s w' s' e k v :
  extends w s w' s' → points_to w s e k v → points_to w' s' e k v.
Proof. intros [_ H] (pre & ts & Hh & Hrest). exists pre, ts. auto. Qed.

(** The directory may keep its entries while the log grows. *)
Lemma kv_rep_extends w s w' s' d m :
  extends w s w' s' →
  (∀ k, match d !! k, m !! k with
        | Some e, Some v => points_to w s e k v | None, None => True | _, _ => False end) →
  ∀ k : bytes, match (d : KeyDirectory) !! k, (m : gmap bytes bytes) !! k with
        | Some e, Some v => points_to w' s' e k v | None, None => True | _, _ => False end.
Proof.
  intros Hext H k. specialize (H k). destruct (d !! k), (m !! k); try done.
  by eapply points_to_extends.
Qed.

(** The counter stays below the merge interval, a [u64]. *)
Definition no_merge_due (kv : KVStore S) : Prop :=
  0 ≤ kv_counter kv < mc_run_merge_every (kv_merge_config kv)
  ∧ is_u64 (mc_run_merge_every (kv_merge_config kv)).

(** What a mutation of the log needs of the world. *)
Definition can_append (w : world) (kv : KVStore S) : Prop :=
  fresh w (kv_segments kv) ∧ room w (kv_segments kv).

Lemma KVStore_put_ok w kv m k v r kv' w' :
  kv_rep w kv m → can_append w kv → no_merge_due kv → kv_wf k v →
  KVStore_put w kv k v = (r, (kv', w')) →
  kv_rep w' kv' (if is_ok r then <[k := v]> m else m)
  ∧ (disk_ok (S:=S) → r = Ok tt).
Proof.
  intros [Hinv Hdir] [Hfresh Hroom] [Hc Hu] Hwf H. unfold KVStore_put in H.
  rewrite (proj2 (Z.leb_gt _ _)) in H by lia. unfold put_record in H.
  pose proof (append_succeeds w (kv_segments kv) (Entry_new k v)) as Hsucc.
  fold (Segments_append w (kv_segments kv) k v) in Hsucc.
  destruct (Segments_append w (kv_segments kv) k v) as [r1 [s1 w1]] eqn:E.
  destruct (append_after_rollover_ok _ _ _ _ _ _ Hinv Hfresh Hroom
    (Hwf : entry_wf (Entry_new k v)) ltac:(cbn; ints) E) as (Hinv1 & Hext & Hr).
  pose proof (kv_rep_extends _ _ _ _ _ _ Hext Hdir) as Hdir1.
  split; [|intros Hd; specialize (Hsucc Hd Hinv Hfresh Hroom Hwf)].
  - destruct r1 as [resp| |].
    2,3: (simplify_eq; cbn [is_ok]; unfold kv_rep; split; [done|exact Hdir1]).
    unfold add_u64 in H. cbn [kv_counter set_key_directory set_segments] in H.
    rewrite checked_ok in H by ints. simplify_eq. split; [done|]. intros k'.
    cbn [kv_key_directory kv_segments set_counter set_key_directory is_ok].
    unfold KeyDirectory_put. destruct (decide (k' = k)) as [->|Hne].
    + rewrite !lookup_insert_eq. destruct (Hr resp eq_refl) as (pre & ts & H1 & H2 & H3 & H4 & H5).
      by exists pre, ts.
    + rewrite !lookup_insert_ne by done. apply Hdir1.
  - cbn in Hsucc. destruct r1 as [resp| |]; try done. unfold add_u64 in H.
    cbn [kv_counter set_key_directory set_segments] in H.
    rewrite checked_ok in H by ints. by simplify_eq.
Qed.

Lemma KVStore_delete_ok w kv m k r kv' w' :
  kv_rep w kv m → can_append w kv → kv_wf k [] →
  KVStore_delete w kv k = (r, (kv', w')) →
  kv_rep w' kv' (if is_ok r then delete k m else m) ∧ (disk_ok (S:=S) → r = Ok tt).
Proof.
  intros [Hinv Hdir] [Hfresh Hroom] Hwf H. unfold KVStore_delete in H.
  pose proof (append_succeeds w (kv_segments kv) (Entry_new_deleted_entry k)) as Hsucc.
  fold (Segments_append_deleted w (kv_segments kv) k) in Hsucc.
  destruct (Segments_append_deleted w (kv_segments kv) k) as [r1 [s1 w1]] eqn:E.
  destruct (append_after_rollover_ok _ _ _ _ _ _ Hinv Hfresh Hroom
    (Hwf : entry_wf (Entry_new_deleted_entry k)) ltac:(cbn; ints) E) as (Hinv1 & Hext & _).
  pose proof (kv_rep_extends _ _ _ _ _ _ Hext Hdir) as Hdir1.
  split; [|intros Hd; specialize (Hsucc Hd Hinv Hfresh Hroom Hwf);
           cbn in Hsucc; destruct r1; by simplify_eq].
  destruct r1 as [resp| |]; simplify_eq; split; try done. intros k'.
  cbn [kv_key_directory kv_segments set_segments set_key_directory is_ok].
  unfold KeyDirectory_delete. destruct (decide (k' = k)) as [->|Hne].
  - by rewrite !lookup_delete_eq.
  - rewrite !lookup_delete_ne by done. apply Hdir1.
Qed.

(** What [get] answers: the value, or that there is none; a file that cannot be
    read is the only other outcome. *)
Lemma KVStore_get_ok w kv m k :
  kv_rep w kv m →
  match m !! k with
  | None => KVStore_get w kv k = Err EntryNotFound
  | Some v => (∀ b, KVStore_get w kv k = Ok b → b = v)
              ∧ (readable (S:=S) w → KVStore_get w kv k = Ok v)
  end.
Proof.
  intros [Hinv Hdir]. specialize (Hdir k). unfold KVStore_get, KeyDirectory_get.
  destruct (kv_key_directory kv !! k) as [e|], (m !! k) as [v|]; try done.
  destruct Hdir as (pre & ts & Hh & -> & Hoff & -> & Hts & Hkv).
  destruct (Segments_read_ok _ _ _ _ _ _ _ _ Hinv Hh Hts Hkv Hoff) as [H1 H2].
  split.
  - intros b Hb. apply outcome_bind_ok in Hb as (x & Hx & [= <-]). by rewrite (H1 x Hx).
  - intros Hread. by rewrite (H2 Hread).
Qed.

(** On a disk that can be read, [get] answers what the map holds. *)
Lemma guest_get_rep w kv m k :
  kv_rep w kv m → readable (S:=S) w →
  guest_get w kv k = match m !! k with Some v => Ok v | None => Err EntryNotFound end.
Proof.
  intros Hr Hread. pose proof (KVStore_get_ok _ _ _ k Hr) as Hg. unfold guest_get.
  destruct (m !! k); [destruct Hg as [_ Hg]; by rewrite (Hg Hread)|by rewrite Hg].
Qed.

(** ** Runs *)

Inductive kv_op := OpPut (k v : bytes) | OpDelete (k : bytes) | OpGet (k : bytes).

Inductive kv_result := RUnit (r : outcome StoreError unit) | RGet (r : outcome StoreError bytes).

(** One call of the component; the side conditions are what the world must grant. *)
Inductive kv_step : KVStore S * world → kv_op → kv_result → KVStore S * world → Prop :=
| step_put kv w k v r t :
    can_append w kv → no_merge_due kv → kv_wf k v → guest_insert w kv k v = (r, t) →
    kv_step (kv, w) (OpPut k v) (RUnit r) t
| step_delete kv w k r t :
    can_append w kv → kv_wf k [] → guest_delete w kv k = (r, t) →
    kv_step (kv, w) (OpDelete k) (RUnit r) t
| step_get kv w k :
    readable (S:=S) w → kv_step (kv, w) (OpGet k) (RGet (guest_get w kv k)) (kv, w).

(** The map a caller has in mind: an operation that fails does nothing. *)
Inductive map_step : gmap bytes bytes → kv_op → kv_result → gmap bytes bytes → Prop :=
| mstep_put m k v r : map_step m (OpPut k v) (RUnit r) (if is_ok r then <[k := v]> m else m)
| mstep_delete m k r : map_step m (OpDelete k) (RUnit r) (if is_ok r then delete k m else m)
| mstep_get m k :
    map_step m (OpGet k)
      (RGet (match m !! k with Some v => Ok v | None => Err EntryNotFound end)) m.

Inductive kv_run : KVStore S * world → list (kv_op * kv_result) → KVStore S * world → Prop :=
| run_nil s : kv_run s [] s
| run_cons s o r s1 tr s2 : kv_step s o r s1 → kv_run s1 tr s2 → kv_run s ((o, r) :: tr) s2.

Inductive map_run : gmap bytes bytes → list (kv_op * kv_result) → gmap bytes bytes → Prop :=
| mrun_nil m : map_run m [] m
| mrun_cons m o r m1 tr m2 : map_step m o r m1 → map_run m1 tr m2 → map_run m ((o, r) :: tr) m2.

Lemma is_ok_map_err {E F A} (f : E → F) (r : outcome E A) : is_ok (map_err f r) = is_ok r.
Proof. by destruct r. Qed.

Lemma kv_step_simulation kv w o r kv' w' m :
  kv_rep w kv m → kv_step (kv, w) o r (kv', w') →
  ∃ m', map_step m o r m' ∧ kv_rep w' kv' m'.
Proof.
  intros Hrep Hstep. inversion Hstep as [? ? k v r' [] Hc Hn Hwf H|? ? k r' [] Hc Hwf H|? ? k Hr];
    subst.
  - unfold guest_insert, KVStore_update in H.
    destruct (KVStore_put w kv k v) as [r1 [kv1 w1]] eqn:E. simplify_eq.
    destruct (KVStore_put_ok _ _ _ _ _ _ _ _ Hrep Hc Hn Hwf E) as [Hrep' _].
    eexists. split; [constructor|]. by rewrite is_ok_map_err.
  - unfold guest_delete in H.
    destruct (KVStore_delete w kv k) as [r1 [kv1 w1]] eqn:E. simplify_eq.
    destruct (KVStore_delete_ok _ _ _ _ _ _ _ Hrep Hc Hwf E) as [Hrep' _].
    eexists. split; [constructor|]. by rewrite is_ok_map_err.
  - exists m. split; [|done]. rewrite (guest_get_rep _ _ _ _ Hrep Hr). constructor.
Qed.

(** ** Properties *)

(** C1: every sequence of inserts, deletes and gets between two merges is a
    sequence of the same operations, with the same answers, on a plain map: a get
    returns the value of the last successful insert of the key, or [EntryNotFound]
    if there is none or the key was deleted; an operation that fails changes
    nothing.  This holds across roll-overs of the active segment. *)
Theorem kv_refines_map t tr t' m :
  kv_run t tr t' → kv_rep t.2 t.1 m → ∃ m', map_run m tr m' ∧ kv_rep t'.2 t'.1 m'.
Proof.
  intros Hrun. revert m. induction Hrun as [t|[kv w] o r [kv1 w1] tr t2 Hstep _ IH]; intros m Hrep.
  - exists m. split; [constructor|done].
  - destruct (kv_step_simulation _ _ _ _ _ _ _ Hrep Hstep) as (m1 & Hm1 & Hrep1).
    destruct (IH m1 Hrep1) as (m2 & Hm2 & Hrep2).
    exists m2. split; [by econstructor|done].
Qed.

(** C10: on a healthy disk an insert succeeds, after it a get of the key returns
    the value and a get of any other key what it returned before. *)
Theorem kv_insert_get w kv m k v :
  kv_rep w kv m → can_append w kv → no_merge_due kv → kv_wf k v →
  disk_ok (S:=S) → (∀ w', readable (S:=S) w') →
  ∃ kv' w', guest_insert w kv k v = (Ok tt, (kv', w'))
    ∧ guest_get w' kv' k = Ok v
    ∧ (∀ k', k' ≠ k → guest_get w' kv' k' = guest_get w kv k')
    ∧ kv_rep w' kv' (<[k := v]> m).
Proof.
  intros Hrep Hc Hn Hwf Hd Hread. unfold guest_insert, KVStore_update.
  destruct (KVStore_put w kv k v) as [r [kv' w']] eqn:E.
  destruct (KVStore_put_ok _ _ _ _ _ _ _ _ Hrep Hc Hn Hwf E) as [Hrep' Hok].
  rewrite (Hok Hd) in *. cbn [is_ok] in Hrep'. exists kv', w'. split; [done|].
  split_and!; [by rewrite (guest_get_rep _ _ _ _ Hrep'), lookup_insert_eq| |done].
  intros k' Hne. by rewrite (guest_get_rep _ _ _ _ Hrep'), (guest_get_rep _ _ _ _ Hrep),
    lookup_insert_ne.
Qed.

(** A store opened in an empty directory represents the empty map. *)
Theorem kv_new_empty w config kv w' :
  (∀ n, file w (cfg_directory config, n) = None) → is_u64 (next_file_id w) →
  KVStore_new w config = (Ok kv, w') → kv_rep w' kv ∅ ∧ kv_counter kv = 0.
Proof.
  intros Hempty Hid H. unfold KVStore_new, try_bind in H.
  destruct (Segments_new _ _ _) as [[s| |] w1] eqn:E; simplify_eq.
  destruct (Segments_new_empty _ _ _ _ _ Hempty Hid E) as [Hinv Hina].
  destruct (cfg_merge_config config) as [mc|]; simplify_eq.
  unfold KVStore_reload in H. cbn [kv_segments] in H. rewrite Hina in H.
  pose proof (hash_iter_perm _ (∅ : gmap Z (Segment S))) as Hp.
  rewrite map_to_list_empty in Hp. apply Permutation_nil_r in Hp.
  rewrite Hp in H. cbn in H. simplify_eq. split; [|done]. split; [done|].
  intros k. cbn. unfold KeyDirectory_new. by rewrite !lookup_empty.
Qed.

End Refinement.

(** ** Merging keeps the latest record of a key *)

(** The record a merge keeps for a key: a later one replaces the current one only
    if its timestamp is greater. *)
Definition newer (k : bytes) (cur : option MappedStoredEntry) (e : MappedStoredEntry)
    : option MappedStoredEntry :=
  if decide (mse_key e = k) then
    match cur with
    | Some c => if mse_timestamp c <? mse_timestamp e then Some e else Some c
    | None => Some e
    end
  else cur.

(** Entries under their own key. *)
Definition keyed (m : gmap bytes MappedStoredEntry) : Prop := map_Forall (λ k e, mse_key e = k) m.

Lemma merge_entry_live m e :
  keyed (ms_value_by_key m) → ms_deleted_keys m = ∅ → mse_deleted e = false →
  keyed (ms_value_by_key (merge_entry m e)) ∧ ms_deleted_keys (merge_entry m e) = ∅
  ∧ ∀ k, ms_value_by_key (merge_entry m e) !! k = newer k (ms_value_by_key m !! k) e.
Proof.
  intros Hk Hd He. unfold merge_entry, newer. rewrite Hd, lookup_empty.
  destruct (ms_value_by_key m !! mse_key e) as [c|] eqn:Ec.
  - pose proof (Hk _ _ Ec) as Hc. cbn in Hc. unfold maybe_update. rewrite He, Hc.
    destruct (mse_timestamp c <? mse_timestamp e) eqn:Et; cbn; split_and!; try done.
    + by apply map_Forall_insert_2.
    + intros k. case_decide as E; [subst; by rewrite lookup_insert_eq, Ec, Et|].
      by rewrite lookup_insert_ne.
    + intros k. case_decide as E; [subst; by rewrite Ec, Et|done].
  - cbn. split_and!; [by apply map_Forall_insert_2|done|].
    intros k. case_decide as E; [subst; by rewrite lookup_insert_eq, Ec|].
    by rewrite lookup_insert_ne.
Qed.

(** The latest record of a key in a list. *)
Definition latest (k : bytes) (l : list MappedStoredEntry) (o : option MappedStoredEntry) : Prop :=
  match o with
  | None => ∀ e, e ∈ l → mse_key e ≠ k
  | Some e => e ∈ l ∧ mse_key e = k
      ∧ ∀ e', e' ∈ l → mse_key e' = k → mse_timestamp e' ≤ mse_timestamp e
  end.

Lemma latest_newer k l cur e : latest k l cur → latest k (l ++ [e]) (newer k cur e).
Proof.
  unfold newer, latest. intros H. case_decide as E; destruct cur as [c|].
  - destruct H as (H1 & H2 & H3).
    destruct (Z.ltb_spec (mse_timestamp c) (mse_timestamp e));
      (split_and!; [set_solver|done|]; intros e' [He'| ->%list_elem_of_singleton]%elem_of_app Hk; [|lia]);
      specialize (H3 _ He' Hk); lia.
  - split_and!; [set_solver|done|].
    intros e' [He'| ->%list_elem_of_singleton]%elem_of_app Hk; [by destruct (H _ He')|lia].
  - destruct H as (H1 & H2 & H3). split_and!; [set_solver|done|].
    intros e' [He'| ->%list_elem_of_singleton]%elem_of_app Hk; [by apply H3|done].
  - intros e' [He'| ->%list_elem_of_singleton]%elem_of_app; [by apply H|done].
Qed.

(** Records taken in the order of time. *)
Lemma take_all_latest first :
  Forall (λ e, mse_deleted e = false) first →
  StronglySorted (λ a b, mse_timestamp a ≤ mse_timestamp b) first →
  let m := MergedState_take_all MergedState_new first in
  keyed (ms_value_by_key m) ∧ ms_deleted_keys m = ∅ ∧ ∀ k, latest k first (ms_value_by_key m !! k).
Proof.
  unfold MergedState_take_all. induction first as [|e l IH] using rev_ind; intros Hes Hsort.
  { split_and!; [apply map_Forall_empty|done|]. intros k. cbn. rewrite lookup_empty. set_solver. }
  apply Forall_app in Hes as [Hl [He _]%Forall_cons]. apply StronglySorted_app in Hsort as (Hcross & Hsl & _).
  destruct (IH Hl Hsl) as (Hk & Hd & Hv). rewrite foldl_app. cbn [foldl].
  set (m := foldl MergedState_take MergedState_new l) in *. unfold MergedState_take. rewrite He. cbn.
  split_and!; [by apply map_Forall_insert_2|done|]. intros k. specialize (Hv k).
  destruct (decide (mse_key e = k)) as [<-|Hne].
  - rewrite lookup_insert_eq. split_and!; [set_solver|done|].
    intros e' [He'| ->%list_elem_of_singleton]%elem_of_app _; [|lia]. apply Hcross; [done|left].
  - rewrite lookup_insert_ne by done. destruct (ms_value_by_key m !! k) as [c|]; cbn in Hv |- *.
    + destruct Hv as (H1 & H2 & H3). split_and!; [set_solver|done|].
      intros e' [He'| ->%list_elem_of_singleton]%elem_of_app Hke; [by apply H3|done].
    + intros e' [He'| ->%list_elem_of_singleton]%elem_of_app; [by apply Hv|done].
Qed.

(** Records merged into what is kept so far. *)
Lemma merge_with_latest l l' m :
  Forall (λ e, mse_deleted e = false) l' → keyed (ms_value_by_key m) → ms_deleted_keys m = ∅ →
  (∀ k, latest k l (ms_value_by_key m !! k)) →
  let m' := MergedState_merge_with m l' in
  keyed (ms_value_by_key m') ∧ ms_deleted_keys m' = ∅ ∧ ∀ k, latest k (l ++ l') (ms_value_by_key m' !! k).
Proof.
  unfold MergedState_merge_with. revert l m.
  induction l' as [|e l' IH]; intros l m Hl' Hk Hd Hv; [by rewrite app_nil_r|].
  apply Forall_cons in Hl' as [He Hl']. destruct (merge_entry_live m e Hk Hd He) as (Hk' & Hd' & Hv').
  destruct (IH (l ++ [e]) (merge_entry m e) Hl' Hk' Hd') as (H1 & H2 & H3).
  - intros k. rewrite Hv'. by apply latest_newer.
  - split_and!; [done|done|]. intros k. specialize (H3 k). by rewrite <- app_assoc in H3.
Qed.

(** C31: a merge of segments without deletions keeps, for every key that occurs, a record
    with the greatest timestamp of all its records, and nothing for the other keys.  The
    records of the first segment are in the order of time, as a log is; those of the
    others may be in any order. *)
Theorem merge_keeps_latest first others k :
  Forall (λ e, mse_deleted e = false) (first ++ concat others) →
  StronglySorted (λ a b, mse_timestamp a ≤ mse_timestamp b) first →
  let m := foldl MergedState_merge_with (MergedState_take_all MergedState_new first) others in
  match ms_value_by_key m !! k with
  | Some e => e ∈ first ++ concat others ∧ mse_key e = k
      ∧ ∀ e', e' ∈ first ++ concat others → mse_key e' = k → mse_timestamp e' ≤ mse_timestamp e
  | None => ∀ e, e ∈ first ++ concat others → mse_key e ≠ k
  end.
Proof.
  intros [Hf Ho]%Forall_app Hs. destruct (take_all_latest first Hf Hs) as (Hk & Hd & Hv).
  cbv zeta. revert Hk Hd Hv. generalize (MergedState_take_all MergedState_new first). clear Hf Hs.
  revert first. induction others as [|l others IH]; intros first m Hk Hd Hv; cbn [concat foldl] in *.
  - rewrite app_nil_r. apply Hv.
  - apply Forall_app in Ho as [Hl Ho].
    destruct (merge_with_latest first l m Hl Hk Hd Hv) as (Hk' & Hd' & Hv').
    rewrite app_assoc. by apply (IH Ho).
Qed.

(** ** The store in memory *)

#[local] Existing Instance mem_wasi.
#[local] Existing Instance std_byteorder.
#[local] Instance example_iter_Z : HashIter Z := std_iter Z.
#[local] Instance example_iter_bytes : HashIter bytes := std_iter bytes.

(** Segments of [max] bytes, a merge due after [n] writes. *)
Definition small_config (max n : Z) : Config :=
  MkConfig (str "db") max 16
    (Some (MergeConfig_new_with_all_segments_to_read_every_fixed_duration n UUIDWasiKeyFrom)).

Definition open_store (w : mem_world) (max n : Z)
    : outcome StoreError (KVStore WasiStore) * mem_world :=
  KVStore_new w (small_config max n).

(** A program on the store: inserts ([Some]) and deletes ([None]). *)
Fixpoint run_ops (ops : list (bytes * option bytes)) (kv : KVStore WasiStore) (w : mem_world)
    : outcome StoreError unit * (KVStore WasiStore * mem_world) :=
  match ops with
  | [] => (Ok tt, (kv, w))
  | (k, Some v) :: ops => try (_, (kv, w)) := guest_insert w kv k v in run_ops ops kv w
  | (k, None) :: ops => try (_, (kv, w)) := guest_delete w kv k in run_ops ops kv w
  end.

Definition run_fresh (max n : Z) (ops : list (bytes * option bytes))
    : outcome StoreError unit * (KVStore WasiStore * mem_world) :=
  match open_store (MkMem ∅ 1) max n with
  | (Ok kv, w) => run_ops ops kv w
  | (_, w) => (Panic "open", (MkKVStore example_segments ∅ (MergeConfig_new 0 UUIDWasiKeyFrom) 0, w))
  end.

Definition get_after (t : KVStore WasiStore * mem_world) (k : bytes)
    : outcome StoreError bytes := guest_get t.2 t.1 k.

(** The same after the component is started again on the same files. *)
Definition get_after_restart (t : KVStore WasiStore * mem_world) (max n : Z) (k : bytes)
    : outcome StoreError bytes :=
  match open_store t.2 max n with
  | (Ok kv, w) => guest_get w kv k
  | (Err e, _) => Err e
  | (Panic m, _) => Panic m
  end.

(** A merge brings an old value back.  The key is written, rolled over,
    written again in the active segment; the merge of the inactive segments then
    points the key directory to the old record, and [get] returns it. *)
Theorem merge_loses_update :
  let ops := [(str "k", Some [1]); (str "j", Some [7]); (str "k", Some [2]);
              (str "j", Some [8])] in
  (run_fresh 1 3 ops).1 = Ok tt ∧ get_after (run_fresh 1 3 ops).2 (str "k") = Ok [1]
  ∧ get_after (run_fresh 1 1000 ops).2 (str "k") = Ok [2].
Proof. cbv zeta. split; [|split]; vm_compute; reflexivity. Qed.

(** A deleted key is back after a restart: the reload enters tombstones into
    the key directory, so the key reads as an empty value; and when its records are
    in two segments the order of a hash map decides which one wins, so here the old
    value is back. *)
Theorem deleted_key_after_restart :
  let ops := [(str "k", Some [1]); (str "k", None)] in
  get_after (run_fresh 1000 1000 ops).2 (str "k") = Err EntryNotFound
  ∧ get_after_restart (run_fresh 1000 1000 ops).2 1000 1000 (str "k") = Ok []
  ∧ get_after_restart (run_fresh 1 1000 ops).2 1 1000 (str "k") = Ok [1].
Proof. cbv zeta. split; [|split]; vm_compute; reflexivity. Qed.

(** A merge brings a deleted key back: a tombstone of a key the merge has not
    seen is kept as if it were a value and written back as a live record. *)
Theorem merge_revives_deleted :
  let ops := [(str "k", None); (str "j", Some [7]); (str "i", Some [9]); (str "i", Some [8])] in
  (run_fresh 1 3 (ops ++ [(str "l", Some [1])])).1 = Ok tt
  ∧ get_after (run_fresh 1 1000 ops).2 (str "k") = Err EntryNotFound
  ∧ get_after (run_fresh 1 3 (ops ++ [(str "l", Some [1])])).2 (str "k") = Ok [].
Proof. cbv zeta. split; [|split]; vm_compute; reflexivity. Qed.

(** ** Witnesses *)

Definition example_store : KVStore WasiStore :=
  MkKVStore example_segments ∅ (MergeConfig_new 0 UUIDWasiKeyFrom) 0.

Lemma example_rep : kv_rep example_world example_store ∅.
Proof.
  split; [apply example_segments_inv|]. intros k. unfold example_store.
  cbn [kv_key_directory]. by rewrite !lookup_empty.
Qed.

Lemma example_can_append : can_append example_world example_store.
Proof.
  split; [split; by_eval|]. intros c H.
  assert (Some c = Some (replicate 20 0)) as [= ->] by (rewrite <- H; reflexivity). by_eval.
Qed.

Lemma example_no_merge : no_merge_due example_store.
Proof. split; [cbn; lia|by_eval]. Qed.

Lemma mem_disk_ok : disk_ok (S:=WasiStore).
Proof.
  split.
  - intros w n d. by eexists _, _.
  - intros w st b c Hi Hc Hs Hmax Hb. cbn in Hc |- *. unfold WasiStore_append. cbn.
    unfold mem_write. rewrite Hc. unfold add_i64.
    rewrite checked_ok; [by eexists _, _, _|].
    unfold as_i64. rewrite as_u64_id by ints. cbn in Hs.
    rewrite (proj2 (Z.ltb_lt _ _)) by ints. ints.
Qed.

Lemma mem_readable w : readable (S:=WasiStore) w.
Proof.
  intros st off n Hi [c Hc]. cbn in Hc |- *. unfold WasiStore_read. cbn.
  rewrite Hc. by eexists.
Qed.

Lemma kv_insert_get_witness :
  ∃ kv' w', guest_insert example_world example_store (str "key") [1; 2] = (Ok tt, (kv', w'))
    ∧ guest_get w' kv' (str "key") = Ok [1; 2].
Proof.
  destruct (kv_insert_get (WA:=mem_wasi) example_world example_store ∅ (str "key") [1; 2] example_rep
    example_can_append example_no_merge ltac:(by_eval) mem_disk_ok mem_readable)
    as (kv' & w' & H1 & H2 & _). by exists kv', w'.
Defined.

Lemma kv_refines_map_witness :
  ∃ t' m', kv_run (example_store, example_world)
      [(OpPut (str "key") [1; 2], RUnit (Ok tt)); (OpGet (str "key"), RGet (Ok [1; 2]))] t'
    ∧ map_run ∅ [(OpPut (str "key") [1; 2], RUnit (Ok tt));
                 (OpGet (str "key"), RGet (Ok [1; 2]))] m' ∧ kv_rep t'.2 t'.1 m'.
Proof.
  assert ((guest_insert example_world example_store (str "key") [1; 2]).1 = Ok tt) as H1
    by (vm_compute; reflexivity).
  assert (get_after (guest_insert example_world example_store (str "key") [1; 2]).2 (str "key")
    = Ok [1; 2]) as H2 by (vm_compute; reflexivity).
  destruct (guest_insert example_world example_store (str "key") [1; 2]) as [r [kv w]] eqn:E.
  cbn [fst snd] in H1, H2. unfold get_after in H2. cbn [fst snd] in H2. subst r.
  assert (kv_run (example_store, example_world)
      [(OpPut (str "key") [1; 2], RUnit (Ok tt)); (OpGet (str "key"), RGet (Ok [1; 2]))]
      (kv, w)) as Hrun.
  { eapply run_cons.
    - apply step_put; [apply example_can_append|apply example_no_merge|by_eval|exact E].
    - eapply run_cons; [rewrite <- H2; apply step_get, mem_readable|apply run_nil]. }
  destruct (kv_refines_map (WA:=mem_wasi) (example_store, example_world) _ _ ∅ Hrun example_rep)
    as (m' & Hm & Hrep). by exists (kv, w), m'.
Defined.

(** A world without files. *)
Definition empty_world : @world mem_wasi := MkMem ∅ 1.

Lemma kv_new_empty_witness :
  ∃ kv w', KVStore_new empty_world (small_config 1 3) = (Ok kv, w')
    ∧ kv_rep w' kv ∅ ∧ kv_counter kv = 0.
Proof.
  assert (is_ok (KVStore_new (S:=WasiStore) empty_world (small_config 1 3)).1 = true) as H
    by (vm_compute; reflexivity).
  destruct (KVStore_new (S:=WasiStore) empty_world (small_config 1 3))
    as [[kv|e|m] w'] eqn:E; [|discriminate H..].
  exists kv, w'. split; [reflexivity|].
  apply (kv_new_empty (WA:=mem_wasi) empty_world (small_config 1 3) kv w'); [|by_eval|exact E].
  intros n. change ((∅ : gmap (bytes * bytes) bytes) !! (str "db", n) = None).
  apply lookup_empty.
Defined.

Lemma merge_keeps_latest_witness :
  let a := MkMappedStoredEntry (str "k") [1] false 10 0 15 in
  let b := MkMappedStoredEntry (str "k") [2] false 12 0 15 in
  let c := MkMappedStoredEntry (str "k") [3] false 11 0 15 in
  ∃ e, ms_value_by_key (foldl MergedState_merge_with (MergedState_take_all MergedState_new [a; c]) [[b]; [a]])
      !! str "k" = Some e
    ∧ e ∈ [a; c; b; a] ∧ 12 ≤ mse_timestamp e.
Proof.
  cbv zeta. pose proof (merge_keeps_latest
    [MkMappedStoredEntry (str "k") [1] false 10 0 15; MkMappedStoredEntry (str "k") [3] false 11 0 15]
    [[MkMappedStoredEntry (str "k") [2] false 12 0 15]; [MkMappedStoredEntry (str "k") [1] false 10 0 15]]
    (str "k")) as H.
  destruct H as (H1 & _ & H3); [repeat constructor|repeat constructor; cbn; lia|].
  exists (MkMappedStoredEntry (str "k") [2] false 12 0 15). split; [vm_compute; reflexivity|].
  split; [exact H1|]. apply (H3 (MkMappedStoredEntry (str "k") [2] false 12 0 15)); [exact H1|reflexivity].
Defined.
