(* ===== verification/KvRestart.v ===== *)
(** * Opening the store again ([crates/kv/src/{kvstore,segments,key_directory}.rs])

    What [KVStore::new] makes of the files an earlier session left: the segment
    files as logs of records, what appends add to them, and which record of a key the
    reload puts into the key directory.  The order of the reload is that of a
    [HashMap], so only keys that live in one segment are certain to come back. *)

From S2P Require Import Prelude Errors Io KvEntry KvStore KvSegments KvBitcask.

(** ** Logs *)

(** The contents of a segment file. *)
Definition log_file (log : list log_record) : bytes := concat (map log_bytes log).

(** The last record of a key in a log. *)
Definition last_of (k : bytes) (log : list log_record) : option log_record :=
  last (filter (λ r, lr_key r = k) log).

(** Where it is. *)
Fixpoint last_at (id off : Z) (k : bytes) (log : list log_record) (cur : option KeyDirectoryEntry)
    : option KeyDirectoryEntry :=
  match log with
  | [] => cur
  | r :: log =>
    last_at id (off + log_length r) k log
      (if decide (lr_key r = k) then Some (MkKeyDirectoryEntry id off (log_length r)) else cur)
  end.

Lemma log_file_app l k : log_file (l ++ k) = log_file l ++ log_file k.
Proof. unfold log_file. by rewrite map_app, concat_app. Qed.

Lemma log_file_one r : log_file [r] = log_bytes r.
Proof. unfold log_file. cbn [map concat]. apply app_nil_r. Qed.

Lemma last_of_snoc k log r :
  last_of k (log ++ [r]) = if decide (lr_key r = k) then Some r else last_of k log.
Proof.
  unfold last_of. rewrite filter_app, filter_cons, filter_nil.
  case_decide; [apply last_snoc|by rewrite app_nil_r].
Qed.

Lemma last_of_key k log r : last_of k log = Some r → lr_key r = k ∧ r ∈ log.
Proof. intros H%last_Some_elem_of. by apply list_elem_of_filter in H. Qed.

(** The reload enters the last record of each key of a segment. *)
Lemma reload_last_at id log : ∀ off d k,
  KeyDirectory_reload d id (mapped_log off log) !! k = last_at id off k log (d !! k).
Proof.
  unfold KeyDirectory_reload.
  induction log as [|r log IH]; intros off d k; [done|]. cbn [mapped_log foldl last_at].
  rewrite IH. cbn [mse_key mse_key_offset mse_entry_length]. f_equal.
  case_decide as E; [by rewrite E, lookup_insert_eq|by rewrite lookup_insert_ne].
Qed.

Lemma last_at_snoc id k r log : ∀ off cur,
  last_at id off k (log ++ [r]) cur
  = if decide (lr_key r = k)
    then Some (MkKeyDirectoryEntry id (off + zlen (log_file log)) (log_length r))
    else last_at id off k log cur.
Proof.
  induction log as [|x log IH]; intros off cur; cbn [app last_at].
  - rewrite Z.add_0_r. done.
  - rewrite IH. unfold log_file. cbn [map concat]. rewrite zlen_app, zlen_log_bytes.
    by rewrite Z.add_assoc.
Qed.

(** The position found is that of the last record. *)
Lemma last_at_last_of id k log cur :
  match last_of k log with
  | None => last_at id 0 k log cur = cur
  | Some r => ∃ pre post, log_file log = pre ++ log_bytes r ++ post
      ∧ last_at id 0 k log cur = Some (MkKeyDirectoryEntry id (zlen pre) (log_length r))
  end.
Proof.
  induction log as [|r log IH] using rev_ind; [done|].
  rewrite last_of_snoc, last_at_snoc, log_file_app, log_file_one. case_decide as E.
  - exists (log_file log), []. by rewrite app_nil_r.
  - destruct (last_of k log) as [x|]; [|done]. destruct IH as (pre & post & -> & ->).
    exists pre, (post ++ log_bytes r). split; [|done]. by rewrite <- !app_assoc.
Qed.

(** ** What is on the disk *)

Section Journal.
  Context `{BO : ByteOrder} `{WA : Wasi} {S : Type} `{ST : !Store S} `{SO : !StoreOk S}.
  Context `{HI : !HashIter Z} `{HK : !HashIter bytes}.

(** The files of a directory are segment files with these logs. *)
Record logged (w : world) (dir : bytes) (logs : gmap Z (list log_record)) : Prop := {
  lg_only n : is_Some (file w (dir, n)) → ∃ id, is_Some (logs !! id) ∧ n = segment_name id;
  lg_file id log : logs !! id = Some log →
    is_u64 id ∧ Forall log_wf log ∧ file w (dir, segment_name id) = Some (log_file log);
}.

(** The segments are those of the logs, and the active one ends where its log ends. *)
Record journal (w : world) (s : Segments S) (logs : gmap Z (list log_record)) : Prop := {
  jr_inv : segments_inv w s;
  jr_logged : logged w (sgs_directory s) logs;
  jr_active : ∃ log, logs !! seg_file_id (sgs_active_segment s) = Some log
                ∧ Segment_size_in_bytes (sgs_active_segment s) = zlen (log_file log);
  jr_inactive id : is_Some (logs !! id) →
    id = seg_file_id (sgs_active_segment s) ∨ is_Some (sgs_inactive_segments s !! id);
}.

Lemma logged_same_files w w' dir logs :
  (∀ p, file w' p = file w p) → logged w dir logs → logged w' dir logs.
Proof. intros Hf [H1 H2]. split; intros *; rewrite Hf; [apply H1|apply H2]. Qed.

(** A file is rewritten. *)
Lemma logged_write w w' dir logs id log :
  logged w dir logs → is_u64 id → Forall log_wf log →
  file w' (dir, segment_name id) = Some (log_file log) →
  (∀ p, p ≠ (dir, segment_name id) → file w' p = file w p) →
  logged w' dir (<[id := log]> logs).
Proof.
  intros [H1 H2] Hid Hlog Hf Ho. split.
  - intros n Hn. destruct (decide (n = segment_name id)) as [->|Hne].
    + exists id. by rewrite lookup_insert_eq.
    + rewrite Ho in Hn by congruence. destruct (H1 n Hn) as (j & Hj & ->).
      exists j. split; [|done]. rewrite lookup_insert_ne; [done|congruence].
  - intros j l Hj. apply lookup_insert_Some in Hj as [[<- <-]|[Hne Hj]]; [done|].
    destruct (H2 j l Hj) as (? & ? & Hfj). split_and!; [done..|].
    rewrite Ho; [done|]. intros [= E]. by apply segment_name_inj in E.
Qed.

(** The record an append writes. *)
Definition record_of (now : Z) (e : Entry) : log_record :=
  LogRecord (stamp now e) (entry_key e) (vr_value (entry_value e)) (vr_tombstone (entry_value e)).

Lemma record_of_wf now e : entry_wf e → is_u32 (entry_timestamp e) → log_wf (record_of now e).
Proof.
  intros Hwf Hts. split; [|done]. cbn. unfold stamp. destruct (_ =? _); [apply as_u32_range|done].
Qed.

(** An append adds its record to the log of the active segment. *)
Lemma append_journal w s logs e resp s' w' :
  journal w s logs → room w s → entry_wf e → is_u32 (entry_timestamp e) →
  append_to_active w s e = (Ok resp, (s', w')) →
  seg_file_id (sgs_active_segment s') = seg_file_id (sgs_active_segment s)
  ∧ ∃ log, logs !! seg_file_id (sgs_active_segment s) = Some log
    ∧ journal w' s' (<[seg_file_id (sgs_active_segment s) := log ++ [record_of (wall_now w) e]]> logs).
Proof.
  intros [Hinv Hlg (log & Hlog & Hsz) Hin] Hroom Hwf Hts H.
  destruct (append_to_active_ok _ _ _ _ _ _ Hinv Hroom Hwf Hts H) as (Hinv' & _ & _).
  unfold append_to_active, Segment_append in H. rewrite Entry_encode_ok in H by done.
  pose proof Hinv as ((Hid & Hsi & Hsp) & _ & _).
  set (a := sgs_active_segment s) in *. set (b := record_bytes _ _ _ _) in H.
  destruct (lg_file _ _ _ Hlg _ _ Hlog) as (_ & Hlw & Hf).
  change (sgs_directory s, segment_name (seg_file_id a)) with (seg_path s (seg_file_id a)) in Hf.
  specialize (Hroom _ Hf). rewrite <- Hsp in Hf.
  destruct (store_append w (seg_store a) b) as [[off| |] [st w1]] eqn:Eap; simplify_eq.
  destruct (store_append_frame _ _ _ _ _ _ Eap Hsi) as (_ & _ & Hother).
  pose proof (zlen_nonneg (log_file log)). change (store_size_in_bytes (seg_store a) = zlen (log_file log)) in Hsz.
  destruct (store_append_ok _ _ _ _ _ _ _ Eap Hsi Hf) as (_ & Hsz' & Hf'); [lia|lia| |].
  { unfold b. rewrite record_bytes_length. destruct Hwf as (_ & _ & _ & ?).
    unfold record_length in *. pose proof (zlen_nonneg (entry_key e)).
    pose proof (zlen_nonneg (vr_value (entry_value e))). ints. }
  assert (log_file (log ++ [record_of (wall_now w) e]) = log_file log ++ b) as Hlf
    by (by rewrite log_file_app, log_file_one).
  split; [done|]. exists log. split; [done|]. split; [done|..].
  - eapply (logged_write w); [done|done| | |].
    + apply Forall_app. split; [done|]. constructor; [by apply record_of_wf|done].
    + change (file w' (seg_path s (seg_file_id a)) = Some (log_file (log ++ [record_of (wall_now w) e]))).
      rewrite <- Hsp, Hf', Hlf, Hsz. f_equal.
      unfold overwrite. rewrite take_ge, drop_ge by (unfold zlen in *; lia).
      by rewrite app_nil_r.
    + intros p Hp. apply Hother. rewrite Hsp. exact Hp.
  - exists (log ++ [record_of (wall_now w) e]). cbn [set_active sgs_active_segment with_store seg_file_id].
    rewrite lookup_insert_eq. split; [done|]. unfold Segment_size_in_bytes. cbn.
    rewrite Hlf, zlen_app. lia.
  - intros id Hi. cbn [set_active sgs_active_segment sgs_inactive_segments with_store seg_file_id].
    destruct (decide (id = seg_file_id a)) as [|Hne]; [by left|].
    rewrite lookup_insert_ne in Hi by done. by apply Hin.
Qed.

(** Rolling over adds at most an empty file, and none while the active segment is
    below the threshold. *)
Lemma rollover_journal w s logs s' w' :
  journal w s logs → fresh w s → room w s →
  maybe_rollover_active_segment w s = (Ok tt, (s', w')) →
  let a := seg_file_id (sgs_active_segment s') in
  journal w' s' (<[a := default [] (logs !! a)]> logs) ∧ room w' s'
  ∧ sgs_max_segment_size_bytes s' = sgs_max_segment_size_bytes s
  ∧ (Segment_size_in_bytes (sgs_active_segment s) < as_i64 (sgs_max_segment_size_bytes s) →
     a = seg_file_id (sgs_active_segment s) ∧ s' = s).
Proof.
  intros Hj Hfresh Hroom H a. pose proof Hj as [Hinv Hlg (log & Hlog & Hsz) Hin].
  destruct (rollover_ok _ _ _ _ _ Hinv Hfresh Hroom H) as (Hinv' & _ & Hroom').
  unfold maybe_rollover_active_segment, maybe_rollover_segment in H.
  destruct (Z.leb_spec (as_i64 (sgs_max_segment_size_bytes s))
    (Segment_size_in_bytes (sgs_active_segment s))) as [Hle|Hlt].
  2:{ simplify_eq. subst a. rewrite Hlog. cbn [default]. rewrite insert_id by done. done. }
  unfold try_bind in H.
  destruct (Segment_new _ _ _) as [[seg| |] w1] eqn:E; simplify_eq.
  destruct (Segment_new_ok _ _ _ _ Hinv Hfresh E) as (Hid & _ & Hsz' & Hnew & Hold).
  subst a. cbn [set_active sgs_active_segment] in *. rewrite Hid.
  assert (logs !! next_file_id w = None) as Hnone.
  { destruct (logs !! next_file_id w) as [l|] eqn:El; [|done].
    destruct (lg_file _ _ _ Hlg _ _ El) as (_ & _ & Hf). destruct Hfresh as [_ Hf'].
    unfold seg_path in Hf'. congruence. }
  rewrite Hnone. cbn [default]. split; [|split_and!; [done|done|lia]]. split; [done|..].
  - eapply (logged_write w); [done|apply Hfresh|done|exact Hnew|exact Hold].
  - exists []. cbn. rewrite Hid, lookup_insert_eq. by rewrite Hsz'.
  - intros id Hi. cbn. rewrite Hid. destruct (decide (id = next_file_id w)) as [|Hne]; [by left|right].
    rewrite lookup_insert_ne in Hi by done.
    destruct (decide (id = seg_file_id (sgs_active_segment s))) as [->|];
      [by rewrite lookup_insert_eq|rewrite lookup_insert_ne by done].
    by destruct (Hin id Hi).
Qed.

(** A record at the end of a log. *)
Definition add_record (id : Z) (r : log_record) (logs : gmap Z (list log_record))
    : gmap Z (list log_record) := <[id := default [] (logs !! id) ++ [r]]> logs.

(** What an append leaves on the disk. *)
Lemma append_after_rollover_journal w s logs e resp s' w' :
  journal w s logs → fresh w s → room w s → entry_wf e → is_u32 (entry_timestamp e) →
  (try (_, (s, w)) := maybe_rollover_active_segment w s in append_to_active w s e)
    = (Ok resp, (s', w')) →
  ∃ now, journal w' s' (add_record (seg_file_id (sgs_active_segment s')) (record_of now e) logs)
    ∧ (Segment_size_in_bytes (sgs_active_segment s) < as_i64 (sgs_max_segment_size_bytes s) →
       seg_file_id (sgs_active_segment s') = seg_file_id (sgs_active_segment s)).
Proof.
  intros Hj Hfresh Hroom Hwf Hts H. unfold try_bind in H.
  destruct (maybe_rollover_active_segment w s) as [[[]| |] [s1 w1]] eqn:E; try done.
  destruct (rollover_journal _ _ _ _ _ Hj Hfresh Hroom E) as (Hj1 & Hroom1 & _ & Hsame).
  destruct (append_journal _ _ _ _ _ _ _ Hj1 Hroom1 Hwf Hts H) as (Hid & log & Hlog & Hj2).
  rewrite lookup_insert_eq in Hlog. injection Hlog as <-. rewrite insert_insert_eq in Hj2.
  exists (wall_now w1). rewrite Hid. split; [exact Hj2|]. intros Hlt. by destruct (Hsame Hlt) as [-> _].
Qed.

(** Appends keep the directory and the threshold. *)
Lemma append_after_rollover_fixed w s e r s' w' :
  (try (_, (s, w)) := maybe_rollover_active_segment w s in append_to_active w s e)
    = (r, (s', w')) →
  sgs_directory s' = sgs_directory s
  ∧ sgs_max_segment_size_bytes s' = sgs_max_segment_size_bytes s.
Proof.
  unfold try_bind, maybe_rollover_active_segment, append_to_active.
  destruct (maybe_rollover_segment w s _) as [[[seg|]| |] w1]; intros H;
    try destruct (Segment_append _ _ _) as [? [? ?]]; by simplify_eq.
Qed.

Lemma put_journal w kv logs k v kv' w' :
  journal w (kv_segments kv) logs → can_append w kv → no_merge_due kv → kv_wf k v →
  guest_insert w kv k v = (Ok tt, (kv', w')) →
  ∃ ts, journal w' (kv_segments kv')
          (add_record (seg_file_id (sgs_active_segment (kv_segments kv'))) (LogRecord ts k v 0) logs)
    ∧ (Segment_size_in_bytes (sgs_active_segment (kv_segments kv))
         < as_i64 (sgs_max_segment_size_bytes (kv_segments kv)) →
       seg_file_id (sgs_active_segment (kv_segments kv'))
       = seg_file_id (sgs_active_segment (kv_segments kv)))
    ∧ sgs_directory (kv_segments kv') = sgs_directory (kv_segments kv)
    ∧ sgs_max_segment_size_bytes (kv_segments kv') = sgs_max_segment_size_bytes (kv_segments kv)
    ∧ kv_merge_config kv' = kv_merge_config kv ∧ kv_counter kv' = kv_counter kv + 1.
Proof.
  intros Hj [Hfresh Hroom] [Hc Hu] Hwf H. unfold guest_insert, KVStore_update, KVStore_put in H.
  rewrite (proj2 (Z.leb_gt _ _)) in H by lia. unfold put_record in H.
  destruct (Segments_append w (kv_segments kv) k v) as [[resp| |] [s1 w1]] eqn:E; try done.
  unfold add_u64 in H. cbn [kv_counter set_key_directory set_segments] in H.
  rewrite checked_ok in H by ints. cbn in H. simplify_eq.
  destruct (append_after_rollover_journal _ _ _ (Entry_new k v) _ _ _ Hj Hfresh Hroom Hwf
    ltac:(cbn; ints) E) as (now & Hj' & Hid).
  destruct (append_after_rollover_fixed _ _ (Entry_new k v) _ _ _ E) as [Hd Hm].
  by exists (stamp now (Entry_new k v)).
Qed.

(** ** Opening the files again *)

(** The disk a restart needs: files can be opened, read, and are all listed. *)
Definition reopenable : Prop :=
  (∀ w n d, ∃ (st : S) w', store_open w n d = (Ok st, w'))
  ∧ (∀ w d n, is_Some (file w (d, n)) →
       ∃ l, store_get_files (S:=S) w d = Ok l ∧ ∀ n, is_Some (file w (d, n)) → n ∈ l)
  ∧ ∀ w (st : S), store_inv st → is_Some (file w (store_path st)) →
      ∃ b, store_read_full w st = Ok b.

(** A segment file found at start-up becomes an inactive segment. *)
Lemma reload_inactive_ok w s id (seg : Segment S) w' :
  segments_inv w s → is_u64 id → id ≠ seg_file_id (sgs_active_segment s) →
  is_Some (file w (seg_path s id)) →
  reload_inactive_segment w id (sgs_directory s) = (Ok seg, w') →
  (∀ p, file w' p = file w p) ∧ segments_inv w' (insert_inactive s seg) ∧ seg_file_id seg = id.
Proof.
  intros Hinv Hid Hne [c Hc] H. unfold reload_inactive_segment, try_bind in H.
  destruct (store_open _ _ _) as [[st| |] w1] eqn:E; simplify_eq.
  destruct (store_open_ok _ _ _ _ _ E) as (Hsi & Hsp & _ & Hother & Hf).
  assert (∀ p, file w' p = file w p) as Hfiles.
  { intros p. destruct (decide (p = (sgs_directory s, segment_name id))) as [->|Hp]; [|by apply Hother].
    unfold seg_path in Hc. by rewrite Hf, Hc. }
  split; [done|]. split; [|done].
  destruct (segments_inv_files _ _ _ Hfiles Hinv) as [(Ha & Hc' & Hin) _].
  split; [done|]. split; [done|]. intros j seg Hj. cbn in Hj.
  apply lookup_insert_Some in Hj as [[<- <-]|[_ Hj]]; [|by apply Hin].
  split; [done|]. split; [done|]. split; [by split_and!|].
  rewrite Hfiles. by exists c.
Qed.

Lemma reload_files_ok entries : ∀ w s logs,
  reopenable → segments_inv w s → logged w (sgs_directory s) logs →
  (∀ n, n ∈ entries → is_Some (file w (sgs_directory s, n))) →
  ∃ s' w', reload_files w s entries = (Ok tt, (s', w'))
    ∧ (∀ p, file w' p = file w p) ∧ segments_inv w' s'
    ∧ sgs_active_segment s' = sgs_active_segment s ∧ sgs_directory s' = sgs_directory s
    ∧ sgs_max_segment_size_bytes s' = sgs_max_segment_size_bytes s
    ∧ (∀ id, is_Some (sgs_inactive_segments s !! id) → is_Some (sgs_inactive_segments s' !! id))
    ∧ ∀ id, is_u64 id → segment_name id ∈ entries →
        id = seg_file_id (sgs_active_segment s) ∨ is_Some (sgs_inactive_segments s' !! id).
Proof.
  induction entries as [|n entries IH]; intros w s logs Hre Hinv Hlg Hall.
  { eexists s, w. split_and!; try done. set_solver. }
  destruct (lg_only _ _ _ Hlg n) as (id & [log Hlog] & ->); [apply Hall; set_solver|].
  destruct (lg_file _ _ _ Hlg id log Hlog) as (Hid & _ & Hf). cbn [reload_files].
  destruct (segment_name_parse id Hid) as [-> ->].
  destruct (Z.eqb_spec id (seg_file_id (sgs_active_segment s))) as [Ea|Hne]; cbn [negb].
  { destruct (IH w s logs Hre Hinv Hlg) as (s' & w' & H & H1 & H2 & H3 & H4 & H5 & H6 & H7);
      [intros; apply Hall; set_solver|]. exists s', w'. split_and!; try done.
    intros j Hj [Ej|Hin]%elem_of_cons; [left; by apply segment_name_inj in Ej; subst|auto]. }
  destruct (reload_inactive_segment w id (sgs_directory s)) as [r w1] eqn:E.
  pose proof E as E'. unfold reload_inactive_segment in E'. destruct Hre as [Hopen Hrest].
  destruct (Hopen w (segment_name id) (sgs_directory s)) as (st & w2 & Ho). rewrite Ho in E'.
  cbn in E'. destruct r as [seg| |]; try done. clear E' Ho st w2.
  destruct (reload_inactive_ok _ _ _ _ _ Hinv Hid Hne ltac:(by exists (log_file log)) E)
    as (Hf1 & Hinv1 & Hsid).
  destruct (IH w1 (insert_inactive s seg) logs (conj Hopen Hrest) Hinv1)
    as (s' & w' & H & H1 & H2 & H3 & H4 & H5 & H6 & H7).
  { by eapply logged_same_files. }
  { intros n Hn. rewrite Hf1. apply Hall. set_solver. }
  unfold insert_inactive in H. rewrite Hsid in H. exists s', w'. split_and!; try done.
  - intros p. by rewrite H1.
  - intros j Hj. apply H6. cbn. destruct (decide (j = seg_file_id seg)) as [->|];
      [by rewrite lookup_insert_eq|by rewrite lookup_insert_ne].
  - intros j Hj [Ej|Hin]%elem_of_cons; [|by apply H7]. right. apply segment_name_inj in Ej as ->; try done.
    apply H6. cbn. by rewrite Hsid, lookup_insert_eq.
Qed.

(** The segments of a restart: a new active one, and all files of the directory. *)
Lemma Segments_new_journal w dir max logs :
  reopenable → logged w dir logs → is_u64 (next_file_id w) → logs !! next_file_id w = None →
  ∃ s w', Segments_new (S:=S) w dir max = (Ok s, w')
    ∧ journal w' s (<[next_file_id w := []]> logs)
    ∧ sgs_directory s = dir ∧ sgs_max_segment_size_bytes s = max
    ∧ seg_file_id (sgs_active_segment s) = next_file_id w
    ∧ Segment_size_in_bytes (sgs_active_segment s) = 0.
Proof.
  intros Hre Hlg Hid Hnone. unfold Segments_new, Segment_new, try_bind.
  destruct Hre as (Hopen & Hlist & Hrf).
  destruct (Hopen w (segment_name (next_file_id w)) dir) as (st & w1 & E). rewrite E.
  destruct (store_open_ok _ _ _ _ _ E) as (Hsi & Hsp & Hsz & Hother & Hf).
  assert (file w (dir, segment_name (next_file_id w)) = None) as Hnew.
  { destruct (file w _) as [c|] eqn:Ec; [|done].
    destruct (lg_only _ _ _ Hlg _ ltac:(by exists c)) as (j & [l Hl] & Ej).
    destruct (lg_file _ _ _ Hlg _ _ Hl) as (Hj & _). apply segment_name_inj in Ej; [|done..].
    congruence. }
  rewrite Hnew in Hf. cbn [default] in Hf.
  set (s0 := MkSegments _ ∅ max dir).
  assert (logged w1 (sgs_directory s0) (<[next_file_id w := []]> logs)) as Hlg1
    by (by eapply (logged_write w); try done).
  assert (segments_inv w1 s0) as Hinv1.
  { split; [by split_and!|]. split; [exists []; split; [exact Hf|]; unfold Segment_size_in_bytes; cbn;
      rewrite Hsz; by vm_compute|].
    intros j seg Hj. change ((∅ : gmap Z (Segment S)) !! j = Some seg) in Hj. by rewrite lookup_empty in Hj. }
  destruct (Hlist w1 dir (segment_name (next_file_id w)) ltac:(by eexists)) as (l & Hl & Hall).
  unfold Segments_reload. change (sgs_directory s0) with dir. rewrite Hl.
  destruct (reload_files_ok l w1 s0 _ (conj Hopen (conj Hlist Hrf)) Hinv1 Hlg1)
    as (s' & w' & -> & H1 & H2 & H3 & H4 & H5 & _ & H7).
  { intros n Hn. by eapply store_get_files_ok. }
  exists s', w'. split; [done|]. rewrite H3. split_and!; try done. split; [done|..].
  - rewrite H4. by eapply logged_same_files.
  - exists []. rewrite H3. cbn. rewrite lookup_insert_eq. done.
  - intros id [log Hlog]. rewrite H3. destruct (lg_file _ _ _ Hlg1 _ _ Hlog) as (Hu & _ & Hfile).
    apply H7; [done|]. apply Hall. by exists (log_file log).
Qed.

(** ** The key directory of a restart *)

(** Files that [decode_multi] can read: their length fits the [u32] it is cast to. *)
Definition small (logs : gmap Z (list log_record)) : Prop :=
  map_Forall (λ _ log, zlen (log_file log) < 4294967296) logs.

(** An inactive segment has a log. *)
Lemma inactive_log w s logs id seg :
  journal w s logs → sgs_inactive_segments s !! id = Some seg →
  ∃ log, logs !! id = Some log ∧ seg_file_id seg = id ∧ store_inv (seg_store seg)
    ∧ file w (store_path (seg_store seg)) = Some (log_file log) ∧ Forall log_wf log.
Proof.
  intros [(_ & _ & Hin) Hlg _ _] Hseg. destruct (Hin _ _ Hseg) as (Hid & _ & (Hu & Hsi & Hsp) & Hf).
  destruct (lg_only _ _ _ Hlg _ Hf) as (j & [log Hlog] & Ej).
  destruct (lg_file _ _ _ Hlg _ _ Hlog) as (Hj & Hwf & Hfj). rewrite Hid in *.
  apply segment_name_inj in Ej; [|done..]. subst j. exists log. rewrite Hsp. by split_and!.
Qed.

(** The reload reads the segments one after the other. *)
Lemma reload_segments_ok w s logs l : ∀ d,
  reopenable → journal w s logs → small logs →
  (∀ x, x ∈ l → sgs_inactive_segments s !! x.1 = Some x.2) →
  ∃ d', reload_segments w d l UUIDWasiKeyFrom = Ok d'
    ∧ ∀ k, d' !! k = foldl (λ cur x, last_at x.1 0 k (default [] (logs !! x.1)) cur) (d !! k) l.
Proof.
  induction l as [|[id seg] l IH]; intros d Hre Hj Hsm Hl; [by exists d|].
  destruct (inactive_log _ _ _ id seg Hj (Hl (id, seg) ltac:(set_solver)))
    as (log & Hlog & Hid & Hsi & Hf & Hwf).
  pose proof Hre as (_ & _ & Hread).
  destruct (Hread w (seg_store seg) Hsi ltac:(by eexists)) as [b Hb].
  pose proof (store_read_full_ok _ _ _ Hb Hsi) as Hfb. rewrite Hf in Hfb. injection Hfb as <-.
  destruct (IH (KeyDirectory_reload d id (mapped_log 0 log)) Hre Hj Hsm) as (d' & Hd' & Hk).
  { intros x Hx. apply Hl. set_solver. }
  exists d'. cbn [reload_segments]. unfold Segment_read_full. rewrite Hb. cbn [mbind outcome_bind].
  pose proof (decode_loop_ok (E:=StoreError) log (length (log_file log)) [] Hwf) as Hdec.
  cbn [app] in Hdec. rewrite zlen_nil in Hdec. specialize (Hsm _ _ Hlog). cbn in Hsm.
  unfold decode_multi. pose proof (zlen_nonneg (log_file log)). rewrite as_u32_id by ints.
  fold (log_file log) in Hdec. rewrite Hdec by (unfold zlen in *; lia). split; [exact Hd'|].
  intros k. rewrite Hk, reload_last_at. cbn [foldl fst]. by rewrite Hlog.
Qed.

(** The record of a key that a reload in some order has found last. *)
Lemma reload_order (logs : gmap Z (list log_record)) k (l : list (Z * Segment S)) : ∀ cur,
  let found := foldl (λ cur x, last_at x.1 0 k (default [] (logs !! x.1)) cur) cur l in
  (found = cur ∧ ∀ x, x ∈ l → last_of k (default [] (logs !! x.1)) = None)
  ∨ ∃ x r pre post, x ∈ l ∧ last_of k (default [] (logs !! x.1)) = Some r
      ∧ log_file (default [] (logs !! x.1)) = pre ++ log_bytes r ++ post
      ∧ found = Some (MkKeyDirectoryEntry x.1 (zlen pre) (log_length r)).
Proof.
  induction l as [|x l IH]; intros cur; cbn [foldl]; [left; split; [done|set_solver]|].
  pose proof (last_at_last_of x.1 k (default [] (logs !! x.1)) cur) as Hx.
  destruct (IH (last_at x.1 0 k (default [] (logs !! x.1)) cur))
    as [[-> Hnone]|(y & r & pre & post & Hy & H)];
    [|right; exists y, r, pre, post; split; [set_solver|exact H]].
  destruct (last_of k (default [] (logs !! x.1))) as [r|] eqn:E.
  - destruct Hx as (pre & post & Hf & ->). right. exists x, r, pre, post. split_and!; set_solver.
  - left. split; [done|]. intros y [->|Hy]%elem_of_cons; [done|by apply Hnone].
Qed.

(** What the directory of a restart holds for a key: the position of the last record
    of the key in one of the files, or nothing if no file has one. *)
Definition reloaded (logs : gmap Z (list log_record)) (d : KeyDirectory) : Prop := ∀ k,
  match d !! k with
  | None => ∀ id log, logs !! id = Some log → last_of k log = None
  | Some e => ∃ id log r pre post, logs !! id = Some log ∧ last_of k log = Some r
      ∧ log_file log = pre ++ log_bytes r ++ post
      ∧ e = MkKeyDirectoryEntry id (zlen pre) (log_length r)
  end.

(** A configuration as the component's: a merge configuration with the key mapper. *)
Definition keyed_config (config : Config) : Prop :=
  ∃ mc, cfg_merge_config config = Some mc ∧ mc_key_mapper mc = UUIDWasiKeyFrom.

(** The file names of a restart: the clock gives a new one. *)
Definition new_id (w : world) (logs : gmap Z (list log_record)) : Prop :=
  is_u64 (next_file_id w) ∧ logs !! next_file_id w = None.

Lemma KVStore_new_iterates w config logs :
  reopenable → logged w (cfg_directory config) logs → small logs → new_id w logs →
  keyed_config config →
  ∃ kv w', KVStore_new (S:=S) w config = (Ok kv, w')
    ∧ journal w' (kv_segments kv) (<[next_file_id w := []]> logs)
    ∧ (∀ k, kv_key_directory kv !! k
         = foldl (λ cur x, last_at x.1 0 k (default [] (<[next_file_id w := []]> logs !! x.1)) cur) None
             (hash_iter (sgs_inactive_segments (kv_segments kv))))
    ∧ seg_file_id (sgs_active_segment (kv_segments kv)) = next_file_id w
    ∧ Segment_size_in_bytes (sgs_active_segment (kv_segments kv)) = 0
    ∧ sgs_directory (kv_segments kv) = cfg_directory config
    ∧ sgs_max_segment_size_bytes (kv_segments kv) = cfg_max_segment_size_bytes config
    ∧ kv_counter kv = 0 ∧ cfg_merge_config config = Some (kv_merge_config kv).
Proof.
  intros Hre Hlg Hsm [Hu Hnone] (mc & Hmc & Hkm). unfold KVStore_new, try_bind.
  destruct (Segments_new_journal w (cfg_directory config) (cfg_max_segment_size_bytes config) logs
    Hre Hlg Hu Hnone) as (s & w' & -> & Hj & Hdir & Hmax & Hact & Hsz).
  rewrite Hmc. unfold KVStore_reload. cbn [kv_merge_config kv_segments kv_key_directory].
  rewrite Hkm.
  destruct (reload_segments_ok w' s (<[next_file_id w := []]> logs)
    (hash_iter (sgs_inactive_segments s)) KeyDirectory_new Hre Hj) as (d & -> & Hd).
  { by apply map_Forall_insert_2; [vm_compute|]. }
  { intros [id seg]. rewrite (hash_iter_perm _ _). apply elem_of_map_to_list. }
  eexists _, w'. split; [reflexivity|]. cbn [kv_segments set_key_directory kv_key_directory kv_counter kv_merge_config].
  split; [done|]. split; [|by split_and!]. exact Hd.
Qed.

Lemma KVStore_new_reloaded w config logs :
  reopenable → logged w (cfg_directory config) logs → small logs → new_id w logs →
  keyed_config config →
  ∃ kv w', KVStore_new (S:=S) w config = (Ok kv, w')
    ∧ journal w' (kv_segments kv) (<[next_file_id w := []]> logs)
    ∧ reloaded logs (kv_key_directory kv)
    ∧ seg_file_id (sgs_active_segment (kv_segments kv)) = next_file_id w
    ∧ Segment_size_in_bytes (sgs_active_segment (kv_segments kv)) = 0
    ∧ sgs_directory (kv_segments kv) = cfg_directory config
    ∧ sgs_max_segment_size_bytes (kv_segments kv) = cfg_max_segment_size_bytes config
    ∧ kv_counter kv = 0 ∧ cfg_merge_config config = Some (kv_merge_config kv).
Proof.
  intros Hre Hlg Hsm Hnew Hcfg.
  destruct (KVStore_new_iterates w config logs Hre Hlg Hsm Hnew Hcfg)
    as (kv & w' & Hkv & Hj & Hd & Hact & Hrest). destruct Hnew as [Hu Hnone].
  exists kv, w'. split; [done|]. split; [done|]. split; [|done]. intros k. rewrite Hd.
  set (s := kv_segments kv) in *.
  assert (∀ x, x ∈ hash_iter (sgs_inactive_segments s) ↔ sgs_inactive_segments s !! x.1 = Some x.2)
    as Hiter by (intros [id seg]; rewrite (hash_iter_perm _ _); apply elem_of_map_to_list).
  assert (∀ x, x ∈ hash_iter (sgs_inactive_segments s) →
    x.1 ≠ next_file_id w ∧ (<[next_file_id w := []]> logs) !! x.1 = logs !! x.1) as Hold.
  { intros x Hx. apply Hiter in Hx. destruct Hj as [(_ & _ & Hin) _ _ _].
    destruct (Hin _ _ Hx) as (_ & Hne & _). rewrite Hact in Hne.
    by rewrite lookup_insert_ne by done. }
  destruct (reload_order (<[next_file_id w := []]> logs) k (hash_iter (sgs_inactive_segments s))
    None) as [[-> Hn]|(x & r & pre & post & Hx & Hl & Hf & ->)].
  - intros id log Hlog.
    destruct (decide (id = next_file_id w)) as [->|Hne]; [congruence|].
    destruct (jr_inactive _ _ _ Hj id) as [E|[seg Hseg]];
      [by rewrite lookup_insert_ne, Hlog by done|congruence|].
    specialize (Hn (id, seg)). rewrite Hiter in Hn. specialize (Hn Hseg). cbn in Hn.
    by rewrite lookup_insert_ne, Hlog in Hn by done.
  - destruct (Hold x Hx) as [Hne E]. rewrite E in Hl, Hf.
    destruct (logs !! x.1) as [log|] eqn:Elog; [|done]. by exists x.1, log, r, pre, post.
Qed.

(** ** What survives *)

(** The segments agree on every key: the last record of a key in any file that has one
    is live and holds the value of the map. *)
Definition settled (logs : gmap Z (list log_record)) (m : gmap bytes bytes) : Prop := ∀ k,
  match m !! k with
  | Some v => (∃ id log r, logs !! id = Some log ∧ last_of k log = Some r)
      ∧ ∀ id log r, logs !! id = Some log → last_of k log = Some r →
          lr_value r = v ∧ lr_tomb r = 0
  | None => ∀ id log, logs !! id = Some log → last_of k log = None
  end.

(** The position of a live record of an inactive file points to its value. *)
Lemma record_points_to w s logs id log r pre post k :
  journal w s logs → small logs → logs !! id = Some log → last_of k log = Some r → lr_tomb r = 0 →
  log_file log = pre ++ log_bytes r ++ post → id ≠ seg_file_id (sgs_active_segment s) →
  points_to w s (MkKeyDirectoryEntry id (zlen pre) (log_length r)) k (lr_value r).
Proof.
  intros Hj Hsm Hlog Hlast Ht Hf Hne. destruct (lg_file _ _ _ (jr_logged _ _ _ Hj) _ _ Hlog)
    as (Hu & Hwf & Hfile).
  apply last_of_key in Hlast as [<- Hin]. rewrite Forall_forall in Hwf.
  destruct (Hwf r Hin) as [Hts Hkv]. specialize (Hsm _ _ Hlog). cbn in Hsm.
  rewrite Hf, !zlen_app in Hsm. pose proof (zlen_nonneg (log_bytes r)). pose proof (zlen_nonneg post).
  exists pre, (lr_ts r). unfold log_bytes in Hf. rewrite Ht in Hf. cbn. split_and!; try done; [|lia].
  split.
  - exists post. unfold seg_path. by rewrite Hfile, Hf, <- app_assoc.
  - right. by destruct (jr_inactive _ _ _ Hj id ltac:(by eexists)).
Qed.

(** A restart on files that agree represents the same map. *)
Lemma reopen_settled w config logs m :
  reopenable → logged w (cfg_directory config) logs → small logs → new_id w logs →
  keyed_config config → settled logs m →
  ∃ kv w', KVStore_new (S:=S) w config = (Ok kv, w') ∧ kv_rep w' kv m
    ∧ journal w' (kv_segments kv) (<[next_file_id w := []]> logs)
    ∧ settled (<[next_file_id w := []]> logs) m.
Proof.
  intros Hre Hlg Hsm Hnew Hcfg Hset.
  destruct (KVStore_new_reloaded w config logs Hre Hlg Hsm Hnew Hcfg)
    as (kv & w' & Hkv & Hj & Hrel & Hact & _). destruct Hnew as [Hu Hnone].
  exists kv, w'. split; [done|]. split; [split; [apply Hj|]|split; [done|]].
  - intros k. specialize (Hrel k). specialize (Hset k).
    destruct (kv_key_directory kv !! k) as [e|].
    + destruct Hrel as (id & log & r & pre & post & Hlog & Hl & Hf & ->).
      assert (id ≠ next_file_id w) as Hne by (intros ->; congruence).
      destruct (m !! k) as [v|]; [|by rewrite (Hset id log Hlog) in Hl].
      destruct Hset as [_ Hset]. destruct (Hset id log r Hlog Hl) as [<- Ht].
      eapply record_points_to; [done| |by rewrite lookup_insert_ne|done|done|done|by rewrite Hact].
      by apply map_Forall_insert_2; [vm_compute|].
    + destruct (m !! k) as [v|]; [|done]. destruct Hset as [(id & log & r & Hlog & Hl) _].
      by rewrite (Hrel id log Hlog) in Hl.
  - intros k. specialize (Hset k).
    assert (∀ id log, <[next_file_id w := []]> logs !! id = Some log → last_of k log ≠ None →
      logs !! id = Some log) as Hold.
    { intros id log [[<- <-]|[? ?]]%lookup_insert_Some Hl; done. }
    destruct (m !! k) as [v|].
    + destruct Hset as [(id & log & r & Hlog & Hl) Hall]. split.
      * exists id, log, r. split; [|done]. rewrite lookup_insert_ne; [done|congruence].
      * intros j l x Hj' Hx. apply (Hall j l x); [|done]. apply Hold; [done|congruence].
    + intros id log Hlog. destruct (last_of k log) as [r|] eqn:E; [|done].
      specialize (Hold id log Hlog). rewrite E in Hold. by rewrite (Hset id log) in E by auto.
Qed.

(** ** A session in one file *)

(** The store represents [m], and only the active segment has records. *)
Record one_file (w : world) (kv : KVStore S) (m : gmap bytes bytes)
    (logs : gmap Z (list log_record)) : Prop := {
  of_rep : kv_rep w kv m;
  of_journal : journal w (kv_segments kv) logs;
  of_settled : settled logs m;
  of_only id log : logs !! id = Some log →
    id ≠ seg_file_id (sgs_active_segment (kv_segments kv)) → log = [];
}.

(** The active segment has not reached the threshold. *)
Definition below_threshold (s : Segments S) : Prop :=
  Segment_size_in_bytes (sgs_active_segment s) < as_i64 (sgs_max_segment_size_bytes s).

Lemma settled_put logs m a k v ts :
  settled logs m → (∀ id log, logs !! id = Some log → id ≠ a → log = []) →
  settled (add_record a (LogRecord ts k v 0) logs) (<[k := v]> m).
Proof.
  intros Hset Honly k'. unfold add_record.
  assert (∀ id log, <[a := default [] (logs !! a) ++ [LogRecord ts k v 0]]> logs !! id = Some log →
    last_of k' log ≠ None → id = a ∧ log = default [] (logs !! a) ++ [LogRecord ts k v 0]) as Hin.
  { intros id log [[<- <-]|[Hne Hlog]]%lookup_insert_Some Hl; [done|].
    by rewrite (Honly id log Hlog) in Hl by done. }
  pose proof (last_of_snoc k' (default [] (logs !! a)) (LogRecord ts k v 0)) as Hlast. cbn in Hlast.
  destruct (decide (k = k')) as [->|Hne].
  - rewrite lookup_insert_eq. split; [eexists a, _, _; rewrite lookup_insert_eq; split; [done|exact Hlast]|].
    intros id log r Hlog Hl. destruct (Hin id log Hlog ltac:(congruence)) as [-> ->].
    rewrite Hlast in Hl. by injection Hl as <-.
  - rewrite lookup_insert_ne by done. specialize (Hset k').
    destruct (m !! k') as [v'|].
    + destruct Hset as [(id & log & r & Hlog & Hl) Hall].
      assert (id = a) as -> by (destruct (decide (id = a)); [done|]; by rewrite (Honly id log) in Hl).
      rewrite Hlog in *. cbn [default] in *. split.
      * eexists a, _, r. rewrite lookup_insert_eq. split; [done|]. by rewrite Hlast.
      * intros id l x Hl' Hx. destruct (Hin id l Hl' ltac:(congruence)) as [-> ->].
        rewrite Hlast in Hx. by apply (Hall a log x).
    + intros id log Hlog. destruct (last_of k' log) as [r|] eqn:E; [|done].
      destruct (Hin id log Hlog ltac:(congruence)) as [-> ->]. rewrite Hlast in E.
      destruct (logs !! a) as [l|] eqn:Ea; [|done].
      change (last_of k' l = Some r) in E. by rewrite (Hset a l) in E.
Qed.

(** An insertion below the threshold stays in the file. *)
Lemma put_one_file w kv m logs k v kv' w' :
  one_file w kv m logs → can_append w kv → no_merge_due kv → kv_wf k v →
  below_threshold (kv_segments kv) →
  guest_insert w kv k v = (Ok tt, (kv', w')) →
  ∃ logs', one_file w' kv' (<[k := v]> m) logs'
    ∧ Segment_size_in_bytes (sgs_active_segment (kv_segments kv'))
      = Segment_size_in_bytes (sgs_active_segment (kv_segments kv)) + record_length k v
    ∧ seg_file_id (sgs_active_segment (kv_segments kv')) = seg_file_id (sgs_active_segment (kv_segments kv))
    ∧ sgs_directory (kv_segments kv') = sgs_directory (kv_segments kv)
    ∧ sgs_max_segment_size_bytes (kv_segments kv') = sgs_max_segment_size_bytes (kv_segments kv)
    ∧ kv_merge_config kv' = kv_merge_config kv ∧ kv_counter kv' = kv_counter kv + 1.
Proof.
  intros [Hrep Hj Hset Honly] Hc Hn Hwf Hbelow H. pose proof H as Hput.
  unfold guest_insert, KVStore_update in Hput.
  destruct (KVStore_put w kv k v) as [r [kv1 w1]] eqn:E. injection Hput as Hr <- <-.
  destruct (KVStore_put_ok _ _ _ _ _ _ _ _ Hrep Hc Hn Hwf E) as [Hrep' _].
  assert (is_ok r = true) as Hok by (destruct r; done). rewrite Hok in Hrep'.
  destruct (put_journal _ _ _ _ _ _ _ Hj Hc Hn Hwf H) as (ts & Hj' & Hid & Hd & Hmx & Hmc & Hct).
  specialize (Hid Hbelow). rewrite Hid in *.
  set (a := seg_file_id (sgs_active_segment (kv_segments kv))) in *.
  destruct (jr_active _ _ _ Hj) as (log & Hlog & Hsz). fold a in Hlog.
  exists (add_record a (LogRecord ts k v 0) logs). split_and!; try done.
  - split; [done|done| |].
    + by apply settled_put.
    + rewrite Hid. unfold add_record. intros id l [[<- <-]|[_ Hl]]%lookup_insert_Some Hne; [done|].
      by eapply Honly.
  - destruct (jr_active _ _ _ Hj') as (l & Hl & Hsz'). rewrite Hid in Hl. unfold add_record in Hl.
    rewrite lookup_insert_eq, Hlog in Hl. injection Hl as <-.
    rewrite Hsz', Hsz. cbn [default]. change (default [] (Some log)) with log.
    by rewrite log_file_app, log_file_one, zlen_app, zlen_log_bytes.
Qed.

(** An empty directory, opened. *)
Lemma open_one_file w config :
  reopenable → (∀ n, file w (cfg_directory config, n) = None) → is_u64 (next_file_id w) →
  keyed_config config →
  ∃ kv w', KVStore_new (S:=S) w config = (Ok kv, w')
    ∧ one_file w' kv ∅ {[ next_file_id w := [] ]}
    ∧ Segment_size_in_bytes (sgs_active_segment (kv_segments kv)) = 0
    ∧ seg_file_id (sgs_active_segment (kv_segments kv)) = next_file_id w
    ∧ sgs_directory (kv_segments kv) = cfg_directory config
    ∧ sgs_max_segment_size_bytes (kv_segments kv) = cfg_max_segment_size_bytes config
    ∧ kv_counter kv = 0 ∧ cfg_merge_config config = Some (kv_merge_config kv).
Proof.
  intros Hre Hempty Hu Hcfg.
  assert (logged w (cfg_directory config) ∅) as Hlg.
  { split; [intros n; rewrite Hempty; by intros [? ?]|intros id log; by rewrite lookup_empty]. }
  destruct (KVStore_new_reloaded w config ∅ Hre Hlg) as (kv & w' & Hkv & Hj & _ & Hact & Hsz & Hrest);
    [apply map_Forall_empty|split; [done|apply lookup_empty]|done|].
  destruct (kv_new_empty w config kv w' Hempty Hu Hkv) as [Hrep _].
  exists kv, w'. split_and!; try done; [|apply Hrest..]. split; [done|done| |].
  - intros k. rewrite lookup_empty. intros id log [<- <-]%lookup_singleton_Some. done.
  - rewrite Hact. by intros id log [<- <-]%lookup_singleton_Some ?.
Qed.

(** Operations of a session that only inserts, all of them with success, and reads. *)
Definition inserts_only (x : kv_op * kv_result) : Prop :=
  match x with
  | (OpPut _ _, RUnit r) => r = Ok tt
  | (OpGet _, _) => True
  | _ => False
  end.

(** The bytes they write. *)
Definition written (x : kv_op * kv_result) : Z :=
  match x.1 with OpPut k v => record_length k v | _ => 0 end.

Lemma record_length_pos k v : 0 < record_length k v.
Proof. unfold record_length. pose proof (zlen_nonneg k). pose proof (zlen_nonneg v). lia. Qed.

Lemma written_nonneg tr : 0 ≤ foldr Z.add 0 (map written tr).
Proof.
  induction tr as [|[o r] tr IH]; cbn [map foldr]; [done|]. apply Z.add_nonneg_nonneg; [|done].
  unfold written. destruct o as [k v|k|k]; [apply Z.lt_le_incl, record_length_pos|done..].
Qed.

(** A session of insertions stays in one file while it writes at most the threshold. *)
Lemma run_one_file t tr t' : kv_run t tr t' → ∀ m logs,
  one_file t.2 t.1 m logs → Forall inserts_only tr →
  let s := kv_segments t.1 in
  Segment_size_in_bytes (sgs_active_segment s) + foldr Z.add 0 (map written tr)
    ≤ sgs_max_segment_size_bytes s < 4294967296 →
  ∃ m' logs', map_run m tr m' ∧ one_file t'.2 t'.1 m' logs'
    ∧ Segment_size_in_bytes (sgs_active_segment (kv_segments t'.1)) < 4294967296
    ∧ sgs_directory (kv_segments t'.1) = sgs_directory s.
Proof.
  induction 1 as [t|[kv w] o r [kv1 w1] tr t2 Hstep _ IH]; intros m logs Hone Hall s Hsz.
  { exists m, logs. split_and!; [constructor|done| |done]. cbn [map foldr] in Hsz. fold s. lia. }
  apply Forall_cons in Hall as [Hop Hall]. pose proof (written_nonneg tr) as Hw.
  change (foldr Z.add 0 (map written ((o, r) :: tr)))
    with (written (o, r) + foldr Z.add 0 (map written tr)) in Hsz.
  inversion Hstep as [? ? k v r' [] Hc Hn Hwf H|? ? k r' [] Hc Hwf H|? ? k Hr]; subst; cbn in Hop.
  - subst r'. cbn [fst snd] in *. change (written (OpPut k v, RUnit (Ok tt))) with (record_length k v) in Hsz.
    pose proof (record_length_pos k v).
    assert (0 ≤ Segment_size_in_bytes (sgs_active_segment s)) as Hpos.
    { destruct (jr_active _ _ _ (of_journal _ _ _ _ Hone)) as (l & _ & Hl). subst s. rewrite Hl. apply zlen_nonneg. }
    assert (as_i64 (sgs_max_segment_size_bytes s) = sgs_max_segment_size_bytes s) as Hi64.
    { unfold as_i64. rewrite as_u64_id by ints. by rewrite (proj2 (Z.ltb_lt _ _)) by lia. }
    assert (below_threshold s) as Hbelow by (unfold below_threshold; lia).
    destruct (put_one_file _ _ _ _ _ _ _ _ Hone Hc Hn Hwf Hbelow H)
      as (logs1 & Hone1 & Hs1 & _ & Hd1 & Hm1 & _).
    destruct (IH _ _ Hone1 Hall) as (m' & logs' & Hmr & Hone' & Hlt & Hd).
    { cbn [fst snd]. rewrite Hs1, Hm1. fold s. lia. }
    exists m', logs'. split_and!; [|done..|].
    + econstructor; [apply (mstep_put m k v (Ok tt))|done].
    + rewrite Hd. exact Hd1.
  - done.
  - destruct (IH m logs Hone Hall) as (m' & logs' & Hmr & Hone' & Hlt & Hd).
    { cbn [fst snd] in *. change (written (OpGet k, RGet (guest_get w1 kv1 k))) with 0 in Hsz.
      fold s. lia. }
    exists m', logs'. split_and!; [|done..]. econstructor; [|exact Hmr].
    rewrite (guest_get_rep _ _ _ _ (of_rep _ _ _ _ Hone) Hr). constructor.
Qed.

(** A session in one file is small. *)
Lemma one_file_small w kv m logs :
  one_file w kv m logs →
  Segment_size_in_bytes (sgs_active_segment (kv_segments kv)) < 4294967296 → small logs.
Proof.
  intros [_ Hj _ Honly] Hsz id log Hlog. cbn.
  destruct (jr_active _ _ _ Hj) as (l & Hl & Hs).
  destruct (decide (id = seg_file_id (sgs_active_segment (kv_segments kv)))) as [->|Hne];
    [|by rewrite (Honly id log Hlog Hne)]. rewrite Hlog in Hl. injection Hl as <-. lia.
Qed.

Lemma fresh_new_id w s logs : journal w s logs → fresh w s → new_id w logs.
Proof.
  intros Hj [Hu Hf]. split; [done|]. destruct (logs !! next_file_id w) as [log|] eqn:E; [|done].
  destruct (lg_file _ _ _ (jr_logged _ _ _ Hj) _ _ E) as (_ & _ & Hfile).
  unfold seg_path in Hf. congruence.
Qed.

(** The value at a position of the directory. *)
Lemma directory_reads w kv logs k id log r pre post :
  journal w (kv_segments kv) logs → readable (S:=S) w → zlen (log_file log) < 4294967296 →
  logs !! id = Some log → last_of k log = Some r → log_file log = pre ++ log_bytes r ++ post →
  id ≠ seg_file_id (sgs_active_segment (kv_segments kv)) →
  kv_key_directory kv !! k = Some (MkKeyDirectoryEntry id (zlen pre) (log_length r)) →
  guest_get w kv k = Ok (lr_value r).
Proof.
  intros Hj Hread Hsm Hlog Hl Hf Hne Hd. unfold guest_get, KVStore_get, KeyDirectory_get. rewrite Hd.
  destruct (lg_file _ _ _ (jr_logged _ _ _ Hj) _ _ Hlog) as (_ & Hwf & Hfile). rewrite Forall_forall in Hwf.
  apply last_of_key in Hl as [_ Hin]. destruct (Hwf r Hin) as [Hts Hkv'].
  rewrite Hf, !zlen_app in Hsm. pose proof (zlen_nonneg (log_bytes r)). pose proof (zlen_nonneg post).
  destruct (Segments_read_ok w (kv_segments kv) id pre (lr_ts r) (lr_key r) (lr_value r) (lr_tomb r))
    as [_ Hok]; [apply Hj| |done|done|lia|].
  - split.
    + exists post. unfold seg_path. rewrite Hfile, Hf, <- app_assoc. done.
    + right. destruct (jr_inactive _ _ _ Hj id) as [E|?]; [by eexists|congruence|done].
  - cbn [kde_file_id kde_offset kde_entry_length]. unfold log_length. by rewrite Hok.
Qed.

(** ** Properties *)

(** C5: the store survives a restart. After a session that starts in an empty directory and
    inserts, with success, no more bytes than a segment's threshold, opening the store
    again succeeds and gives a store that represents the same map: every key has the
    value of its last insertion. *)
Theorem session_survives_restart w config kv0 w0 tr kv w1 :
  reopenable → (∀ n, file w (cfg_directory config, n) = None) → is_u64 (next_file_id w) →
  keyed_config config → KVStore_new w config = (Ok kv0, w0) →
  kv_run (kv0, w0) tr (kv, w1) → Forall inserts_only tr →
  foldr Z.add 0 (map written tr) ≤ cfg_max_segment_size_bytes config < 4294967296 →
  fresh w1 (kv_segments kv) →
  ∃ kv2 w2 m, KVStore_new (S:=S) w1 config = (Ok kv2, w2) ∧ map_run ∅ tr m
    ∧ kv_rep w1 kv m ∧ kv_rep w2 kv2 m
    ∧ (readable (S:=S) w1 → readable (S:=S) w2 → ∀ k, guest_get w2 kv2 k = guest_get w1 kv k).
Proof.
  intros Hre Hempty Hu Hcfg Hnew Hrun Hall Hsz Hfresh.
  destruct (open_one_file w config Hre Hempty Hu Hcfg)
    as (kv0' & w0' & Hnew' & Hone & Hs0 & _ & Hd0 & Hm0 & _).
  rewrite Hnew in Hnew'. injection Hnew' as <- <-.
  destruct (run_one_file _ _ _ Hrun _ _ Hone Hall) as (m & logs & Hmr & Hone1 & Hlt & Hd);
    [cbn [fst]; rewrite Hs0, Hm0; lia|]. cbn [fst snd] in *.
  pose proof Hone1 as [Hrep Hj Hset _].
  destruct (reopen_settled w1 config logs m Hre) as (kv2 & w2 & Hnew2 & Hrep2 & _); try done.
  - rewrite <- Hd0, <- Hd. apply Hj.
  - by eapply one_file_small.
  - by eapply fresh_new_id.
  - exists kv2, w2, m. split_and!; try done. intros Hr1 Hr2 k.
    by rewrite (guest_get_rep _ _ _ _ Hrep2), (guest_get_rep _ _ _ _ Hrep).
Qed.

(** C16: what a restart reads in any directory of segment files is a record of the key: the
    value of the last record of the key in one of the files, and [EntryNotFound] only
    if no file has one.  Opening succeeds and changes no log. *)
Theorem restart_reads_records w config logs :
  reopenable → logged w (cfg_directory config) logs → small logs → new_id w logs →
  keyed_config config → (∀ w', readable (S:=S) w') →
  ∃ kv w', KVStore_new (S:=S) w config = (Ok kv, w')
    ∧ logged w' (cfg_directory config) (<[next_file_id w := []]> logs)
    ∧ ∀ k, (∃ id log r, logs !! id = Some log ∧ last_of k log = Some r
              ∧ guest_get w' kv k = Ok (lr_value r))
           ∨ (∀ id log, logs !! id = Some log → last_of k log = None)
             ∧ guest_get w' kv k = Err EntryNotFound.
Proof.
  intros Hre Hlg Hsm Hnew Hcfg Hread.
  destruct (KVStore_new_reloaded w config logs Hre Hlg Hsm Hnew Hcfg)
    as (kv & w' & Hkv & Hj & Hrel & Hact & _ & Hdir & _). destruct Hnew as [_ Hnone].
  exists kv, w'. split; [done|]. split; [rewrite <- Hdir; apply Hj|]. intros k. specialize (Hrel k).
  destruct (kv_key_directory kv !! k) as [e|] eqn:Ed;
    [left|right; split; [done|unfold guest_get, KVStore_get, KeyDirectory_get; by rewrite Ed]].
  destruct Hrel as (id & log & r & pre & post & Hlog & Hl & Hf & ->). exists id, log, r.
  assert (id ≠ next_file_id w) as Hne by (intros ->; congruence).
  split; [done|]. split; [done|]. eapply directory_reads; try done; [by eapply Hsm| |by rewrite Hact].
  by rewrite lookup_insert_ne.
Qed.

End Journal.

(** ** The order of the files *)

(** An order that comes to the key [id] last. *)
Definition id_last (id : Z) {V} (m : gmap Z V) : list (Z * V) :=
  match m !! id with
  | Some v => map_to_list (delete id m) ++ [(id, v)]
  | None => map_to_list m
  end.

Lemma id_last_perm id {V} (m : gmap Z V) : id_last id m ≡ₚ map_to_list m.
Proof.
  unfold id_last. destruct (m !! id) as [v|] eqn:E; [|done].
  rewrite <- (map_to_list_delete m id v E). apply Permutation_app_comm.
Qed.

Definition last_iter (id : Z) : HashIter Z := {|
  hash_iter V m := id_last id m;
  hash_iter_perm V m := id_last_perm id m;
|}.

Section Orders.
  Context `{BO : ByteOrder} `{WA : Wasi} {S : Type} `{ST : !Store S} `{SO : !StoreOk S}.

(** Any file with a record of a key can be the one whose record a restart reads. *)
Lemma any_file_read w config logs k id log r :
  reopenable (S:=S) → logged w (cfg_directory config) logs → small logs → new_id w logs →
  keyed_config config → (∀ w', readable (S:=S) w') →
  logs !! id = Some log → last_of k log = Some r →
  ∃ kv w', KVStore_new (HI:=last_iter id) (S:=S) w config = (Ok kv, w')
    ∧ guest_get w' kv k = Ok (lr_value r).
Proof.
  intros Hre Hlg Hsm Hnew Hcfg Hread Hlog Hl.
  destruct (KVStore_new_iterates (HI:=last_iter id) w config logs Hre Hlg Hsm Hnew Hcfg)
    as (kv & w' & Hkv & Hj & Hd & Hact & _). destruct Hnew as [_ Hnone].
  assert (id ≠ next_file_id w) as Hne by (intros ->; congruence).
  exists kv, w'. split; [done|]. specialize (Hd k).
  assert (<[next_file_id w := []]> logs !! id = Some log) as Hlog' by (by rewrite lookup_insert_ne).
  destruct (jr_inactive _ _ _ Hj id) as [E|[seg Hseg]]; [by eexists|congruence|].
  cbn [hash_iter last_iter] in Hd. unfold id_last in Hd. rewrite Hseg, foldl_app in Hd. cbn [foldl fst] in Hd.
  rewrite Hlog' in Hd. set (cur := foldl _ _ _) in Hd. pose proof (last_at_last_of id k log cur) as Hat.
  rewrite Hl in Hat. destruct Hat as (pre & post & Hf & Hat).
  eapply directory_reads; try done; [by eapply Hsm|by rewrite Hact|]. by rewrite Hd.
Qed.

(** A session after a restart that inserts once: the record is in the new file. *)
Lemma reopened_put `{HI : !HashIter Z} `{HK : !HashIter bytes} w config logs kv w1 k v kv' w' :
  reopenable (S:=S) → logged w (cfg_directory config) logs → small logs → new_id w logs →
  keyed_config config → 0 < cfg_max_segment_size_bytes config < 4294967296 →
  KVStore_new (S:=S) w config = (Ok kv, w1) →
  can_append w1 kv → no_merge_due kv → kv_wf k v → guest_insert w1 kv k v = (Ok tt, (kv', w')) →
  ∃ ts, journal w' (kv_segments kv') (<[next_file_id w := [LogRecord ts k v 0]]> logs)
    ∧ sgs_directory (kv_segments kv') = cfg_directory config.
Proof.
  intros Hre Hlg Hsm Hid Hcfg Hmax Hnew Hca Hnm Hwf Hins.
  destruct (KVStore_new_iterates w config logs Hre Hlg Hsm Hid Hcfg)
    as (kv0 & w0 & Hnew' & Hj & _ & Hact & Hs & Hd & Hm & _).
  rewrite Hnew in Hnew'. injection Hnew' as <- <-.
  destruct (put_journal _ _ _ _ _ _ _ Hj Hca Hnm Hwf Hins) as (ts & Hj' & Hact' & Hd' & _).
  exists ts. split; [|congruence]. rewrite Hact', Hact in Hj'.
  - unfold add_record in Hj'. by rewrite lookup_insert_eq, insert_insert_eq in Hj'.
  - rewrite Hs, Hm. unfold as_i64. rewrite as_u64_id by ints. rewrite (proj2 (Z.ltb_lt _ _)) by lia. lia.
Qed.

(** An insertion that succeeded is read back. *)
Lemma put_get `{HI : !HashIter Z} `{HK : !HashIter bytes} w kv m k v kv' w' :
  kv_rep w kv m → can_append w kv → no_merge_due kv → kv_wf k v → readable (S:=S) w' →
  guest_insert w kv k v = (Ok tt, (kv', w')) → guest_get w' kv' k = Ok v.
Proof.
  intros Hrep Hca Hnm Hwf Hread Hput. unfold guest_insert, KVStore_update in Hput.
  destruct (KVStore_put w kv k v) as [r [kv1 w1]] eqn:E. injection Hput as Hr <- <-.
  destruct (KVStore_put_ok _ _ _ _ _ _ _ _ Hrep Hca Hnm Hwf E) as [Hrep' _].
  assert (is_ok r = true) as Hok by (destruct r; done). rewrite Hok in Hrep'.
  by rewrite (guest_get_rep _ _ _ _ Hrep' Hread), lookup_insert_eq.
Qed.

(** C34: the second restart can bring an old value back.  After a first session that
    inserts, with success, no more than a segment takes, and has the value [v1] for a
    key, and a second session that inserts [v2] for it and reads it back, the third
    session reads either: for each of the two values there is an order of the [HashMap] of
    segment files in which opening the store succeeds and the key has that value. *)
Theorem second_restart_loses_update `{HI : !HashIter Z} `{HK : !HashIter bytes}
    w config kv0 w0 tr kv1 w1 kv2 w2 kv3 w3 k v1 v2 v :
  reopenable (S:=S) → (∀ w', readable (S:=S) w') →
  (∀ n, file w (cfg_directory config, n) = None) → is_u64 (next_file_id w) → keyed_config config →
  0 < cfg_max_segment_size_bytes config < 4294967296 →
  KVStore_new (S:=S) w config = (Ok kv0, w0) →
  kv_run (kv0, w0) tr (kv1, w1) → Forall inserts_only tr →
  foldr Z.add 0 (map written tr) ≤ cfg_max_segment_size_bytes config →
  guest_get w1 kv1 k = Ok v1 → fresh w1 (kv_segments kv1) →
  KVStore_new (S:=S) w1 config = (Ok kv2, w2) →
  can_append w2 kv2 → no_merge_due kv2 → kv_wf k v2 →
  guest_insert w2 kv2 k v2 = (Ok tt, (kv3, w3)) → fresh w3 (kv_segments kv3) →
  v = v1 ∨ v = v2 →
  guest_get w3 kv3 k = Ok v2
  ∧ ∃ (iter : HashIter Z) kv4 w4, KVStore_new (HI:=iter) (S:=S) w3 config = (Ok kv4, w4)
      ∧ guest_get w4 kv4 k = Ok v.
Proof.
  intros Hre Hread Hempty Hu Hcfg Hmax Hnew Hrun Hall Hsz Hget Hfresh Hnew2 Hca Hnm Hwf Hins Hfresh3 Hv.
  destruct (open_one_file w config Hre Hempty Hu Hcfg)
    as (kv0' & w0' & Hnew' & Hone & Hs0 & _ & Hd0 & Hm0 & _).
  rewrite Hnew in Hnew'. injection Hnew' as <- <-.
  destruct (run_one_file _ _ _ Hrun _ _ Hone Hall) as (m & logs & _ & Hone1 & Hlt & Hd);
    [cbn [fst]; rewrite Hs0, Hm0; lia|]. cbn [fst snd] in *.
  assert (logged w1 (cfg_directory config) logs) as Hlg
    by (rewrite <- Hd0, <- Hd; apply (of_journal _ _ _ _ Hone1)).
  pose proof (one_file_small _ _ _ _ Hone1 Hlt) as Hsm.
  pose proof (fresh_new_id _ _ _ (of_journal _ _ _ _ Hone1) Hfresh) as Hid.
  destruct (reopen_settled w1 config logs m Hre Hlg Hsm Hid Hcfg (of_settled _ _ _ _ Hone1))
    as (kv2' & w2' & Hnew2' & Hrep2 & _).
  rewrite Hnew2 in Hnew2'. injection Hnew2' as <- <-.
  destruct (reopened_put w1 config logs kv2 w2 k v2 kv3 w3) as (ts & Hj3 & Hd3); try done.
  split; [by eapply put_get|]. set (logs3 := <[next_file_id w1 := _]> logs) in Hj3.
  assert (∃ id log r, logs3 !! id = Some log ∧ last_of k log = Some r ∧ lr_value r = v)
    as (id & log & r & Hlog & Hl & <-).
  { destruct Hid as [_ Hnone]. destruct Hv as [->| ->].
    - rewrite (guest_get_rep _ _ _ _ (of_rep _ _ _ _ Hone1) (Hread _)) in Hget.
      pose proof (of_settled _ _ _ _ Hone1 k) as Hset. destruct (m !! k) as [v0|]; [|done].
      injection Hget as ->. destruct Hset as [(id & log & r & Hlog & Hl) Hsame].
      exists id, log, r. split_and!; [|done|by eapply Hsame].
      unfold logs3. rewrite lookup_insert_ne; [done|congruence].
    - eexists _, _, (LogRecord ts k v2 0). split; [apply lookup_insert_eq|]. split; [|done].
      etrans; [apply (last_of_snoc k [])|]. by rewrite decide_True. }
  exists (last_iter id). apply (any_file_read w3 config logs3 k id log r); try done.
  - rewrite <- Hd3. apply Hj3.
  - apply map_Forall_insert_2; [|done]. change (zlen (log_file [LogRecord ts k v2 0]) < 4294967296).
    rewrite log_file_one, zlen_log_bytes. apply Hwf.
  - by eapply fresh_new_id.
Qed.

End Orders.

(** ** Restarts in memory *)

#[local] Existing Instance mem_wasi.
#[local] Existing Instance std_byteorder.
#[local] Instance restart_iter_Z : HashIter Z := std_iter Z.
#[local] Instance restart_iter_bytes : HashIter bytes := std_iter bytes.

Lemma mem_entries l : entries_until_error (map inr l) = l.
Proof. induction l as [|n l IH]; cbn; [done|by rewrite IH]. Qed.

Lemma mem_reopenable : reopenable (S:=WasiStore).
Proof.
  split_and!.
  - intros w n d. by eexists _, _.
  - intros w d n _. eexists. split; [reflexivity|]. intros n' Hn'.
    apply mem_names_spec in Hn'. unfold mem_names in *.
    set (l := filter _ _) in *. change (inr n' ∈ map (λ x : bytes * bytes * bytes, inr (A:=fs_error) x.1.2) l) in Hn'.
    cbn. unfold mem_names. fold l. rewrite <- (map_map (λ x, x.1.2) inr) in Hn' |- *.
    rewrite mem_entries. apply list_elem_of_fmap in Hn' as (y & [= <-] & Hy). done.
  - intros w st Hi [c Hc]. cbn in *. unfold WasiStore_read_full. cbn. rewrite Hc. by eexists.
Qed.

(** Whether a store in memory can take an insertion. *)
Definition mem_ready (kv : KVStore WasiStore) (w : mem_world) (k v : bytes) : bool :=
  bool_decide (is_u64 (next_file_id w))
  && bool_decide (file w (seg_path (kv_segments kv) (next_file_id w)) = None)
  && bool_decide (zlen (default [] (file w (seg_path (kv_segments kv)
       (seg_file_id (sgs_active_segment (kv_segments kv)))))) < 4611686018427387904)
  && bool_decide (0 ≤ kv_counter kv < mc_run_merge_every (kv_merge_config kv))
  && bool_decide (is_u64 (mc_run_merge_every (kv_merge_config kv)))
  && bool_decide (kv_wf k v).

Lemma mem_ready_ok kv w k v :
  mem_ready kv w k v = true → can_append w kv ∧ no_merge_due kv ∧ kv_wf k v.
Proof.
  unfold mem_ready. rewrite !andb_true_iff. intros (((((H1 & H2) & H3) & H4) & H5) & H6).
  apply bool_decide_eq_true_1 in H1, H2, H3, H4, H5, H6.
  split; [split; [by split|]|by split; [split|]]. intros c Hc. by rewrite Hc in H3.
Qed.

(** Insertions, as long as the store can take them. *)
Fixpoint mem_puts (l : list (bytes * bytes)) (kv : KVStore WasiStore) (w : mem_world)
    : option (KVStore WasiStore * mem_world) :=
  match l with
  | [] => Some (kv, w)
  | (k, v) :: l =>
    if mem_ready kv w k v then
      match guest_insert w kv k v with (Ok _, (kv, w)) => mem_puts l kv w | _ => None end
    else None
  end.

Definition puts_trace (l : list (bytes * bytes)) : list (kv_op * kv_result) :=
  map (λ x, (OpPut x.1 x.2, RUnit (Ok tt))) l.

Lemma mem_puts_run l : ∀ kv w t, mem_puts l kv w = Some t → kv_run (kv, w) (puts_trace l) t.
Proof.
  induction l as [|[k v] l IH]; intros kv w t H; cbn in H; [simplify_eq; constructor|].
  destruct (mem_ready kv w k v) eqn:Er; [|done]. apply mem_ready_ok in Er as (H1 & H2 & H3).
  destruct (guest_insert (WA:=mem_wasi) w kv k v) as [[[]| |] [kv' w']] eqn:E; try done.
  eapply run_cons; [exact (step_put (WA:=mem_wasi) kv w k v _ _ H1 H2 H3 E)|by apply IH].
Qed.

(** ** Witnesses *)

Definition restart_config : Config := small_config 1000 1000.
Definition restart_puts : list (bytes * bytes) := [(str "a", [1]); (str "b", [2; 3]); (str "a", [4])].

(** The store after the session. *)
Definition session_end : option (KVStore WasiStore * mem_world) :=
  match KVStore_new (S:=WasiStore) (MkMem ∅ 1) restart_config with
  | (Ok kv, w) => mem_puts restart_puts kv w
  | _ => None
  end.

(** The clock is ahead of the files. *)
Definition mem_fresh (t : KVStore WasiStore * mem_world) : bool :=
  bool_decide (is_u64 (next_file_id t.2))
  && bool_decide (file t.2 (seg_path (kv_segments t.1) (next_file_id t.2)) = None).

Lemma mem_fresh_ok kv w : mem_fresh (kv, w) = true → fresh (WA:=mem_wasi) w (kv_segments kv).
Proof.
  unfold mem_fresh. rewrite andb_true_iff. intros [H1 H2].
  apply bool_decide_eq_true_1 in H1, H2. by split.
Qed.

Lemma session_end_ok : match session_end with Some t => mem_fresh t | None => false end = true.
Proof. vm_compute. reflexivity. Qed.

Lemma session_survives_restart_witness :
  ∃ kv w1 kv2 w2, session_end = Some (kv, w1)
    ∧ KVStore_new (S:=WasiStore) w1 restart_config = (Ok kv2, w2)
    ∧ ∀ k, guest_get w2 kv2 k = guest_get w1 kv k.
Proof.
  pose proof session_end_ok as Hok. destruct session_end as [[kv w1]|] eqn:E; [|discriminate].
  pose proof E as E1. unfold session_end in E1.
  destruct (KVStore_new (WA:=mem_wasi) (S:=WasiStore) (MkMem ∅ 1) restart_config)
    as [[kv0|e|s] w0] eqn:E0; [|discriminate E1..].
  destruct (session_survives_restart (WA:=mem_wasi) (MkMem ∅ 1) restart_config kv0 w0
    (puts_trace restart_puts) kv w1) as (kv2 & w2 & m & H2 & _ & _ & _ & Hget).
  - apply mem_reopenable.
  - intros n. apply (lookup_empty (M:=gmap (bytes * bytes))).
  - by_eval.
  - eexists; split; reflexivity.
  - exact E0.
  - by apply mem_puts_run.
  - repeat constructor.
  - vm_compute. split; congruence.
  - by apply mem_fresh_ok.
  - exists kv, w1, kv2, w2. split; [reflexivity|]. split; [exact H2|]. apply Hget; apply mem_readable.
Defined.

(** A directory with two segment files. *)
Definition two_logs : gmap Z (list log_record) :=
  {[ 1 := [LogRecord 5 (str "a") [1] 0]; 3 := [LogRecord 7 (str "b") [] 1] ]}.

Definition two_files : @world mem_wasi :=
  MkMem {[ (str "db", segment_name 1) := log_file [LogRecord 5 (str "a") [1] 0];
           (str "db", segment_name 3) := log_file [LogRecord 7 (str "b") [] 1] ]} 9.

Lemma two_logged : logged (WA:=mem_wasi) two_files (str "db") two_logs.
Proof.
  split.
  - intros n [c Hc]. cbn in Hc. apply lookup_insert_Some in Hc as [[[= <-] _]|[_ Hc]].
    + exists 1. split; [by eexists|done].
    + apply lookup_singleton_Some in Hc as [[= <-] _]. exists 3. split; [by eexists|done].
  - intros id log Hlog. unfold two_logs in Hlog.
    apply lookup_insert_Some in Hlog as [[<- <-]|[_ Hlog]].
    + split_and!; [by_eval|by_eval|done].
    + apply lookup_singleton_Some in Hlog as [<- <-]. split_and!; [by_eval|by_eval|done].
Qed.

Lemma restart_reads_records_witness :
  ∃ kv w', KVStore_new (S:=WasiStore) two_files restart_config = (Ok kv, w')
    ∧ (guest_get w' kv (str "a") = Ok [1] ∨ guest_get w' kv (str "a") = Err EntryNotFound).
Proof.
  destruct (restart_reads_records (WA:=mem_wasi) two_files restart_config two_logs mem_reopenable
    two_logged) as (kv & w' & Hkv & _ & Hget).
  - by_eval.
  - split; by_eval.
  - eexists; split; reflexivity.
  - apply mem_readable.
  - exists kv, w'. split; [exact Hkv|].
    destruct (Hget (str "a")) as [(id & log & r & Hlog & Hl & ->)|[_ ->]]; [left|by right].
    unfold two_logs in Hlog.
    apply lookup_insert_Some in Hlog as [[<- <-]|[_ Hlog]]; [by vm_compute in Hl; injection Hl as <-|].
    apply lookup_singleton_Some in Hlog as [<- <-]. by vm_compute in Hl.
Defined.

(** A key written in one session and rewritten in the next. *)
Definition first_session : option (KVStore WasiStore * mem_world) :=
  match KVStore_new (S:=WasiStore) (MkMem ∅ 1) restart_config with
  | (Ok kv, w) => mem_puts [(str "k", [1])] kv w
  | _ => None
  end.

Definition second_session (w : mem_world) : option (KVStore WasiStore * mem_world) :=
  match KVStore_new (S:=WasiStore) w restart_config with
  | (Ok kv, w) => mem_puts [(str "k", [2])] kv w
  | _ => None
  end.

Lemma sessions_ok :
  match first_session with
  | Some (kv, w) =>
    mem_fresh (kv, w)
    && match guest_get w kv (str "k") with Ok v => bool_decide (v = [1]) | _ => false end
    && match second_session w with Some t => mem_fresh t | None => false end
  | None => false
  end = true.
Proof. vm_compute. reflexivity. Qed.

Lemma second_restart_loses_update_witness :
  ∃ kv3 w3 (iter : HashIter Z) kv4 w4, guest_get w3 kv3 (str "k") = Ok [2]
    ∧ KVStore_new (HI:=iter) (S:=WasiStore) w3 restart_config = (Ok kv4, w4)
    ∧ guest_get w4 kv4 (str "k") = Ok [1].
Proof.
  pose proof sessions_ok as Hok. destruct first_session as [[kv1 w1]|] eqn:E1; [|discriminate].
  apply andb_true_iff in Hok as [Hok Hsec]. apply andb_true_iff in Hok as [Hf1 Hg1].
  assert (guest_get (WA:=mem_wasi) w1 kv1 (str "k") = Ok [1]) as Hget.
  { destruct (guest_get _ _ _); [|discriminate Hg1..]. by apply bool_decide_eq_true_1 in Hg1 as ->. }
  destruct (second_session w1) as [[kv3 w3]|] eqn:E2; [|discriminate].
  unfold first_session in E1. unfold second_session in E2.
  destruct (KVStore_new (WA:=mem_wasi) (S:=WasiStore) (MkMem ∅ 1) restart_config)
    as [[kv0|e|s] w0] eqn:Hnew; [|discriminate E1..].
  destruct (KVStore_new (WA:=mem_wasi) (S:=WasiStore) w1 restart_config)
    as [[kv2|e|s] w2] eqn:Hnew2; [|discriminate E2..].
  cbn [mem_puts] in E2. destruct (mem_ready kv2 w2 (str "k") [2]) eqn:Er; [|discriminate E2].
  apply mem_ready_ok in Er as (H1 & H2 & H3).
  destruct (guest_insert (WA:=mem_wasi) w2 kv2 (str "k") [2]) as [[[]| |] [kv' w']] eqn:Hins;
    [|discriminate E2..]. injection E2 as -> ->.
  destruct (second_restart_loses_update (WA:=mem_wasi) (MkMem ∅ 1) restart_config kv0 w0
    (puts_trace [(str "k", [1])]) kv1 w1 kv2 w2 kv3 w3 (str "k") [1] [2] [1])
    as (Hg3 & iter & kv4 & w4 & Hnew4 & Hg4).
  - apply mem_reopenable.
  - apply mem_readable.
  - intros n. apply (lookup_empty (M:=gmap (bytes * bytes))).
  - by_eval.
  - eexists; split; reflexivity.
  - vm_compute. split; reflexivity.
  - exact Hnew.
  - by apply mem_puts_run.
  - repeat constructor.
  - vm_compute. congruence.
  - exact Hget.
  - by apply mem_fresh_ok.
  - exact Hnew2.
  - exact H1.
  - exact H2.
  - exact H3.
  - exact Hins.
  - by apply mem_fresh_ok.
  - by left.
  - exists kv3, w3, iter, kv4, w4. split; [exact Hg3|]. split; [exact Hnew4|exact Hg4].
Defined.
