(* ===== verification/WalletTypes.v ===== *)
(** * Wallet data and helpers ([crates/wallet/src/{types,utils}.rs])

    Amounts, fee rates and weights are the [bitcoin] crate's: integers here, with
    the crate's fee, dust and weight functions as parameters. *)

From S2P Require Import Prelude.

(** ** The [bitcoin] crate *)

(** [FeeRate * Weight] (an [Amount]; the crate panics on overflow),
    [TxIn::default().segwit_weight()], [Weight::from_vb],
    [consensus::encode::serialize(script).len()] and [Script::minimal_non_dust]. *)
Class BitcoinCrate := {
  fee_mul : Z → Z → option Z;
  txin_segwit_weight : Z;
  weight_from_vb : Z → option Z;
  script_serialized_len : bytes → Z;
  minimal_non_dust : bytes → Z;
  fee_mul_amount rate weight a : fee_mul rate weight = Some a → 0 ≤ a;
  minimal_non_dust_amount s : 0 ≤ minimal_non_dust s;
}.

(** [bitcoin::OutPoint]: a transaction id and an output index. *)
Definition OutPoint : Type := bytes * Z.

#[export] Instance OutPoint_eq_dec : EqDecision OutPoint := _.
#[export] Instance OutPoint_countable : Countable OutPoint := _.

(** [bitcoin::TxOut]. *)
Record TxOut := MkTxOut { txo_value : Z; txo_script_pubkey : bytes }.

#[export] Instance TxOut_eq_dec : EqDecision TxOut.
Proof. solve_decision. Defined.

(** ** [types.rs] *)

Inductive KeychainKind := External | Internal.

#[export] Instance KeychainKind_eq_dec : EqDecision KeychainKind.
Proof. solve_decision. Defined.

Definition KeychainKind_as_u32 (k : KeychainKind) : Z :=
  match k with External => 0 | Internal => 1 end.

Record Utxo := MkUtxo {
  utxo_outpoint : OutPoint;
  utxo_txout : TxOut;
  utxo_keychain : KeychainKind;
  utxo_is_spent : bool;
  utxo_derivation_index : Z;
  utxo_chain_position : option Z;
}.

#[export] Instance Utxo_eq_dec : EqDecision Utxo.
Proof. solve_decision. Defined.

Record WeightedUtxo := MkWeightedUtxo { wu_satisfaction_weight : Z; wu_utxo : Utxo }.

#[export] Instance WeightedUtxo_eq_dec : EqDecision WeightedUtxo.
Proof. solve_decision. Defined.

Record PartialUtxo := MkPartialUtxo {
  pu_outpoint : OutPoint;
  pu_amount : Z;
  pu_script : bytes;
  pu_is_spent : bool;
}.

#[export] Instance PartialUtxo_eq_dec : EqDecision PartialUtxo.
Proof. solve_decision. Defined.

Definition PartialUtxo_from (u : Utxo) : PartialUtxo :=
  MkPartialUtxo (utxo_outpoint u) (txo_value (utxo_txout u))
    (txo_script_pubkey (utxo_txout u)) (utxo_is_spent u).

Record PubkeyDetails := MkPubkeyDetails { pd_key_type : KeychainKind; pd_key_depth : Z }.

#[export] Instance PubkeyDetails_eq_dec : EqDecision PubkeyDetails.
Proof. solve_decision. Defined.

(** The value of a weighted output. *)
Definition wu_value (u : WeightedUtxo) : Z := txo_value (utxo_txout (wu_utxo u)).

(** ** [utils.rs] *)

Definition is_dust `{BitcoinCrate} (amount : Z) (script : bytes) : bool :=
  amount <? minimal_non_dust script.

Record After := MkAfter { after_current_height : option Z; after_assume_height_reached : bool }.

Record Older := MkOlder {
  older_current_height : option Z;
  older_create_height : option Z;
  older_assume_height_reached : bool;
}.

(** [Sequence::is_relative_lock_time] (bit 31 clear) and [is_time_locked] (bit 22
    set of a relative lock time), as BIP 68 defines them: the crate's. *)
Class SequenceCrate := {
  is_relative_lock_time : Z → bool;
  is_time_locked : Z → bool;
  relative_spec s : is_relative_lock_time s = negb (Z.testbit s 31);
  time_spec s : is_time_locked s = negb (Z.testbit s 31) && Z.testbit s 22;
}.

Definition check_nsequence_rbf `{SequenceCrate} (sequence csv : Z) : bool :=
  if negb (is_relative_lock_time sequence) then false
  else if negb (eqb (is_time_locked sequence) (is_time_locked csv)) then false
  else if sequence <? csv then false
  else true.

(** [rand_core::RngCore], as far as it is used. *)
Class RngCore (R : Type) := {
  next_u32 : R → Z * R;
  next_u32_range r : is_u32 (next_u32 r).1;
}.

(** [slice::swap]. *)
Definition swap {A} (l : list A) (i j : nat) : list A :=
  match l !! i, l !! j with
  | Some x, Some y => <[i := y]> (<[j := x]> l)
  | _, _ => l
  end.

(** The loop of [shuffle_slice], from [current_index] down to 1. *)
Fixpoint shuffle_loop {A R} `{RngCore R} (current_index : nat) (list : list A) (rng : R)
    : Datatypes.list A * R :=
  match current_index with
  | O => (list, rng)
  | S i =>
    let '(n, rng) := next_u32 rng in
    let random_index := Z.to_nat (n mod Z.of_nat (current_index + 1)) in
    shuffle_loop i (swap list current_index random_index) rng
  end.

Definition shuffle_slice {A R} `{RngCore R} (list : list A) (rng : R) : Datatypes.list A * R :=
  if bool_decide (list = []) then (list, rng)
  else shuffle_loop (length list - 1) list rng.

(** ** Lemmas *)

Lemma swap_permutation {A} (l : list A) i j : swap l i j ≡ₚ l.
Proof.
  unfold swap. destruct (l !! i) as [x|] eqn:Hi; [|done].
  destruct (l !! j) as [y|] eqn:Hj; [|done]. by apply Permutation_insert_swap.
Qed.

Lemma shuffle_loop_permutation {A R} `{RngCore R} n (l : list A) rng :
  (shuffle_loop n l rng).1 ≡ₚ l.
Proof.
  revert l rng. induction n as [|n IH]; intros l rng; [done|]. cbn [shuffle_loop].
  destruct (next_u32 rng) as [r rng']. by rewrite IH, swap_permutation.
Qed.

Lemma shuffle_slice_permutation {A R} `{RngCore R} (l : list A) rng :
  (shuffle_slice l rng).1 ≡ₚ l.
Proof.
  unfold shuffle_slice. case_bool_decide; [done|]. apply shuffle_loop_permutation.
Qed.

(** ** Properties *)

(** Shuffling only reorders: every element is kept, none is added or lost. *)
Theorem shuffle_is_permutation {A R} `{RngCore R} (l : list A) rng :
  (shuffle_slice l rng).1 ≡ₚ l ∧ length (shuffle_slice l rng).1 = length l.
Proof.
  split; [apply shuffle_slice_permutation|]. by rewrite shuffle_slice_permutation.
Qed.

(** A sequence number satisfies a relative lock time exactly when bit 31 is
    clear, both count in the same unit (bit 22) and it is at least as large. *)
Theorem check_nsequence_rbf_spec `{SequenceCrate} sequence csv :
  check_nsequence_rbf sequence csv = true ↔
    Z.testbit sequence 31 = false
    ∧ Z.testbit sequence 22 = negb (Z.testbit csv 31) && Z.testbit csv 22
    ∧ csv ≤ sequence.
Proof.
  unfold check_nsequence_rbf. rewrite relative_spec, !time_spec, negb_involutive.
  destruct (Z.testbit sequence 31) eqn:E; [naive_solver|]. cbn [negb andb].
  destruct (Z.testbit sequence 22), (negb (Z.testbit csv 31) && Z.testbit csv 22);
    cbn [eqb negb]; try naive_solver;
    destruct (Z.ltb_spec sequence csv); split; try done; try lia; intros (_ & _ & ?); lia.
Qed.
