(* ===== verification/CoinSelection.v ===== *)
(** * Coin selection ([crates/wallet/src/coin_selection.rs])

    Choosing the outputs a payment spends: single random draw, and branch and bound
    with the draw as its fallback.  Amounts are unsigned 64-bit, effective values
    signed 64-bit; an operation that leaves the range panics. *)

From S2P Require Import Prelude WalletTypes.

Record InsufficientFunds := MkInsufficientFunds { if_needed : Z; if_available : Z }.

#[export] Instance InsufficientFunds_eq_dec : EqDecision InsufficientFunds.
Proof. solve_decision. Defined.

Inductive Excess :=
| NoChange (dust_threshold remaining_amount change_fee : Z)
| Change (amount fee : Z).

Record CoinSelectionResult := MkCoinSelectionResult {
  csr_selected : list Utxo;
  csr_fee_amount : Z;
  csr_excess : Excess;
}.

(** [Amount] and [SignedAmount] arithmetic; [to_signed] and [to_unsigned]. *)
Definition amount_add {E} (a b : Z) : outcome E Z := add_u64 a b.
Definition amount_sub {E} (a b : Z) : outcome E Z := sub_u64 a b.
Definition to_signed {E} (a : Z) : outcome E Z :=
  if a <? 9223372036854775808 then Ok a else Panic "signed amount".
Definition to_unsigned {E} (msg : string) (a : Z) : outcome E Z :=
  if 0 <=? a then Ok a else Panic msg.

(** [Iterator::sum] of amounts, and folds that add. *)
Fixpoint sum_with {E A} (add : Z → Z → outcome E Z) (f : A → outcome E Z) (acc : Z)
    (l : list A) : outcome E Z :=
  match l with
  | [] => Ok acc
  | x :: l => v ← f x; acc ← add acc v; sum_with add f acc l
  end.

Definition selected_amount {E} (r : CoinSelectionResult) : outcome E Z :=
  sum_with amount_add (λ u, Ok (txo_value (utxo_txout u))) 0 (csr_selected r).

Section CoinSelection.
  Context `{BC : BitcoinCrate}.

(** ** Change *)

Definition decide_change {E} (remaining_amount fee_rate : Z) (drain_script : bytes)
    : outcome E Excess :=
  drain_output_len ← add_u32 (script_serialized_len drain_script) 8;
  weight ← unwrap_opt "overflow occurred" (weight_from_vb drain_output_len);
  change_fee ← unwrap_opt "overflow" (fee_mul fee_rate weight);
  let drain_val := if change_fee <=? remaining_amount then remaining_amount - change_fee else 0 in
  if is_dust drain_val drain_script
  then Ok (NoChange (minimal_non_dust drain_script) remaining_amount change_fee)
  else Ok (Change drain_val change_fee).

(** The fee of spending an output: the base weight of an input plus its
    satisfaction weight, at the fee rate. *)
Definition input_fee {E} (fee_rate : Z) (u : WeightedUtxo) : outcome E Z :=
  weight ← checked 0 18446744073709551616
             "`Weight` addition should not cause an integer overflow"
             (txin_segwit_weight + wu_satisfaction_weight u);
  unwrap_opt "overflow" (fee_mul fee_rate weight).

(** ** Single random draw *)

(** The [scan]: outputs are taken while they are required or the target is not
    reached, and the iteration ends at the first that is neither. *)
Fixpoint scan_utxos (utxos : list (bool * WeightedUtxo)) (fee_rate target_amount : Z)
    (selected_amount fee_amount : Z) : outcome InsufficientFunds (list Utxo * Z * Z) :=
  match utxos with
  | [] => Ok ([], selected_amount, fee_amount)
  | (must_use, weighted_utxo) :: utxos =>
    take ← (if must_use : bool then Ok true
            else needed ← amount_add target_amount fee_amount;
                 Ok (selected_amount <? needed));
    if take : bool then
      fee ← input_fee fee_rate weighted_utxo;
      fee_amount ← amount_add fee_amount fee;
      selected_amount ← amount_add selected_amount (wu_value weighted_utxo);
      r ← scan_utxos utxos fee_rate target_amount selected_amount fee_amount;
      Ok (wu_utxo weighted_utxo :: r.1.1, r.1.2, r.2)
    else Ok ([], selected_amount, fee_amount)
  end.

Definition select_sorted_utxos (utxos : list (bool * WeightedUtxo)) (fee_rate target_amount : Z)
    (drain_script : bytes) : outcome InsufficientFunds CoinSelectionResult :=
  r ← scan_utxos utxos fee_rate target_amount 0 0;
  let '(selected, selected_amount, fee_amount) := (r : list Utxo * Z * Z) in
  amount_needed_with_fees ← amount_add target_amount fee_amount;
  if selected_amount <? amount_needed_with_fees
  then Err (MkInsufficientFunds amount_needed_with_fees selected_amount)
  else
    remaining_amount ← amount_sub selected_amount amount_needed_with_fees;
    excess ← decide_change remaining_amount fee_rate drain_script;
    Ok (MkCoinSelectionResult selected fee_amount excess).

Definition SingleRandomDraw_coin_select {R} `{RngCore R}
    (required_utxos optional_utxos : list WeightedUtxo) (fee_rate target_amount : Z)
    (drain_script : bytes) (rand : R) : outcome InsufficientFunds CoinSelectionResult * R :=
  let '(optional_utxos, rand) := shuffle_slice optional_utxos rand in
  (select_sorted_utxos
     (map (λ u, (true, u)) required_utxos ++ map (λ u, (false, u)) optional_utxos)
     fee_rate target_amount drain_script, rand).

(** ** Output groups *)

Record OutputGroup := MkOutputGroup {
  og_weighted_utxo : WeightedUtxo;
  og_fee : Z;
  og_effective_value : Z;
}.

Definition OutputGroup_new {E} (fee_rate : Z) (weighted_utxo : WeightedUtxo)
    : outcome E OutputGroup :=
  fee ← input_fee fee_rate weighted_utxo;
  value ← to_signed (wu_value weighted_utxo);
  signed_fee ← to_signed fee;
  effective_value ← sub_i64 value signed_fee;
  Ok (MkOutputGroup weighted_utxo fee effective_value).

(** [iter().map(|u| OutputGroup::new(u, fee_rate)).collect()]. *)
Fixpoint output_groups {E} (fee_rate : Z) (l : list WeightedUtxo)
    : outcome E (list OutputGroup) :=
  match l with
  | [] => Ok []
  | u :: l => g ← OutputGroup_new fee_rate u; gs ← output_groups fee_rate l; Ok (g :: gs)
  end.

(** ** Branch and bound *)

Inductive BnbError := NoExactMatch | TotalTriesExceeded.

Definition BNB_TOTAL_TRIES : nat := N.to_nat 100000.

(** The variables of the search.  [current_selection] and [best_selection] are
    vectors used as stacks: here their last element comes first. *)
Record bnb_state := MkBnb {
  bnb_current_selection : list bool;
  bnb_curr_value : Z;
  bnb_curr_available_value : Z;
  bnb_best_selection : list bool;
  bnb_best_selection_value : option Z;
}.

Inductive bnb_step := Continue (s : bnb_state) | Break (s : bnb_state).

(** [optional_utxos[i].effective_value]. *)
Definition value_at {E} (ogs : list OutputGroup) (i : nat) : outcome E Z :=
  g ← unwrap_opt "index out of bounds" (ogs !! i); Ok (og_effective_value g).

(** [while let Some(false) = current_selection.last() { ... }]. *)
Fixpoint walk_back {E} (ogs : list OutputGroup) (selection : list bool) (available : Z)
    : outcome E (list bool * Z) :=
  match selection with
  | false :: selection =>
    v ← value_at ogs (length selection);
    available ← add_i64 available v;
    walk_back ogs selection available
  | _ => Ok (selection, available)
  end.

Definition bnb_backtrack (ogs : list OutputGroup) (s : bnb_state) : outcome BnbError bnb_step :=
  r ← walk_back ogs (bnb_current_selection s) (bnb_curr_available_value s);
  let '(selection, available) := (r : list bool * Z) in
  match selection with
  | [] =>
    if bool_decide (bnb_best_selection s = []) then Err NoExactMatch
    else Ok (Break (MkBnb [] (bnb_curr_value s) available (bnb_best_selection s)
                      (bnb_best_selection_value s)))
  | _ :: selection =>
    v ← value_at ogs (length selection);
    value ← sub_i64 (bnb_curr_value s) v;
    Ok (Continue (MkBnb (false :: selection) value available (bnb_best_selection s)
                    (bnb_best_selection_value s)))
  end.

Definition bnb_forward (ogs : list OutputGroup) (s : bnb_state) : outcome BnbError bnb_step :=
  v ← value_at ogs (length (bnb_current_selection s));
  available ← sub_i64 (bnb_curr_available_value s) v;
  value ← add_i64 (bnb_curr_value s) v;
  Ok (Continue (MkBnb (true :: bnb_current_selection s) value available
                  (bnb_best_selection s) (bnb_best_selection_value s))).

(** [best_selection_value.is_none() || curr_value < best_selection_value.unwrap()]. *)
Definition bnb_record (s : bnb_state) : bnb_state :=
  if match bnb_best_selection_value s with
     | None => true
     | Some best => bnb_curr_value s <? best
     end
  then MkBnb (bnb_current_selection s) (bnb_curr_value s) (bnb_curr_available_value s)
         (bnb_current_selection s) (Some (bnb_curr_value s))
  else s.

(** One turn of the search. *)
Definition bnb_turn (ogs : list OutputGroup) (target_amount cost_of_change : Z) (s : bnb_state)
    : outcome BnbError bnb_step :=
  reachable ← add_i64 (bnb_curr_value s) (bnb_curr_available_value s);
  out ← (if reachable <? target_amount then Ok true
         else limit ← add_i64 target_amount cost_of_change;
              Ok (limit <? bnb_curr_value s));
  if out : bool then bnb_backtrack ogs s
  else if target_amount <=? bnb_curr_value s then
    let s := bnb_record s in
    if bnb_curr_value s =? target_amount then Ok (Break s) else bnb_backtrack ogs s
  else bnb_forward ogs s.

(** [for _ in 0..BNB_TOTAL_TRIES { ... }]. *)
Fixpoint bnb_loop (tries : nat) (ogs : list OutputGroup) (target_amount cost_of_change : Z)
    (s : bnb_state) : outcome BnbError bnb_state :=
  match tries with
  | O => Ok s
  | S tries =>
    r ← bnb_turn ogs target_amount cost_of_change s;
    match r with
    | Continue s => bnb_loop tries ogs target_amount cost_of_change s
    | Break s => Ok s
    end
  end.

(** [sort_unstable_by_key(effective_value)], then [reverse]. *)
Definition og_le (a b : OutputGroup) : Prop := og_effective_value a ≤ og_effective_value b.
#[global] Instance og_le_dec : RelDecision og_le.
Proof. intros a b. unfold og_le. apply _. Defined.

Definition sort_descending (ogs : list OutputGroup) : list OutputGroup :=
  reverse (merge_sort og_le ogs).

(** [zip(best_selection).filter_map(..)]. *)
Fixpoint pick {A} (l : list A) (selection : list bool) : list A :=
  match l, selection with
  | x :: l, true :: selection => x :: pick l selection
  | _ :: l, false :: selection => pick l selection
  | _, _ => []
  end.

Definition calculate_cs_result {E} (selected_utxos required_utxos : list OutputGroup)
    (excess : Excess) : outcome E CoinSelectionResult :=
  let selected_utxos := selected_utxos ++ required_utxos in
  fee_amount ← sum_with amount_add (λ u, Ok (og_fee u)) 0 selected_utxos;
  Ok (MkCoinSelectionResult (map (λ u, wu_utxo (og_weighted_utxo u)) selected_utxos)
        fee_amount excess).

Definition bnb (required_utxos optional_utxos : list OutputGroup)
    (curr_value curr_available_value target_amount cost_of_change : Z)
    (drain_script : bytes) (fee_rate : Z) : outcome BnbError CoinSelectionResult :=
  let optional_utxos := sort_descending optional_utxos in
  s ← bnb_loop BNB_TOTAL_TRIES optional_utxos target_amount cost_of_change
        (MkBnb [] curr_value curr_available_value [] None);
  if bool_decide (bnb_best_selection s = []) then Err TotalTriesExceeded
  else
    let selected_utxos := pick optional_utxos (reverse (bnb_best_selection s)) in
    selected_amount ← unwrap_opt "called `Option::unwrap()` on a `None` value"
                        (bnb_best_selection_value s);
    difference ← sub_i64 selected_amount target_amount;
    remaining_amount ← to_unsigned "valid unsigned" difference;
    excess ← decide_change remaining_amount fee_rate drain_script;
    calculate_cs_result selected_utxos required_utxos excess.

(** The size of a P2WPKH change output. *)
Definition size_of_change : Z := 8 + 1 + 22.

(** The first half of [coin_select]: the output groups, the value of the required
    ones, the value available and the cost of change, unless all of them together
    do not reach the target. *)
Definition prepare (required_utxos optional_utxos : list WeightedUtxo)
    (fee_rate target_amount : Z)
    : outcome InsufficientFunds (list OutputGroup * list OutputGroup * Z * Z * Z) :=
  required_ogs ← output_groups fee_rate required_utxos;
  all_optional ← output_groups fee_rate optional_utxos;
  let optional_ogs := filter (λ u, 0 < og_effective_value u) all_optional in
  curr_value ← sum_with add_i64 (λ u, Ok (og_effective_value u)) 0 required_ogs;
  curr_available_value ← sum_with add_i64 (λ u, Ok (og_effective_value u)) 0 optional_ogs;
  weight ← unwrap_opt "overflow occurred" (weight_from_vb size_of_change);
  change ← unwrap_opt "overflow" (fee_mul fee_rate weight);
  cost_of_change ← to_signed change;
  total_value ← add_i64 curr_available_value curr_value;
  if (0 <=? total_value) && (target_amount <=? total_value) then
    Ok (required_ogs, optional_ogs, curr_value, curr_available_value, cost_of_change)
  else
    utxo_fees ← sum_with amount_add (λ u, Ok (og_fee u)) 0 (required_ogs ++ optional_ogs);
    utxo_value ← sum_with amount_add (λ u, Ok (wu_value (og_weighted_utxo u))) 0
                   (required_ogs ++ optional_ogs);
    needed ← amount_add target_amount utxo_fees;
    Err (MkInsufficientFunds needed utxo_value).

(** [BranchAndBoundCoinSelection::<SingleRandomDraw>::default().coin_select]. *)
Definition coin_select {R} `{RngCore R} (required_utxos optional_utxos : list WeightedUtxo)
    (fee_rate target_amount : Z) (drain_script : bytes) (rand : R)
    : outcome InsufficientFunds CoinSelectionResult * R :=
  match prepare required_utxos optional_utxos fee_rate target_amount with
  | Err e => (Err e, rand)
  | Panic m => (Panic m, rand)
  | Ok (required_ogs, optional_ogs, curr_value, curr_available_value, cost_of_change) =>
    match @to_signed InsufficientFunds target_amount with
    | Err e => (Err e, rand)
    | Panic m => (Panic m, rand)
    | Ok signed_target_amount =>
      if signed_target_amount <? curr_value then
        (difference ← sub_i64 curr_value signed_target_amount;
         remaining_amount ← to_unsigned "remaining amount can't be negative" difference;
         excess ← decide_change remaining_amount fee_rate drain_script;
         calculate_cs_result [] required_ogs excess, rand)
      else
        match bnb required_ogs optional_ogs curr_value curr_available_value
                signed_target_amount cost_of_change drain_script fee_rate with
        | Ok r => (Ok r, rand)
        | Panic m => (Panic m, rand)
        | Err _ =>
          SingleRandomDraw_coin_select required_utxos optional_utxos fee_rate target_amount
            drain_script rand
        end
    end
  end.

(** ** Duplicates *)

(** [filter(|utxo| visited.insert(utxo.outpoint()))]. *)
Fixpoint filter_visited (visited : gset OutPoint) (l : list WeightedUtxo)
    : list WeightedUtxo * gset OutPoint :=
  match l with
  | [] => ([], visited)
  | u :: l =>
    let o := utxo_outpoint (wu_utxo u) in
    if bool_decide (o ∈ visited) then filter_visited visited l
    else let '(r, visited) := filter_visited ({[o]} ∪ visited) l in (u :: r, visited)
  end.

Definition filter_duplicates (required optional : list WeightedUtxo)
    : list WeightedUtxo * list WeightedUtxo :=
  let '(required, visited) := filter_visited ∅ required in
  let '(optional, _) := filter_visited visited optional in
  (required, optional).

End CoinSelection.

(** ** Totals *)

Definition zsum {A} (f : A → Z) (l : list A) : Z := foldr (λ x n, f x + n) 0 l.

Lemma zsum_app {A} (f : A → Z) l k : zsum f (l ++ k) = zsum f l + zsum f k.
Proof. induction l as [|x l IH]; cbn; [done|]. unfold zsum in *. cbn. lia. Qed.

Lemma zsum_one {A} (f : A → Z) x : zsum f [x] = f x.
Proof. unfold zsum. cbn. lia. Qed.

Lemma zsum_map {A B} (f : B → Z) (g : A → B) l : zsum f (map g l) = zsum (f ∘ g) l.
Proof. induction l as [|x l IH]; [done|]. cbn. unfold zsum in *. cbn. by rewrite IH. Qed.

#[export] Instance zsum_perm {A} (f : A → Z) : Proper (Permutation ==> eq) (zsum f).
Proof.
  intros l k H. unfold zsum. induction H; cbn; try congruence; lia.
Qed.

Lemma zsum_ext {A} (f g : A → Z) l : Forall (λ x, f x = g x) l → zsum f l = zsum g l.
Proof. induction 1 as [|x l Hx _ IH]; [done|]. unfold zsum in *. cbn. by rewrite Hx, IH. Qed.

Lemma zsum_sub {A} (f g : A → Z) l : zsum (λ x, f x - g x) l = zsum f l - zsum g l.
Proof. induction l as [|x l IH]; [done|]. unfold zsum in *. cbn. lia. Qed.

Lemma zsum_nonneg {A} (f : A → Z) l : Forall (λ x, 0 ≤ f x) l → 0 ≤ zsum f l.
Proof. induction 1; unfold zsum in *; cbn; lia. Qed.

(** A checked sum that returns is the sum. *)
Lemma sum_with_inv {E A} lo hi msg (f : A → Z) acc l s :
  sum_with (λ a b, @checked E lo hi msg (a + b)) (λ x, Ok (f x)) acc l = Ok s →
  s = acc + zsum f l.
Proof.
  revert acc. induction l as [|x l IH]; intros acc H; cbn in H.
  - injection H as <-. unfold zsum. cbn. lia.
  - apply outcome_bind_ok in H as (a & [-> _]%checked_inv & H). apply IH in H.
    unfold zsum in *. cbn. lia.
Qed.

Lemma sum_amount_inv {E A} (f : A → Z) l s :
  sum_with (@amount_add E) (λ x, Ok (f x)) 0 l = Ok s → s = zsum f l.
Proof. intros H. apply sum_with_inv in H. lia. Qed.

Lemma sum_signed_inv {E A} (f : A → Z) l s :
  sum_with (@add_i64 E) (λ x, Ok (f x)) 0 l = Ok s → s = zsum f l.
Proof. intros H. apply sum_with_inv in H. lia. Qed.

(** What an excess amounts to. *)
Definition excess_total (e : Excess) : Z :=
  match e with NoChange _ remaining _ => remaining | Change amount fee => amount + fee end.

Section CoinSelectionLaws.
  Context `{BC : BitcoinCrate}.

(** The fee of spending an output. *)
Definition fee_of (fee_rate : Z) (u : WeightedUtxo) : Z :=
  match @input_fee BC unit fee_rate u with Ok f => f | _ => 0 end.

Lemma input_fee_inv {E} fee_rate u f :
  @input_fee BC E fee_rate u = Ok f → f = fee_of fee_rate u ∧ 0 ≤ f.
Proof.
  unfold fee_of, input_fee. intros H. apply outcome_bind_ok in H as (w & Hw & H).
  apply checked_inv in Hw as [-> Hw]. rewrite checked_ok by done. cbn.
  destruct (fee_mul _ _) eqn:E1; cbn in H |- *; simplify_eq.
  by apply fee_mul_amount in E1.
Qed.

(** Change is worth more than dust, and nothing is paid that was not there. *)
Definition excess_ok (drain : bytes) (e : Excess) : Prop :=
  match e with
  | NoChange _ remaining _ => 0 ≤ remaining
  | Change amount fee => minimal_non_dust drain ≤ amount ∧ 0 ≤ fee
  end.

Lemma decide_change_total {E} remaining fee_rate drain e :
  0 < minimal_non_dust drain → @decide_change BC E remaining fee_rate drain = Ok e →
  excess_total e = remaining ∧ (0 ≤ remaining → excess_ok drain e).
Proof.
  intros Hdust H. unfold decide_change in H.
  apply outcome_bind_ok in H as (len & _ & H).
  apply outcome_bind_ok in H as (wt & _ & H).
  apply outcome_bind_ok in H as (fee & Hfee & H). unfold is_dust in H.
  assert (0 ≤ fee) by (destruct (fee_mul _ _) eqn:Em; [|done]; simplify_eq/=;
    by eapply fee_mul_amount).
  set (v := if fee <=? remaining then remaining - fee else 0) in H.
  destruct (Z.ltb_spec v (minimal_non_dust drain)) as [Hd|Hd]; simplify_eq; [done|].
  cbn. unfold v in *. destruct (Z.leb_spec fee remaining); [|lia].
  split; [lia|]. intros _. split; lia.
Qed.

Lemma decide_change_not_err {E} remaining fee_rate drain e :
  @decide_change BC E remaining fee_rate drain ≠ Err e.
Proof.
  unfold decide_change. destruct (add_u32 _ _) eqn:E1; cbn; try done;
    [|by apply checked_not_err in E1].
  destruct (weight_from_vb _); cbn; [|done]. destruct (fee_mul _ _); cbn; [|done].
  by destruct (is_dust _ _).
Qed.

(** ** The draw *)

Lemma scan_utxos_inv utxos fee_rate target sa fa sel sa' fa' :
  scan_utxos utxos fee_rate target sa fa = Ok (sel, sa', fa') →
  ∃ taken rest, utxos = taken ++ rest
    ∧ sel = map (λ x, wu_utxo x.2) taken
    ∧ sa' = sa + zsum (λ x, wu_value x.2) taken
    ∧ fa' = fa + zsum (λ x, fee_of fee_rate x.2) taken
    ∧ (rest = [] ∨ ∃ u rest', rest = (false, u) :: rest' ∧ target + fa' ≤ sa').
Proof.
  revert sa fa sel. induction utxos as [|[must u] utxos IH]; intros sa fa sel H.
  - cbn in H. simplify_eq. exists [], []. unfold zsum. cbn. split_and!; try done; try lia. by left.
  - cbn [scan_utxos] in H. apply outcome_bind_ok in H as (t & Ht & H). destruct t.
    + apply outcome_bind_ok in H as (fee & Hfee & H).
      apply input_fee_inv in Hfee as [-> _].
      apply outcome_bind_ok in H as (fa1 & [-> _]%checked_inv & H).
      apply outcome_bind_ok in H as (sa1 & [-> _]%checked_inv & H).
      apply outcome_bind_ok in H as ([[sel1 sa2] fa2] & Hr & H). cbn in H. simplify_eq.
      destruct (IH _ _ _ Hr) as (taken & rest & -> & -> & -> & -> & Hrest).
      exists ((must, u) :: taken), rest. unfold zsum in *. cbn.
      split; [done|]. split; [done|]. split; [lia|]. split; [lia|].
      destruct Hrest as [->|(v & rest' & -> & Hle)]; [by left|right].
      eexists _, _. split; [done|]. cbn. lia.
    + simplify_eq. exists [], ((must, u) :: utxos). unfold zsum. cbn.
      split; [done|]. split; [done|]. split; [lia|]. split; [lia|]. right.
      destruct must; [done|]. apply outcome_bind_ok in Ht as (n & [-> _]%checked_inv & Ht).
      injection Ht as Ht. apply Z.ltb_ge in Ht. eexists _, _. split; [done|]. lia.
Qed.

Lemma input_fee_not_err {E} fee_rate u e : @input_fee BC E fee_rate u ≠ Err e.
Proof.
  unfold input_fee. destruct (checked _ _ _ _) eqn:Ec; cbn; try done;
    [by destruct (fee_mul _ _)|by apply checked_not_err in Ec].
Qed.

Lemma scan_utxos_not_err utxos fee_rate target sa fa e :
  scan_utxos utxos fee_rate target sa fa ≠ Err e.
Proof.
  revert sa fa. induction utxos as [|[must u] utxos IH]; intros sa fa H; [done|].
  cbn [scan_utxos] in H.
  assert (∀ b : bool, (if b then
      fee ← input_fee fee_rate u; fa ← amount_add fa fee; sa ← amount_add sa (wu_value u);
      r ← scan_utxos utxos fee_rate target sa fa;
      Ok (wu_utxo u :: r.1.1, r.1.2, r.2) else Ok ([], sa, fa)) ≠ Err e) as Hb.
  { intros [|] Hx; [|done]. destruct (input_fee fee_rate u) eqn:E1; cbn in Hx; try done;
      [|by apply input_fee_not_err in E1].
    destruct (amount_add fa a) eqn:E2; cbn in Hx; try done; [|by apply checked_not_err in E2].
    destruct (amount_add sa _) eqn:E3; cbn in Hx; try done; [|by apply checked_not_err in E3].
    destruct (scan_utxos _ _ _ _ _) eqn:E4; cbn in Hx; simplify_eq. by eapply IH. }
  destruct must; cbn [mbind outcome_bind] in H; [by apply (Hb true)|].
  destruct (amount_add target fa) eqn:E0; cbn [mbind outcome_bind] in H; try done.
  - by eapply Hb.
  - by apply checked_not_err in E0.
Qed.

(** What the draw returns, or why it fails: either the outputs taken from the front
    pay the target and their fees and the rest is the excess, or all outputs
    together do not. *)
Lemma select_sorted_utxos_inv utxos fee_rate target drain :
  0 < minimal_non_dust drain →
  match select_sorted_utxos utxos fee_rate target drain with
  | Ok r => ∃ taken rest, utxos = taken ++ rest
      ∧ csr_selected r = map (λ x, wu_utxo x.2) taken
      ∧ csr_fee_amount r = zsum (λ x, fee_of fee_rate x.2) taken
      ∧ zsum (λ x, wu_value x.2) taken
        = target + csr_fee_amount r + excess_total (csr_excess r)
      ∧ excess_ok drain (csr_excess r)
      ∧ (rest = [] ∨ ∃ u rest', rest = (false, u) :: rest')
  | Err e =>
      if_needed e = target + zsum (λ x, fee_of fee_rate x.2) utxos
      ∧ if_available e = zsum (λ x, wu_value x.2) utxos ∧ if_available e < if_needed e
  | Panic _ => True
  end.
Proof.
  intros Hdust. unfold select_sorted_utxos.
  destruct (scan_utxos utxos fee_rate target 0 0) as [[[sel sa] fa]|e|] eqn:Hscan;
    [|by apply scan_utxos_not_err in Hscan|done].
  destruct (scan_utxos_inv _ _ _ _ _ _ _ _ Hscan) as (taken & rest & -> & -> & -> & -> & Hrest).
  cbn [mbind outcome_bind]. rewrite !Z.add_0_l in *.
  destruct (amount_add target _) as [needed| |] eqn:En; [|by apply checked_not_err in En|done].
  apply checked_inv in En as [-> _]. cbn [mbind outcome_bind].
  destruct (Z.ltb_spec (zsum (λ x, wu_value x.2) taken)
    (target + zsum (λ x, fee_of fee_rate x.2) taken)) as [Hlt|Hge].
  - destruct Hrest as [->|(u & rest' & -> & Hle)]; [|lia]. rewrite app_nil_r. done.
  - destruct (amount_sub _ _) as [rem| |] eqn:Er; [|by apply checked_not_err in Er|done].
    apply checked_inv in Er as [-> _]. cbn [mbind outcome_bind].
    destruct (decide_change _ _ _) as [ex|ee|] eqn:Ed; [|by apply decide_change_not_err in Ed|done].
    cbn. apply decide_change_total in Ed as [Hex Hok]; [|done].
    exists taken, rest. split_and!; try done; [lia|apply Hok; lia|].
    destruct Hrest as [->|(u & rest' & -> & _)]; [by left|right; eauto].
Qed.

(** ** Output groups *)

Definition og_ok (fee_rate : Z) (g : OutputGroup) : Prop :=
  og_fee g = fee_of fee_rate (og_weighted_utxo g)
  ∧ og_effective_value g = wu_value (og_weighted_utxo g) - og_fee g.

Lemma output_groups_inv {E} fee_rate l gs :
  @output_groups BC E fee_rate l = Ok gs →
  map og_weighted_utxo gs = l ∧ Forall (og_ok fee_rate) gs.
Proof.
  revert gs. induction l as [|u l IH]; intros gs H; cbn in H; [by simplify_eq|].
  apply outcome_bind_ok in H as (g & Hg & H).
  apply outcome_bind_ok in H as (gs' & Hgs & [= <-]).
  destruct (IH _ Hgs) as [<- Hall]. unfold OutputGroup_new in Hg.
  apply outcome_bind_ok in Hg as (fee & [-> _]%input_fee_inv & Hg).
  apply outcome_bind_ok in Hg as (v & Hv & Hg).
  apply outcome_bind_ok in Hg as (sf & Hsf & Hg).
  apply outcome_bind_ok in Hg as (ev & [-> _]%checked_inv & [= <-]).
  unfold to_signed in Hv, Hsf.
  destruct (wu_value u <? _); [|done]. destruct (fee_of fee_rate u <? _); [|done].
  simplify_eq. split; [done|]. by constructor.
Qed.

Lemma zsum_effective fee_rate gs :
  Forall (og_ok fee_rate) gs →
  zsum og_effective_value gs
  = zsum (λ g, wu_value (og_weighted_utxo g)) gs - zsum og_fee gs.
Proof.
  intros H. rewrite <- zsum_sub. apply zsum_ext.
  eapply Forall_impl; [exact H|]. by intros g [_ ?].
Qed.

(** ** Selections *)

Lemma pick_snoc {A} (l : list A) bs b x :
  l !! length bs = Some x → pick l (bs ++ [b]) = pick l bs ++ (if b then [x] else []).
Proof.
  revert bs. induction l as [|y l IH]; intros bs Hx; [by rewrite lookup_nil in Hx|].
  destruct bs as [|b' bs]; cbn in Hx |- *.
  - simplify_eq. by destruct b, l.
  - destruct b'; cbn; by rewrite IH.
Qed.

Lemma pick_submseteq {A} (l : list A) bs : pick l bs ⊆+ l.
Proof.
  revert bs. induction l as [|y l IH]; intros [|[|] bs]; cbn;
    try apply submseteq_nil_l; [by apply submseteq_skip|by apply submseteq_cons].
Qed.

Lemma pick_sum_split {A} (f : A → Z) l bs :
  Forall (λ x, 0 ≤ f x) l →
  0 ≤ zsum f (pick l bs) ∧ zsum f (pick l bs) + zsum f (drop (length bs) l) ≤ zsum f l.
Proof.
  intros H. revert bs. induction H as [|y l Hy Hl IH]; intros bs; [by destruct bs|].
  pose proof (zsum_nonneg _ _ Hl). unfold zsum in *.
  destruct bs as [|[|] bs]; cbn; [lia|specialize (IH bs); lia..].
Qed.

(** ** The search *)

(** The search knows what it holds: the value of the current selection, the value
    still available, and a best selection whose value is in range. *)
Definition bnb_inv (ogs : list OutputGroup) (base target cost : Z) (s : bnb_state) : Prop :=
  (length (bnb_current_selection s) ≤ length ogs)%nat
  ∧ bnb_curr_value s
    = base + zsum og_effective_value (pick ogs (reverse (bnb_current_selection s)))
  ∧ bnb_curr_available_value s
    = zsum og_effective_value (drop (length (bnb_current_selection s)) ogs)
  ∧ match bnb_best_selection_value s with
    | None => bnb_best_selection s = []
    | Some v => target ≤ v ≤ target + cost
        ∧ v = base + zsum og_effective_value (pick ogs (reverse (bnb_best_selection s)))
    end.

(** The amounts are far from the limits of 64 bits. *)
Definition bnb_range (ogs : list OutputGroup) (base target cost : Z) : Prop :=
  Forall (λ g, 0 < og_effective_value g) ogs
  ∧ zsum og_effective_value ogs < 2 ^ 61 ∧ -(2 ^ 61) < base < 2 ^ 61
  ∧ 0 ≤ target < 2 ^ 61 ∧ 0 ≤ cost < 2 ^ 61.

Lemma value_at_ok {E} (ogs : list OutputGroup) i g :
  ogs !! i = Some g → @value_at E ogs i = Ok (og_effective_value g).
Proof. intros H. unfold value_at. by rewrite H. Qed.

Lemma drop_sum_S (ogs : list OutputGroup) i g :
  ogs !! i = Some g →
  zsum og_effective_value (drop i ogs)
  = og_effective_value g + zsum og_effective_value (drop (S i) ogs).
Proof. intros H. by rewrite (drop_S _ _ _ H). Qed.

(** Bounds of the sums the search handles. *)
Lemma bnb_bounds ogs base target cost bs :
  bnb_range ogs base target cost → 
  0 ≤ zsum og_effective_value (pick ogs bs) < 2 ^ 61
  ∧ 0 ≤ zsum og_effective_value (drop (length bs) ogs) < 2 ^ 61.
Proof.
  intros (Hpos & Htot & _).
  assert (Forall (λ g, 0 ≤ og_effective_value g) ogs) as Hnn
    by (eapply Forall_impl; [exact Hpos|]; cbn; lia).
  pose proof (pick_sum_split og_effective_value ogs bs Hnn).
  pose proof (zsum_nonneg og_effective_value (drop (length bs) ogs)
    (Forall_drop _ _ _ Hnn)). lia.
Qed.

Lemma walk_back_ok {E} ogs base target cost sel :
  bnb_range ogs base target cost → (length sel ≤ length ogs)%nat →
  ∃ sel', @walk_back E ogs sel (zsum og_effective_value (drop (length sel) ogs))
          = Ok (sel', zsum og_effective_value (drop (length sel') ogs))
    ∧ (length sel' ≤ length ogs)%nat
    ∧ zsum og_effective_value (pick ogs (reverse sel'))
      = zsum og_effective_value (pick ogs (reverse sel))
    ∧ (sel' = [] ∨ ∃ tl, sel' = true :: tl).
Proof.
  intros Hr. induction sel as [|[|] sel IH]; intros Hl.
  - exists []. split_and!; try done. by left.
  - exists (true :: sel). split_and!; try done. right. eauto.
  - cbn [length] in Hl. destruct (lookup_lt_is_Some_2 ogs (length sel)) as [g Hg]; [lia|].
    cbn [walk_back]. rewrite (value_at_ok _ _ _ Hg). cbn [mbind outcome_bind].
    pose proof (drop_sum_S _ _ _ Hg) as Hd.
    destruct (bnb_bounds _ _ _ _ (reverse sel) Hr) as [_ Hb].
    rewrite length_reverse in Hb. unfold add_i64. cbn [length].
    rewrite checked_ok by lia. cbn [mbind outcome_bind].
    replace (zsum og_effective_value (drop (S (length sel)) ogs) + og_effective_value g)
      with (zsum og_effective_value (drop (length sel) ogs)) by lia.
    destruct IH as (sel' & -> & H1 & H2 & H3); [lia|].
    exists sel'. split_and!; try done. rewrite H2, reverse_cons.
    by rewrite (pick_snoc _ _ _ g), app_nil_r by (by rewrite length_reverse).
Qed.

(** What a turn of the search may give: a state that keeps the invariant, or the
    report that all branches were searched in vain; never a panic. *)
Definition turn_ok (ogs : list OutputGroup) (base target cost : Z)
    (m : outcome BnbError bnb_step) : Prop :=
  match m with
  | Ok (Continue s) | Ok (Break s) => bnb_inv ogs base target cost s
  | Err e => e = NoExactMatch
  | Panic _ => False
  end.

Lemma bnb_backtrack_ok ogs base target cost s :
  bnb_range ogs base target cost → bnb_inv ogs base target cost s →
  turn_ok ogs base target cost (bnb_backtrack ogs s).
Proof.
  intros Hr (Hl & Hv & Ha & Hbest). unfold bnb_backtrack. rewrite Ha.
  destruct (walk_back_ok (E:=BnbError) _ _ _ _ _ Hr Hl) as (sel & -> & Hl' & Hsum & Hsel).
  cbn [mbind outcome_bind]. destruct Hsel as [->|[tl ->]].
  - case_bool_decide; [done|]. unfold turn_ok, bnb_inv. cbn. split_and!; try done.
    rewrite Hv, <- Hsum. done.
  - cbn [length] in Hl'. destruct (lookup_lt_is_Some_2 ogs (length tl)) as [g Hg]; [lia|].
    rewrite (value_at_ok _ _ _ Hg). cbn [mbind outcome_bind].
    assert (∀ b, zsum og_effective_value (pick ogs (reverse (b :: tl)))
      = zsum og_effective_value (pick ogs (reverse tl))
        + (if b then og_effective_value g else 0)) as Hsnoc.
    { intros b. rewrite reverse_cons, (pick_snoc _ _ _ g), zsum_app by (by rewrite length_reverse).
      destruct b; unfold zsum; cbn; lia. }
    rewrite Hsnoc in Hsum. cbn in Hsum.
    destruct (bnb_bounds _ _ _ _ (reverse tl) Hr) as [Hb _].
    destruct Hr as (_ & _ & Hbase & _).
    unfold sub_i64. rewrite checked_ok by lia. cbn [mbind outcome_bind].
    unfold turn_ok, bnb_inv. cbn [bnb_current_selection bnb_curr_value
      bnb_curr_available_value bnb_best_selection_value bnb_best_selection].
    rewrite Hsnoc. split_and!; [done|lia|done|done].
Qed.

Lemma bnb_forward_ok ogs base target cost s :
  bnb_range ogs base target cost → bnb_inv ogs base target cost s →
  bnb_curr_value s < target ≤ bnb_curr_value s + bnb_curr_available_value s →
  turn_ok ogs base target cost (bnb_forward ogs s).
Proof.
  intros Hr (Hl & Hv & Ha & Hbest) Ht. unfold bnb_forward.
  destruct (ogs !! length (bnb_current_selection s)) as [g|] eqn:Hg.
  2:{ apply lookup_ge_None_1 in Hg. rewrite drop_ge in Ha by lia. unfold zsum in Ha.
      cbn in Ha. lia. }
  rewrite (value_at_ok _ _ _ Hg). cbn [mbind outcome_bind].
  pose proof (drop_sum_S _ _ _ Hg) as Hd.
  destruct (bnb_bounds _ _ _ _ (reverse (bnb_current_selection s)) Hr) as [Hb1 Hb2].
  destruct (bnb_bounds _ _ _ _ (reverse (true :: bnb_current_selection s)) Hr) as [Hb3 Hb4].
  rewrite length_reverse in Hb2, Hb4. cbn [length] in Hb4.
  assert (zsum og_effective_value (pick ogs (reverse (true :: bnb_current_selection s)))
    = zsum og_effective_value (pick ogs (reverse (bnb_current_selection s)))
      + og_effective_value g) as Hsnoc.
  { rewrite reverse_cons, (pick_snoc _ _ _ g), zsum_app by (by rewrite length_reverse).
    unfold zsum. cbn. lia. }
  destruct Hr as (_ & _ & Hbase & _).
  unfold sub_i64, add_i64. rewrite checked_ok by lia. cbn [mbind outcome_bind].
  rewrite checked_ok by lia. cbn [mbind outcome_bind].
  unfold turn_ok, bnb_inv. cbn [bnb_current_selection bnb_curr_value
    bnb_curr_available_value bnb_best_selection_value bnb_best_selection length].
  apply lookup_lt_Some in Hg. split_and!; [lia|rewrite Hsnoc; lia|lia|done].
Qed.

Lemma bnb_record_ok ogs base target cost s :
  bnb_inv ogs base target cost s → target ≤ bnb_curr_value s ≤ target + cost →
  bnb_inv ogs base target cost (bnb_record s)
  ∧ bnb_current_selection (bnb_record s) = bnb_current_selection s
  ∧ bnb_curr_value (bnb_record s) = bnb_curr_value s.
Proof.
  intros Hinv Ht. unfold bnb_record. destruct (match _ with None => _ | Some _ => _ end); [|done].
  destruct Hinv as (Hl & Hv & Ha & _). split; [|done]. by split_and!.
Qed.

Lemma bnb_turn_ok ogs base target cost s :
  bnb_range ogs base target cost → bnb_inv ogs base target cost s →
  turn_ok ogs base target cost (bnb_turn ogs target cost s).
Proof.
  intros Hr Hinv. pose proof Hinv as (Hl & Hv & Ha & Hbest).
  destruct (bnb_bounds _ _ _ _ (reverse (bnb_current_selection s)) Hr) as [Hb1 Hb2].
  rewrite length_reverse in Hb2.
  pose proof Hr as (_ & _ & Hbase & Htar & Hcost).
  unfold bnb_turn, add_i64.
  rewrite (checked_ok _ _ _ (bnb_curr_value s + bnb_curr_available_value s)) by lia. cbn [mbind outcome_bind].
  destruct (Z.ltb_spec (bnb_curr_value s + bnb_curr_available_value s) target).
  { cbn [mbind outcome_bind]. by apply bnb_backtrack_ok. }
  rewrite checked_ok by lia. cbn [mbind outcome_bind].
  destruct (Z.ltb_spec (target + cost) (bnb_curr_value s)); [by apply bnb_backtrack_ok|].
  destruct (Z.leb_spec target (bnb_curr_value s)); [|by apply bnb_forward_ok].
  destruct (bnb_record_ok _ _ _ _ _ Hinv ltac:(lia)) as (Hinv' & _ & _). cbv zeta.
  destruct (bnb_curr_value (bnb_record s) =? target); [done|by apply bnb_backtrack_ok].
Qed.

Lemma bnb_loop_ok tries ogs base target cost s :
  bnb_range ogs base target cost → bnb_inv ogs base target cost s →
  match bnb_loop tries ogs target cost s with
  | Ok s' => bnb_inv ogs base target cost s'
  | Err e => e = NoExactMatch
  | Panic _ => False
  end.
Proof.
  intros Hr. revert s. induction tries as [|tries IH]; intros s Hinv; [done|].
  cbn [bnb_loop]. pose proof (bnb_turn_ok _ _ _ _ _ Hr Hinv) as Ht.
  destruct (bnb_turn ogs target cost s) as [[s'|s']|e|]; [by apply IH|done..].
Qed.

Lemma sort_descending_perm ogs : sort_descending ogs ≡ₚ ogs.
Proof. unfold sort_descending. rewrite reverse_Permutation. apply merge_sort_Permutation. Qed.

(** What branch and bound returns: a part of the optional outputs that, with the
    required ones, exceeds the target by no more than the cost of change. *)
Lemma bnb_result required optional base target cost drain fee_rate r :
  bnb_range optional base target cost → 0 < minimal_non_dust drain →
  base = zsum og_effective_value required →
  bnb required optional base (zsum og_effective_value optional) target cost drain fee_rate
    = Ok r →
  ∃ chosen, chosen ⊆+ optional
    ∧ csr_selected r = map (λ g, wu_utxo (og_weighted_utxo g)) (chosen ++ required)
    ∧ csr_fee_amount r = zsum og_fee (chosen ++ required)
    ∧ zsum og_effective_value (chosen ++ required) = target + excess_total (csr_excess r)
    ∧ 0 ≤ excess_total (csr_excess r) ≤ cost
    ∧ excess_ok drain (csr_excess r).
Proof.
  intros Hr Hdust Hbase H. unfold bnb in H. set (ogs := sort_descending optional) in *.
  pose proof (sort_descending_perm optional) as Hperm. fold ogs in Hperm.
  assert (bnb_range ogs base target cost) as Hr'.
  { destruct Hr as (H1 & H2 & H3). split; [|split; [|done]]; by rewrite Hperm. }
  rewrite <- Hperm in H.
  assert (bnb_inv ogs base target cost
    (MkBnb [] base (zsum og_effective_value ogs) [] None)) as Hinv.
  { unfold bnb_inv. cbn. split_and!; try done; [lia|]. destruct ogs; unfold zsum; cbn; lia. }
  pose proof (bnb_loop_ok BNB_TOTAL_TRIES _ _ _ _ _ Hr' Hinv) as Hloop.
  destruct (bnb_loop _ _ _ _ _) as [s|e|] eqn:El; [|done..]. cbn [mbind outcome_bind] in H.
  case_bool_decide as Hb; [done|]. destruct Hloop as (_ & _ & _ & Hbest).
  destruct (bnb_best_selection_value s) as [v|]; [|done]. destruct Hbest as [Hv Hsum].
  cbn [unwrap_opt mbind outcome_bind] in H.
  apply outcome_bind_ok in H as (d & [-> _]%checked_inv & H).
  apply outcome_bind_ok in H as (rem & Hrem & H). unfold to_unsigned in Hrem.
  destruct (0 <=? v - target); simplify_eq.
  apply outcome_bind_ok in H as (ex & [Hex Hok]%decide_change_total & H); [|done].
  unfold calculate_cs_result in H.
  apply outcome_bind_ok in H as (fee & ->%sum_amount_inv & [= <-]). cbn.
  exists (pick ogs (reverse (bnb_best_selection s))). split_and!; try done; try lia.
  - rewrite <- Hperm. apply pick_submseteq.
  - rewrite zsum_app, Hex. lia.
  - apply Hok. lia.
Qed.

(** ** No amount overflows *)

(** What makes a payment's arithmetic safe: the fee of spending each output and of
    the change are defined, and all amounts together stay far below 64 bits (the
    coin supply is below [2 ^ 51]). *)
Record payable (fee_rate target : Z) (drain : bytes) (utxos : list WeightedUtxo) : Prop := {
  pay_values : Forall (λ u, 0 ≤ wu_value u) utxos;
  pay_inputs : Forall (λ u, ∃ f, @input_fee BC unit fee_rate u = Ok f) utxos;
  pay_total : zsum wu_value utxos + zsum (fee_of fee_rate) utxos < 2 ^ 60;
  pay_target : 0 ≤ target < 2 ^ 60;
  pay_change : ∃ len w f, @add_u32 unit (script_serialized_len drain) 8 = Ok len
    ∧ weight_from_vb len = Some w ∧ fee_mul fee_rate w = Some f;
  pay_cost : ∃ w f, weight_from_vb size_of_change = Some w
    ∧ fee_mul fee_rate w = Some f ∧ f < 2 ^ 60;
  pay_dust : 0 < minimal_non_dust drain;
}.

Lemma input_fee_ok {E} fee_rate u f :
  @input_fee BC unit fee_rate u = Ok f → @input_fee BC E fee_rate u = Ok (fee_of fee_rate u).
Proof.
  unfold fee_of, input_fee. intros H. apply outcome_bind_ok in H as (w & Hw & H).
  apply checked_inv in Hw as [-> Hw]. rewrite !checked_ok by done. cbn [mbind outcome_bind] in *.
  by destruct (fee_mul _ _).
Qed.

Lemma fee_of_nonneg fee_rate u : 0 ≤ fee_of fee_rate u.
Proof.
  unfold fee_of. destruct (input_fee fee_rate u) eqn:E; [|lia..].
  by apply input_fee_inv in E as [_ ?].
Qed.

Lemma decide_change_ok {E} remaining fee_rate target drain utxos :
  payable fee_rate target drain utxos →
  ∃ e, @decide_change BC E remaining fee_rate drain = Ok e.
Proof.
  intros P. destruct (pay_change _ _ _ _ P) as (len & w & f & Hlen & Hw & Hf).
  unfold decide_change. apply checked_inv in Hlen as [-> Hlen].
  unfold add_u32. rewrite checked_ok by done. cbn [mbind outcome_bind].
  rewrite Hw. cbn [unwrap_opt mbind outcome_bind]. rewrite Hf. cbn [unwrap_opt mbind outcome_bind].
  destruct (is_dust _ _); eauto.
Qed.

Lemma zsum_submseteq {A} (f : A → Z) l k :
  Forall (λ x, 0 ≤ f x) k → l ⊆+ k → 0 ≤ zsum f l ≤ zsum f k.
Proof.
  intros Hk [r Hr]%submseteq_Permutation. rewrite Hr in Hk |- *.
  apply Forall_app in Hk as [Hl Hr']. rewrite zsum_app.
  pose proof (zsum_nonneg _ _ Hl). pose proof (zsum_nonneg _ _ Hr'). lia.
Qed.

(** The bounds of a part of the outputs. *)
Lemma payable_part fee_rate target drain utxos l :
  payable fee_rate target drain utxos → l ⊆+ utxos →
  0 ≤ zsum wu_value l ∧ 0 ≤ zsum (fee_of fee_rate) l
  ∧ zsum wu_value l + zsum (fee_of fee_rate) l < 2 ^ 60.
Proof.
  intros P Hl. pose proof (zsum_submseteq wu_value l utxos (pay_values _ _ _ _ P) Hl).
  pose proof (zsum_submseteq (fee_of fee_rate) l utxos) as H2.
  pose proof (pay_total _ _ _ _ P).
  destruct H2 as [? ?]; [apply Forall_true; intros; apply fee_of_nonneg|done|]. lia.
Qed.

(** A checked sum whose partial sums stay in range returns. *)
Lemma sum_with_ok {E A} lo hi msg (f : A → Z) acc l :
  (∀ n, lo ≤ acc + zsum f (take n l) < hi) →
  sum_with (λ a b, @checked E lo hi msg (a + b)) (λ x, Ok (f x)) acc l
  = Ok (acc + zsum f l).
Proof.
  revert acc. induction l as [|x l IH]; intros acc H; cbn [sum_with].
  - unfold zsum. cbn. by rewrite Z.add_0_r.
  - pose proof (H 1%nat) as H1. unfold zsum in H1. cbn in H1. rewrite take_0 in H1. cbn in H1.
    cbn [mbind outcome_bind]. rewrite checked_ok by lia. cbn [mbind outcome_bind].
    rewrite IH; [f_equal; unfold zsum; cbn; lia|]. intros n. specialize (H (S n)).
    unfold zsum in *. cbn in H. lia.
Qed.

(** Groups made from a part of the outputs. *)
Definition groups_of (fee_rate : Z) (utxos : list WeightedUtxo) (gs : list OutputGroup) : Prop :=
  Forall (og_ok fee_rate) gs ∧ map og_weighted_utxo gs ⊆+ utxos.

Lemma groups_of_part fee_rate utxos gs ks :
  groups_of fee_rate utxos gs → ks ⊆+ gs → groups_of fee_rate utxos ks.
Proof.
  intros [Hok Hsub] [r Hr]%submseteq_Permutation. rewrite Hr in Hok, Hsub.
  apply Forall_app in Hok as [Hok _]. split; [done|]. rewrite map_app in Hsub.
  etrans; [|exact Hsub]. by apply submseteq_inserts_r.
Qed.

Lemma groups_of_fee fee_rate gs :
  Forall (og_ok fee_rate) gs →
  zsum og_fee gs = zsum (fee_of fee_rate) (map og_weighted_utxo gs).
Proof.
  intros H. rewrite zsum_map. apply zsum_ext. eapply Forall_impl; [exact H|]. by intros g [? _].
Qed.

Lemma groups_of_bounds fee_rate target drain utxos gs :
  payable fee_rate target drain utxos → groups_of fee_rate utxos gs →
  0 ≤ zsum og_fee gs < 2 ^ 60
  ∧ 0 ≤ zsum (λ g, wu_value (og_weighted_utxo g)) gs < 2 ^ 60
  ∧ -(2 ^ 60) < zsum og_effective_value gs < 2 ^ 60.
Proof.
  intros P [Hok Hsub]. rewrite (zsum_effective fee_rate) by done.
  rewrite (groups_of_fee fee_rate) by done.
  destruct (payable_part _ _ _ _ _ P Hsub) as (H1 & H2 & H3).
  rewrite zsum_map in H1, H3. unfold compose in *. lia.
Qed.

Lemma groups_sum_fee {E} fee_rate target drain utxos gs :
  payable fee_rate target drain utxos → groups_of fee_rate utxos gs →
  sum_with (@amount_add E) (λ u, Ok (og_fee u)) 0 gs = Ok (zsum og_fee gs).
Proof.
  intros P H. unfold amount_add, add_u64. rewrite sum_with_ok; [done|]. intros n.
  destruct (groups_of_bounds _ _ _ _ (take n gs) P); [|lia].
  eapply groups_of_part; [done|]. apply sublist_submseteq, sublist_take.
Qed.

Lemma groups_sum_value {E} fee_rate target drain utxos gs :
  payable fee_rate target drain utxos → groups_of fee_rate utxos gs →
  sum_with (@amount_add E) (λ u, Ok (wu_value (og_weighted_utxo u))) 0 gs
  = Ok (zsum (λ g, wu_value (og_weighted_utxo g)) gs).
Proof.
  intros P H. unfold amount_add, add_u64.
  rewrite (sum_with_ok _ _ _ (λ g, wu_value (og_weighted_utxo g))); [done|]. intros n.
  destruct (groups_of_bounds _ _ _ _ (take n gs) P) as (_ & ? & _); [|lia].
  eapply groups_of_part; [done|]. apply sublist_submseteq, sublist_take.
Qed.

Lemma groups_sum_effective {E} fee_rate target drain utxos gs :
  payable fee_rate target drain utxos → groups_of fee_rate utxos gs →
  sum_with (@add_i64 E) (λ u, Ok (og_effective_value u)) 0 gs
  = Ok (zsum og_effective_value gs).
Proof.
  intros P H. unfold add_i64. rewrite sum_with_ok; [done|]. intros n.
  destruct (groups_of_bounds _ _ _ _ (take n gs) P) as (_ & _ & ?); [|lia].
  eapply groups_of_part; [done|]. apply sublist_submseteq, sublist_take.
Qed.

Lemma output_groups_ok {E} fee_rate target drain utxos l :
  payable fee_rate target drain utxos → l ⊆+ utxos →
  ∃ gs, @output_groups BC E fee_rate l = Ok gs.
Proof.
  intros P. induction l as [|u l IH]; intros Hl; [by exists []|].
  destruct IH as [gs Hgs]; [etrans; [by apply submseteq_cons|exact Hl]|].
  assert (u ∈ utxos) as Hu by (eapply elem_of_submseteq; [|exact Hl]; left).
  assert ([u] ⊆+ utxos) as Hu' by (by apply singleton_submseteq_l).
  destruct (payable_part _ _ _ _ _ P Hu') as (H1 & H2 & H3). unfold zsum in *. cbn in H1, H2, H3.
  destruct (proj1 (Forall_forall _ _) (pay_inputs _ _ _ _ P) u Hu) as [f Hf].
  cbn [output_groups]. unfold OutputGroup_new.
  rewrite (input_fee_ok _ _ _ Hf). cbn [mbind outcome_bind]. unfold to_signed.
  rewrite !(proj2 (Z.ltb_lt _ _)) by lia. cbn [mbind outcome_bind].
  unfold sub_i64. rewrite checked_ok by lia. cbn [mbind outcome_bind].
  rewrite Hgs. cbn [mbind outcome_bind]. eauto.
Qed.

(** The draw reads every output without leaving the range. *)
Lemma scan_utxos_ok utxos fee_rate target drain tagged sa fa taken :
  payable fee_rate target drain utxos → taken ++ map snd tagged ⊆+ utxos →
  sa = zsum wu_value taken → fa = zsum (fee_of fee_rate) taken →
  ∃ r, scan_utxos tagged fee_rate target sa fa = Ok r.
Proof.
  intros P. revert sa fa taken.
  induction tagged as [|[must u] tagged IH]; intros sa fa taken Hsub -> ->; [eexists; done|].
  cbn [map snd] in Hsub.
  assert (∀ l, l `prefix_of` (taken ++ u :: map snd tagged) →
    l ⊆+ utxos) as Hpre.
  { intros l [k Hk]. etrans; [|exact Hsub]. rewrite Hk. by apply submseteq_inserts_r. }
  destruct (payable_part _ _ _ _ taken P (Hpre _ ltac:(by eexists))) as (A1 & A2 & A3).
  destruct (payable_part _ _ _ _ (taken ++ [u]) P) as (B1 & B2 & B3).
  { apply Hpre. exists (map snd tagged). by rewrite <- app_assoc. }
  rewrite zsum_app, zsum_one in B1. rewrite zsum_app, zsum_one in B2.
  rewrite (zsum_app wu_value), (zsum_app (fee_of _)), !zsum_one in B3.
  assert (u ∈ utxos) as Hu by (eapply elem_of_submseteq; [|exact Hsub]; set_solver).
  destruct (proj1 (Forall_forall _ _) (pay_inputs _ _ _ _ P) u Hu) as [f Hf].
  pose proof (fee_of_nonneg fee_rate u).
  pose proof (proj1 (Forall_forall _ _) (pay_values _ _ _ _ P) u Hu) as Hv. cbn in Hv.
  pose proof (pay_target _ _ _ _ P).
  destruct (IH (zsum wu_value taken + wu_value u)
    (zsum (fee_of fee_rate) taken + fee_of fee_rate u) (taken ++ [u])) as [r Hr].
  { by rewrite <- app_assoc. }
  { by rewrite zsum_app, zsum_one. }
  { by rewrite zsum_app, zsum_one. }
  cbn [scan_utxos]. unfold amount_add, add_u64.
  rewrite (checked_ok _ _ _ (target + _)) by lia.
  rewrite (input_fee_ok _ _ _ Hf).
  destruct must; cbn [mbind outcome_bind];
    [|match goal with |- context [if ?b then _ else _] => destruct b end];
    [rewrite checked_ok by lia; cbn [mbind outcome_bind];
     rewrite checked_ok by lia; cbn [mbind outcome_bind]; rewrite Hr; eauto..|eauto].
Qed.

Lemma select_sorted_utxos_no_panic utxos fee_rate target drain tagged m :
  payable fee_rate target drain utxos → map snd tagged ⊆+ utxos →
  select_sorted_utxos tagged fee_rate target drain ≠ Panic m.
Proof.
  intros P Hsub. unfold select_sorted_utxos.
  destruct (scan_utxos_ok utxos fee_rate target drain tagged 0 0 []) as [[[sel sa] fa] Hr];
    try done.
  rewrite Hr. cbn [mbind outcome_bind].
  destruct (scan_utxos_inv _ _ _ _ _ _ _ _ Hr) as (taken & rest & -> & -> & -> & -> & _).
  rewrite map_app in Hsub.
  destruct (payable_part _ _ _ _ (map snd taken) P) as (H1 & H2 & H3).
  { etrans; [|exact Hsub]. by apply submseteq_inserts_r. }
  rewrite !zsum_map in H1, H3. rewrite zsum_map in H2. unfold compose in *.
  rewrite zsum_map in H3. rewrite !Z.add_0_l. pose proof (pay_target _ _ _ _ P).
  unfold amount_add, add_u64. unfold compose in H3. rewrite checked_ok by lia.
  cbn [mbind outcome_bind]. destruct (Z.ltb_spec (zsum (λ x, wu_value x.2) taken)
    (target + zsum (λ x, fee_of fee_rate x.2) taken)); [done|].
  unfold amount_sub, sub_u64. rewrite checked_ok by lia. cbn [mbind outcome_bind].
  destruct (decide_change_ok (E:=InsufficientFunds)
    (zsum (λ x, wu_value x.2) taken - (target + zsum (λ x, fee_of fee_rate x.2) taken))
    _ _ _ _ P) as [e ->]. done.
Qed.

(** What a selection promises of the outputs, the fee and the excess. *)
Definition selection_ok (fee_rate target : Z) (drain : bytes) (required optional : list WeightedUtxo)
    (r : CoinSelectionResult) : Prop :=
  ∃ chosen, chosen ⊆+ optional
    ∧ csr_selected r ≡ₚ map wu_utxo (required ++ chosen)
    ∧ csr_fee_amount r = zsum (fee_of fee_rate) (required ++ chosen)
    ∧ zsum wu_value (required ++ chosen)
      = target + csr_fee_amount r + excess_total (csr_excess r)
    ∧ excess_ok drain (csr_excess r).

(** What a refusal promises: the outputs that were considered, all the required ones
    among them, do not pay the target and the fees of spending them. *)
Definition refusal_ok (fee_rate target : Z) (required optional : list WeightedUtxo)
    (e : InsufficientFunds) : Prop :=
  ∃ considered, considered ⊆+ optional
    ∧ if_available e = zsum wu_value (required ++ considered)
    ∧ if_needed e = target + zsum (fee_of fee_rate) (required ++ considered)
    ∧ if_available e < if_needed e.

(** The two together, without panics. *)
Definition outcome_ok (fee_rate target : Z) (drain : bytes) (required optional : list WeightedUtxo)
    (m : outcome InsufficientFunds CoinSelectionResult) : Prop :=
  match m with
  | Ok r => selection_ok fee_rate target drain required optional r
  | Err e => refusal_ok fee_rate target required optional e
  | Panic _ => False
  end.

Lemma tagged_prefix {A} (req opt taken rest : list (bool * A)) :
  Forall (λ x, x.1 = true) req → req ++ opt = taken ++ rest →
  (rest = [] ∨ ∃ u rest', rest = (false, u) :: rest') →
  ∃ opt', taken = req ++ opt' ∧ opt = opt' ++ rest.
Proof.
  intros Hreq. revert taken. induction Hreq as [|[b x] req Hb _ IH]; intros taken Heq Hrest.
  - by exists taken.
  - cbn in Hb. subst b. destruct taken as [|y taken]; cbn in Heq.
    + destruct Hrest as [->|(u & rest' & ->)]; by simplify_eq.
    + injection Heq as <- Heq. destruct (IH _ Heq Hrest) as (opt' & -> & ->). by exists opt'.
Qed.

Lemma tag_map {A B} (f : A → B) (b : bool) l :
  map (λ x : bool * A, f x.2) (map (λ u, (b, u)) l) = map f l.
Proof. by rewrite map_map. Qed.

Lemma tag_sum {A} (f : A → Z) (b : bool) l :
  zsum (λ x : bool * A, f x.2) (map (λ u, (b, u)) l) = zsum f l.
Proof. by rewrite zsum_map. Qed.

(** The random draw keeps the promise. *)
Lemma single_random_draw_ok {R} `{RngCore R} required optional fee_rate target drain (rand : R) :
  payable fee_rate target drain (required ++ optional) →
  outcome_ok fee_rate target drain required optional
    (SingleRandomDraw_coin_select required optional fee_rate target drain rand).1.
Proof.
  intros P. unfold SingleRandomDraw_coin_select.
  pose proof (shuffle_slice_permutation optional rand) as Hperm.
  destruct (shuffle_slice optional rand) as [opt rand']. cbn in Hperm |- *.
  set (tagged := map (λ u, (true, u)) required ++ map (λ u, (false, u)) opt).
  pose proof (select_sorted_utxos_inv tagged fee_rate target drain (pay_dust _ _ _ _ P)) as Hinv.
  assert (map snd tagged ⊆+ required ++ optional) as Hsub.
  { unfold tagged. rewrite map_app, !map_map. cbn. by rewrite !map_id, Hperm. }
  destruct (select_sorted_utxos tagged fee_rate target drain) as [r|e|m] eqn:Hsel; cbn.
  - destruct Hinv as (taken & rest & Heq & Hs & Hf & Hv & Hex & Hrest).
    destruct (tagged_prefix (map (λ u, (true, u)) required) _ _ _
      ltac:(by apply Forall_map, Forall_true) Heq Hrest) as (opt' & -> & Hopt).
    apply map_eq_app in Hopt as (l1 & l2 & -> & <- & _).
    exists l1. rewrite Hs, Hf. rewrite zsum_app, !tag_sum in Hv. rewrite Hf in Hv.
    rewrite !zsum_app, !tag_sum in Hv.
    split_and!.
    + rewrite <- Hperm. by apply submseteq_inserts_r.
    + by rewrite !map_app, !tag_map.
    + by rewrite !zsum_app, !tag_sum.
    + rewrite !zsum_app, !tag_sum. lia.
    + done.
  - destruct Hinv as (Hn & Ha & Hlt). exists opt. unfold tagged in Hn, Ha.
    rewrite zsum_app, !tag_sum in Hn. rewrite zsum_app, !tag_sum in Ha.
    rewrite !zsum_app. split_and!; [by rewrite Hperm|done..].
  - by eapply select_sorted_utxos_no_panic.
Qed.

(** Branch and bound does not panic. *)
Lemma bnb_no_panic utxos required optional base target cost drain fee_rate m :
  payable fee_rate target drain utxos → groups_of fee_rate utxos (required ++ optional) →
  bnb_range optional base target cost →
  bnb required optional base (zsum og_effective_value optional) target cost drain fee_rate
    ≠ Panic m.
Proof.
  intros P Hg Hr. unfold bnb. set (ogs := sort_descending optional).
  pose proof (sort_descending_perm optional) as Hperm. fold ogs in Hperm.
  assert (bnb_range ogs base target cost) as Hr'.
  { destruct Hr as (H1 & H2 & H3). split; [|split; [|done]]; by rewrite Hperm. }
  rewrite <- Hperm.
  assert (bnb_inv ogs base target cost
    (MkBnb [] base (zsum og_effective_value ogs) [] None)) as Hinv.
  { unfold bnb_inv. cbn. split_and!; try done; [lia|]. destruct ogs; unfold zsum; cbn; lia. }
  pose proof (bnb_loop_ok BNB_TOTAL_TRIES _ _ _ _ _ Hr' Hinv) as Hloop.
  destruct (bnb_loop _ _ _ _ _) as [s|e|] eqn:El; [|done..]. cbn [mbind outcome_bind].
  case_bool_decide as Hb; [done|]. destruct Hloop as (_ & _ & _ & Hbest).
  destruct (bnb_best_selection_value s) as [v|]; [|done]. destruct Hbest as [Hv Hsum].
  destruct Hr as (_ & _ & _ & Htar & Hcost).
  cbn [unwrap_opt mbind outcome_bind]. unfold sub_i64. rewrite checked_ok by lia.
  cbn [mbind outcome_bind]. unfold to_unsigned. rewrite (proj2 (Z.leb_le _ _)) by lia.
  cbn [mbind outcome_bind].
  destruct (decide_change_ok (E:=BnbError) (v - target) _ _ _ _ P) as [ex ->].
  cbn [mbind outcome_bind]. unfold calculate_cs_result.
  rewrite (groups_sum_fee fee_rate target drain utxos); [done..|].
  eapply groups_of_part; [done|]. rewrite Permutation_app_comm.
  apply submseteq_app; [done|]. rewrite <- Hperm. apply pick_submseteq.
Qed.

Lemma Forall_submseteq {A} (P : A → Prop) (l k : list A) :
  l ⊆+ k → Forall P k → Forall P l.
Proof. rewrite !Forall_forall. intros Hs H x Hx. by eapply H, elem_of_submseteq. Qed.

Lemma filter_submseteq {A} (P : A → Prop) `{∀ x, Decision (P x)} (l : list A) :
  filter P l ⊆+ l.
Proof. apply sublist_submseteq, sublist_filter. Qed.

(** The output groups of a payment. *)
Record groups_for (fee_rate : Z) (required optional : list WeightedUtxo)
    (req opt : list OutputGroup) : Prop := {
  gf_required : map og_weighted_utxo req = required;
  gf_optional : map og_weighted_utxo opt ⊆+ optional;
  gf_groups : groups_of fee_rate (required ++ optional) (req ++ opt);
  gf_positive : Forall (λ g, 0 < og_effective_value g) opt;
}.

(** A selection of output groups keeps the promise. *)
Lemma groups_selection_ok fee_rate target drain required optional req opt r chosen :
  groups_for fee_rate required optional req opt → chosen ⊆+ opt →
  csr_selected r = map (λ g, wu_utxo (og_weighted_utxo g)) (chosen ++ req) →
  csr_fee_amount r = zsum og_fee (chosen ++ req) →
  zsum og_effective_value (chosen ++ req) = target + excess_total (csr_excess r) →
  excess_ok drain (csr_excess r) →
  selection_ok fee_rate target drain required optional r.
Proof.
  intros [<- Hsub [Hok _] _] Hch Hs Hf Hev Hex.
  assert (Forall (og_ok fee_rate) (chosen ++ req)) as Hall.
  { eapply Forall_submseteq; [|exact Hok]. rewrite (Permutation_app_comm req).
    by apply submseteq_app. }
  rewrite (zsum_effective fee_rate) in Hev by done.
  exists (map og_weighted_utxo chosen).
  assert (map og_weighted_utxo req ++ map og_weighted_utxo chosen
    ≡ₚ map og_weighted_utxo (chosen ++ req)) as Hp.
  { by rewrite map_app, Permutation_app_comm. }
  split_and!.
  - etrans; [|exact Hsub]. by apply fmap_submseteq.
  - by rewrite Hp, Hs, map_map.
  - rewrite Hp, Hf. by apply groups_of_fee.
  - rewrite Hp, zsum_map, Hf. unfold compose. lia.
  - done.
Qed.

Lemma groups_refusal_ok fee_rate target required optional req opt :
  groups_for fee_rate required optional req opt →
  zsum og_effective_value (req ++ opt) < target →
  refusal_ok fee_rate target required optional
    (MkInsufficientFunds (target + zsum og_fee (req ++ opt))
       (zsum (λ g, wu_value (og_weighted_utxo g)) (req ++ opt))).
Proof.
  intros [<- Hsub [Hok _] _] Hlt. exists (map og_weighted_utxo opt).
  rewrite <- map_app, !zsum_map, (groups_of_fee fee_rate), zsum_map by done.
  rewrite (zsum_effective fee_rate), (groups_of_fee fee_rate), zsum_map in Hlt by done.
  cbn [if_available if_needed]. unfold compose in *. split_and!; try done. lia.
Qed.

Lemma groups_for_made {E} fee_rate required optional req all :
  @output_groups BC E fee_rate required = Ok req →
  @output_groups BC E fee_rate optional = Ok all →
  groups_for fee_rate required optional req
    (filter (λ u, 0 < og_effective_value u) all).
Proof.
  intros [Hmreq Hokreq]%output_groups_inv [Hmall Hokall]%output_groups_inv.
  set (opt := filter (λ u, 0 < og_effective_value u) all).
  assert (opt ⊆+ all) as Hsub by apply filter_submseteq.
  assert (map og_weighted_utxo opt ⊆+ optional) as Hmopt
    by (rewrite <- Hmall; by apply fmap_submseteq).
  split; try done.
  - split; [apply Forall_app; split; [done|by eapply Forall_submseteq]|].
    rewrite map_app, Hmreq. by apply submseteq_app.
  - apply Forall_forall. intros g Hg. by apply list_elem_of_filter in Hg as [? _].
Qed.

(** The preparation gives the groups and their totals, or refuses. *)
Lemma prepare_ok fee_rate target drain required optional :
  payable fee_rate target drain (required ++ optional) →
  match prepare required optional fee_rate target with
  | Ok (req, opt, cur, av, cost) =>
      groups_for fee_rate required optional req opt
      ∧ cur = zsum og_effective_value req ∧ av = zsum og_effective_value opt
      ∧ 0 ≤ cost < 2 ^ 60
  | Err e => refusal_ok fee_rate target required optional e
  | Panic _ => False
  end.
Proof.
  intros P. unfold prepare.
  destruct (output_groups_ok (E:=InsufficientFunds) _ _ _ _ required P) as [req Hreq];
    [by apply submseteq_inserts_r|].
  destruct (output_groups_ok (E:=InsufficientFunds) _ _ _ _ optional P) as [all Hall];
    [by apply submseteq_inserts_l|].
  pose proof (groups_for_made _ _ _ _ _ Hreq Hall) as Hgf.
  rewrite Hreq, Hall. cbn [mbind outcome_bind].
  set (opt := filter (λ u, 0 < og_effective_value u) all) in *.
  pose proof (gf_groups _ _ _ _ _ Hgf) as Hg.
  pose proof (groups_of_part _ _ _ req Hg (submseteq_inserts_r _ _ _ (reflexivity _))) as Hgreq.
  pose proof (groups_of_part _ _ _ opt Hg (submseteq_inserts_l _ _ _ (reflexivity _))) as Hgopt.
  destruct (pay_cost _ _ _ _ P) as (w & c & Hw & Hc & Hcb).
  destruct (groups_of_bounds _ _ _ _ _ P Hg) as (Hbfee & Hbval & Hbeff).
  pose proof (fee_mul_amount _ _ _ Hc). pose proof (pay_target _ _ _ _ P) as Htar.
  rewrite (groups_sum_effective _ _ _ _ _ P Hgreq). cbn [mbind outcome_bind].
  rewrite (groups_sum_effective _ _ _ _ _ P Hgopt). cbn [mbind outcome_bind].
  rewrite Hw. cbn [unwrap_opt mbind outcome_bind]. rewrite Hc.
  cbn [unwrap_opt mbind outcome_bind]. unfold to_signed.
  rewrite (proj2 (Z.ltb_lt c _)) by lia. cbn [mbind outcome_bind].
  unfold add_i64. rewrite Z.add_comm, <- zsum_app, checked_ok by lia.
  cbn [mbind outcome_bind]. destruct (andb _ _) eqn:Etot; [done|].
  rewrite (groups_sum_fee _ _ _ _ _ P Hg). cbn [mbind outcome_bind].
  rewrite (groups_sum_value _ _ _ _ _ P Hg). cbn [mbind outcome_bind].
  unfold amount_add, add_u64. rewrite checked_ok by lia. cbn [mbind outcome_bind].
  apply groups_refusal_ok; [done|].
  apply andb_false_iff in Etot as [?%Z.leb_gt|?%Z.leb_gt]; lia.
Qed.

(** Spending only the required outputs. *)
Lemma required_enough_ok fee_rate target drain required optional req opt :
  payable fee_rate target drain (required ++ optional) →
  groups_for fee_rate required optional req opt →
  target < zsum og_effective_value req < 2 ^ 61 →
  outcome_ok fee_rate target drain required optional
    (difference ← sub_i64 (zsum og_effective_value req) target;
     remaining ← to_unsigned "remaining amount can't be negative" difference;
     excess ← decide_change remaining fee_rate drain;
     calculate_cs_result [] req excess).
Proof.
  intros P Hgf Hlt. pose proof (pay_target _ _ _ _ P) as Htar.
  pose proof (groups_of_part _ _ _ req (gf_groups _ _ _ _ _ Hgf)
    (submseteq_inserts_r _ _ _ (reflexivity _))) as Hgreq.
  unfold sub_i64. rewrite checked_ok by lia. cbn [mbind outcome_bind].
  unfold to_unsigned. rewrite (proj2 (Z.leb_le _ _)) by lia. cbn [mbind outcome_bind].
  destruct (decide_change_ok (E:=InsufficientFunds)
    (zsum og_effective_value req - target) _ _ _ _ P) as [ex Hex].
  rewrite Hex. cbn [mbind outcome_bind]. unfold calculate_cs_result.
  apply decide_change_total in Hex as [Hex Hok]; [|exact (pay_dust _ _ _ _ P)].
  rewrite app_nil_l, (groups_sum_fee _ _ _ _ _ P Hgreq). cbn [mbind outcome_bind].
  eapply (groups_selection_ok _ _ _ _ _ _ _ _ []); [done|apply submseteq_nil_l|done..| |];
    cbn [app csr_excess]; [lia|]. apply Hok. lia.
Qed.

(** Branch and bound with its fallback keeps the promise. *)
Lemma coin_select_ok {R} `{RngCore R} required optional fee_rate target drain (rand : R) :
  payable fee_rate target drain (required ++ optional) →
  outcome_ok fee_rate target drain required optional
    (coin_select required optional fee_rate target drain rand).1.
Proof.
  intros P. unfold coin_select. pose proof (prepare_ok _ _ _ _ _ P) as Hprep.
  destruct (prepare _ _ _ _) as [[[[[req opt] cur] av] c]|e|m]; [|done..].
  destruct Hprep as (Hgf & -> & -> & Hc). pose proof (gf_groups _ _ _ _ _ Hgf) as Hg.
  pose proof (groups_of_part _ _ _ req Hg (submseteq_inserts_r _ _ _ (reflexivity _))) as Hgreq.
  pose proof (groups_of_part _ _ _ opt Hg (submseteq_inserts_l _ _ _ (reflexivity _))) as Hgopt.
  destruct (groups_of_bounds _ _ _ _ _ P Hgreq) as (_ & _ & Hbreq).
  destruct (groups_of_bounds _ _ _ _ _ P Hgopt) as (_ & _ & Hbopt).
  pose proof (pay_target _ _ _ _ P) as Htar. unfold to_signed.
  rewrite (proj2 (Z.ltb_lt target _)) by lia.
  destruct (Z.ltb_spec target (zsum og_effective_value req)) as [Hlt|Hge].
  { cbn [fst]. eapply required_enough_ok; [done..|lia]. }
  assert (bnb_range opt (zsum og_effective_value req) target c) as Hrange
    by (split_and!; try lia; apply Hgf).
  destruct (bnb req opt _ _ target c drain fee_rate) as [r|e|m] eqn:Eb; cbn [fst].
  - destruct (bnb_result _ _ _ _ _ _ _ _ Hrange (pay_dust _ _ _ _ P) eq_refl Eb)
      as (chosen & Hch & Hs & Hf & Hev & _ & Hex).
    by eapply groups_selection_ok.
  - by apply single_random_draw_ok.
  - by eapply bnb_no_panic in Eb.
Qed.

End CoinSelectionLaws.

(** ** Duplicates *)

Lemma filter_visited_inv visited l r visited' :
  filter_visited visited l = (r, visited') →
  r `sublist_of` l
  ∧ NoDup (map (λ u, utxo_outpoint (wu_utxo u)) r)
  ∧ Forall (λ u, utxo_outpoint (wu_utxo u) ∉ visited) r
  ∧ visited' = list_to_set (map (λ u, utxo_outpoint (wu_utxo u)) l) ∪ visited
  ∧ (∀ u, u ∈ l → utxo_outpoint (wu_utxo u) ∉ visited →
       utxo_outpoint (wu_utxo u) ∈ map (λ u, utxo_outpoint (wu_utxo u)) r).
Proof.
  revert visited r visited'. induction l as [|u l IH]; intros visited r visited' H; cbn in H.
  - simplify_eq. split_and!; cbn; try done; [constructor|set_solver|set_solver].
  - case_bool_decide as Hin.
    + destruct (IH _ _ _ H) as (H1 & H2 & H3 & -> & H5). split_and!; try done.
      * by apply sublist_cons.
      * cbn. set_solver.
      * intros v [->|Hv]%elem_of_cons Hn; [done|by apply H5].
    + destruct (filter_visited _ l) as [r1 v1] eqn:E. simplify_eq.
      destruct (IH _ _ _ E) as (H1 & H2 & H3 & -> & H5). split_and!.
      * by apply sublist_skip.
      * cbn. constructor; [|done]. intros (w & Heq & Hw)%list_elem_of_fmap.
        rewrite Forall_forall in H3. specialize (H3 _ Hw). set_solver.
      * constructor; [done|]. eapply Forall_impl; [exact H3|]. cbn. set_solver.
      * cbn. set_solver.
      * intros v [->|Hv]%elem_of_cons Hn; cbn; [left|].
        destruct (decide (utxo_outpoint (wu_utxo v) = utxo_outpoint (wu_utxo u))) as [->|Hne];
          [left|right]. apply H5; [done|set_solver].
Qed.

(** ** Properties *)

(** C11: coin selection conserves value. For amounts below [2 ^ 60] it never panics;
    what it returns is all required outputs and a part of the optional ones, whose
    values add up to exactly the target, the fee of spending them and the excess
    (the change, above the dust limit, and its fee, or what is left to the miner); when it refuses,
    the outputs it names do not pay the target and the fee of spending them. *)
Theorem coin_select_conserves `{BC : BitcoinCrate} {R} `{RngCore R}
    required optional fee_rate target drain (rand : R) :
  payable fee_rate target drain (required ++ optional) →
  outcome_ok fee_rate target drain required optional
    (coin_select required optional fee_rate target drain rand).1.
Proof. apply coin_select_ok. Qed.

(** C24: what branch and bound selects, together with the required outputs, is worth
    after fees at least the target and at most the target and the cost of change;
    when the search fails it says so, and it never panics. *)
Theorem bnb_in_window `{BC : BitcoinCrate} utxos required optional target cost drain fee_rate :
  payable fee_rate target drain utxos → groups_of fee_rate utxos (required ++ optional) →
  bnb_range optional (zsum og_effective_value required) target cost →
  match bnb required optional (zsum og_effective_value required)
          (zsum og_effective_value optional) target cost drain fee_rate with
  | Ok r => ∃ chosen, chosen ⊆+ optional
      ∧ csr_selected r = map (λ g, wu_utxo (og_weighted_utxo g)) (chosen ++ required)
      ∧ csr_fee_amount r = zsum og_fee (chosen ++ required)
      ∧ target ≤ zsum og_effective_value (chosen ++ required) ≤ target + cost
      ∧ excess_total (csr_excess r) = zsum og_effective_value (chosen ++ required) - target
  | Err _ => True
  | Panic _ => False
  end.
Proof.
  intros P Hg Hr. destruct (bnb _ _ _ _ _ _ _ _) as [r|e|m] eqn:Eb; [|done|].
  - destruct (bnb_result _ _ _ _ _ _ _ _ Hr (pay_dust _ _ _ _ P) eq_refl Eb)
      as (chosen & H1 & H2 & H3 & H4 & H5 & _).
    exists chosen. split_and!; try done; lia.
  - by eapply bnb_no_panic in Eb.
Qed.

(** Removing duplicates leaves no outpoint twice, neither within the required
    outputs, nor within the optional ones, nor across the two; it only drops outputs,
    and every outpoint that was given is still there. *)
Theorem filter_duplicates_spec required optional :
  let r := filter_duplicates required optional in
  let o u := utxo_outpoint (wu_utxo u) in
  r.1 `sublist_of` required ∧ r.2 `sublist_of` optional
  ∧ NoDup (map o r.1 ++ map o r.2)
  ∧ (∀ u, u ∈ required → o u ∈ map o r.1)
  ∧ (∀ u, u ∈ optional → o u ∈ map o r.1 ++ map o r.2).
Proof.
  cbv zeta. unfold filter_duplicates.
  destruct (filter_visited ∅ required) as [req v1] eqn:E1.
  destruct (filter_visited v1 optional) as [opt v2] eqn:E2. cbn [fst snd].
  destruct (filter_visited_inv _ _ _ _ E1) as (A1 & A2 & _ & -> & A5).
  destruct (filter_visited_inv _ _ _ _ E2) as (B1 & B2 & B3 & -> & B5).
  assert (∀ u, u ∈ required →
    utxo_outpoint (wu_utxo u) ∈ map (λ u, utxo_outpoint (wu_utxo u)) req) as Hreq.
  { intros u Hu. apply A5; set_solver. }
  split_and!; try done.
  - apply NoDup_app. split_and!; try done.
    intros x (u & -> & Hu)%list_elem_of_fmap (v & Heq & Hv)%list_elem_of_fmap.
    rewrite Forall_forall in B3. apply (B3 _ Hv). rewrite <- Heq.
    apply elem_of_union_l, elem_of_list_to_set, list_elem_of_fmap. exists u. split; [done|].
    eapply elem_of_submseteq; [exact Hu|by apply sublist_submseteq].
  - intros u Hu. apply elem_of_app.
    destruct (decide (utxo_outpoint (wu_utxo u)
      ∈ list_to_set (C:=gset OutPoint) (map (λ u, utxo_outpoint (wu_utxo u)) required) ∪ ∅))
      as [Hin|Hn]; [left|right; by apply B5].
    apply elem_of_union in Hin as [Hin|Hin]; [|set_solver].
    apply elem_of_list_to_set, list_elem_of_fmap in Hin as (v & -> & Hv). by apply Hreq.
Qed.

(** ** Witnesses *)

(** Fees in satoshi per thousand weight units, rounded up; a native segwit input and
    output; scripts shorter than 253 bytes. *)
#[export, program] Instance std_bitcoin : BitcoinCrate := {
  fee_mul rate weight :=
    let p := rate * weight + 999 in
    if (0 <=? p) && (p <? 2 ^ 64) then Some (p / 1000) else None;
  txin_segwit_weight := 165;
  weight_from_vb vb := if vb * 4 <? 2 ^ 64 then Some (vb * 4) else None;
  script_serialized_len s := zlen s + 1;
  minimal_non_dust _ := 294;
}.
Next Obligation.
  intros rate weight a. cbn. destruct (Z.leb_spec 0 (rate * weight + 999)); cbn; [|done].
  destruct (_ <? _); [|done]. intros [= <-]. by apply Z.div_pos.
Qed.
Next Obligation. intros. cbn. lia. Qed.

(** A generator that always draws the same number. *)
#[export, program] Instance constant_rng : RngCore Z := {
  next_u32 r := (r mod 2 ^ 32, r);
}.
Next Obligation. intros r. apply (Z.mod_pos_bound r (2 ^ 32)). lia. Qed.

Definition example_coin (id value : Z) : WeightedUtxo :=
  MkWeightedUtxo 0 (MkUtxo (replicate 32 id, 0) (MkTxOut value (replicate 22 0))
    External false 0 None).

Definition example_drain : bytes := replicate 22 0.

Lemma example_payable :
  payable 1000 150000 example_drain
    ([example_coin 1 100000] ++ [example_coin 2 60000; example_coin 3 30000]).
Proof.
  split.
  - apply (bool_decide_unpack _). by vm_compute.
  - repeat (apply Forall_cons; split; [eexists; vm_compute; reflexivity|]). apply Forall_nil_2.
  - by vm_compute.
  - lia.
  - exists 31, 124, 124. split; [|split]; vm_compute; reflexivity.
  - exists 124, 124. split; [|split]; vm_compute; reflexivity.
  - by vm_compute.
Qed.

Lemma coin_select_conserves_witness :
  outcome_ok 1000 150000 example_drain [example_coin 1 100000] [example_coin 2 60000; example_coin 3 30000]
    (coin_select [example_coin 1 100000] [example_coin 2 60000; example_coin 3 30000]
       1000 150000 example_drain 1).1
  ∧ (coin_select [example_coin 1 100000] [example_coin 2 60000; example_coin 3 30000]
       1000 150000 example_drain 1).1
    = Ok (MkCoinSelectionResult [wu_utxo (example_coin 1 100000); wu_utxo (example_coin 2 60000)]
            330 (Change 9546 124)).
Proof.
  split; [apply (coin_select_conserves _ _ _ _ _ 1 example_payable)|by vm_compute].
Defined.

(** One required output of 100,000 and two optional ones, at the example's fee rate. *)
Definition example_group (id value : Z) : OutputGroup :=
  MkOutputGroup (example_coin id value) 165 (value - 165).

Lemma bnb_in_window_witness :
  bnb [example_group 1 100000] [example_group 2 60000; example_group 3 30000]
    99835 89670 129600 124 example_drain 1000
  = Ok (MkCoinSelectionResult [wu_utxo (example_coin 3 30000); wu_utxo (example_coin 1 100000)]
          330 (NoChange 294 70 124))
  ∧ ∃ chosen, chosen ⊆+ [example_group 2 60000; example_group 3 30000]
      ∧ 129600 ≤ zsum og_effective_value (chosen ++ [example_group 1 100000]) ≤ 129600 + 124.
Proof.
  assert (bnb [example_group 1 100000] [example_group 2 60000; example_group 3 30000]
    99835 89670 129600 124 example_drain 1000
    = Ok (MkCoinSelectionResult [wu_utxo (example_coin 3 30000); wu_utxo (example_coin 1 100000)]
          330 (NoChange 294 70 124))) as Hb by (vm_compute; reflexivity).
  split; [exact Hb|].
  assert (payable 1000 129600 example_drain
    ([example_coin 1 100000] ++ [example_coin 2 60000; example_coin 3 30000])) as P.
  { destruct example_payable. split; try done. }
  pose proof (bnb_in_window _ [example_group 1 100000]
    [example_group 2 60000; example_group 3 30000] 129600 124 _ _ P) as H.
  change (zsum og_effective_value [example_group 1 100000]) with 99835 in H.
  change (zsum og_effective_value [example_group 2 60000; example_group 3 30000])
    with 89670 in H.
  rewrite Hb in H. destruct H as (chosen & H1 & _ & _ & H2 & _).
  - split; [|done]. repeat (apply Forall_cons; split; [by split|]). apply Forall_nil_2.
  - split_and!; try done. apply (bool_decide_unpack _). by vm_compute.
  - by exists chosen.
Defined.

(** A refusal can be wrong. With an output too small to pay for itself drawn
    first, the fallback spends both outputs and reports insufficient funds, although
    the other output alone pays the target and its fee; drawn in the other order
    the same payment succeeds. *)
Theorem coin_select_false_refusal :
  let coin := example_coin 1 100000 in
  let dusty := example_coin 2 10 in
  (coin_select [] [dusty; coin] 1000 99700 example_drain 1).1
    = Err (MkInsufficientFunds 100030 100010)
  ∧ 99700 + fee_of 1000 coin ≤ wu_value coin
  ∧ (coin_select [] [coin; dusty] 1000 99700 example_drain 1).1
    = Ok (MkCoinSelectionResult [wu_utxo coin] 165 (NoChange 294 135 124)).
Proof. cbv zeta. split; [|split]; [vm_compute; reflexivity|by vm_compute|vm_compute; reflexivity]. Qed.
