(* ===== verification/SelectionTests.v ===== *)
(** * The unit tests of coin selection

    The tests of [crates/wallet/src/coin_selection.rs] as programs over the model,
    with the fee and dust arithmetic of the [bitcoin] crate.  The three tests that draw
    their outputs from a seeded generator of the [rand] crate are not included. *)

From S2P Require Import Prelude Hash256 Crypto UnitTests WalletTypes CoinSelection.

(** ** The arithmetic of the [bitcoin] crate *)

(** [OP_RETURN] scripts, and witness programs: a version, and one push of 2 to 40
    bytes. *)
Definition is_op_return (s : bytes) : bool :=
  match s with b :: _ => b =? 0x6a | [] => false end.

Definition is_witness_program (s : bytes) : bool :=
  match s with
  | version :: push :: _ =>
    ((version =? 0) || between 0x51 0x60 version) && between 2 40 push && (zlen s =? push + 2)
  | _ => false
  end.

(** The length of a script with its length in front. *)
Definition encoded_len (s : bytes) : Z :=
  zlen s + (if zlen s <? 253 then 1 else if zlen s <? 65536 then 3 else 5).

(** The threshold of Bitcoin Core at 3,000 satoshi per thousand virtual bytes: an
    output of the script together with an input that spends it. *)
Definition dust_threshold (s : bytes) : Z :=
  3000 * (if is_op_return s then 0
          else if is_witness_program s then 32 + 4 + 1 + 107 / 4 + 4 + 8 + encoded_len s
          else 32 + 4 + 1 + 107 + 4 + 8 + encoded_len s) / 1000.

Lemma encoded_len_nonneg s : 0 ≤ encoded_len s.
Proof. unfold encoded_len. pose proof (zlen_nonneg s). repeat case_match; lia. Qed.

Lemma dust_threshold_nonneg s : 0 ≤ dust_threshold s.
Proof.
  unfold dust_threshold. pose proof (encoded_len_nonneg s). apply Z.div_pos; [|lia].
  change (107 / 4) with 26. repeat case_match; lia.
Qed.

#[local, refine] Instance rust_bitcoin : BitcoinCrate := {
  fee_mul rate weight :=
    let p := rate * weight + 999 in
    if (0 <=? p) && (p <? 2 ^ 64) then Some (p / 1000) else None;
  txin_segwit_weight := 165;
  weight_from_vb vb := if vb * 4 <? 2 ^ 64 then Some (vb * 4) else None;
  script_serialized_len := encoded_len;
  minimal_non_dust := dust_threshold;
  minimal_non_dust_amount := dust_threshold_nonneg;
}.
Proof.
  intros rate weight a. cbn. destruct (Z.leb_spec 0 (rate * weight + 999)); cbn; [|done].
  destruct (_ <? _); [|done]. intros [= <-]. by apply Z.div_pos.
Defined.

(** [FeeRate::from_sat_per_vb_unchecked], [BROADCAST_MIN] and [ZERO], in satoshi per
    thousand weight units. *)
Definition sat_per_vb (n : Z) : Z := n * (1000 / 4).
Definition BROADCAST_MIN : Z := sat_per_vb 1.

(** ** The outputs of the tests *)

Definition P2WPKH_SATISFACTION_SIZE : Z := 1 + 72 + 1 + 33.
Definition FEE_AMOUNT : Z := 50.

(** The transaction id of the index: its last hexadecimal digit, so its first byte. *)
Definition test_utxo (value index chain_position : Z) : WeightedUtxo :=
  MkWeightedUtxo P2WPKH_SATISFACTION_SIZE
    (MkUtxo (index :: replicate 31 0, 0) (MkTxOut value []) External false 42
       (Some chain_position)).

Definition get_test_utxos : list WeightedUtxo :=
  [test_utxo 100000 1 1; test_utxo (FEE_AMOUNT - 40) 2 2; test_utxo 200000 3 3].

Definition same_value_txid : bytes :=
  match hash "ebd9813ecebc57ff8f30797de7c205e3c7498ca950ea4341ee51a685ff2fa30a" with
  | Ok h => hash_bytes h
  | _ => []
  end.

Definition generate_same_value_utxos (utxos_value : Z) (utxos_number : nat) : list WeightedUtxo :=
  map (λ i, MkWeightedUtxo P2WPKH_SATISFACTION_SIZE
              (MkUtxo (same_value_txid, Z.of_nat i) (MkTxOut utxos_value []) External false 42
                 (Some 0)))
    (seq 0 utxos_number).

Definition calc_target_amount (utxos : list WeightedUtxo) (fee_rate : Z)
    : outcome Empty_set Z :=
  groups ← output_groups fee_rate utxos;
  sum ← sum_with add_i64 (λ g, Ok (og_effective_value g)) 0 groups;
  to_unsigned "unsigned amount" sum.

(** The three assertions most tests end with. *)
Definition selects {E} (r : outcome E CoinSelectionResult) (count selected fee : Z) : test :=
  result ← unwrapped r;
  zlen (csr_selected result) ==? count;;
  amount ← selected_amount result;
  amount ==? selected;;
  csr_fee_amount result ==? fee.

(** [matches!(result, Err(InsufficientFunds { available, .. }) if ..)]. *)
Definition insufficient (r : outcome InsufficientFunds CoinSelectionResult)
    (P : InsufficientFunds → bool) : test :=
  match r with
  | Err e => assert (P e)
  | Ok _ => Panic "assertion failed"
  | Panic s => Panic s
  end.

(** [thread_rng()] is any generator. *)
Section Tests.
  Context {R : Type} `{RNG : RngCore R} (rng : R).

Definition test_bnb_coin_selection_success : test :=
  let utxos := generate_same_value_utxos 100000 20 in
  let target_amount := 250000 + FEE_AMOUNT in
  selects (coin_select [] utxos (sat_per_vb 1) target_amount [] rng).1 3 300000 204.

Definition test_bnb_coin_selection_required_are_enough : test :=
  let utxos := get_test_utxos in
  let target_amount := 20000 + FEE_AMOUNT in
  selects (coin_select utxos utxos (sat_per_vb 1) target_amount [] rng).1 3 300010 204.

Definition test_bnb_coin_selection_optional_are_enough : test :=
  let utxos := get_test_utxos in
  target_amount ← calc_target_amount [test_utxo 100000 1 1; test_utxo 200000 3 3] BROADCAST_MIN;
  selects (coin_select [] utxos BROADCAST_MIN target_amount [] rng).1 2 300000 136.

Definition test_single_random_draw_function_error : test :=
  let target_amount := 300000 + FEE_AMOUNT in
  insufficient (SingleRandomDraw_coin_select [] get_test_utxos (sat_per_vb 1) target_amount [] rng).1
    (λ e, (if_needed e =? 300254) && (if_available e =? 300010)).

Definition test_bnb_coin_selection_required_not_enough : test :=
  let required := take 1 get_test_utxos in
  let optional := drop 1 get_test_utxos ++ [test_utxo 500000 3 0] in
  amount ← sum_with amount_add (λ u, Ok (wu_value u)) 0 required;
  amount ==? 100000;;
  amount ← sum_with amount_add (λ u, Ok (wu_value u)) 0 optional;
  assert (150000 <? amount);;
  target_amount ← calc_target_amount [test_utxo 100000 1 1; test_utxo 200000 3 3] BROADCAST_MIN;
  selects (coin_select required optional BROADCAST_MIN target_amount [] rng).1 2 300000 136.

Definition test_bnb_coin_selection_insufficient_funds : test :=
  insufficient (coin_select [] get_test_utxos (sat_per_vb 1) (500000 + FEE_AMOUNT) [] rng).1
    (λ _, true).

Definition test_bnb_coin_selection_insufficient_funds_high_fees : test :=
  insufficient (coin_select [] get_test_utxos (sat_per_vb 1000) (250000 + FEE_AMOUNT) [] rng).1
    (λ _, true).

(** [Amount / Weight] is the fee rate, rounded down. *)
Definition test_bnb_coin_selection_check_fee_rate : test :=
  target_amount ← calc_target_amount (take 1 get_test_utxos) BROADCAST_MIN;
  result ← unwrapped (coin_select [] get_test_utxos BROADCAST_MIN target_amount [] rng).1;
  zlen (csr_selected result) ==? 1;;
  amount ← selected_amount result;
  amount ==? 100000;;
  let input_weight := txin_segwit_weight + P2WPKH_SATISFACTION_SIZE in
  csr_fee_amount result * 1000 / input_weight ==? BROADCAST_MIN.

Definition test_bnb_exclude_negative_effective_value : test :=
  insufficient (coin_select [] get_test_utxos (sat_per_vb 10) 500000 [] rng).1
    (λ e, if_available e =? 300000).

Definition test_bnb_include_negative_effective_value_when_required : test :=
  let required := filter (λ u, wu_value u < 1000) get_test_utxos in
  let optional := filter (λ u, ¬ wu_value u < 1000) get_test_utxos in
  insufficient (coin_select required optional (sat_per_vb 10) 500000 [] rng).1
    (λ e, if_available e =? 300010).

Definition test_bnb_sum_of_effective_value_negative : test :=
  insufficient (coin_select get_test_utxos [] (sat_per_vb 10000) 500000 [] rng).1
    (λ e, if_available e =? 300010).

(** The tests in which nothing is drawn hold whatever the generator is. *)
Example selection_tests_pass :
  test_bnb_coin_selection_required_are_enough = Ok tt
  ∧ test_bnb_coin_selection_optional_are_enough = Ok tt
  ∧ test_bnb_coin_selection_required_not_enough = Ok tt
  ∧ test_bnb_coin_selection_insufficient_funds = Ok tt
  ∧ test_bnb_coin_selection_insufficient_funds_high_fees = Ok tt
  ∧ test_bnb_coin_selection_check_fee_rate = Ok tt
  ∧ test_bnb_exclude_negative_effective_value = Ok tt
  ∧ test_bnb_include_negative_effective_value_when_required = Ok tt
  ∧ test_bnb_sum_of_effective_value_negative = Ok tt.
Proof. vm_compute. done. Qed.

End Tests.

(** The two that draw, with a generator of one number. *)
Example drawing_tests_pass :
  Forall (λ rng : Z, test_bnb_coin_selection_success rng = Ok tt
    ∧ test_single_random_draw_function_error rng = Ok tt) [0; 1; 7].
Proof. repeat constructor; vm_compute; reflexivity. Qed.

(** ** The search alone *)

(** [utxos.iter().fold(SignedAmount::ZERO, |acc, x| acc + x.effective_value)]. *)
Definition available_value (groups : list OutputGroup) : outcome Empty_set Z :=
  sum_with add_i64 (λ g, Ok (og_effective_value g)) 0 groups.

(** [Weight::from_vb_unchecked(size_of_change) * fee_rate]. *)
Definition change_cost (vb fee_rate : Z) : outcome Empty_set Z :=
  unwrap_opt "overflow" (fee_mul fee_rate (vb * 4)) ≫= to_signed.

Definition test_bnb_function_no_exact_match : test :=
  let fee_rate := sat_per_vb 10 in
  utxos ← output_groups fee_rate get_test_utxos;
  curr_available_value ← available_value utxos;
  cost_of_change ← change_cost 31 fee_rate;
  let target_amount := 20000 + FEE_AMOUNT in
  match bnb [] utxos 0 curr_available_value target_amount cost_of_change [] fee_rate with
  | Err NoExactMatch => Ok tt
  | _ => Panic "assertion failed"
  end.

Definition test_bnb_function_tries_exceeded (n : nat) : test :=
  let fee_rate := sat_per_vb 10 in
  utxos ← output_groups fee_rate (generate_same_value_utxos 100000 n);
  curr_available_value ← available_value utxos;
  cost_of_change ← change_cost 31 fee_rate;
  let target_amount := 20000 + FEE_AMOUNT in
  match bnb [] utxos 0 curr_available_value target_amount cost_of_change [] fee_rate with
  | Err TotalTriesExceeded => Ok tt
  | _ => Panic "assertion failed"
  end.

Definition test_bnb_function_almost_exact_match_with_fees : test :=
  let fee_rate := sat_per_vb 1 in
  cost_of_change ← change_cost 31 fee_rate;
  utxos ← output_groups fee_rate (generate_same_value_utxos 50000 10);
  curr_available_value ← available_value utxos;
  let target_amount := 2 * 50000 - 2 * 67 - cost_of_change + 5 in
  result ← unwrapped (bnb [] utxos 0 curr_available_value target_amount cost_of_change [] fee_rate);
  amount ← selected_amount result;
  amount ==? 100000;;
  csr_fee_amount result ==? 136.

Example bnb_tests_pass :
  test_bnb_function_no_exact_match = Ok tt
  ∧ test_bnb_function_almost_exact_match_with_fees = Ok tt.
Proof. vm_compute. done. Qed.

(** ** Duplicates *)

(** [OutPoint::new(Hash::hash(txid.as_bytes()), 0)]: a transaction id is a double
    SHA-256. *)
Definition named_utxo (u : string * Z) : WeightedUtxo :=
  MkWeightedUtxo 0
    (MkUtxo (sha256_digest (sha256_digest (str u.1)), 0) (MkTxOut u.2 []) External false 0 (Some 0)).

(** The order of transaction ids: the bytes, compared from the first. *)
Fixpoint bytes_le (a b : bytes) : bool :=
  match a, b with
  | [], _ => true
  | _, [] => false
  | x :: a, y :: b => (x <? y) || (x =? y) && bytes_le a b
  end.

Definition outpoint_le (a b : WeightedUtxo) : Prop :=
  bytes_le (utxo_outpoint (wu_utxo a)).1 (utxo_outpoint (wu_utxo b)).1 = true.
#[local] Instance outpoint_le_dec : RelDecision outpoint_le.
Proof. intros a b. unfold outpoint_le. apply _. Defined.

Definition to_utxo_vec (utxos : list (string * Z)) : list WeightedUtxo :=
  merge_sort outpoint_le (map named_utxo utxos).

(** A case: the arguments and the expected results. *)
Definition filter_case (required optional exp_required exp_optional : list (string * Z)) : test :=
  let '(r, o) := filter_duplicates (to_utxo_vec required) (to_utxo_vec optional) in
  r ==? to_utxo_vec exp_required;;
  o ==? to_utxo_vec exp_optional.

Definition test_filter_duplicates : test :=
  (filter_case [("A", 1000); ("B", 2100)] [("C", 1000)]
    [("A", 1000); ("B", 2100)] [("C", 1000)];;
  filter_case [("A", 3000); ("B", 1200); ("C", 1234); ("A", 3000)] [("D", 2100)]
    [("A", 3000); ("B", 1200); ("C", 1234)] [("D", 2100)];;
  filter_case [("A", 3000); ("B", 1200)] [("C", 5000); ("D", 1300); ("C", 5000)]
    [("A", 3000); ("B", 1200)] [("C", 5000); ("D", 1300)];;
  filter_case [("A", 3000); ("B", 1200); ("C", 2100)] [("A", 3000); ("D", 1200); ("E", 5000)]
    [("A", 3000); ("B", 1200); ("C", 2100)] [("D", 1200); ("E", 5000)])%string%Z.

Example filter_duplicates_test_passes : test_filter_duplicates = Ok tt.
Proof. vm_compute. done. Qed.

(** ** A search that gives up *)

(** When every output alone is worth more than the target and the cost of change, the
    search leaves one output out every two turns. *)
Section Exhaust.
  Context (ogs : list OutputGroup) (v target cost : Z).
  Hypothesis values : Forall (λ g, og_effective_value g = v) ogs.
  Hypothesis large : 0 ≤ cost ∧ 0 < target ∧ target + cost < v.
  Hypothesis total : zlen ogs * v < 2 ^ 62.

Definition left_out (k : nat) : bnb_state :=
  MkBnb (replicate k false) 0 ((zlen ogs - Z.of_nat k) * v) [] None.

Lemma value_at_all {E} i : (i < length ogs)%nat → value_at (E := E) ogs i = Ok v.
Proof.
  intros [g Hg]%lookup_lt_is_Some_2. unfold value_at. rewrite Hg. cbn.
  by rewrite (Forall_lookup_1 _ _ _ _ values Hg).
Qed.

(** The state after the first of the two turns. *)
Definition tried (k : nat) : bnb_state :=
  MkBnb (true :: replicate k false) v ((zlen ogs - Z.of_nat (S k)) * v) [] None.

Lemma left_out_range k :
  (k < length ogs)%nat →
  0 ≤ (zlen ogs - Z.of_nat (S k)) * v
  ∧ (zlen ogs - Z.of_nat k) * v = (zlen ogs - Z.of_nat (S k)) * v + v
  ∧ (zlen ogs - Z.of_nat (S k)) * v + v < 2 ^ 62.
Proof. intros Hk. unfold zlen in *. split_and!; nia. Qed.

Ltac turn :=
  cbn [bnb_curr_value bnb_curr_available_value bnb_current_selection bnb_best_selection
    bnb_best_selection_value walk_back mbind outcome_bind];
  unfold add_i64, sub_i64;
  repeat first [rewrite checked_ok by lia | rewrite length_replicate
    | rewrite value_at_all by done | rewrite (proj2 (Z.ltb_ge _ _)) by lia
    | rewrite (proj2 (Z.ltb_lt _ _)) by lia | rewrite (proj2 (Z.leb_gt _ _)) by lia
    | progress cbn [mbind outcome_bind]].

Lemma turn_forward k :
  (k < length ogs)%nat → bnb_turn ogs target cost (left_out k) = Ok (Continue (tried k)).
Proof.
  intros Hk. destruct (left_out_range k Hk) as (Hr & Hs & Hv).
  unfold bnb_turn, left_out. rewrite Hs. turn. unfold bnb_forward. turn.
  unfold tried. do 3 f_equal; lia.
Qed.

Lemma turn_back k :
  (k < length ogs)%nat → bnb_turn ogs target cost (tried k) = Ok (Continue (left_out (S k))).
Proof.
  intros Hk. destruct (left_out_range k Hk) as (Hr & Hs & Hv).
  unfold bnb_turn, tried. turn. unfold bnb_backtrack. turn.
  unfold left_out. cbn [replicate]. do 3 f_equal; lia.
Qed.

Lemma search_gives_up m k :
  (k + m ≤ length ogs)%nat →
  bnb_loop (m * 2) ogs target cost (left_out k) = Ok (left_out (k + m)).
Proof.
  revert k. induction m as [|m IH]; intros k Hk; [by rewrite Nat.add_0_r|].
  cbn [Nat.mul Nat.add bnb_loop]. rewrite turn_forward by lia. cbn [mbind outcome_bind bnb_loop].
  rewrite turn_back by lia. cbn [mbind outcome_bind]. rewrite IH by lia. do 2 f_equal. lia.
Qed.

End Exhaust.

Lemma same_value_groups {E} (l : list WeightedUtxo) :
  Forall (λ u, wu_satisfaction_weight u = P2WPKH_SATISFACTION_SIZE ∧ wu_value u = 100000) l →
  ∃ gs, output_groups (E := E) (sat_per_vb 10) l = Ok gs ∧ length gs = length l
    ∧ Forall (λ g, og_effective_value g = 99320) gs.
Proof.
  induction 1 as [|u l [Hw Hv] _ (gs & IH & Hl & Hgs)]; [by exists []|].
  exists (MkOutputGroup u 680 99320 :: gs). split_and!; [|cbn; lia|by constructor].
  cbn [output_groups]. unfold OutputGroup_new, input_fee. rewrite Hw, Hv.
  change (txin_segwit_weight + P2WPKH_SATISFACTION_SIZE) with 272. cbn. by rewrite IH.
Qed.

Lemma same_value_available gs acc :
  Forall (λ g, og_effective_value g = 99320) gs → 0 ≤ acc → acc + zlen gs * 99320 < 2 ^ 62 →
  sum_with (E := Empty_set) add_i64 (λ g, Ok (og_effective_value g)) acc gs
  = Ok (acc + zlen gs * 99320).
Proof.
  intros Hgs. revert acc. induction Hgs as [|g gs Hg _ IH]; intros acc Ha Hb.
  - cbn. f_equal. unfold zlen. cbn. lia.
  - rewrite zlen_cons in *. pose proof (zlen_nonneg gs). cbn [sum_with mbind outcome_bind].
    assert (@add_i64 Empty_set acc 99320 = Ok (acc + 99320)) as E by (apply checked_ok; lia).
    rewrite Hg, E. cbn [mbind outcome_bind].
    rewrite IH by lia. f_equal. lia.
Qed.

(** The source runs the test with 100,000 outputs; it passes from 50,000 on. *)
Lemma tries_exceeded_passes n :
  50000 ≤ Z.of_nat n < 2 ^ 40 → test_bnb_function_tries_exceeded n = Ok tt.
Proof.
  intros Hn. unfold test_bnb_function_tries_exceeded.
  destruct (same_value_groups (E := Empty_set) (generate_same_value_utxos 100000 n))
    as (gs & -> & Hl & Hgs).
  { unfold generate_same_value_utxos. rewrite Forall_fmap. by apply Forall_true. }
  unfold generate_same_value_utxos in Hl. rewrite length_map, length_seq in Hl.
  cbn [mbind outcome_bind]. unfold available_value.
  rewrite same_value_available by (done || unfold zlen; lia). cbn [mbind outcome_bind].
  change (change_cost 31 (sat_per_vb 10)) with (Ok 310 : outcome Empty_set Z).
  cbn [mbind outcome_bind]. unfold bnb.
  assert (length (sort_descending gs) = n) as Hsl.
  { unfold sort_descending. by rewrite length_reverse, merge_sort_Permutation. }
  assert (Forall (λ g, og_effective_value g = 99320) (sort_descending gs)) as Hs.
  { unfold sort_descending. apply Forall_reverse. by rewrite merge_sort_Permutation. }
  pose proof (search_gives_up (sort_descending gs) 99320 (20000 + FEE_AMOUNT) 310 Hs) as Hgive.
  specialize (Hgive ltac:(unfold FEE_AMOUNT; lia) ltac:(unfold zlen; lia) (N.to_nat 50000) 0%nat
    ltac:(lia)).
  unfold left_out in Hgive. cbn [replicate Nat.add] in Hgive.
  replace (0 + zlen gs * 99320) with ((zlen (sort_descending gs) - Z.of_nat 0) * 99320)
    by (unfold zlen; lia).
  replace BNB_TOTAL_TRIES with (N.to_nat 50000 * 2)%nat by (unfold BNB_TOTAL_TRIES; lia).
  rewrite Hgive. done.
Qed.

Example tries_exceeded_test_passes : test_bnb_function_tries_exceeded (N.to_nat 100000) = Ok tt.
Proof. apply tries_exceeded_passes. lia. Qed.
