(* ===== verification/WalletApi.v ===== *)
(** * The wallet component's interface ([crates/wallet/wit/world.wit])

    What the node and the chain see of the wallet: the exported data and the methods
    they call.  The chain is proved against this interface; the watch-only wallet
    implements it. *)

From S2P Require Import Prelude.

Inductive GuestError :=
| GCoinSelection | GPsbt | GMissingNonWitnessUtxo | GNoPubkey | GPubkeyError.

(** [bitcoin-network]. *)
Inductive ConfigNetwork := CBitcoin | CTestnet | CTestnet4 | CSignet | CRegtest.

Record GuestPartialUtxo := MkGuestPartialUtxo {
  gpu_txid : bytes;
  gpu_vout : Z;
  gpu_amount : Z;
  gpu_script : bytes;
  gpu_is_spent : bool;
}.

#[export] Instance GuestPartialUtxo_eq_dec : EqDecision GuestPartialUtxo.
Proof. solve_decision. Defined.

(** The outpoint an entry is about. *)
Definition gpu_outpoint (p : GuestPartialUtxo) : bytes * Z := (gpu_txid p, gpu_vout p).

(** The methods the chain calls on a wallet of type [T]. *)
Class WalletApi (T : Type) := {
  api_get_pubkeys : T → outcome GuestError (list bytes);
  api_get_utxos : T → outcome GuestError (list GuestPartialUtxo);
  api_insert_utxos : list GuestPartialUtxo → T → outcome GuestError () * T;
}.
