(* ===== verification/Wallet.v ===== *)
(** * The watch-only wallet ([crates/wallet/src/{watch_wallet,errors,lib}.rs])

    A wallet that knows an account's public key: the addresses it handed out, the
    outputs paid to them, and the unsigned payments made from them.  Key derivation,
    addresses, partially signed transactions and the serialisation of the state are
    the [bitcoin] and [bincode] crates': parameters of the model.

    A method on [&mut self] takes the wallet and returns its result with the wallet
    as it is afterwards, also when the method fails. *)

From S2P Require Import Prelude Hash256 WalletTypes CoinSelection WalletApi.

(** ** The [bitcoin] crate's keys *)

(** [Xpub::ckd_pub] at [ChildNumber::Normal], [Xpub::to_pub], [Address::p2wpkh] as
    text and as script, [ScriptBuf::new_p2wpkh] of a key's hash. The address of a
    key and the key's hash give the same script. *)
Class KeyCrate := {
  Xpub : Type;
  CompressedPublicKey : Type;
  Bip32Error : Type;
  ckd_pub : Xpub → Z → Bip32Error + Xpub;
  to_pub : Xpub → CompressedPublicKey;
  address_text : CompressedPublicKey → Network → string;
  address_script : CompressedPublicKey → Network → bytes;
  new_p2wpkh : CompressedPublicKey → bytes;
  address_script_p2wpkh k n : address_script k n = new_p2wpkh k;
}.

(** ** The [bitcoin] crate's transactions *)

Record TxIn := MkTxIn {
  txi_previous_output : OutPoint;
  txi_script_sig : bytes;
  txi_sequence : Z;
  txi_witness : list bytes;
}.

Record Transaction := MkTransaction {
  tr_version : Z;
  tr_lock_time : Z;
  tr_input : list TxIn;
  tr_output : list TxOut;
}.

Section Psbt.
  Context `{KC : KeyCrate}.

(** The fields of [psbt::Input] the wallet uses; a [BTreeMap] is its entries in key
    order, a signature its serialised bytes. *)
Record Input := MkInput {
  in_witness_utxo : option TxOut;
  in_partial_sigs : list (CompressedPublicKey * bytes);
  in_sighash_type : option Z;
  in_redeem_script : option bytes;
  in_witness_script : option bytes;
  in_bip32_derivation : list (CompressedPublicKey * (bytes * list Z));
  in_final_script_witness : option (list bytes);
}.

Definition Input_default : Input := MkInput None [] None None None [] None.

Record Psbt := MkPsbt { psbt_unsigned_tx : Transaction; psbt_inputs : list Input }.

End Psbt.

Definition unsigned (i : TxIn) : Prop := txi_script_sig i = [] ∧ txi_witness i = [].

(** [Psbt::from_unsigned_tx] (which refuses only signed transactions), [serialize],
    [deserialize], [extract_tx] (which fills in the final witnesses),
    [consensus::encode::serialize] of a transaction, [PublicKey::to_bytes]. *)
Class PsbtCrate `{KC : KeyCrate} := {
  PsbtError : Type;
  from_unsigned_tx : Transaction → PsbtError + Psbt;
  psbt_serialize : Psbt → bytes;
  psbt_deserialize : bytes → option Psbt;
  extract_tx : Psbt → option Transaction;
  tx_serialize : Transaction → bytes;
  pubkey_bytes : CompressedPublicKey → bytes;
  from_unsigned_tx_ok t :
    Forall unsigned (tr_input t) →
    from_unsigned_tx t = inr (MkPsbt t (map (λ _, Input_default) (tr_input t)));
  extract_tx_fills p t :
    extract_tx p = Some t →
    tr_output t = tr_output (psbt_unsigned_tx p)
    ∧ map txi_previous_output (tr_input t)
      = map txi_previous_output (tr_input (psbt_unsigned_tx p))
    ∧ map txi_witness (tr_input t)
      = map (λ i, default [] (in_final_script_witness i)) (psbt_inputs p);
}.

(** ** [errors.rs] *)

Inductive Error `{PC : PsbtCrate} :=
| CoinSelectionError (e : InsufficientFunds)
| PsbtErr (e : PsbtError)
| MissingNonWitnessUtxo (o : OutPoint)
| PubKeyError (e : Bip32Error)
| NoPubKey.

(** ** Maps in key order *)

(** The order of byte vectors, and of outpoints: [Txid] first, then the index. *)
Fixpoint bytes_leb (a b : bytes) : bool :=
  match a, b with
  | [], _ => true
  | _ :: _, [] => false
  | x :: a, y :: b => (x <? y) || ((x =? y) && bytes_leb a b)
  end.

Definition outpoint_leb (a b : OutPoint) : bool :=
  if bool_decide (a.1 = b.1) then a.2 <=? b.2 else bytes_leb a.1 b.1.

Definition key_le {K V} (leb : K → K → bool) (a b : K * V) : Prop := leb a.1 b.1 = true.
#[export] Instance key_le_dec {K V} (leb : K → K → bool) : RelDecision (@key_le K V leb).
Proof. intros a b. unfold key_le. apply _. Defined.

(** [BTreeMap::iter]: the entries in the order of their keys. *)
Definition entries {K V} `{Countable K} (leb : K → K → bool) (m : gmap K V) : list (K * V) :=
  merge_sort (key_le leb) (map_to_list m).

Definition values {K V} `{Countable K} (leb : K → K → bool) (m : gmap K V) : list V :=
  map snd (entries leb m).

Definition keys {K V} `{Countable K} (leb : K → K → bool) (m : gmap K V) : list K :=
  map fst (entries leb m).

(** ** [watch_wallet.rs] *)

Inductive WalletType := P2WPKH.

Section Wallet.
  Context `{BC : BitcoinCrate} `{KC : KeyCrate} `{PC : !PsbtCrate}.

Record WatchOnly := MkWatchOnly {
  account_xpub : Xpub;
  network : Network;
  pubkey_map : gmap bytes PubkeyDetails;
  wallet_type : WalletType;
  receive_depth : Z;
  change_depth : Z;
  utxo_map : gmap OutPoint WeightedUtxo;
  account_derivation : list Z;
  master_fingerprint : bytes;
}.

Definition set_pubkey_map (w : WatchOnly) m :=
  MkWatchOnly (account_xpub w) (network w) m (wallet_type w) (receive_depth w) (change_depth w)
    (utxo_map w) (account_derivation w) (master_fingerprint w).

Definition set_change_depth (w : WatchOnly) d :=
  MkWatchOnly (account_xpub w) (network w) (pubkey_map w) (wallet_type w) (receive_depth w) d
    (utxo_map w) (account_derivation w) (master_fingerprint w).

Definition set_utxo_map (w : WatchOnly) m :=
  MkWatchOnly (account_xpub w) (network w) (pubkey_map w) (wallet_type w) (receive_depth w)
    (change_depth w) m (account_derivation w) (master_fingerprint w).

Definition WatchOnly_new (xpub : Xpub) (network : Network) (account_derivation : list Z)
    (master_fingerprint : bytes) : WatchOnly :=
  MkWatchOnly xpub network ∅ P2WPKH 0 0 ∅ account_derivation master_fingerprint.

Definition get_utxos (w : WatchOnly) : list PartialUtxo :=
  map (λ u, PartialUtxo_from (wu_utxo u)) (values outpoint_leb (utxo_map w)).

Definition get_pubkeys (w : WatchOnly) : list bytes := keys bytes_leb (pubkey_map w).

(** One turn of [insert_utxos]. *)
Definition insert_utxo (w : WatchOnly) (p : PartialUtxo) : outcome Error () * WatchOnly :=
  match utxo_map w !! pu_outpoint p with
  | Some u =>
    let u0 := wu_utxo u in
    let modified := MkWeightedUtxo (wu_satisfaction_weight u)
      (MkUtxo (utxo_outpoint u0) (utxo_txout u0) (utxo_keychain u0) (pu_is_spent p)
         (utxo_derivation_index u0) (utxo_chain_position u0)) in
    (Ok (), set_utxo_map w (<[pu_outpoint p := modified]> (utxo_map w)))
  | None =>
    match pubkey_map w !! pu_script p with
    | None => (Err NoPubKey, w)
    | Some details =>
      let utxo := MkUtxo (pu_outpoint p) (MkTxOut (pu_amount p) (pu_script p))
        (pd_key_type details) (pu_is_spent p) (pd_key_depth details) None in
      (Ok (), set_utxo_map w (<[pu_outpoint p := MkWeightedUtxo 0 utxo]> (utxo_map w)))
    end
  end.

Fixpoint insert_utxos (w : WatchOnly) (ps : list PartialUtxo) : outcome Error () * WatchOnly :=
  match ps with
  | [] => (Ok (), w)
  | p :: ps => try (_, w) := insert_utxo w p in insert_utxos w ps
  end.

(** The outputs sorted by [is_spent] (a stable sort), then added up. *)
Definition spent_le (a b : WeightedUtxo) : Prop :=
  utxo_is_spent (wu_utxo a) = true → utxo_is_spent (wu_utxo b) = true.
#[global] Instance spent_le_dec : RelDecision spent_le.
Proof. intros a b. unfold spent_le. apply _. Defined.

Fixpoint add_unspent {E} (balance : Z) (l : list WeightedUtxo) : outcome E Z :=
  match l with
  | [] => Ok balance
  | u :: l =>
    balance ← (if negb (utxo_is_spent (wu_utxo u))
               then checked 0 18446744073709551616
                      "called `Option::unwrap()` on a `None` value"
                      (balance + wu_value u)
               else Ok balance);
    add_unspent balance l
  end.

Definition balance (w : WatchOnly) : outcome Error Z :=
  add_unspent 0 (merge_sort spent_le (values outpoint_leb (utxo_map w))).

(** [ckd_pub] twice, with the errors mapped. *)
Definition derive (xpub : Xpub) (chain index : Z) : outcome Error CompressedPublicKey :=
  match ckd_pub xpub chain with
  | inl e => Err (PubKeyError e)
  | inr child =>
    match ckd_pub child index with
    | inl e => Err (PubKeyError e)
    | inr key => Ok (to_pub key)
    end
  end.

Definition get_receive_address (w : WatchOnly) : outcome Error string * WatchOnly :=
  try (child_pub, w) := (derive (account_xpub w) 0 (receive_depth w), w) in
  let script_pub := address_script child_pub (network w) in
  (Ok (address_text child_pub (network w)),
   set_pubkey_map w (<[script_pub := MkPubkeyDetails External (receive_depth w)]> (pubkey_map w))).

Definition get_change_script (w : WatchOnly) : outcome Error bytes * WatchOnly :=
  try (child_pub, w) := (derive (account_xpub w) 1 (change_depth w), w) in
  try (depth, w) := (add_u32 (change_depth w) 1, w) in
  let w := set_change_depth w depth in
  let script_pub := address_script child_pub (network w) in
  (Ok script_pub,
   set_pubkey_map w (<[script_pub := MkPubkeyDetails External (receive_depth w)]> (pubkey_map w))).

Definition derive_pubkey (w : WatchOnly) (u : Utxo) : outcome Error CompressedPublicKey :=
  derive (account_xpub w) (KeychainKind_as_u32 (utxo_keychain u)) (utxo_derivation_index u).

(** [EcdsaSighashType::All], [Sequence::default()] (the maximum). *)
Definition SIGHASH_ALL : Z := 1.
Definition SEQUENCE_MAX : Z := 4294967295.

(** The input of a selected output. *)
Definition psbt_input (w : WatchOnly) (u : Utxo) : outcome Error Input :=
  child_pub ← derive_pubkey w u;
  let path := account_derivation w
    ++ [KeychainKind_as_u32 (utxo_keychain u); utxo_derivation_index u] in
  Ok (MkInput (Some (utxo_txout u)) [] (Some SIGHASH_ALL) None (Some (new_p2wpkh child_pub))
        [(child_pub, (master_fingerprint w, path))] None).

Fixpoint psbt_inputs_for (w : WatchOnly) (l : list Utxo) : outcome Error (list Input) :=
  match l with
  | [] => Ok []
  | u :: l => i ← psbt_input w u; rest ← psbt_inputs_for w l; Ok (i :: rest)
  end.

(** The unsigned transaction: the selected outputs in, the recipient out, and the
    change when it is worth one. *)
Definition unsigned_tx (selected : list Utxo) (recipient : bytes) (amount : Z)
    (excess : Excess) (change_script : bytes) : Transaction :=
  MkTransaction 2 0
    (map (λ u, MkTxIn (utxo_outpoint u) [] SEQUENCE_MAX []) selected)
    (MkTxOut amount recipient ::
     match excess with
     | Change change_amount _ => [MkTxOut change_amount change_script]
     | NoChange _ _ _ => []
     end).

Definition lift_coin_selection {A} (m : outcome InsufficientFunds A) : outcome Error A :=
  match m with
  | Ok a => Ok a
  | Err e => Err (CoinSelectionError e)
  | Panic s => Panic s
  end.

Definition create_psbt {R} `{RngCore R} (w : WatchOnly) (recipient : bytes)
    (fee_rate amount : Z) (rand : R) : outcome Error Psbt * (WatchOnly * R) :=
  match get_change_script w with
  | (Err e, w) => (Err e, (w, rand))
  | (Panic s, w) => (Panic s, (w, rand))
  | (Ok change_script, w) =>
    let utxos := values outpoint_leb (utxo_map w) in
    let '(cs, rand) := coin_select [] utxos fee_rate amount change_script rand in
    (coinselection ← lift_coin_selection cs;
     psbt ← match from_unsigned_tx (unsigned_tx (csr_selected coinselection) recipient amount
                                      (csr_excess coinselection) change_script) with
            | inl e => Err (PsbtErr e)
            | inr psbt => Ok psbt
            end;
     inputs ← psbt_inputs_for w (csr_selected coinselection);
     Ok (MkPsbt (psbt_unsigned_tx psbt) inputs), (w, rand))
  end.

(** [create_psbt_tx] returns the serialised PSBT. *)
Definition create_psbt_tx {R} `{RngCore R} (w : WatchOnly) (recipient : bytes)
    (fee_rate amount : Z) (rand : R) : outcome Error bytes * (WatchOnly * R) :=
  try (psbt, t) := create_psbt w recipient fee_rate amount rand in (Ok (psbt_serialize psbt), t).

(** The loop of [finalise_psbt_tx]: the first signature of each input becomes its
    witness. *)
Fixpoint finalise_inputs {E} (l : list Input) : outcome E (list Input) :=
  match l with
  | [] => Ok []
  | i :: l =>
    sig ← unwrap_opt "called `Option::unwrap()` on a `None` value" (head (in_partial_sigs i));
    let '(pubkey, signature) := (sig : CompressedPublicKey * bytes) in
    rest ← finalise_inputs l;
    Ok (MkInput (in_witness_utxo i) (in_partial_sigs i) (in_sighash_type i)
          (in_redeem_script i) (in_witness_script i) (in_bip32_derivation i)
          (Some [signature; pubkey_bytes pubkey]) :: rest)
  end.

Definition clear_input (i : Input) : Input :=
  MkInput (in_witness_utxo i) [] None None None [] (in_final_script_witness i).

Definition finalise_psbt_tx (psbt : Psbt) : outcome Error bytes :=
  inputs ← finalise_inputs (psbt_inputs psbt);
  match inputs with
  | [] => Panic "index out of bounds: the len is 0 but the index is 0"
  | i :: inputs =>
    tx ← unwrap_opt "called `Result::unwrap()` on an `Err` value"
           (extract_tx (MkPsbt (psbt_unsigned_tx psbt) (clear_input i :: inputs)));
    Ok (tx_serialize tx)
  end.

(** ** [lib.rs]: the component's interface *)

(** [Xpub::from_str], [into_derivation_path], [Fingerprint::from_str]; [bincode] on
    the wallet, which gives back what it was given. *)
Class WalletText := {
  xpub_from_str : string → option Xpub;
  derivation_from_str : string → option (list Z);
  fingerprint_from_str : string → option bytes;
  bincode_serialize : WatchOnly → bytes;
  bincode_deserialize : bytes → option WatchOnly;
  bincode_round_trip w : bincode_deserialize (bincode_serialize w) = Some w;
}.

End Wallet.

Definition GuestError_from `{PC : PsbtCrate} (e : Error) : GuestError :=
  match e with
  | CoinSelectionError _ => GCoinSelection
  | PsbtErr _ => GPsbt
  | MissingNonWitnessUtxo _ => GMissingNonWitnessUtxo
  | PubKeyError _ => GPubkeyError
  | NoPubKey => GNoPubkey
  end.

Definition Network_into (n : ConfigNetwork) : Network :=
  match n with
  | CBitcoin => Bitcoin
  | CTestnet => Testnet
  | CTestnet4 => Testnet4
  | CSignet => Signet
  | CRegtest => Regtest
  end.

(** [wasi:random]: a number, and as many bytes as asked for. *)
Class WasiRandom (R : Type) := {
  wasi_random_u64 : R → Z * R;
  wasi_random_bytes : Z → R → bytes * R;
  wasi_random_u64_range r : is_u64 (wasi_random_u64 r).1;
  wasi_random_bytes_length n r : 0 ≤ n → zlen (wasi_random_bytes n r).1 = n;
}.

(** [impl RngCore for WasiRandom]. *)
Section WasiRandom.
  Context {R : Type} `{WR : WasiRandom R}.

Definition WasiRandom_next_u32 (r : R) : Z * R :=
  let '(n, r) := wasi_random_u64 r in (as_u32 n, r).

Definition WasiRandom_next_u64 (r : R) : Z * R := wasi_random_u64 r.

(** [dest[..source.len()].copy_from_slice(&source)]: the slice must be in range. *)
Definition WasiRandom_fill_bytes {E} (dest : bytes) (r : R) : outcome E bytes * R :=
  let '(source, r) := wasi_random_bytes (zlen dest) r in
  (if zlen source <=? zlen dest then Ok (source ++ drop (length source) dest)
   else Panic "range end index out of range", r).

Definition WasiRandom_try_fill_bytes {E} (dest : bytes) (r : R) : outcome E bytes * R :=
  WasiRandom_fill_bytes dest r.

#[export, refine] Instance wasi_rng : RngCore R := { next_u32 := WasiRandom_next_u32 }.
Proof.
  intros r. unfold WasiRandom_next_u32. destruct (wasi_random_u64 r) as [n r']. apply as_u32_range.
Defined.

(** Filling a buffer replaces all of it and never panics. *)
Lemma fill_bytes_ok {E} dest r :
  ∃ b r', @WasiRandom_fill_bytes E dest r = (Ok b, r') ∧ length b = length dest
    ∧ b = (wasi_random_bytes (zlen dest) r).1.
Proof.
  unfold WasiRandom_fill_bytes. pose proof (wasi_random_bytes_length (zlen dest) r (zlen_nonneg _)) as H.
  destruct (wasi_random_bytes (zlen dest) r) as [source r']. cbn [fst] in H. rewrite H, Z.leb_refl.
  exists source, r'. unfold zlen in H. rewrite drop_ge, app_nil_r by lia. split_and!; [done|lia|done].
Qed.

End WasiRandom.

Record WalletConfig := MkWalletConfig {
  cfg_xpub : string;
  cfg_account_derivation : string;
  cfg_master_fingerprint : string;
  cfg_network : ConfigNetwork;
}.

Inductive Initialization := OldState (state : bytes) | InitConfig (config : WalletConfig).

Definition map_err {E F A} (f : E → F) (m : outcome E A) : outcome F A :=
  match m with Ok a => Ok a | Err e => Err (f e) | Panic s => Panic s end.

Definition GuestPartialUtxo_from (p : PartialUtxo) : GuestPartialUtxo :=
  MkGuestPartialUtxo (pu_outpoint p).1 (pu_outpoint p).2 (pu_amount p) (pu_script p)
    (pu_is_spent p).

(** [Txid::from_slice(..).unwrap()]: 32 bytes or a panic. *)
Definition PartialUtxo_try_from {E} (g : GuestPartialUtxo) : outcome E PartialUtxo :=
  if bool_decide (length (gpu_txid g) = 32%nat)
  then Ok (MkPartialUtxo (gpu_txid g, gpu_vout g) (gpu_amount g) (gpu_script g) (gpu_is_spent g))
  else Panic "called `Result::unwrap()` on an `Err` value".

Fixpoint partial_utxos {E} (l : list GuestPartialUtxo) : outcome E (list PartialUtxo) :=
  match l with
  | [] => Ok []
  | g :: l => p ← PartialUtxo_try_from g; ps ← partial_utxos l; Ok (p :: ps)
  end.

Section Guest.
  Context `{BC : BitcoinCrate} `{KC : KeyCrate} `{PC : !PsbtCrate} `{WT : !WalletText}.

Definition guest_new (init : Initialization) : outcome GuestError WatchOnly :=
  match init with
  | OldState state =>
    unwrap_opt "called `Result::unwrap()` on an `Err` value" (bincode_deserialize state)
  | InitConfig c =>
    xpub ← unwrap_opt "called `Result::unwrap()` on an `Err` value" (xpub_from_str (cfg_xpub c));
    derivation ← unwrap_opt "called `Result::unwrap()` on an `Err` value"
                   (derivation_from_str (cfg_account_derivation c));
    fingerprint ← unwrap_opt "called `Result::unwrap()` on an `Err` value"
                    (fingerprint_from_str (cfg_master_fingerprint c));
    Ok (WatchOnly_new xpub (Network_into (cfg_network c)) derivation fingerprint)
  end.

Definition guest_get_receive_address (w : WatchOnly) : outcome GuestError string * WatchOnly :=
  let '(r, w) := get_receive_address w in (map_err GuestError_from r, w).

Definition guest_new_address (w : WatchOnly) : outcome GuestError string * WatchOnly :=
  let '(r, w) := get_receive_address w in (map_err GuestError_from r, w).

(** [FeeRate::from_sat_per_vb]: satoshi per virtual byte to satoshi per thousand
    weight units, if that fits in 64 bits. *)
Definition from_sat_per_vb (r : Z) : option Z :=
  if r * 250 <? 18446744073709551616 then Some (r * 250) else None.

Definition guest_create_transaction {R} `{RngCore R} (w : WatchOnly) (recipient : bytes)
    (amount fee_rate : Z) (rand : R) : outcome GuestError bytes * (WatchOnly * R) :=
  match from_sat_per_vb fee_rate with
  | None => (Panic "called `Option::unwrap()` on a `None` value", (w, rand))
  | Some fee_rate =>
    let '(r, t) := create_psbt_tx w recipient fee_rate amount rand in
    (map_err GuestError_from r, t)
  end.

Definition guest_get_pubkeys (w : WatchOnly) : outcome GuestError (list bytes) :=
  Ok (get_pubkeys w).

Definition guest_get_utxos (w : WatchOnly) : list GuestPartialUtxo :=
  map GuestPartialUtxo_from (get_utxos w).

Definition guest_insert_utxos (w : WatchOnly) (utxos : list GuestPartialUtxo)
    : outcome GuestError () * WatchOnly :=
  try (mapped, w) := (partial_utxos utxos, w) in
  let '(r, w) := insert_utxos w mapped in (map_err GuestError_from r, w).

Definition guest_balance (w : WatchOnly) : outcome GuestError Z :=
  map_err GuestError_from (balance w).

Definition guest_finalise_transaction (psbt : bytes) : outcome GuestError bytes :=
  psbt ← unwrap_opt "called `Result::unwrap()` on an `Err` value" (psbt_deserialize psbt);
  map_err GuestError_from (finalise_psbt_tx psbt).

Definition guest_get_state (w : WatchOnly) : bytes := bincode_serialize w.

End Guest.

(** ** Lemmas *)

Lemma values_perm {K V} `{Countable K} (leb : K → K → bool) (m : gmap K V) :
  values leb m ≡ₚ map snd (map_to_list m).
Proof. unfold values, entries. by rewrite merge_sort_Permutation. Qed.

Lemma elem_of_values {K V} `{Countable K} (leb : K → K → bool) (m : gmap K V) v :
  v ∈ values leb m ↔ ∃ k, m !! k = Some v.
Proof.
  rewrite values_perm. split.
  - intros ([k v'] & -> & Hin)%list_elem_of_fmap. apply elem_of_map_to_list in Hin. eauto.
  - intros [k Hk]. apply list_elem_of_fmap. exists (k, v). by rewrite elem_of_map_to_list.
Qed.

(** What an output adds to the balance. *)
Definition unspent_value (u : WeightedUtxo) : Z :=
  if utxo_is_spent (wu_utxo u) then 0 else wu_value u.

Lemma add_unspent_spec {E} b l :
  0 ≤ b < 2 ^ 64 → Forall (λ u, 0 ≤ wu_value u) l →
  @add_unspent E b l
  = if b + zsum unspent_value l <? 2 ^ 64 then Ok (b + zsum unspent_value l)
    else Panic "called `Option::unwrap()` on a `None` value".
Proof.
  intros Hb Hl. revert b Hb. induction Hl as [|u l Hu Hl IH]; intros b Hb.
  - unfold zsum. cbn [add_unspent foldr]. rewrite Z.add_0_r.
    by rewrite (proj2 (Z.ltb_lt _ _)) by lia.
  - assert (0 ≤ zsum unspent_value l) as Hrest.
    { apply zsum_nonneg. eapply Forall_impl; [exact Hl|]. intros v Hv. unfold unspent_value.
      by destruct (utxo_is_spent _). }
    cbn [add_unspent]. change (zsum unspent_value (u :: l))
      with (unspent_value u + zsum unspent_value l).
    unfold unspent_value at 1 3. destruct (utxo_is_spent (wu_utxo u)); cbn [negb mbind outcome_bind].
    + by rewrite IH.
    + destruct (decide (b + wu_value u < 2 ^ 64)) as [Hlt|Hge].
      * rewrite checked_ok by lia. cbn [mbind outcome_bind]. rewrite IH by lia.
        by rewrite Z.add_assoc.
      * rewrite checked_panic by lia. cbn [mbind outcome_bind].
        by rewrite (proj2 (Z.ltb_ge _ _)) by lia.
Qed.

Section WalletLaws.
  Context `{BC : BitcoinCrate} `{KC : KeyCrate} `{PC : !PsbtCrate}.

Implicit Types w : WatchOnly.

(** ** Insertion *)

(** The part of the wallet insertion leaves alone. *)
Definition same_account w w' : Prop :=
  account_xpub w' = account_xpub w ∧ network w' = network w ∧ pubkey_map w' = pubkey_map w
  ∧ receive_depth w' = receive_depth w ∧ change_depth w' = change_depth w
  ∧ account_derivation w' = account_derivation w ∧ master_fingerprint w' = master_fingerprint w.

Lemma insert_utxo_ok w p w' :
  insert_utxo w p = (Ok (), w') →
  same_account w w' ∧ ∃ u, utxo_map w' = <[pu_outpoint p := u]> (utxo_map w)
    ∧ utxo_is_spent (wu_utxo u) = pu_is_spent p
    ∧ match utxo_map w !! pu_outpoint p with
      | Some u0 => utxo_txout (wu_utxo u) = utxo_txout (wu_utxo u0)
          ∧ utxo_keychain (wu_utxo u) = utxo_keychain (wu_utxo u0)
          ∧ utxo_derivation_index (wu_utxo u) = utxo_derivation_index (wu_utxo u0)
      | None => PartialUtxo_from (wu_utxo u) = p
          ∧ ∃ d, pubkey_map w !! pu_script p = Some d
              ∧ utxo_keychain (wu_utxo u) = pd_key_type d
              ∧ utxo_derivation_index (wu_utxo u) = pd_key_depth d
      end.
Proof.
  unfold insert_utxo. intros H. destruct (utxo_map w !! pu_outpoint p) as [u0|] eqn:Hu.
  - simplify_eq. split; [done|]. eexists. split; [done|]. done.
  - destruct (pubkey_map w !! pu_script p) as [d|] eqn:Hd; simplify_eq.
    split; [done|]. eexists. split; [done|]. split; [done|]. split; [by destruct p|].
    by exists d.
Qed.

(** The wallet an [insert_utxos] returns keeps the account, and each outpoint of the
    list holds the last news about it. *)
Lemma insert_utxos_ok ps w w' :
  insert_utxos w ps = (Ok (), w') →
  same_account w w'
  ∧ (∀ o, o ∉ map pu_outpoint ps → utxo_map w' !! o = utxo_map w !! o)
  ∧ (∀ o u0, utxo_map w !! o = Some u0 →
       ∃ u, utxo_map w' !! o = Some u ∧ utxo_txout (wu_utxo u) = utxo_txout (wu_utxo u0))
  ∧ (NoDup (map pu_outpoint ps) → ∀ p, p ∈ ps →
       ∃ u, utxo_map w' !! pu_outpoint p = Some u ∧ utxo_is_spent (wu_utxo u) = pu_is_spent p
         ∧ (utxo_map w !! pu_outpoint p = None → PartialUtxo_from (wu_utxo u) = p)).
Proof.
  revert w. induction ps as [|p ps IH]; intros w H; cbn [insert_utxos] in H.
  { simplify_eq. split_and!; try done; [eauto|]. intros _ p Hp. set_solver. }
  destruct (insert_utxo w p) as [[[]|e|m] w1] eqn:E1; cbn [try_bind] in H; try done.
  destruct (insert_utxo_ok _ _ _ E1) as (Hsame & u & Hmap & Hspent & Hold).
  destruct (IH _ H) as (Hsame' & Hother & Hkept & Hnews).
  split; [unfold same_account in *; intuition congruence|]. split; [|split].
  - intros o Ho. cbn in Ho. rewrite Hother by set_solver. rewrite Hmap.
    rewrite lookup_insert_ne; [done|]. set_solver.
  - intros o u0 Ho. destruct (decide (o = pu_outpoint p)) as [->|Hne].
    + rewrite Ho in Hold. destruct Hold as [Htx _].
      destruct (Hkept (pu_outpoint p) u) as (u' & Hu' & Htx'); [by rewrite Hmap, lookup_insert_eq|].
      exists u'. split; [done|congruence].
    + apply Hkept. by rewrite Hmap, lookup_insert_ne.
  - intros [Hnin Hnd]%NoDup_cons q [->|Hq]%elem_of_cons.
    + exists u. rewrite Hother by done. rewrite Hmap, lookup_insert_eq.
      split_and!; try done. intros Hn. rewrite Hn in Hold. apply Hold.
    + destruct (Hnews Hnd q Hq) as (u' & Hu' & Hs & Hp). exists u'. split_and!; try done.
      intros Hn. apply Hp. rewrite Hmap, lookup_insert_ne; [done|].
      intros Heq. apply Hnin. rewrite Heq. apply list_elem_of_fmap. eauto.
Qed.

(** An entry the wallet accepts: it knows the script, or the output. *)
Definition acceptable w (p : PartialUtxo) : Prop :=
  is_Some (pubkey_map w !! pu_script p) ∨ is_Some (utxo_map w !! pu_outpoint p).

Lemma insert_utxos_succeeds ps w :
  Forall (acceptable w) ps → ∃ w', insert_utxos w ps = (Ok (), w').
Proof.
  intros Hps. revert w Hps. induction ps as [|p ps IH]; intros w Hps; [by eexists|].
  apply Forall_cons in Hps as [Hp Hps].
  assert (∃ w1, insert_utxo w p = (Ok (), w1)) as [w1 E1].
  { unfold insert_utxo. destruct (utxo_map w !! _) eqn:E; [eauto|].
    destruct Hp as [[d ->]|[u Hu]]; [eauto|congruence]. }
  destruct (insert_utxo_ok _ _ _ E1) as ((_ & _ & Hpk & _) & u & Hmap & _).
  destruct (IH w1) as [w' Hw'].
  { eapply Forall_impl; [exact Hps|]. unfold acceptable. rewrite Hpk, Hmap.
    intros q [Hq|Hq]; [by left|right]. apply lookup_insert_is_Some'. by right. }
  exists w'. cbn [insert_utxos]. by rewrite E1.
Qed.

(** Even an insertion that stops leaves the account alone. *)
Lemma insert_utxos_account w ps : same_account w (insert_utxos w ps).2.
Proof.
  revert w. induction ps as [|p ps IH]; intros w; [done|]. cbn [insert_utxos].
  destruct (insert_utxo w p) as [[[]|e|m] w1] eqn:E; cbn [try_bind snd].
  - destruct (insert_utxo_ok _ _ _ E) as [Hw _]. specialize (IH w1).
    unfold same_account in *. intuition congruence.
  - unfold insert_utxo in E. destruct (utxo_map w !! _); [done|]. destruct (pubkey_map w !! _); by simplify_eq.
  - unfold insert_utxo in E. destruct (utxo_map w !! _); [done|]. destruct (pubkey_map w !! _); by simplify_eq.
Qed.

(** Only the outpoints told become known. *)
Lemma insert_utxos_known ps w o :
  is_Some (utxo_map (insert_utxos w ps).2 !! o) →
  is_Some (utxo_map w !! o) ∨ o ∈ map pu_outpoint ps.
Proof.
  revert w. induction ps as [|p ps IH]; intros w H; [by left|]. cbn [insert_utxos] in H.
  destruct (insert_utxo w p) as [[[]|e|m] w1] eqn:E; cbn [try_bind snd] in H.
  - destruct (insert_utxo_ok _ _ _ E) as (_ & u & Hmap & _).
    apply IH in H as [H|H]; [|right; by right].
    rewrite Hmap in H. apply lookup_insert_is_Some in H as [<-|[_ H]]; [right; left|by left].
  - unfold insert_utxo in E. destruct (utxo_map w !! _); [done|]. destruct (pubkey_map w !! _); simplify_eq; by left.
  - unfold insert_utxo in E. destruct (utxo_map w !! _); [done|]. destruct (pubkey_map w !! _); simplify_eq; by left.
Qed.

(** Every output is filed under its own outpoint. *)
Definition filed w : Prop :=
  ∀ o u, utxo_map w !! o = Some u → utxo_outpoint (wu_utxo u) = o ∧ length o.1 = 32%nat.

Lemma insert_utxos_filed ps w :
  Forall (λ p, length (pu_outpoint p).1 = 32%nat) ps → filed w → filed (insert_utxos w ps).2.
Proof.
  intros Hps. revert w. induction Hps as [|p ps Hp _ IH]; intros w Hw; [done|].
  cbn [insert_utxos]. unfold insert_utxo.
  destruct (utxo_map w !! pu_outpoint p) as [u0|] eqn:Hu.
  - apply IH. intros o u. cbn. intros [[<- <-]|[_ Ho]]%lookup_insert_Some; [|by apply Hw].
    split; [|done]. exact (proj1 (Hw _ _ Hu)).
  - destruct (pubkey_map w !! pu_script p) as [d|]; [|done].
    apply IH. intros o u. cbn. by intros [[<- <-]|[_ Ho]]%lookup_insert_Some; [|apply Hw].
Qed.

(** ** Keys *)

(** A script belongs to the key derived at a place of the account. *)
Definition script_of (xpub : Xpub) (kind : KeychainKind) (depth : Z) (script : bytes) : Prop :=
  ∃ k, derive xpub (KeychainKind_as_u32 kind) depth = Ok k ∧ new_p2wpkh k = script.

(** Every output of the wallet is paid to the key the wallet derives for it. *)
Definition utxos_keyed w : Prop :=
  ∀ o u, utxo_map w !! o = Some u →
    script_of (account_xpub w) (utxo_keychain (wu_utxo u)) (utxo_derivation_index (wu_utxo u))
      (txo_script_pubkey (utxo_txout (wu_utxo u))).

(** Every script the wallet knows is that of the key it is recorded with. *)
Definition pubkeys_keyed w : Prop :=
  ∀ s d, pubkey_map w !! s = Some d →
    script_of (account_xpub w) (pd_key_type d) (pd_key_depth d) s.

Lemma insert_utxos_keyed ps w :
  pubkeys_keyed w → utxos_keyed w →
  pubkeys_keyed (insert_utxos w ps).2 ∧ utxos_keyed (insert_utxos w ps).2.
Proof.
  revert w. induction ps as [|p ps IH]; intros w Hp Hu; [done|]. cbn [insert_utxos].
  destruct (insert_utxo w p) as [[[]|e|m] w1] eqn:E1; cbn [try_bind].
  2,3: unfold insert_utxo in E1; destruct (utxo_map w !! _); [done|];
    destruct (pubkey_map w !! _); by simplify_eq.
  destruct (insert_utxo_ok _ _ _ E1) as ((Hx & _ & Hpk & _) & u & Hmap & _ & Hold).
  apply IH; [unfold pubkeys_keyed; by rewrite Hx, Hpk|].
  intros o v Ho. rewrite Hx. rewrite Hmap in Ho.
  destruct (decide (o = pu_outpoint p)) as [->|Hne].
  - rewrite lookup_insert_eq in Ho. simplify_eq.
    destruct (utxo_map w !! pu_outpoint p) as [u0|] eqn:Hu0.
    + destruct Hold as (-> & -> & ->). by eapply Hu.
    + destruct Hold as (Heq & d & Hd & -> & ->).
      replace (txo_script_pubkey (utxo_txout (wu_utxo v))) with (pu_script p)
        by (by rewrite <- Heq). by apply Hp.
  - rewrite lookup_insert_ne in Ho by done. by eapply Hu.
Qed.

Lemma get_receive_address_keyed w :
  pubkeys_keyed w → utxos_keyed w →
  pubkeys_keyed (get_receive_address w).2 ∧ utxos_keyed (get_receive_address w).2.
Proof.
  intros Hp Hu. unfold get_receive_address.
  destruct (derive _ _ _) as [k|e|m] eqn:Hk; cbn [try_bind snd]; try done.
  split; [|done]. intros s d. cbn.
  intros [[<- <-]|[_ Hs]]%lookup_insert_Some; [|by apply Hp].
  exists k. cbn. by rewrite address_script_p2wpkh.
Qed.

Lemma get_change_script_inv w script w' :
  get_change_script w = (Ok script, w') →
  account_xpub w' = account_xpub w ∧ utxo_map w' = utxo_map w
  ∧ account_derivation w' = account_derivation w ∧ master_fingerprint w' = master_fingerprint w
  ∧ change_depth w' = change_depth w + 1
  ∧ pubkey_map w' = <[script := MkPubkeyDetails External (receive_depth w)]> (pubkey_map w)
  ∧ script_of (account_xpub w) Internal (change_depth w) script.
Proof.
  unfold get_change_script. destruct (derive _ _ _) as [k|e|m] eqn:Hk; cbn [try_bind]; try done.
  destruct (add_u32 _ _) as [d|e|m] eqn:Hd; cbn [try_bind]; try done.
  apply checked_inv in Hd as [-> _]. intros H. simplify_eq. cbn.
  split_and!; try done. exists k. by rewrite address_script_p2wpkh.
Qed.

(** ** Payments *)

Lemma psbt_inputs_for_inv w l inputs :
  psbt_inputs_for w l = Ok inputs →
  Forall2 (λ u i, ∃ k, derive_pubkey w u = Ok k
    ∧ i = MkInput (Some (utxo_txout u)) [] (Some SIGHASH_ALL) None (Some (new_p2wpkh k))
            [(k, (master_fingerprint w, account_derivation w
               ++ [KeychainKind_as_u32 (utxo_keychain u); utxo_derivation_index u]))] None)
    l inputs.
Proof.
  revert inputs. induction l as [|u l IH]; intros inputs H; cbn in H; [by simplify_eq|].
  apply outcome_bind_ok in H as (i & Hi & H).
  apply outcome_bind_ok in H as (rest & Hr & [= <-]).
  apply outcome_bind_ok in Hi as (k & Hk & [= <-]).
  constructor; [|by apply IH]. by exists k.
Qed.

(** The fee a transaction pays: what its inputs bring less what its outputs take. *)
Definition tx_fee (psbt : Psbt) : Z :=
  zsum (λ i, default 0 (txo_value <$> in_witness_utxo i)) (psbt_inputs psbt)
  - zsum txo_value (tr_output (psbt_unsigned_tx psbt)).

(** What a payment promises. *)
Definition payment_ok w (recipient : bytes) (fee_rate amount : Z) (change_script : bytes)
    (psbt : Psbt) : Prop :=
  ∃ selected chosen,
    chosen ⊆+ values outpoint_leb (utxo_map w) ∧ selected ≡ₚ map wu_utxo chosen
    ∧ map txi_previous_output (tr_input (psbt_unsigned_tx psbt)) = map utxo_outpoint selected
    ∧ map in_witness_utxo (psbt_inputs psbt) = map (λ u, Some (utxo_txout u)) selected
    ∧ head (tr_output (psbt_unsigned_tx psbt)) = Some (MkTxOut amount recipient)
    ∧ Forall (λ o, txo_script_pubkey o = change_script ∧ minimal_non_dust change_script ≤ txo_value o)
        (tail (tr_output (psbt_unsigned_tx psbt)))
    ∧ zsum (fee_of fee_rate) chosen ≤ tx_fee psbt.

Lemma zsum_witness_utxos (inputs : list Input) selected :
  map in_witness_utxo inputs = map (λ u, Some (utxo_txout u)) selected →
  zsum (λ i, default 0 (txo_value <$> in_witness_utxo i)) inputs
  = zsum (λ u, txo_value (utxo_txout u)) selected.
Proof.
  revert selected. induction inputs as [|i l IH]; intros [|u selected] H; try done.
  cbn in H. injection H as Hi H. unfold zsum in *. cbn. rewrite Hi, (IH _ H). done.
Qed.

Lemma from_unsigned_tx_unsigned selected recipient amount excess script :
  let t := unsigned_tx selected recipient amount excess script in
  from_unsigned_tx t = inr (MkPsbt t (map (λ _, Input_default) (tr_input t))).
Proof.
  cbv zeta. apply from_unsigned_tx_ok. cbn. apply Forall_map, Forall_true. by intros u.
Qed.

(** A selection makes a payment. *)
Lemma payment_from_selection w recipient fee_rate amount script r inputs :
  selection_ok fee_rate amount script [] (values outpoint_leb (utxo_map w)) r →
  map in_witness_utxo inputs = map (λ u, Some (utxo_txout u)) (csr_selected r) →
  payment_ok w recipient fee_rate amount script
    (MkPsbt (unsigned_tx (csr_selected r) recipient amount (csr_excess r) script) inputs).
Proof.
  intros (chosen & Hch & Hsel & Hfee & Hval & Hex) Hin. cbn [app] in *.
  exists (csr_selected r), chosen. cbn [psbt_unsigned_tx psbt_inputs].
  split_and!; try done.
  - cbn. by rewrite map_map.
  - cbn. destruct (csr_excess r) as [|a f]; [done|]. constructor; [|done]. by destruct Hex.
  - unfold tx_fee, unsigned_tx. cbn [psbt_unsigned_tx psbt_inputs tr_output].
    rewrite (zsum_witness_utxos _ _ Hin), Hsel, zsum_map.
    change ((λ u, txo_value (utxo_txout u)) ∘ wu_utxo) with wu_value.
    rewrite Hval, Hfee.
    destruct (csr_excess r) as [d rem f|a f]; cbn in Hex |- *; unfold zsum; cbn; lia.
Qed.

Lemma forall2_witness_utxos w l inputs :
  psbt_inputs_for w l = Ok inputs →
  map in_witness_utxo inputs = map (λ u, Some (utxo_txout u)) l.
Proof.
  intros H%psbt_inputs_for_inv. induction H as [|u i l inputs (k & _ & ->) _ IH]; [done|].
  cbn. by rewrite IH.
Qed.

(** Deriving the keys of the inputs fails only in the key crate. *)
Lemma psbt_inputs_for_fails w l :
  match psbt_inputs_for w l with
  | Ok _ => True
  | Err e => ∃ b, e = PubKeyError b
  | Panic _ => False
  end.
Proof.
  induction l as [|u l IH]; [done|]. cbn [psbt_inputs_for]. unfold psbt_input, derive_pubkey, derive.
  destruct (ckd_pub _ _) as [b|c]; [by eexists|].
  destruct (ckd_pub _ _) as [b|c']; [by eexists|]. cbn [mbind outcome_bind].
  by destruct (psbt_inputs_for w l).
Qed.

(** What [create_psbt] returns. *)
Lemma create_psbt_ok {R} `{RngCore R} w w1 script recipient fee_rate amount (rand : R) :
  get_change_script w = (Ok script, w1) →
  payable fee_rate amount script (values outpoint_leb (utxo_map w)) →
  match create_psbt w recipient fee_rate amount rand with
  | (Ok psbt, (w', _)) => w' = w1 ∧ payment_ok w recipient fee_rate amount script psbt
  | (Err e, (w', _)) => w' = w1 ∧
      ((∃ b, e = PubKeyError b)
       ∨ ∃ i, e = CoinSelectionError i
           ∧ refusal_ok fee_rate amount [] (values outpoint_leb (utxo_map w)) i)
  | (Panic _, _) => False
  end.
Proof.
  intros Hc P. pose proof (get_change_script_inv _ _ _ Hc) as (_ & Hu & _).
  unfold create_psbt. rewrite Hc, Hu.
  pose proof (coin_select_ok [] _ _ _ _ rand P) as Hok.
  destruct (coin_select _ _ _ _ _ _) as [[r|i|m] rand']; cbn [fst] in Hok;
    cbn [lift_coin_selection mbind outcome_bind]; [|by eauto|done].
  rewrite from_unsigned_tx_unsigned. cbn [mbind outcome_bind].
  pose proof (psbt_inputs_for_fails w1 (csr_selected r)) as Hf.
  destruct (psbt_inputs_for w1 (csr_selected r)) as [inputs|e|m] eqn:Hin;
    cbn [mbind outcome_bind psbt_unsigned_tx]; [|by eauto|done].
  split; [done|]. apply payment_from_selection; [done|]. by eapply forall2_witness_utxos.
Qed.

(** The input of a payment that spends the output [u]. *)
Definition input_spends w (u : Utxo) (i : Input) : Prop :=
  ∃ k, derive_pubkey w u = Ok k
    ∧ i = MkInput (Some (utxo_txout u)) [] (Some SIGHASH_ALL) None (Some (new_p2wpkh k))
            [(k, (master_fingerprint w, account_derivation w
               ++ [KeychainKind_as_u32 (utxo_keychain u); utxo_derivation_index u]))] None.

(** Each input of a payment spends an output of the wallet. *)
Lemma create_psbt_inputs {R} `{RngCore R} w recipient fee_rate amount (rand : R) psbt t :
  (∀ script w1, get_change_script w = (Ok script, w1) →
     payable fee_rate amount script (values outpoint_leb (utxo_map w))) →
  create_psbt w recipient fee_rate amount rand = (Ok psbt, t) →
  Forall (λ i, ∃ o v, utxo_map w !! o = Some v ∧ input_spends w (wu_utxo v) i) (psbt_inputs psbt).
Proof.
  intros P Hp. unfold create_psbt in Hp.
  destruct (get_change_script w) as [[script|e|m] w1] eqn:Hc; [|done..].
  pose proof (get_change_script_inv _ _ _ Hc) as (Hx & Hu & Hacc & Hfp & _). rewrite Hu in Hp.
  pose proof (coin_select_ok [] _ _ _ _ rand (P _ _ eq_refl)) as Hok.
  destruct (coin_select _ _ _ _ _ _) as [[r|i|m] rand']; cbn [fst] in Hok;
    cbn [lift_coin_selection mbind outcome_bind] in Hp; [|done..].
  rewrite from_unsigned_tx_unsigned in Hp. cbn [mbind outcome_bind] in Hp.
  destruct (psbt_inputs_for w1 (csr_selected r)) as [inputs|e|m] eqn:Hin; [|done..].
  cbn in Hp. simplify_eq. cbn [psbt_inputs].
  destruct Hok as (chosen & Hch & Hsel & _). cbn [app] in Hsel.
  apply Forall_forall. intros i Hi. apply psbt_inputs_for_inv in Hin.
  apply list_elem_of_lookup in Hi as [n Hn].
  destruct (Forall2_lookup_r _ _ _ _ _ Hin Hn) as (u & Hun & k & Hd & ->).
  apply list_elem_of_lookup_2 in Hun. rewrite Hsel in Hun.
  apply list_elem_of_fmap in Hun as (v & -> & Hv).
  eapply elem_of_submseteq in Hch; [|exact Hv]. apply elem_of_values in Hch as [o Ho].
  exists o, v. split; [done|]. exists k. unfold derive_pubkey in *. by rewrite <- Hx, <- Hacc, <- Hfp.
Qed.

(** As many inputs as the transaction has. *)
Lemma create_psbt_input_count {R} `{RngCore R} w recipient fee_rate amount (rand : R) psbt t :
  create_psbt w recipient fee_rate amount rand = (Ok psbt, t) →
  length (psbt_inputs psbt) = length (tr_input (psbt_unsigned_tx psbt)).
Proof.
  intros Hp. unfold create_psbt in Hp. destruct (get_change_script w) as [[script|e|m] w1]; [|done..].
  destruct (coin_select _ _ _ _ _ _) as [[r|i|m] rand'];
    cbn [lift_coin_selection mbind outcome_bind] in Hp; [|done..].
  rewrite from_unsigned_tx_unsigned in Hp. cbn [mbind outcome_bind] in Hp.
  destruct (psbt_inputs_for w1 (csr_selected r)) as [inputs|e|m] eqn:Hin; [|done..].
  cbn in Hp. simplify_eq. apply psbt_inputs_for_inv, Forall2_length in Hin. cbn.
  by rewrite length_map.
Qed.

(** Each input of a payment from keyed outputs is signed for the script it spends. *)
Lemma input_spends_keyed w o v i :
  utxos_keyed w → utxo_map w !! o = Some v → input_spends w (wu_utxo v) i →
  ∃ k, derive_pubkey w (wu_utxo v) = Ok k
    ∧ in_bip32_derivation i
      = [(k, (master_fingerprint w, account_derivation w
           ++ [KeychainKind_as_u32 (utxo_keychain (wu_utxo v)); utxo_derivation_index (wu_utxo v)]))]
    ∧ in_witness_utxo i = Some (utxo_txout (wu_utxo v))
    ∧ txo_script_pubkey (utxo_txout (wu_utxo v)) = new_p2wpkh k
    ∧ in_witness_script i = Some (new_p2wpkh k).
Proof.
  intros Hk Ho (k & Hd & ->). destruct (Hk _ _ Ho) as (k' & Hd' & Hs). exists k.
  unfold derive_pubkey in *. rewrite Hd' in Hd. by simplify_eq.
Qed.

(** ** Signing *)

Lemma finalise_inputs_inv {E} l l' :
  @finalise_inputs _ _ E l = Ok l' →
  map in_final_script_witness l'
  = map (λ i, (λ s, [s.2; pubkey_bytes s.1]) <$> head (in_partial_sigs i)) l
  ∧ Forall (λ i, in_partial_sigs i ≠ []) l.
Proof.
  revert l'. induction l as [|i l IH]; intros l' H; cbn in H; [by simplify_eq|].
  destruct (in_partial_sigs i) as [|[k s] sigs] eqn:Hs; [done|].
  cbn [head unwrap_opt mbind outcome_bind] in H.
  apply outcome_bind_ok in H as (rest & Hr & [= <-]). destruct (IH _ Hr) as [Hw Hall].
  split; [|constructor; [by rewrite Hs|done]]. cbn. rewrite Hw, Hs. done.
Qed.

End WalletLaws.

(** ** Properties *)

(** The life of a wallet that only receives: it hands out addresses and is told of
    the outputs paid to them. *)
Inductive wallet_step `{PC : PsbtCrate} : WatchOnly → WatchOnly → Prop :=
| step_receive w : wallet_step w (get_receive_address w).2
| step_insert w ps : wallet_step w (insert_utxos w ps).2.

Lemma reachable_keyed `{PC : PsbtCrate} xpub network derivation fingerprint w :
  rtc wallet_step (WatchOnly_new xpub network derivation fingerprint) w →
  pubkeys_keyed w ∧ utxos_keyed w.
Proof.
  intros H. eapply (rtc_ind_r (λ w, pubkeys_keyed w ∧ utxos_keyed w)); [| |exact H].
  - split; [intros s d Hd|intros o u Hu]; cbn in *; by rewrite lookup_empty in *.
  - intros w1 w2 _ [w3|w3 ps] [Hp Hu];
      [by apply get_receive_address_keyed|by apply insert_utxos_keyed].
Qed.

(** The account stays the same. *)
Lemma reachable_account `{PC : PsbtCrate} xpub network derivation fingerprint w :
  rtc wallet_step (WatchOnly_new xpub network derivation fingerprint) w →
  account_xpub w = xpub ∧ account_derivation w = derivation ∧ master_fingerprint w = fingerprint.
Proof.
  intros H. set (w0 := WatchOnly_new _ _ _ _) in H.
  assert (account_xpub w0 = xpub ∧ account_derivation w0 = derivation
    ∧ master_fingerprint w0 = fingerprint) as H0 by done.
  revert H0. clearbody w0. induction H as [|w1 w2 w3 Hs _ IH]; [done|]. intros H0. apply IH.
  destruct Hs as [w|w ps].
  - unfold get_receive_address. by destruct (derive _ _ _).
  - destruct (insert_utxos_account w ps) as (-> & _ & _ & _ & _ & -> & ->). exact H0.
Qed.

(** C9: a payment spends outputs of the wallet, each at most once, pays the recipient
    exactly the amount, returns change above the dust limit to the change script or
    none at all, and leaves at least the fee of its inputs to the miner; for amounts
    below [2 ^ 60] making it never panics, and when it fails the keys could not be
    derived or the outputs do not suffice. *)
Theorem create_psbt_pays `{BC : BitcoinCrate} `{PC : PsbtCrate} {R} `{RngCore R}
    w w1 script recipient fee_rate amount (rand : R) :
  get_change_script w = (Ok script, w1) →
  payable fee_rate amount script (values outpoint_leb (utxo_map w)) →
  match create_psbt_tx w recipient fee_rate amount rand with
  | (Ok bytes, (w', _)) => w' = w1 ∧
      ∃ psbt, bytes = psbt_serialize psbt ∧ payment_ok w recipient fee_rate amount script psbt
  | (Err e, (w', _)) => w' = w1 ∧
      ((∃ b, e = PubKeyError b)
       ∨ ∃ i, e = CoinSelectionError i
           ∧ refusal_ok fee_rate amount [] (values outpoint_leb (utxo_map w)) i)
  | (Panic _, _) => False
  end.
Proof.
  intros Hc P. pose proof (create_psbt_ok _ _ _ recipient _ _ rand Hc P) as Hok.
  unfold create_psbt_tx. destruct (create_psbt _ _ _ _ _) as [[psbt|e|m] [w' r]];
    cbn [try_bind]; [|done..]. destruct Hok as [-> Hok]. split; [done|]. by exists psbt.
Qed.

(** C27: in a wallet that so far only received, every input of a payment spends an output
    the wallet knows and tells the signer the right key: it names exactly one key, the
    one at the output's keychain and index below the account, with the fingerprint of
    the master key and the path from the master key to it, and the output's script is
    that of this key, which is the witness script too. *)
Theorem received_outputs_signable `{BC : BitcoinCrate} `{PC : PsbtCrate} {R} `{RngCore R}
    xpub network derivation fingerprint w recipient fee_rate amount (rand : R) psbt t :
  rtc wallet_step (WatchOnly_new xpub network derivation fingerprint) w →
  (∀ script w1, get_change_script w = (Ok script, w1) →
     payable fee_rate amount script (values outpoint_leb (utxo_map w))) →
  create_psbt w recipient fee_rate amount rand = (Ok psbt, t) →
  Forall (λ i, ∃ o v k, utxo_map w !! o = Some v
    ∧ derive xpub (KeychainKind_as_u32 (utxo_keychain (wu_utxo v)))
        (utxo_derivation_index (wu_utxo v)) = Ok k
    ∧ in_bip32_derivation i
      = [(k, (fingerprint, derivation
           ++ [KeychainKind_as_u32 (utxo_keychain (wu_utxo v)); utxo_derivation_index (wu_utxo v)]))]
    ∧ in_witness_utxo i = Some (utxo_txout (wu_utxo v))
    ∧ txo_script_pubkey (utxo_txout (wu_utxo v)) = new_p2wpkh k
    ∧ in_witness_script i = Some (new_p2wpkh k)) (psbt_inputs psbt).
Proof.
  intros Hr P Hp. pose proof (proj2 (reachable_keyed _ _ _ _ _ Hr)) as Hk.
  apply reachable_account in Hr as (<- & <- & <-).
  eapply Forall_impl; [by eapply create_psbt_inputs|].
  intros i (o & v & Ho & Hi). exists o, v.
  destruct (input_spends_keyed _ _ _ _ Hk Ho Hi) as (k & H1 & H2). by exists k.
Qed.

(** C36: change is recorded with the wrong key. The script of the change is that of
    the internal key at the change depth, but an output paid to it is given the
    external key at the receive depth, and that key is what a payment spending the
    output asks to sign with. *)
Theorem change_output_wrong_key `{PC : PsbtCrate} w script w1 p w2 :
  get_change_script w = (Ok script, w1) → pu_script p = script →
  utxo_map w !! pu_outpoint p = None → insert_utxos w1 [p] = (Ok (), w2) →
  script_of (account_xpub w) Internal (change_depth w) script
  ∧ ∃ u, utxo_map w2 !! pu_outpoint p = Some u
      ∧ txo_script_pubkey (utxo_txout (wu_utxo u)) = script
      ∧ derive_pubkey w2 (wu_utxo u) = derive (account_xpub w) 0 (receive_depth w).
Proof.
  intros Hc <- Hn Hi.
  pose proof (get_change_script_inv _ _ _ Hc) as (Hx & Hu & _ & _ & _ & Hp & Hs).
  split; [done|]. cbn [insert_utxos] in Hi.
  destruct (insert_utxo w1 p) as [[[]|e|m] w3] eqn:E1; cbn [try_bind] in Hi; simplify_eq.
  destruct (insert_utxo_ok _ _ _ E1) as ((Hx' & _) & u & Hmap & _ & Hold).
  rewrite Hu, Hn in Hold. destruct Hold as (Heq & d & Hd & Hk & Hi').
  rewrite Hp, lookup_insert_eq in Hd. injection Hd as <-.
  exists u. rewrite Hmap, lookup_insert_eq. split_and!; [done|by rewrite <- Heq|].
  unfold derive_pubkey. by rewrite Hk, Hi', Hx', Hx.
Qed.

(** Inserting outputs the wallet knows, or whose script it knows, succeeds, keeps the keys and
    every outpoint not named, never changes the value or script of an output it
    had, records the spent flag of each output named, and adds each new one as
    it was given. *)
Theorem insert_utxos_spec `{PC : PsbtCrate} w ps :
  Forall (acceptable w) ps →
  ∃ w', insert_utxos w ps = (Ok (), w') ∧ same_account w w'
    ∧ (∀ o, o ∉ map pu_outpoint ps → utxo_map w' !! o = utxo_map w !! o)
    ∧ (∀ o u0, utxo_map w !! o = Some u0 →
         ∃ u, utxo_map w' !! o = Some u ∧ utxo_txout (wu_utxo u) = utxo_txout (wu_utxo u0))
    ∧ (NoDup (map pu_outpoint ps) → ∀ p, p ∈ ps →
         ∃ u, utxo_map w' !! pu_outpoint p = Some u ∧ utxo_is_spent (wu_utxo u) = pu_is_spent p
           ∧ (utxo_map w !! pu_outpoint p = None → PartialUtxo_from (wu_utxo u) = p)).
Proof.
  intros [w' Hw']%insert_utxos_succeeds. exists w'. split; [done|]. by apply insert_utxos_ok.
Qed.

Lemma balance_is_total `{PC : PsbtCrate} w :
  map_Forall (λ _ u, 0 ≤ wu_value u) (utxo_map w) →
  let total := zsum (λ kv, unspent_value kv.2) (map_to_list (utxo_map w)) in
  balance w = if total <? 2 ^ 64 then Ok total
              else Panic "called `Option::unwrap()` on a `None` value".
Proof.
  intros H. cbv zeta. unfold balance.
  assert (merge_sort spent_le (values outpoint_leb (utxo_map w))
    ≡ₚ map snd (map_to_list (utxo_map w))) as Hp
    by (by rewrite merge_sort_Permutation, values_perm).
  rewrite add_unspent_spec; [|lia|].
  - rewrite Z.add_0_l, (zsum_perm _ _ _ Hp), zsum_map. done.
  - rewrite Hp. apply Forall_map, Forall_forall. intros [o u] Hin.
    apply elem_of_map_to_list in Hin. by apply (H o).
Qed.

(** C28: the balance is the total value of the unspent outputs, in whatever order
    they are visited; it panics exactly when that total does not fit in 64 bits. *)
Theorem balance_counts_unspent `{PC : PsbtCrate} w :
  map_Forall (λ _ u, 0 ≤ wu_value u) (utxo_map w) →
  let total := zsum (λ kv, unspent_value kv.2) (map_to_list (utxo_map w)) in
  balance w = if total <? 2 ^ 64 then Ok total
              else Panic "called `Option::unwrap()` on a `None` value".
Proof. apply balance_is_total. Qed.

(** Finalising keeps the transaction's inputs and outputs and gives each input as
    witness its first signature and key; an input without a signature, or a
    transaction without inputs, panics. *)
Theorem finalise_signs `{PC : PsbtCrate} psbt :
  match finalise_psbt_tx psbt with
  | Ok bytes => ∃ t, bytes = tx_serialize t
      ∧ tr_output t = tr_output (psbt_unsigned_tx psbt)
      ∧ map txi_previous_output (tr_input t)
        = map txi_previous_output (tr_input (psbt_unsigned_tx psbt))
      ∧ Forall2 (λ i sig, ∃ k s, head (in_partial_sigs i) = Some (k, s)
          ∧ txi_witness sig = [s; pubkey_bytes k]) (psbt_inputs psbt) (tr_input t)
  | Err _ => False
  | Panic _ => True
  end.
Proof.
  unfold finalise_psbt_tx.
  destruct (finalise_inputs (psbt_inputs psbt)) as [l'|e|m] eqn:Hf; cbn [mbind outcome_bind]; [| |done].
  2:{ exfalso. revert e Hf. generalize (psbt_inputs psbt). intros l.
      induction l as [|i l IH]; intros e H; cbn in H; [done|].
      destruct (head (in_partial_sigs i)) as [[k s]|]; cbn in H; [|done].
      destruct (finalise_inputs l) eqn:El; cbn in H; simplify_eq. by eapply IH. }
  destruct (finalise_inputs_inv _ _ Hf) as [Hw Hall]. destruct l' as [|i l']; [done|].
  destruct (extract_tx _) as [t|] eqn:Ht; cbn [unwrap_opt mbind outcome_bind]; [|done].
  destruct (extract_tx_fills _ _ Ht) as (Ho & Hp & Hs). cbn [psbt_unsigned_tx psbt_inputs] in *.
  exists t. split_and!; try done.
  assert (map txi_witness (tr_input t)
    = map (λ i, default [] ((λ s, [s.2; pubkey_bytes s.1]) <$> head (in_partial_sigs i)))
        (psbt_inputs psbt)) as Heq.
  { rewrite Hs. cbn [map]. cbn [clear_input in_final_script_witness].
    change (default [] (in_final_script_witness i)
      :: map (λ i, default [] (in_final_script_witness i)) l')
      with (map (λ i, default [] (in_final_script_witness i)) (i :: l')).
    rewrite <- (map_map in_final_script_witness (default [])), Hw, map_map. done. }
  clear -Heq Hall. revert Heq. generalize (tr_input t).
  induction Hall as [|i l Hi _ IH]; intros [|x xs] Heq; cbn in Heq; simplify_eq; [done|].
  constructor; [|by apply IH]. destruct (in_partial_sigs i) as [|[k s] sigs]; [done|].
  by exists k, s.
Qed.

(** ** Witnesses *)

(** Keys as derivation paths: a child extends its parent's path. *)
#[export, program] Instance path_keys : KeyCrate := {
  Xpub := list Z;
  CompressedPublicKey := list Z;
  Bip32Error := unit;
  ckd_pub x i := inr (x ++ [i]);
  to_pub x := x;
  address_text k n := "bc1";
  address_script k n := 0 :: 20 :: k;
  new_p2wpkh k := 0 :: 20 :: k;
}.
Next Obligation. done. Qed.

Definition fill_witness (t : TxIn) (i : Input) : TxIn :=
  MkTxIn (txi_previous_output t) (txi_script_sig t) (txi_sequence t)
    (default [] (in_final_script_witness i)).

(** A transaction written as the ids of its inputs. *)
#[export, program] Instance plain_psbt : PsbtCrate := {
  PsbtError := unit;
  from_unsigned_tx t := inr (MkPsbt t (map (λ _, Input_default) (tr_input t)));
  psbt_serialize p := concat (map (λ i, (txi_previous_output i).1) (tr_input (psbt_unsigned_tx p)));
  psbt_deserialize _ := None;
  extract_tx p :=
    let t := psbt_unsigned_tx p in
    if bool_decide (length (tr_input t) = length (psbt_inputs p))
    then Some (MkTransaction (tr_version t) (tr_lock_time t)
                 (zip_with fill_witness (tr_input t) (psbt_inputs p)) (tr_output t))
    else None;
  tx_serialize t := concat (map (λ i, (txi_previous_output i).1) (tr_input t));
  pubkey_bytes k := k;
}.
Next Obligation. done. Qed.
Next Obligation.
  cbn. intros [u l] t. cbn. case_bool_decide as Hlen; [|done]. intros [= <-]. cbn.
  split; [done|]. revert l Hlen. generalize (tr_input u). intros xs.
  induction xs as [|x xs IH]; intros [|i l] Hlen; cbn in *; try done.
  injection Hlen as Hlen. destruct (IH _ Hlen) as [-> ->]. done.
Qed.

Definition example_wallet : WatchOnly := WatchOnly_new [7] Bitcoin [84; 0; 0] [1; 2; 3; 4].

(** The wallet after handing out its address. *)
Definition receiving_wallet : WatchOnly := (get_receive_address example_wallet).2.

Definition example_partial (id amount : Z) (script : bytes) (spent : bool) : PartialUtxo :=
  MkPartialUtxo (replicate 32 id, 0) amount script spent.

(** The wallet after an output of 100,000 was paid to the address. *)
Definition funded_wallet : WatchOnly :=
  (insert_utxos receiving_wallet [example_partial 1 100000 [0; 20; 7; 0; 0] false]).2.

Definition change_of_funded : bytes := [0; 20; 7; 1; 0].

Lemma funded_payable :
  payable 1000 40000 change_of_funded (values outpoint_leb (utxo_map funded_wallet)).
Proof.
  split.
  - apply (bool_decide_unpack _). by vm_compute.
  - apply Forall_cons. split; [eexists; vm_compute; reflexivity|apply Forall_nil_2].
  - by vm_compute.
  - lia.
  - exists 14, 56, 56. split; [|split]; vm_compute; reflexivity.
  - exists 124, 124. split; [|split]; vm_compute; reflexivity.
  - by vm_compute.
Qed.

Lemma create_psbt_pays_witness :
  ∃ w1 psbt rand, create_psbt_tx funded_wallet [9; 9] 1000 40000 1
      = (Ok (psbt_serialize psbt), (w1, rand))
    ∧ payment_ok funded_wallet [9; 9] 1000 40000 change_of_funded psbt.
Proof.
  pose proof (create_psbt_pays funded_wallet (get_change_script funded_wallet).2
    change_of_funded [9; 9] 1000 40000 1 ltac:(vm_compute; reflexivity) funded_payable) as H.
  destruct (create_psbt_tx funded_wallet [9; 9] 1000 40000 1) as [[b|e|m] [w' r]] eqn:E.
  - destruct H as [_ (psbt & -> & H)]. exists w', psbt, r. split; [reflexivity|exact H].
  - exfalso. vm_compute in E. discriminate E.
  - destruct H.
Defined.

Lemma received_outputs_signable_witness :
  ∃ psbt t i, create_psbt funded_wallet [9; 9] 1000 40000 1 = (Ok psbt, t)
    ∧ psbt_inputs psbt = [i]
    ∧ ∃ v k, derive [7] 0 (utxo_derivation_index (wu_utxo v)) = Ok k
        ∧ in_bip32_derivation i = [(k, ([1; 2; 3; 4], [84; 0; 0; 0; 0]))]
        ∧ in_witness_utxo i = Some (utxo_txout (wu_utxo v))
        ∧ txo_script_pubkey (utxo_txout (wu_utxo v)) = new_p2wpkh k.
Proof.
  destruct (create_psbt funded_wallet [9; 9] 1000 40000 1) as [r t] eqn:E.
  destruct r as [psbt|e|m]; [|exfalso; vm_compute in E; discriminate E..].
  assert (rtc wallet_step example_wallet funded_wallet) as Hr.
  { eapply rtc_l; [apply step_receive|]. eapply rtc_l; [apply step_insert|]. apply rtc_refl. }
  unfold example_wallet in Hr.
  pose proof (received_outputs_signable _ _ _ _ _ [9; 9] 1000 40000 1 psbt t Hr) as H.
  destruct psbt as [u [|i [|j l]]]; [exfalso; vm_compute in E; discriminate E|
    |exfalso; vm_compute in E; discriminate E].
  exists (MkPsbt u [i]), t, i. split; [exact eq_refl|]. split; [reflexivity|].
  apply Forall_singleton in H as (o & v & k & Ho & Hd & Hb & Hw & Hs & _); [| |exact E].
  - assert (utxo_keychain (wu_utxo v) = External ∧ utxo_derivation_index (wu_utxo v) = 0) as [Hkind Hindex].
    { assert (map_Forall (λ _ v, utxo_keychain (wu_utxo v) = External ∧ utxo_derivation_index (wu_utxo v) = 0)
        (utxo_map funded_wallet)) as Hall by (by_eval). exact (Hall _ _ Ho). }
    exists v, k. rewrite Hkind, Hindex in *. split; [exact Hd|]. split; [exact Hb|]. split; [exact Hw|exact Hs].
  - intros script w1 Hc.
    assert (script = change_of_funded) as -> by (vm_compute in Hc; injection Hc as <- _; reflexivity).
    exact funded_payable.
Defined.

(** Change paid back to the funded wallet, and the keys of its script and of its entry. *)
Lemma change_output_wrong_key_witness :
  let w1 := (get_change_script funded_wallet).2 in
  let p := example_partial 2 59711 change_of_funded false in
  ∃ w2 u, insert_utxos w1 [p] = (Ok (), w2) ∧ utxo_map w2 !! pu_outpoint p = Some u
    ∧ derive [7] 1 0 = Ok [7; 1; 0] ∧ new_p2wpkh [7; 1; 0] = change_of_funded
    ∧ derive_pubkey w2 (wu_utxo u) = Ok [7; 0; 0] ∧ new_p2wpkh [7; 0; 0] ≠ change_of_funded.
Proof.
  cbv zeta. set (p := example_partial 2 59711 change_of_funded false).
  destruct (insert_utxos (get_change_script funded_wallet).2 [p]) as [r w2] eqn:E.
  destruct r as [[]|e|m]; [|exfalso; vm_compute in E; discriminate E..].
  destruct (change_output_wrong_key funded_wallet change_of_funded
    (get_change_script funded_wallet).2 p w2 ltac:(vm_compute; reflexivity) eq_refl
    ltac:(vm_compute; reflexivity) E) as (_ & u & Hu & _ & Hd).
  exists w2, u. split; [reflexivity|]. split; [exact Hu|]. split; [reflexivity|].
  split; [reflexivity|]. split; [rewrite Hd; vm_compute; reflexivity|discriminate].
Defined.

Lemma insert_utxos_spec_witness :
  ∃ w', insert_utxos receiving_wallet [example_partial 1 100000 [0; 20; 7; 0; 0] false]
        = (Ok (), w') ∧ same_account receiving_wallet w'
    ∧ ∃ u, utxo_map w' !! (replicate 32 1, 0) = Some u
        ∧ PartialUtxo_from (wu_utxo u) = example_partial 1 100000 [0; 20; 7; 0; 0] false.
Proof.
  destruct (insert_utxos_spec receiving_wallet
    [example_partial 1 100000 [0; 20; 7; 0; 0] false]) as (w' & H1 & H2 & _ & _ & H3).
  { apply Forall_cons. split; [left; eexists; vm_compute; reflexivity|apply Forall_nil_2]. }
  exists w'. split; [exact H1|]. split; [exact H2|].
  destruct (H3 ltac:(apply (bool_decide_unpack _); by vm_compute) _ ltac:(left))
    as (u & Hu & _ & Hp).
  exists u. split; [exact Hu|]. apply Hp. vm_compute. reflexivity.
Defined.

Lemma balance_counts_unspent_witness : balance funded_wallet = Ok 100000.
Proof.
  rewrite (balance_counts_unspent funded_wallet).
  - vm_compute. reflexivity.
  - apply (bool_decide_unpack _). by vm_compute.
Defined.

(** Payments spend spent outputs. A wallet whose only output is marked spent has
    no balance, and still builds a payment from that output. *)
Theorem spent_output_is_selected :
  let w := (insert_utxos funded_wallet [example_partial 1 100000 [0; 20; 7; 0; 0] true]).2 in
  balance w = Ok 0
  ∧ ∃ psbt t, create_psbt w [9; 9] 1000 40000 1 = (Ok psbt, t)
      ∧ map txi_previous_output (tr_input (psbt_unsigned_tx psbt)) = [(replicate 32 1, 0)].
Proof.
  cbv zeta. split; [vm_compute; reflexivity|].
  eexists _, _. split; vm_compute; reflexivity.
Qed.

(** A payment of one input, signed. *)
Definition signed_psbt : Psbt :=
  MkPsbt (unsigned_tx [wu_utxo (example_coin 1 100000)] [9; 9] 40000 (NoChange 294 0 124) [])
    [MkInput None [([7; 0; 0], [48; 1])] None None None [] None].

Lemma finalise_signs_witness :
  ∃ t, finalise_psbt_tx signed_psbt = Ok (tx_serialize t)
    ∧ Forall2 (λ i sig, ∃ k s, head (in_partial_sigs i) = Some (k, s)
        ∧ txi_witness sig = [s; pubkey_bytes k]) (psbt_inputs signed_psbt) (tr_input t).
Proof.
  pose proof (finalise_signs signed_psbt) as H.
  destruct (finalise_psbt_tx signed_psbt) as [b|e|m] eqn:E;
    [|exfalso; vm_compute in E; discriminate E..].
  destruct H as (t & -> & _ & _ & H). exists t. split; [reflexivity|exact H].
Defined.
