(* ===== verification/Signer.v ===== *)
(** * The signer ([crates/signer/src/{simple_signer,errors,lib}.rs])

    The component that holds the master private key: it publishes the account the
    wallet watches and signs the payments the wallet prepares.  Keys, derivation,
    the signing of a partially signed transaction and the serialisation of the
    state are the [bitcoin] and [bincode] crates'. *)

From S2P Require Import Prelude Hash256 WalletTypes CoinSelection WalletApi Wallet.

(** The first hardened child number; [ChildNumber]s below it are normal. *)
Definition HARDENED : Z := 2147483648.

(** [Xpriv::from_str], [Xpriv::derive_priv] along a path, [Xpub::from_priv],
    [Xpub::fingerprint], [into_derivation_path], the [Display] of a key, a fingerprint
    and a path, [Psbt::sign] on a mutable PSBT (whether it succeeded, and the PSBT),
    and [ecdsa]: the signature an input gets from a private key.

    What BIP 32 says of them: a path is derived step by step; the public key of a
    normal child is the child of the public key.  What [Psbt::sign] says: when there is
    an input for each input of the transaction, and every input comes with the output it
    spends, which is locked to the hash of a key, asks for a signature of everything,
    and names that key alone, by the fingerprint of the signing key and a path that can
    be derived, then each gets the signature of the private key at that path, filed
    under the public key named. *)
Class SignerCrate `{PC : PsbtCrate} := {
  Xpriv : Type;
  xpriv_from_str : string → option Xpriv;
  derive_priv : Xpriv → list Z → Bip32Error + Xpriv;
  xpub_from_priv : Xpriv → Xpub;
  xpub_fingerprint : Xpub → bytes;
  into_derivation_path : string → Bip32Error + list Z;
  xpub_to_string : Xpub → string;
  fingerprint_to_string : bytes → string;
  path_to_string : list Z → string;
  psbt_sign : Psbt → Xpriv → bool * Psbt;
  ecdsa : Xpriv → Psbt → nat → bytes;
  derive_priv_nil m : derive_priv m [] = inr m;
  derive_priv_cons m i path :
    derive_priv m (i :: path)
    = match derive_priv m [i] with inl e => inl e | inr x => derive_priv x path end;
  ckd_pub_from_priv m i :
    0 ≤ i < HARDENED →
    ckd_pub (xpub_from_priv m) i
    = match derive_priv m [i] with inl e => inl e | inr x => inr (xpub_from_priv x) end;
  account_path : into_derivation_path "84h/0h/0h" = inr [HARDENED + 84; HARDENED; HARDENED];
  psbt_sign_ok m p (keys : list (CompressedPublicKey * (list Z * Xpriv))) :
    length (psbt_inputs p) = length (tr_input (psbt_unsigned_tx p)) →
    Forall2 (λ i k, in_bip32_derivation i = [(k.1, (xpub_fingerprint (xpub_from_priv m), k.2.1))]
        ∧ derive_priv m k.2.1 = inr k.2.2 ∧ in_partial_sigs i = []
        ∧ txo_script_pubkey <$> in_witness_utxo i = Some (new_p2wpkh k.1)
        ∧ in_sighash_type i = Some SIGHASH_ALL)
      (psbt_inputs p) keys →
    ∃ p', psbt_sign p m = (true, p') ∧ psbt_unsigned_tx p' = psbt_unsigned_tx p
      ∧ map in_witness_utxo (psbt_inputs p') = map in_witness_utxo (psbt_inputs p)
      ∧ map in_partial_sigs (psbt_inputs p') = imap (λ n k, [(k.1, ecdsa k.2.2 p n)]) keys;
}.

Section SimpleSigner.
  Context `{PC : PsbtCrate} `{SC : !SignerCrate}.

(** ** [errors.rs], [simple_signer.rs] *)

Inductive SimpleSignerError := DerivationErr (e : Bip32Error) | SigningErr.

Record SimpleSigner := MkSimpleSigner { master_xpriv : Xpriv; master_xpub : Xpub }.

Definition SimpleSigner_new (master_xpriv : Xpriv) : SimpleSigner :=
  MkSimpleSigner master_xpriv (xpub_from_priv master_xpriv).

Definition lift_derivation {A} (r : Bip32Error + A) : outcome SimpleSignerError A :=
  match r with inl e => Err (DerivationErr e) | inr a => Ok a end.

Definition derive_account (s : SimpleSigner)
    : outcome SimpleSignerError (Xpub * bytes * list Z) :=
  path ← lift_derivation (into_derivation_path "84h/0h/0h");
  account_0_xpriv ← lift_derivation (derive_priv (master_xpriv s) path);
  let account_0_xpub := xpub_from_priv account_0_xpriv in
  Ok (account_0_xpub, xpub_fingerprint (master_xpub s), path).

Definition sign_psbt (s : SimpleSigner) (psbt : Psbt) : outcome SimpleSignerError Psbt :=
  match psbt_sign psbt (master_xpriv s) with
  | (true, psbt) => Ok psbt
  | (false, _) => Err SigningErr
  end.

(** [bincode] on the signer. *)
Class SignerBincode := {
  signer_serialize : SimpleSigner → bytes;
  signer_deserialize : bytes → option SimpleSigner;
  signer_round_trip s : signer_deserialize (signer_serialize s) = Some s;
}.

Context `{SB : !SignerBincode}.

Definition SimpleSigner_from {E} (state : bytes) : outcome E SimpleSigner :=
  unwrap_opt "called `Result::unwrap()` on an `Err` value" (signer_deserialize state).

Definition SimpleSigner_get_state (s : SimpleSigner) : bytes := signer_serialize s.

(** ** [lib.rs]: the component's interface *)

Inductive SignerInitialization := SignerOldState (state : bytes) | SignerConfig (xpiv : string).

Inductive GuestSignerError := GDerivationError | GSigningError.

Definition guest_signer_new {E} (init : SignerInitialization) : outcome E SimpleSigner :=
  match init with
  | SignerOldState state => SimpleSigner_from state
  | SignerConfig xpiv =>
    xpriv ← unwrap_opt "called `Result::unwrap()` on an `Err` value" (xpriv_from_str xpiv);
    Ok (SimpleSigner_new xpriv)
  end.

Definition guest_derive_account (s : SimpleSigner)
    : outcome GuestSignerError (string * string * string) :=
  '(xpub, fingerprint, derivation_path) ← map_err (λ _, GDerivationError) (derive_account s);
  Ok (xpub_to_string xpub, fingerprint_to_string fingerprint, path_to_string derivation_path).

Definition guest_sign_psbt (s : SimpleSigner) (psbt : bytes) : outcome GuestSignerError bytes :=
  psbt ← unwrap_opt "called `Result::unwrap()` on an `Err` value" (psbt_deserialize psbt);
  modified_psbt ← map_err (λ _, GSigningError) (sign_psbt s psbt);
  Ok (psbt_serialize modified_psbt).

Definition guest_signer_get_state (s : SimpleSigner) : bytes := SimpleSigner_get_state s.

End SimpleSigner.

(** ** Keys of the account *)

Section SignerLaws.
  Context `{PC : PsbtCrate} `{SC : !SignerCrate}.

Lemma derive_priv_app path m path' :
  derive_priv m (path ++ path')
  = match derive_priv m path with inl e => inl e | inr x => derive_priv x path' end.
Proof.
  revert m. induction path as [|i path IH]; intros m; cbn [app].
  - by rewrite derive_priv_nil.
  - rewrite derive_priv_cons, (derive_priv_cons m i path).
    destruct (derive_priv m [i]); [done|apply IH].
Qed.

(** The key the wallet derives from the account's public key is the public key of
    what the signer derives from the account's private key. *)
Lemma derive_matches a kind index k :
  0 ≤ kind < HARDENED → 0 ≤ index < HARDENED →
  derive (xpub_from_priv a) kind index = Ok k →
  ∃ x, derive_priv a [kind; index] = inr x ∧ to_pub (xpub_from_priv x) = k.
Proof.
  intros Hk Hi. unfold derive. rewrite ckd_pub_from_priv by done.
  rewrite (derive_priv_cons a kind [index]). destruct (derive_priv a [kind]) as [e|x1]; [done|].
  rewrite ckd_pub_from_priv by done. destruct (derive_priv x1 [index]) as [e|x2]; [done|].
  intros [= <-]. by exists x2.
Qed.

(** The wallet of the account [a] at [path]: it derives from its public key, and every
    output it holds was paid to a normal child. *)
Record watches (xpub : Xpub) (fingerprint : bytes) (path : list Z) (w : WatchOnly) : Prop := {
  watches_xpub : account_xpub w = xpub;
  watches_fingerprint : master_fingerprint w = fingerprint;
  watches_path : account_derivation w = path;
  watches_depth : receive_depth w = 0;
  watches_pubkeys s d : pubkey_map w !! s = Some d → pd_key_depth d = 0;
  watches_utxos o u : utxo_map w !! o = Some u → utxo_derivation_index (wu_utxo u) = 0;
}.

Lemma insert_utxos_watches xpub fp path ps w :
  watches xpub fp path w → watches xpub fp path (insert_utxos w ps).2.
Proof.
  revert w. induction ps as [|p ps IH]; intros w Hw; [done|]. cbn [insert_utxos].
  destruct (insert_utxo w p) as [[[]|e|m] w1] eqn:E; cbn [try_bind].
  2,3: unfold insert_utxo in E; destruct (utxo_map w !! _); [done|];
    destruct (pubkey_map w !! _); by simplify_eq.
  apply IH. destruct Hw as [H1 H2 H3 H4 H5 H6].
  destruct (insert_utxo_ok _ _ _ E) as ((Hx & _ & Hpk & Hd & _ & Hp & Hf) & u & Hmap & _ & Hold).
  split; [congruence..|by rewrite Hpk|].
  intros o v. rewrite Hmap. intros [[<- <-]|[_ Ho]]%lookup_insert_Some; [|by eapply H6].
  destruct (utxo_map w !! pu_outpoint p) as [u0|] eqn:Hu0.
  - destruct Hold as (_ & _ & ->). by eapply H6.
  - destruct Hold as (_ & d & Hpd & _ & ->). by eapply H5.
Qed.

Lemma reachable_watches xpub network path fp w :
  rtc wallet_step (WatchOnly_new xpub network path fp) w → watches xpub fp path w.
Proof.
  intros H. eapply (rtc_ind_r (watches xpub fp path)); [| |exact H].
  - split; try done; intros ? ?; cbn; by rewrite lookup_empty.
  - intros w1 w2 _ [w3|w3 ps] Hw; [|by apply insert_utxos_watches].
    unfold get_receive_address. destruct (derive _ _ _); cbn [try_bind snd]; try done.
    destruct Hw as [H1 H2 H3 H4 H5 H6]. split; try done. cbn.
    intros s d [[<- <-]|[_ Hs]]%lookup_insert_Some; [done|by eapply H5].
Qed.

(** An input of a payment from such a wallet names a key the signer holds. *)
Lemma input_has_key m a path network w o v i :
  derive_priv m path = inr a →
  rtc wallet_step (WatchOnly_new (xpub_from_priv a) network path
                     (xpub_fingerprint (xpub_from_priv m))) w →
  utxo_map w !! o = Some v → input_spends w (wu_utxo v) i →
  ∃ k, in_bip32_derivation i = [(k.1, (xpub_fingerprint (xpub_from_priv m), k.2.1))]
    ∧ derive_priv m k.2.1 = inr k.2.2 ∧ in_partial_sigs i = []
    ∧ txo_script_pubkey <$> in_witness_utxo i = Some (new_p2wpkh k.1)
    ∧ in_sighash_type i = Some SIGHASH_ALL ∧ to_pub (xpub_from_priv k.2.2) = k.1.
Proof.
  intros Ha Hr Ho Hi. pose proof (proj2 (reachable_keyed _ _ _ _ _ Hr)) as Hkeyed.
  apply reachable_watches in Hr as [Hx Hf Hp _ _ Hz].
  destruct (input_spends_keyed _ _ _ _ Hkeyed Ho Hi) as (pk & Hd & Hb & Hwu & Hscript & _).
  destruct Hi as (pk' & _ & ->). unfold derive_pubkey in Hd. rewrite Hx in Hd.
  apply derive_matches in Hd as (x & Hxd & Hpub);
    [|by destruct (utxo_keychain (wu_utxo v))|by rewrite (Hz _ _ Ho)].
  exists (pk, (path ++ [KeychainKind_as_u32 (utxo_keychain (wu_utxo v));
                        utxo_derivation_index (wu_utxo v)], x)).
  cbn [fst snd]. split_and!.
  - by rewrite Hb, Hf, Hp.
  - by rewrite derive_priv_app, Ha.
  - done.
  - rewrite Hwu. cbn. by rewrite Hscript.
  - done.
  - done.
Qed.

Lemma derive_account_inv s xpub fp path :
  derive_account s = Ok (xpub, fp, path) →
  path = [HARDENED + 84; HARDENED; HARDENED]
  ∧ fp = xpub_fingerprint (master_xpub s)
  ∧ ∃ a, derive_priv (master_xpriv s) path = inr a ∧ xpub = xpub_from_priv a.
Proof.
  unfold derive_account. rewrite account_path. cbn [lift_derivation mbind outcome_bind].
  destruct (derive_priv _ _) as [e|a] eqn:E; [done|]. cbn. intros [= <- <- <-]. eauto.
Qed.

Lemma finalise_inputs_ok {E} (l : list Input) sigs :
  map in_partial_sigs l = map (λ s, [s]) sigs →
  ∃ l', @finalise_inputs _ _ E l = Ok l'.
Proof.
  revert sigs. induction l as [|i l IH]; intros [|s sigs] H; try done; [by exists []|].
  cbn [map] in H. injection H as Hi H. destruct (IH _ H) as [l' Hl'].
  cbn [finalise_inputs]. rewrite Hi. cbn [head unwrap_opt mbind outcome_bind].
  destruct s as [k sig]. rewrite Hl'. cbn. eauto.
Qed.

End SignerLaws.

(** Signing a payment of the account's wallet. *)
Lemma signer_signs `{BC : BitcoinCrate} `{PC : PsbtCrate} `{SC : !SignerCrate}
    {R} `{RngCore R} m network w xpub fp path recipient fee_rate amount (rand : R) psbt t :
  derive_account (SimpleSigner_new m) = Ok (xpub, fp, path) →
  rtc wallet_step (WatchOnly_new xpub network path fp) w →
  (∀ script w1, get_change_script w = (Ok script, w1) →
     payable fee_rate amount script (values outpoint_leb (utxo_map w))) →
  create_psbt w recipient fee_rate amount rand = (Ok psbt, t) →
  ∃ psbt', sign_psbt (SimpleSigner_new m) psbt = Ok psbt'
    ∧ psbt_unsigned_tx psbt' = psbt_unsigned_tx psbt
    ∧ map in_witness_utxo (psbt_inputs psbt') = map in_witness_utxo (psbt_inputs psbt)
    ∧ (∀ n i, psbt_inputs psbt' !! n = Some i → ∃ x o,
         in_partial_sigs i = [(to_pub (xpub_from_priv x), ecdsa x psbt n)]
         ∧ in_witness_utxo i = Some o
         ∧ txo_script_pubkey o = new_p2wpkh (to_pub (xpub_from_priv x)))
    ∧ is_ok (finalise_inputs (E := unit) (psbt_inputs psbt')) = true.
Proof.
  intros (_ & -> & a & Ha & ->)%derive_account_inv Hr P Hp.
  pose proof (create_psbt_inputs _ _ _ _ _ _ _ P Hp) as Hall.
  assert (∃ keys, Forall2 (λ i k,
     (in_bip32_derivation i = [(k.1, (xpub_fingerprint (xpub_from_priv m), k.2.1))]
      ∧ derive_priv m k.2.1 = inr k.2.2 ∧ in_partial_sigs i = []
      ∧ txo_script_pubkey <$> in_witness_utxo i = Some (new_p2wpkh k.1)
      ∧ in_sighash_type i = Some SIGHASH_ALL)
     ∧ to_pub (xpub_from_priv k.2.2) = k.1)
     (psbt_inputs psbt) keys) as [keys Hkeys].
  { apply Forall_exists_Forall2_l. eapply Forall_impl; [exact Hall|].
    intros i (o & v & Ho & Hi). destruct (input_has_key _ _ _ _ _ _ _ _ Ha Hr Ho Hi) as (k & Hk).
    exists k. tauto. }
  destruct (psbt_sign_ok m psbt keys) as (psbt' & Hs & Htx & Hw & Hsigs).
  { by eapply create_psbt_input_count. }
  { eapply Forall2_impl; [exact Hkeys|]. by intros i k [Hk _]. }
  exists psbt'. unfold sign_psbt, SimpleSigner_new. cbn [master_xpriv]. rewrite Hs.
  split_and!; [done..| |].
  - intros n i Hi. pose proof (f_equal (.!! n) Hsigs) as Hn. pose proof (f_equal (.!! n) Hw) as Hu.
    cbn beta in Hn, Hu. rewrite !list_lookup_fmap, Hi in Hu. rewrite list_lookup_fmap, list_lookup_imap, Hi in Hn.
    destruct (keys !! n) as [k|] eqn:Hk; [|done].
    destruct (Forall2_lookup_r _ _ _ _ _ Hkeys Hk) as (j & Hj & (_ & _ & _ & Hscript & _) & Hpub).
    rewrite Hj in Hu. cbn in Hn, Hu. injection Hn as Hn. injection Hu as Hu.
    destruct (in_witness_utxo j) as [o|]; [|done]. injection Hscript as Hscript.
    exists k.2.2, o. rewrite Hpub. done.
  - destruct (finalise_inputs_ok (E := unit) (psbt_inputs psbt')
      (imap (λ n k, (k.1, ecdsa k.2.2 psbt n)) keys)) as [l ->]; [|done].
    rewrite Hsigs. symmetry. apply fmap_imap.
Qed.

(** ** Properties *)

(** C12: what the wallet prepares, the signer can sign.  For a wallet created from the
    account a signer published and that so far only received, signing any payment it
    prepares succeeds, leaves the transaction and the outputs it spends alone, and
    gives each input one signature, made with a private key whose public key is the
    one the spent output is locked to; finalising the signed payment then finds a
    signature for every input. *)
Theorem signer_signs_payments `{BC : BitcoinCrate} `{PC : PsbtCrate} `{SC : !SignerCrate}
    {R} `{RngCore R} m network w xpub fp path recipient fee_rate amount (rand : R) psbt t :
  derive_account (SimpleSigner_new m) = Ok (xpub, fp, path) →
  rtc wallet_step (WatchOnly_new xpub network path fp) w →
  (∀ script w1, get_change_script w = (Ok script, w1) →
     payable fee_rate amount script (values outpoint_leb (utxo_map w))) →
  create_psbt w recipient fee_rate amount rand = (Ok psbt, t) →
  ∃ psbt', sign_psbt (SimpleSigner_new m) psbt = Ok psbt'
    ∧ psbt_unsigned_tx psbt' = psbt_unsigned_tx psbt
    ∧ map in_witness_utxo (psbt_inputs psbt') = map in_witness_utxo (psbt_inputs psbt)
    ∧ (∀ n i, psbt_inputs psbt' !! n = Some i → ∃ x o,
         in_partial_sigs i = [(to_pub (xpub_from_priv x), ecdsa x psbt n)]
         ∧ in_witness_utxo i = Some o
         ∧ txo_script_pubkey o = new_p2wpkh (to_pub (xpub_from_priv x)))
    ∧ is_ok (finalise_inputs (E := unit) (psbt_inputs psbt')) = true.
Proof. apply signer_signs. Qed.

(** ** Witness *)

(** A private key is the path of normal children that leads to it. *)
Definition normal_part (path : list Z) : list Z := base.filter (λ i, i < HARDENED) path.

Definition give_signatures (p : Psbt) (m : list Z) : Psbt :=
  MkPsbt (psbt_unsigned_tx p)
    (imap (λ n i, MkInput (in_witness_utxo i)
        (map (λ e, (e.1, Z.of_nat n :: m ++ normal_part e.2.2)) (in_bip32_derivation i))
        (in_sighash_type i) (in_redeem_script i) (in_witness_script i) (in_bip32_derivation i)
        (in_final_script_witness i)) (psbt_inputs p)).

#[export, refine] Instance path_signer : SignerCrate := {
  Xpriv := list Z;
  xpriv_from_str _ := Some [7];
  derive_priv m path := inr (m ++ normal_part path);
  xpub_from_priv x := x;
  xpub_fingerprint _ := [1; 2; 3; 4];
  into_derivation_path _ := inr [HARDENED + 84; HARDENED; HARDENED];
  xpub_to_string _ := "xpub";
  fingerprint_to_string _ := "01020304";
  path_to_string _ := "84'/0'/0'";
  psbt_sign p m := (true, give_signatures p m);
  ecdsa x p n := Z.of_nat n :: x;
}.
Proof.
  - intros m. by rewrite app_nil_r.
  - intros m i path. f_equal. rewrite <- app_assoc. f_equal. unfold normal_part.
    rewrite !filter_cons, filter_nil. by case_decide.
  - intros m i Hi. unfold normal_part. by rewrite filter_cons_True, filter_nil by lia.
  - done.
  - intros m p keys _ Hk. eexists. split; [done|]. split; [done|]. cbn [psbt_inputs give_signatures].
    assert (G : ∀ l ks f, Forall2 (λ i k,
        in_bip32_derivation i = [(k.1, ([1; 2; 3; 4], k.2.1))]
        ∧ @inr unit (list Z) (m ++ normal_part k.2.1) = inr k.2.2 ∧ in_partial_sigs i = []
        ∧ txo_script_pubkey <$> in_witness_utxo i = Some (new_p2wpkh k.1)
        ∧ in_sighash_type i = Some SIGHASH_ALL) l ks →
      map in_witness_utxo (imap (λ n i, MkInput (in_witness_utxo i)
        (map (λ e, (e.1, f n :: m ++ normal_part e.2.2)) (in_bip32_derivation i))
        (in_sighash_type i) (in_redeem_script i) (in_witness_script i) (in_bip32_derivation i)
        (in_final_script_witness i)) l) = map in_witness_utxo l
      ∧ map in_partial_sigs (imap (λ n i, MkInput (in_witness_utxo i)
        (map (λ e, (e.1, f n :: m ++ normal_part e.2.2)) (in_bip32_derivation i))
        (in_sighash_type i) (in_redeem_script i) (in_witness_script i) (in_bip32_derivation i)
        (in_final_script_witness i)) l) = imap (λ n k, [(k.1, f n :: k.2.2)]) ks).
    { clear. intros l ks f H. revert f. induction H as [|i k l ks (Hb & Hd & _) _ IH]; intros f; [done|].
      cbn [imap map]. destruct (IH (f ∘ S)) as [IH1 IH2]. injection Hd as Hd. split.
      - f_equal. exact IH1.
      - rewrite Hb. cbn [map in_partial_sigs fst snd]. f_equal; [|exact IH2].
        do 3 f_equal. exact Hd. }
    exact (G _ _ Z.of_nat Hk).
Defined.

Definition published_wallet : WatchOnly :=
  WatchOnly_new [7] Bitcoin [HARDENED + 84; HARDENED; HARDENED] [1; 2; 3; 4].

Definition funded_published : WatchOnly :=
  (insert_utxos (get_receive_address published_wallet).2
     [example_partial 1 100000 [0; 20; 7; 0; 0] false]).2.

Lemma published_payable script w1 :
  get_change_script funded_published = (Ok script, w1) →
  payable 1000 40000 script (values outpoint_leb (utxo_map funded_published)).
Proof.
  intros Hc. assert (script = change_of_funded) as ->
    by (vm_compute in Hc; injection Hc as <- _; reflexivity).
  assert (utxo_map funded_published = utxo_map funded_wallet) as -> by (vm_compute; reflexivity).
  exact funded_payable.
Qed.

Lemma published_reachable : rtc wallet_step published_wallet funded_published.
Proof. eapply rtc_l; [apply step_receive|]. eapply rtc_l; [apply step_insert|]. apply rtc_refl. Qed.

Lemma published_psbt :
  ∃ psbt t, create_psbt funded_published [9; 9] 1000 40000 1 = (Ok psbt, t)
    ∧ length (psbt_inputs psbt) = 1%nat.
Proof. eexists _, _. vm_compute. split; reflexivity. Qed.

Lemma signer_signs_payments_witness :
  ∃ psbt t psbt', create_psbt funded_published [9; 9] 1000 40000 1 = (Ok psbt, t)
    ∧ length (psbt_inputs psbt) = 1%nat
    ∧ sign_psbt (SimpleSigner_new [7]) psbt = Ok psbt'
    ∧ is_ok (finalise_inputs (E := unit) (psbt_inputs psbt')) = true.
Proof.
  destruct published_psbt as (psbt & t & Hp & Hl).
  destruct (signer_signs_payments (SC := path_signer) [7] Bitcoin funded_published [7] [1; 2; 3; 4]
    [HARDENED + 84; HARDENED; HARDENED] [9; 9] 1000 40000 1 psbt t) as (psbt' & H1 & _ & _ & _ & H2).
  - reflexivity.
  - exact published_reachable.
  - exact published_payable.
  - exact Hp.
  - exists psbt, t, psbt'. split; [exact Hp|]. split; [exact Hl|]. split; [exact H1|exact H2].
Defined.
