(* ===== verification/P2P.v ===== *)
(** * The peer connection ([node/src/p2p.rs], [node/src/tcpsocket.rs])

    Requests to one peer and the replies awaited: the handshake, headers, compact
    filters, filter headers, blocks, keep-alive and the announcement of a
    transaction.

    The connection, the clocks and the random numbers are WASI's: a parameter of
    the model.  The loops wait on the peer and on the clock, so a computation takes
    fuel and returns nothing when the fuel runs out; more fuel never changes a result.

    A read of the stream blocks until bytes come or the connection ends.  The model has
    the connections on which every read returns: the stream is the bytes that come and
    the error at its end.  On a connection that stays open and silent the code does not
    come back from the read, also when the deadline of [receive] has passed. *)

From S2P Require Import Prelude Errors Io Hash256 TxMsg BlockMsg NetMsg Message.

(** ** The world of a connection *)

(** [wall_clock::now().seconds], [monotonic_clock::now()], [random::get_random_u64()];
    what the input stream will still deliver, and the stream after a read; the writes
    of a message to the [OutputStream], all of which take all their bytes or one of
    which fails after some, and [blocking_flush]; the TCP socket. *)
Class PeerIo (W : Type) := {
  wall_clock_now : W → Z * W;
  monotonic_now : W → Z * W;
  get_random_u64 : W → Z * W;
  input_stream : W → reader;
  set_input : reader → W → W;
  stream_write : bytes → W → outcome io_error () * W;
  blocking_flush : W → outcome bytes () * W;
  start_connect : bytes → Z → W → outcome bytes () * W;
  finish_connect : W → option (outcome bytes ()) * W;
}.

(** A computation on the connection. *)
Definition net (W A : Type) : Type := nat → W → option (outcome Error A * W).

#[export] Instance net_ret W : MRet (net W) := λ A a fuel w, Some (Ok a, w).

#[export] Instance net_bind W : MBind (net W) := λ A B f m fuel w,
  match m fuel w with
  | Some (Ok a, w) => f a fuel w
  | Some (Err e, w) => Some (Err e, w)
  | Some (Panic s, w) => Some (Panic s, w)
  | None => None
  end.

(** A step without loops, a failure, and [Result::map_err]. *)
Definition net_step {W A} (f : W → outcome Error A * W) : net W A := λ fuel w, Some (f w).
Definition net_fail {W A} (e : Error) : net W A := λ fuel w, Some (Err e, w).
Definition net_map_err {W A} (f : Error → Error) (m : net W A) : net W A := λ fuel w,
  match m fuel w with
  | Some (Err e, w) => Some (Err (f e), w)
  | r => r
  end.

(** A loop whose turns are bounded by the fuel, and a [match] on a [Result]. *)
Definition net_loop {W A} (f : nat → net W A) : net W A := λ fuel w, f fuel fuel w.
Definition net_match {W A B} (m : net W A) (ok : A → net W B) (err : Error → net W B) : net W B :=
  λ fuel w,
  match m fuel w with
  | Some (Ok a, w) => ok a fuel w
  | Some (Err e, w) => err e fuel w
  | Some (Panic s, w) => Some (Panic s, w)
  | None => None
  end.

Definition MAX_PROTOCOL_VERSION : Z := 70015.
Definition USER_AGENT : bytes := str "/BITSPEND_CLIENT:0.1.0/".

Record BitcoinP2PConfig := MkBitcoinP2PConfig {
  p2pc_network : Network;
  p2pc_nonce : Z;
  p2pc_height : Z;
  p2pc_user_agent : bytes;
  p2pc_max_protocol_version : Z;
}.

(** The streams of [Peer] are the world's. *)
Record Peer := MkPeer {
  peer_remote_address : NodeAddr;
  peer_bitcoin_config : BitcoinP2PConfig;
  peer_magic : bytes;
}.

Section P2P.
  Context `{BO : ByteOrder} `{SHA : Sha256} {W : Type} `{IO : PeerIo W}.

(** ** Sending and receiving *)

(** The writes of a message, one after the other, and the flush. *)
Definition send (p : Peer) (m : Message) : net W () := net_step (λ w,
  match Message_write m (peer_magic p) with
  | Err e => (Err (IOError e), w)
  | Panic s => (Panic s, w)
  | Ok bytes =>
    match stream_write bytes w with
    | (Err e, w) => (Err (IOError e), w)
    | (Panic s, w) => (Panic s, w)
    | (Ok _, w) =>
      match blocking_flush w with
      | (Ok _, w) => (Ok (), w)
      | (Err e, w) => (Err (StreamingError e), w)
      | (Panic s, w) => (Panic s, w)
      end
    end
  end).

(** [while monotonic_clock::now() < duration { .. }]. *)
Fixpoint receive_loop (fuel : nat) (duration : Z) (message_type : bytes) (w : W)
    : option (outcome Error Message * W) :=
  match fuel with
  | O => None
  | S fuel =>
    let '(now, w) := monotonic_now w in
    if now <? duration then
      let '(secs, w) := wall_clock_now w in
      match Message_read secs (input_stream w) with
      | (Ok (m, h), r) =>
        let w := set_input r w in
        if bool_decide (mh_command h = commands.NOTFOUND) then Some (Ok m, w)
        else if bool_decide (mh_command h = message_type) then Some (Ok m, w)
        else receive_loop fuel duration message_type w
      | (Err (IOError _), r) => receive_loop fuel duration message_type (set_input r w)
      | (Err e, r) => Some (Err e, set_input r w)
      | (Panic s, r) => Some (Panic s, set_input r w)
      end
    else Some (Err Timeout, w)
  end.

Definition receive (message_type : bytes) : net W Message := λ fuel w,
  let '(now, w) := monotonic_now w in
  match add_u64 now 1000000000 with
  | Ok duration => receive_loop fuel duration message_type w
  | Err e => Some (Err e, w)
  | Panic s => Some (Panic s, w)
  end.

(** ** Requests *)

Definition version (p : Peer) : net W Message := net_step (λ w,
  let '(timestamp, w) := wall_clock_now w in
  let c := peer_bitcoin_config p in
  (Ok (MVersion (MkVersion (p2pc_max_protocol_version c) 0 (as_i64 timestamp)
                   (peer_remote_address p) (peer_remote_address p) (p2pc_nonce c)
                   (p2pc_user_agent c) (as_i32 (p2pc_height c)) false)), w)).

Definition random_nonce : net W Z := net_step (λ w, let '(n, w) := get_random_u64 w in (Ok n, w)).

Definition handshake (p : Peer) : net W () :=
  version_message ← version p;
  send p version_message ≫= λ _,
  res ← receive commands.VERSION;
  match res with
  | MVersion _ =>
    res ← receive commands.VERACK;
    match res with
    | MVerack =>
      send p MVerack ≫= λ _,
      nonce ← random_nonce;
      send p (MPing (MkPing nonce)) ≫= λ _,
      receive commands.PONG ≫= λ _,
      mret ()
    | _ => net_fail WrongP2PMessage
    end
  | _ => net_fail WrongP2PMessage
  end.

Definition Peer_fetch_headers (p : Peer) (last_known_blockhash : Hash256)
    : net W (list BlockHeader) :=
  send p (MGetHeaders (MkBlockLocator PROTOCOL_VERSION [last_known_blockhash] NO_HASH_STOP))
    ≫= λ _,
  res ← receive commands.HEADERS;
  match res with
  | MHeaders headers => mret (headers_inner headers)
  | _ => net_fail WrongP2PMessage
  end.

(** [loop { .. }] of [fetch_compact_filters]; [n] bounds its turns. *)
Fixpoint filters_loop (n : nat) (hash_stop : Hash256) (block_filters : list CompactFilter)
    : net W (list CompactFilter) := λ fuel w,
  match n with
  | O => None
  | S n =>
    (res ← receive commands.CFILTERS;
     match res with
     | MCFilters filters =>
       let block_filters := block_filters ++ [filters] in
       if bool_decide (cf_block_hash filters = hash_stop) then mret block_filters
       else filters_loop n hash_stop block_filters
     | _ => net_fail WrongP2PMessage
     end) fuel w
  end.

Definition fetch_compact_filters (p : Peer) (start_height : Z) (hash_stop : Hash256)
    : net W (list CompactFilter) :=
  send p (MGetCFilters (MkFilterLocator 0 start_height hash_stop)) ≫= λ _,
  net_loop (λ n, filters_loop n hash_stop []).

Definition fetch_compact_filter_headers (p : Peer) (start_height : Z) (hash_stop : Hash256)
    : net W CompactFilterHeader :=
  send p (MGetCFHeaders (MkFilterLocator 0 start_height hash_stop)) ≫= λ _,
  res ← receive commands.CFHEADERS;
  match res with
  | MCFHeaders cfheaders => mret cfheaders
  | _ => net_fail WrongP2PMessage
  end.

Definition Peer_keep_alive (p : Peer) : net W () :=
  nonce ← random_nonce;
  send p (MPing (MkPing nonce)) ≫= λ _,
  net_match (receive commands.PONG) (λ _, mret ()) (λ _, handshake p).

(** [loop { .. }] of [fetch_blocks]. *)
Fixpoint blocks_loop (n : nat) (data_len : nat) (blocks : list Block) : net W (list Block) :=
  λ fuel w,
  match n with
  | O => None
  | S n =>
    (res ← receive commands.BLOCK;
     match res with
     | MBlock block =>
       let blocks := blocks ++ [block] in
       if bool_decide (length blocks = data_len) then mret blocks
       else blocks_loop n data_len blocks
     | _ => net_fail WrongP2PMessage
     end) fuel w
  end.

Definition fetch_blocks (p : Peer) (inv : Inv) : net W (list Block) :=
  send p (MGetData inv) ≫= λ _,
  net_loop (λ n, blocks_loop n (length (inv_objects inv)) []).

Definition Peer_send_transaction (p : Peer) (transaction : Tx) : net W () :=
  let txn_hash := Tx_hash transaction in
  send p (MInv (MkInv [MkInvVect 1 txn_hash])) ≫= λ _,
  res ← receive commands.GETDATA;
  match res with
  | MGetData inv =>
    match inv_objects inv with
    | [] => net_step (λ w, (Panic "called `Option::unwrap()` on a `None` value", w))
    | inv_object :: _ =>
      if bool_decide (iv_hash inv_object = txn_hash) then send p (MTx transaction)
      else net_fail WrongP2PMessage
    end
  | _ => net_fail WrongP2PMessage
  end.

(** ** Connecting *)

(** [Peer::new]: the handshake is unwrapped. *)
Definition Peer_new (network : Network) (remote_address : NodeAddr) : net W Peer := λ fuel w,
  let '(nonce, w) := get_random_u64 w in
  let p := MkPeer remote_address
    (MkBitcoinP2PConfig network nonce 0 USER_AGENT MAX_PROTOCOL_VERSION)
    (magic_from_network network) in
  match handshake p fuel w with
  | Some (Ok _, w) => Some (Ok p, w)
  | Some (_, w) => Some (Panic "called `Result::unwrap()` on an `Err` value", w)
  | None => None
  end.

(** [WasiTcpSocket::blocking_connect]: [finish_connect] until it no longer would
    block. *)
Fixpoint finish_loop (fuel : nat) (w : W) : option (outcome bytes () * W) :=
  match fuel with
  | O => None
  | S fuel =>
    match finish_connect w with
    | (None, w) => finish_loop fuel w
    | (Some r, w) => Some (r, w)
    end
  end.

Definition blocking_connect (ip : bytes) (port : Z) (fuel : nat) (w : W)
    : option (outcome bytes () * W) :=
  match start_connect ip port w with
  | (Ok _, w) => finish_loop fuel w
  | (r, w) => Some (r, w)
  end.

Record CustomIPV4SocketAddress := MkSocketAddress { sa_ip : Z * Z * Z * Z; sa_port : Z }.

(** [P2P] is the peer, once connected. *)
Definition P2P : Type := option Peer.

Definition connect_peer (address : CustomIPV4SocketAddress) (network : Network)
    : net W Peer := λ fuel w,
  let '(a, b, c, d) := sa_ip address in
  match blocking_connect [a; b; c; d] (sa_port address) fuel w with
  | Some (Ok _, w) =>
    Peer_new network (NodeAddr_new (IpV4 a b c d) (sa_port address)) fuel w
  | Some (Err e, w) => Some (Err (TCPError e), w)
  | Some (Panic s, w) => Some (Panic s, w)
  | None => None
  end.

Definition with_peer {A} (p : P2P) (k : Peer → net W A) : net W A :=
  match p with Some peer => k peer | None => net_fail PeerNotFound end.

Definition P2P_fetch_headers (p : P2P) (last_known_blockhash : Hash256) :=
  with_peer p (λ p, Peer_fetch_headers p last_known_blockhash).
Definition get_compact_filters (p : P2P) (start_height : Z) (hash_stop : Hash256) :=
  with_peer p (λ p, fetch_compact_filters p start_height hash_stop).
Definition get_compact_filter_headers (p : P2P) (start_height : Z) (hash_stop : Hash256) :=
  with_peer p (λ p, fetch_compact_filter_headers p start_height hash_stop).
Definition get_block (p : P2P) (inv : Inv) := with_peer p (λ p, fetch_blocks p inv).
Definition P2P_send_transaction (p : P2P) (transaction : Tx) :=
  with_peer p (λ p, Peer_send_transaction p transaction).
Definition P2P_keep_alive (p : P2P) := with_peer p Peer_keep_alive.

End P2P.

(** ** More fuel gives the same result *)

Class FuelStable {W A} (m : net W A) : Prop :=
  fuel_stable fuel fuel' w r : m fuel w = Some r → (fuel ≤ fuel')%nat → m fuel' w = Some r.

#[export] Instance net_ret_stable W A (a : A) : FuelStable (mret a : net W A).
Proof. intros f f' w r H _. exact H. Qed.

#[export] Instance net_step_stable W A (f : W → outcome Error A * W) : FuelStable (net_step f).
Proof. intros f1 f2 w r H _. exact H. Qed.

#[export] Instance net_fail_stable W A e : FuelStable (net_fail e : net W A).
Proof. intros f f' w r H _. exact H. Qed.

#[export] Instance net_bind_stable W A B (m : net W A) (k : A → net W B) :
  FuelStable m → (∀ a, FuelStable (k a)) → FuelStable (m ≫= k).
Proof.
  intros Hm Hk f f' w r H Hf. unfold mbind, net_bind in *.
  destruct (m f w) as [[o w']|] eqn:E; [|done]. rewrite (Hm _ _ _ _ E Hf).
  destruct o; [by apply (Hk _ f)|done..].
Qed.

#[export] Instance net_match_stable W A B (m : net W A) (ok : A → net W B) err :
  FuelStable m → (∀ a, FuelStable (ok a)) → (∀ e, FuelStable (err e)) →
  FuelStable (net_match m ok err).
Proof.
  intros Hm Hk He f f' w r H Hf. unfold net_match in *.
  destruct (m f w) as [[o w']|] eqn:E; [|done]. rewrite (Hm _ _ _ _ E Hf).
  destruct o; [by apply (Hk _ f)|by apply (He _ f)|done].
Qed.

#[export] Instance net_map_err_stable W A f (m : net W A) :
  FuelStable m → FuelStable (net_map_err f m).
Proof.
  intros Hm f1 f2 w r H Hf. unfold net_map_err in *.
  destruct (m f1 w) as [[o w']|] eqn:E; [|done]. by rewrite (Hm _ _ _ _ E Hf).
Qed.

(** A loop is stable when its body is, in both its turns and its fuel. *)
Lemma net_loop_stable W A (f : nat → net W A) :
  (∀ n n' fuel fuel' w r, f n fuel w = Some r → (n ≤ n')%nat → (fuel ≤ fuel')%nat →
     f n' fuel' w = Some r) →
  FuelStable (net_loop f).
Proof. intros Hf f1 f2 w r H Hle. unfold net_loop in *. by eapply Hf. Qed.

(** Proves stability along the structure of a request. *)
Ltac stable :=
  repeat (apply _ || apply net_bind_stable || apply net_match_stable || case_bool_decide
    || case_match || (match goal with |- ∀ _, _ => intros ? end)).

Section P2PLaws.
  Context `{BO : ByteOrder} `{SHA : Sha256} {W : Type} `{IO : PeerIo W}.

Lemma receive_loop_stable fuel fuel' d t w r :
  receive_loop fuel d t w = Some r → (fuel ≤ fuel')%nat → receive_loop fuel' d t w = Some r.
Proof.
  revert fuel' w. induction fuel as [|fuel IH]; intros fuel' w H Hf; [done|].
  destruct fuel' as [|fuel']; [lia|]. cbn [receive_loop] in H |- *.
  destruct (monotonic_now w) as [now w1]. destruct (now <? d); [|done].
  destruct (wall_clock_now w1) as [secs w2].
  destruct (Message_read secs (input_stream w2)) as [[[m h]|e|s] rd]; [| |done].
  - do 2 (case_bool_decide; [done|]). apply IH; [done|lia].
  - destruct e; try done. apply IH; [done|lia].
Qed.

#[export] Instance receive_stable t : FuelStable (receive t).
Proof.
  intros f f' w r H Hf. unfold receive in *. destruct (monotonic_now w) as [now w'].
  destruct (add_u64 now _); [|done..]. by eapply receive_loop_stable.
Qed.

#[export] Instance send_stable p m : FuelStable (send p m).
Proof. apply net_step_stable. Qed.

#[export] Instance handshake_stable p : FuelStable (handshake p).
Proof.
  unfold handshake, version, random_nonce.
  stable.
Qed.

#[export] Instance Peer_fetch_headers_stable p h : FuelStable (Peer_fetch_headers p h).
Proof.
  unfold Peer_fetch_headers. stable.
Qed.

#[export] Instance fetch_compact_filter_headers_stable p n h :
  FuelStable (fetch_compact_filter_headers p n h).
Proof.
  unfold fetch_compact_filter_headers.
  stable.
Qed.

#[export] Instance Peer_keep_alive_stable p : FuelStable (Peer_keep_alive p).
Proof.
  unfold Peer_keep_alive, random_nonce.
  stable.
Qed.

#[export] Instance Peer_send_transaction_stable p t : FuelStable (Peer_send_transaction p t).
Proof.
  unfold Peer_send_transaction.
  stable.
Qed.

Lemma filters_loop_stable n n' fuel fuel' stop acc w r :
  filters_loop n stop acc fuel w = Some r → (n ≤ n')%nat → (fuel ≤ fuel')%nat →
  filters_loop n' stop acc fuel' w = Some r.
Proof.
  revert n' acc w. induction n as [|n IH]; intros n' acc w H Hn Hf; [done|].
  destruct n' as [|n']; [lia|]. cbn [filters_loop] in H |- *. unfold mbind, net_bind in *.
  destruct (receive _ fuel w) as [[o w']|] eqn:E; [|done].
  rewrite (fuel_stable _ _ _ _ E Hf). destruct o as [m|e|s]; [|done..].
  destruct m; try done. case_bool_decide; [done|]. apply IH; [done|lia..].
Qed.

Lemma blocks_loop_stable n n' fuel fuel' len acc w r :
  blocks_loop n len acc fuel w = Some r → (n ≤ n')%nat → (fuel ≤ fuel')%nat →
  blocks_loop n' len acc fuel' w = Some r.
Proof.
  revert n' acc w. induction n as [|n IH]; intros n' acc w H Hn Hf; [done|].
  destruct n' as [|n']; [lia|]. cbn [blocks_loop] in H |- *. unfold mbind, net_bind in *.
  destruct (receive _ fuel w) as [[o w']|] eqn:E; [|done].
  rewrite (fuel_stable _ _ _ _ E Hf). destruct o as [m|e|s]; [|done..].
  destruct m; try done. case_bool_decide; [done|]. apply IH; [done|lia..].
Qed.

#[export] Instance fetch_compact_filters_stable p n h : FuelStable (fetch_compact_filters p n h).
Proof.
  unfold fetch_compact_filters. apply net_bind_stable; [apply _|intros _].
  apply net_loop_stable. intros. by eapply filters_loop_stable.
Qed.

#[export] Instance fetch_blocks_stable p inv : FuelStable (fetch_blocks p inv).
Proof.
  unfold fetch_blocks. apply net_bind_stable; [apply _|intros _].
  apply net_loop_stable. intros. by eapply blocks_loop_stable.
Qed.

#[export] Instance with_peer_stable {A} p (k : Peer → net W A) :
  (∀ peer, FuelStable (k peer)) → FuelStable (with_peer p k).
Proof. intros H. destruct p; [apply H|apply _]. Qed.

End P2PLaws.

(** ** A connection that follows a script *)

(** The bytes the peer sends, the bytes sent to it, and clocks: the monotonic one
    advances by one at each reading, the random numbers by one at each draw. *)
Record script := MkScript {
  sc_input : reader;
  sc_sent : list bytes;
  sc_time : Z;
  sc_wall : Z;
  sc_random : Z;
}.

#[export] Instance script_io : PeerIo script := {
  wall_clock_now w := (sc_wall w, w);
  monotonic_now w :=
    (sc_time w, MkScript (sc_input w) (sc_sent w) (sc_time w + 1) (sc_wall w) (sc_random w));
  get_random_u64 w :=
    (sc_random w, MkScript (sc_input w) (sc_sent w) (sc_time w) (sc_wall w) (sc_random w + 1));
  input_stream := sc_input;
  set_input r w := MkScript r (sc_sent w) (sc_time w) (sc_wall w) (sc_random w);
  stream_write b w :=
    (Ok (), MkScript (sc_input w) (sc_sent w ++ [b]) (sc_time w) (sc_wall w) (sc_random w));
  blocking_flush w := (Ok (), w);
  start_connect _ _ w := (Ok (), w);
  finish_connect w := (Some (Ok ()), w);
}.

Section Script.
  Context `{BO : ByteOrder} `{SHA : Sha256}.

(** The bytes of a message. *)
Definition wire (magic : bytes) (m : Message) : bytes :=
  match Message_write m magic with Ok b => b | _ => [] end.

(** A message the wire can carry. *)
Definition sendable (now : Z) (m : Message) : Prop :=
  message_wf now m ∧ zlen (message_payload m) ≤ isize_max.

Lemma wire_read now m magic rest e :
  sendable now m → zlen magic = 4 →
  Message_read now (rdr (wire magic m ++ rest) e)
  = (Ok (message_received m, message_header m magic), rdr rest e).
Proof.
  intros [Hwf Hmax] Hm. unfold wire. rewrite (Message_write_ok now) by done.
  rewrite <- app_assoc. by apply Message_read_ok.
Qed.

(** A reply the client takes when it waits for [t]. *)
Definition answers (t : bytes) (m : Message) : Prop :=
  message_command m = t ∨ message_command m = commands.NOTFOUND.

Lemma receive_loop_script magic t ms m rest e sent d time wall rnd fuel :
  zlen magic = 4 → Forall (λ m, sendable wall m ∧ ¬ answers t m) ms →
  sendable wall m → answers t m →
  time + zlen ms < d → (length ms < fuel)%nat →
  receive_loop fuel d t
    (MkScript (rdr (concat (map (wire magic) ms) ++ wire magic m ++ rest) e) sent time wall rnd)
  = Some (Ok (message_received m),
          MkScript (rdr rest e) sent (time + zlen ms + 1) wall rnd).
Proof.
  intros Hmagic Hms Hm Ha. revert time fuel.
  induction Hms as [|x ms [Hx Hna] _ IH]; intros time fuel Hd Hf;
    (destruct fuel as [|fuel]; [cbn in Hf; lia|]).
  - unfold zlen in *. cbn [length Z.of_nat] in *. cbn [receive_loop monotonic_now script_io sc_time].
    rewrite (proj2 (Z.ltb_lt _ _)) by lia.
    cbn [wall_clock_now script_io sc_wall input_stream sc_input map concat app].
    rewrite wire_read by done. cbn [set_input script_io sc_sent sc_time sc_wall sc_random].
    rewrite Z.add_0_r. destruct Ha as [Ha|Ha]; cbn [message_header mh_command]; rewrite Ha.
    + case_bool_decide; [done|]. by rewrite bool_decide_eq_true_2.
    + by rewrite bool_decide_eq_true_2.
  - unfold zlen in *. cbn [length] in *. rewrite Nat2Z.inj_succ in *.
    cbn [receive_loop monotonic_now script_io sc_time].
    rewrite (proj2 (Z.ltb_lt _ _)) by lia.
    cbn [wall_clock_now script_io sc_wall input_stream sc_input map concat].
    rewrite <- app_assoc, wire_read by done.
    cbn [set_input script_io sc_sent sc_time sc_wall sc_random message_header mh_command].
    rewrite !bool_decide_eq_false_2 by (intros ?; apply Hna; unfold answers; auto).
    rewrite IH by lia. do 3 f_equal. lia.
Qed.

Lemma receive_script magic t ms m rest e sent time wall rnd fuel :
  zlen magic = 4 → Forall (λ m, sendable wall m ∧ ¬ answers t m) ms →
  sendable wall m → answers t m →
  0 ≤ time < 2 ^ 62 → zlen ms < 999999999 → (length ms < fuel)%nat →
  receive t fuel
    (MkScript (rdr (concat (map (wire magic) ms) ++ wire magic m ++ rest) e) sent time wall rnd)
  = Some (Ok (message_received m),
          MkScript (rdr rest e) sent (time + zlen ms + 2) wall rnd).
Proof.
  intros Hmagic Hms Hm Ha Ht Hlen Hf. unfold receive.
  cbn [monotonic_now script_io sc_time sc_input sc_sent sc_wall sc_random].
  unfold add_u64. rewrite checked_ok by lia.
  rewrite receive_loop_script by (done || lia). do 3 f_equal. lia.
Qed.

End Script.

(** ** Lists of replies *)

Section Replies.
  Context `{BO : ByteOrder} `{SHA : Sha256} {W : Type} `{IO : PeerIo W}.

Lemma filters_loop_inv n stop acc fuel w l w' :
  Forall (λ f, cf_block_hash f ≠ stop) acc →
  filters_loop n stop acc fuel w = Some (Ok l, w') →
  ∃ l0 f, l = l0 ++ [f] ∧ cf_block_hash f = stop ∧ Forall (λ f, cf_block_hash f ≠ stop) l0.
Proof.
  revert acc w. induction n as [|n IH]; intros acc w Hacc H; [done|].
  cbn [filters_loop] in H. unfold mbind, net_bind in H.
  destruct (receive _ fuel w) as [[[m|e|s] w1]|]; try done. destruct m as [| | | | | | | | | | | | | | |f| | | | | |]; try done.
  case_bool_decide as Hs.
  - unfold mret, net_ret in H. simplify_eq. eauto.
  - eapply IH; [|exact H]. apply Forall_app. split; [done|]. by constructor.
Qed.

Lemma blocks_loop_inv n len acc fuel w l w' :
  blocks_loop n len acc fuel w = Some (Ok l, w') → length l = len ∧ l ≠ [].
Proof.
  revert acc w. induction n as [|n IH]; intros acc w H; [done|].
  cbn [blocks_loop] in H. unfold mbind, net_bind in H.
  destruct (receive _ fuel w) as [[[m|e|s] w1]|]; try done. destruct m as [b| | | | | | | | | | | | | | | | | | | | |]; try done.
  case_bool_decide as Hs.
  - unfold mret, net_ret in H. simplify_eq. split; [done|]. by destruct acc.
  - by eapply IH.
Qed.

End Replies.

(** ** Properties *)

(** C39: a reply is found among other messages. When the peer's stream holds any
    number of other messages and then one with the awaited command, [receive]
    skips the others, returns that one and leaves the rest of the stream. *)
Theorem receive_skips_others `{BO : ByteOrder} `{SHA : Sha256}
    magic t ms m rest e sent time wall rnd fuel :
  zlen magic = 4 → Forall (λ m, sendable wall m ∧ ¬ answers t m) ms →
  sendable wall m → answers t m →
  0 ≤ time < 2 ^ 62 → zlen ms < 999999999 → (length ms < fuel)%nat →
  receive t fuel
    (MkScript (rdr (concat (map (wire magic) ms) ++ wire magic m ++ rest) e) sent time wall rnd)
  = Some (Ok (message_received m),
          MkScript (rdr rest e) sent (time + zlen ms + 2) wall rnd).
Proof. apply receive_script. Qed.

(** C17: the handshake completes with a peer that answers with its version, the
    acknowledgement and a pong; the client has then sent, in this order, its
    version, the acknowledgement and a ping, and nothing else. *)
Theorem handshake_completes `{BO : ByteOrder} `{SHA : Sha256} p v q rest e time wall rnd fuel :
  zlen (peer_magic p) = 4 →
  sendable wall (MVersion v) → sendable wall (MPong q) →
  0 ≤ time < 2 ^ 61 → (0 < fuel)%nat →
  let c := peer_bitcoin_config p in
  let ours := MVersion (MkVersion (p2pc_max_protocol_version c) 0 (as_i64 wall)
                (peer_remote_address p) (peer_remote_address p) (p2pc_nonce c)
                (p2pc_user_agent c) (as_i32 (p2pc_height c)) false) in
  let w := wire (peer_magic p) in
  handshake p fuel
    (MkScript (rdr (w (MVersion v) ++ w MVerack ++ w (MPong q) ++ rest) e) [] time wall rnd)
  = Some (Ok (), MkScript (rdr rest e) [w ours; w MVerack; w (MPing (MkPing rnd))]
                   (time + 6) wall (rnd + 1)).
Proof.
  intros Hmagic Hv Hq Ht Hf. cbv zeta.
  assert (sendable wall MVerack) as Ha by done.
  assert (∀ t m rest sent time rnd, sendable wall m → answers t m → 0 ≤ time < 2 ^ 62 →
    receive t fuel (MkScript (rdr (wire (peer_magic p) m ++ rest) e) sent time wall rnd)
    = Some (Ok (message_received m), MkScript (rdr rest e) sent (time + 2) wall rnd)) as Hr.
  { intros t m rest' sent time' rnd' Hm Hans Ht'.
    pose proof (receive_script (peer_magic p) t [] m rest' e sent time' wall rnd' fuel) as H.
    cbn [map concat app] in H. rewrite H by (done || (cbn; lia)).
    unfold zlen. cbn [length Z.of_nat]. by rewrite Z.add_0_r. }
  unfold handshake, version, send, random_nonce, net_step, mbind, net_bind, mret, net_ret.
  cbn [wall_clock_now get_random_u64 stream_write blocking_flush script_io sc_input sc_sent
    sc_time sc_wall sc_random Message_write app].
  rewrite Hr by (done || lia || by left). cbn [message_received].
  rewrite Hr by (done || lia || by left). cbn [message_received].
  cbn [Message_write stream_write blocking_flush get_random_u64 script_io sc_input sc_sent sc_time
    sc_wall sc_random app].
  rewrite Hr by (done || lia || by left). do 3 f_equal. lia.
Qed.

(** The lists of replies are complete. The filters returned end with the filter of
    the block asked for, the first with that hash; the blocks returned are as many
    as were asked for. *)
Theorem fetched_lists_complete `{BO : ByteOrder} `{SHA : Sha256} {W} `{IO : PeerIo W}
    p fuel (w w' : W) :
  (∀ start stop l, fetch_compact_filters p start stop fuel w = Some (Ok l, w') →
     ∃ l0 f, l = l0 ++ [f] ∧ cf_block_hash f = stop
       ∧ Forall (λ f, cf_block_hash f ≠ stop) l0)
  ∧ (∀ inv l, fetch_blocks p inv fuel w = Some (Ok l, w') →
       length l = length (inv_objects inv) ∧ l ≠ []).
Proof.
  split.
  - intros start stop l H. unfold fetch_compact_filters, mbind, net_bind in H.
    destruct (send _ _ fuel w) as [[[u|e|s] w1]|]; try done. unfold net_loop in H.
    by eapply filters_loop_inv in H.
  - intros inv l H. unfold fetch_blocks, mbind, net_bind in H.
    destruct (send _ _ fuel w) as [[[u|e|s] w1]|]; try done. unfold net_loop in H.
    by eapply blocks_loop_inv.
Qed.

(** ** Witnesses *)

Definition example_peer : Peer :=
  MkPeer (NodeAddr_new (IpV4 127 0 0 1) 8333)
    (MkBitcoinP2PConfig Bitcoin 7 0 USER_AGENT MAX_PROTOCOL_VERSION) MAINNET_MAGIC.

Definition example_wall : Z := 1700000000.

Definition std_wire : Message → bytes := @wire std_byteorder padded_sha256 MAINNET_MAGIC.

(** A connection on which the peer says the messages [ms]. *)
Definition saying (ms : list Message) : script :=
  MkScript (rdr (concat (map std_wire ms)) eof) [] 0 example_wall 1.

Lemma receive_skips_others_witness :
  @receive std_byteorder padded_sha256 script script_io commands.VERACK 3%nat
    (MkScript (rdr (concat (map std_wire [MSendHeaders; MPing (MkPing 3)])
                    ++ std_wire MVerack ++ [1; 2]) eof) [] 0 example_wall 1)
  = Some (Ok MVerack, MkScript (rdr [1; 2] eof) [] 4 example_wall 1).
Proof.
  refine (receive_skips_others (BO:=std_byteorder) (SHA:=padded_sha256)
    MAINNET_MAGIC commands.VERACK [MSendHeaders; MPing (MkPing 3)] MVerack [1; 2] eof [] 0
    example_wall 1 3%nat _ _ _ _ _ _ _).
  - reflexivity.
  - repeat (apply Forall_cons; split; [split; [split; by vm_compute|intros [H|H]; by vm_compute in H]|]).
    apply Forall_nil_2.
  - split; by vm_compute.
  - by left.
  - lia.
  - by vm_compute.
  - cbn. lia.
Defined.

Lemma handshake_completes_witness :
  ∃ w', @handshake std_byteorder padded_sha256 script script_io example_peer 1%nat
          (saying [MVersion example_version; MVerack; MPong (MkPing 1)]) = Some (Ok (), w')
    ∧ length (sc_sent w') = 3%nat.
Proof.
  unfold saying. cbn [map concat].
  eexists. split.
  - apply (handshake_completes (BO:=std_byteorder) (SHA:=padded_sha256) example_peer
      example_version (MkPing 1) [] eof 0 example_wall 1 1%nat).
    + reflexivity.
    + split; [split; [by_eval|by vm_compute]|by_eval].
    + split; [cbn|]; by_eval.
    + lia.
    + lia.
  - reflexivity.
Defined.

(** Two filters, the second that of the block asked for. *)
Lemma fetched_lists_complete_witness :
  let f1 := MkCompactFilter 0 (MkHash256 (replicate 32 1)) [0] in
  let f2 := MkCompactFilter 0 (MkHash256 (replicate 32 2)) [0] in
  ∃ l w', @fetch_compact_filters std_byteorder padded_sha256 script script_io example_peer 1
          (cf_block_hash f2) 5%nat (saying [MCFilters f1; MCFilters f2]) = Some (Ok l, w')
    ∧ l = [f1; f2] ∧ ∃ l0 f, l = l0 ++ [f] ∧ cf_block_hash f = cf_block_hash f2.
Proof.
  cbv zeta.
  destruct (@fetch_compact_filters std_byteorder padded_sha256 script script_io example_peer 1
    (MkHash256 (replicate 32 2)) 5%nat (saying [MCFilters (MkCompactFilter 0 (MkHash256 (replicate 32 1)) [0]);
      MCFilters (MkCompactFilter 0 (MkHash256 (replicate 32 2)) [0])])) as [[r w']|] eqn:E;
    [|exfalso; vm_compute in E; discriminate E].
  destruct r as [l|e|s]; [|exfalso; vm_compute in E; discriminate E..].
  exists l, w'. split; [exact E|]. split.
  - vm_compute in E. injection E as <- _. reflexivity.
  - destruct (proj1 (fetched_lists_complete example_peer 5%nat _ w') _ _ _ E) as (l0 & f & H1 & H2 & _).
    exists l0, f. split; [exact H1|exact H2].
Defined.
