(* ===== verification/Chain.v ===== *)
(** * The compact chain ([node/src/chain.rs])

    Synchronisation with compact block filters: headers in batches, the filters of
    each batch checked against the filter headers, the blocks whose filter matches
    a script of the wallet fetched, and what they pay to the wallet or spend of it
    reported to the wallet.  The wallet is seen through its interface only. *)

From S2P Require Import Prelude Errors Io Hash256 TxMsg BlockMsg NetMsg Message BlockFilter WalletApi P2P.

Record ChainState := MkChainState { last_block_hash : Hash256; last_block_height : Z }.

#[export] Instance ChainState_eq_dec : EqDecision ChainState.
Proof. solve_decision. Defined.

Definition MAX_HEADER_LEN : Z := 2000.
Definition FILTER_SIZE : Z := 500.

(** The chain with what it works on: the connection and the wallet it shares with
    the node. *)
Record CompactChain (W T : Type) := MkCompactChain {
  cc_p2p : P2P;
  cc_chain_state : ChainState;
  cc_wallet : T;
  cc_io : W;
}.
Arguments MkCompactChain {W T}.
Arguments cc_p2p {W T}.
Arguments cc_chain_state {W T}.
Arguments cc_wallet {W T}.
Arguments cc_io {W T}.

(** ** What the blocks say *)

(** [zip(filter_hashes, filters)], the hashes compared. *)
Fixpoint filters_verified `{Sha256} (hashes : list Hash256) (filters : list CompactFilter) : bool :=
  match hashes, filters with
  | h :: hashes, f :: filters =>
    bool_decide (sha256d (cf_filter_bytes f) = h) && filters_verified hashes filters
  | _, _ => true
  end.

(** The hashes of the blocks whose filter matches. *)
Fixpoint matching_hashes `{ByteOrder} `{SipHash} {E} (pub_keys : list bytes)
    (filters : list CompactFilter) : outcome E (list Hash256) :=
  match filters with
  | [] => Ok []
  | f :: filters =>
    match BlockFilter_match_any (cf_filter_bytes f) (cf_block_hash f) pub_keys with
    | Ok result =>
      rest ← matching_hashes pub_keys filters;
      Ok (if result : bool then cf_block_hash f :: rest else rest)
    | Err _ => Panic "error matching Filters"
    | Panic s => Panic s
    end
  end.

Section Scan.
  Context `{BO : ByteOrder} `{SHA : Sha256}.

(** The outputs of a transaction that pay to a known script. *)
Definition new_outputs (pub_keys : list bytes) (txn : Tx) : list GuestPartialUtxo :=
  omap (λ io, if bool_decide (txout_lock_script io.2 ∈ pub_keys)
              then Some (MkGuestPartialUtxo (hash_bytes (Tx_hash txn)) (as_u32 io.1)
                           (as_u64 (txout_satoshis io.2)) (txout_lock_script io.2) false)
              else None)
    (imap (λ i o, (Z.of_nat i, o)) (tx_outputs txn)).

(** The entries an input spends, marked spent. *)
Definition spent_by (utxos : list GuestPartialUtxo) (input : TxIn) : list GuestPartialUtxo :=
  if bool_decide (op_hash (txin_prev_output input) = NO_HASH_STOP) then []
  else omap (λ u,
    if bool_decide (gpu_txid u = hash_bytes (op_hash (txin_prev_output input)))
       && bool_decide (gpu_vout u = op_index (txin_prev_output input))
    then Some (MkGuestPartialUtxo (gpu_txid u) (gpu_vout u) (gpu_amount u) (gpu_script u) true)
    else None) utxos.

Definition scan_txn (pub_keys : list bytes) (utxos : list GuestPartialUtxo) (txn : Tx)
    : list GuestPartialUtxo :=
  new_outputs pub_keys txn ++ concat (map (spent_by utxos) (tx_inputs txn)).

(** The loop over the blocks: what is reported to the wallet. *)
Definition scan_blocks (pub_keys : list bytes) (utxos : list GuestPartialUtxo)
    (blocks : list Block) : list GuestPartialUtxo :=
  concat (map (λ b, concat (map (scan_txn pub_keys utxos) (block_txns b))) blocks).

(** ** The batches of a list of headers *)

(** [(start_block..end_block).step_by(FILTER_SIZE)], or the start alone. *)
Definition block_numbers (start_block end_block : Z) : list Z :=
  if start_block <? end_block
  then map (λ i, start_block + FILTER_SIZE * Z.of_nat i)
         (seq 0 (Z.to_nat ((end_block - start_block + FILTER_SIZE - 1) / FILTER_SIZE)))
  else [start_block].

(** [headers.get(counter - 1).map(hash).unwrap_or(last_block_hash)]. *)
Definition stop_hash (headers : list BlockHeader) (last : Hash256) (counter : nat) : Hash256 :=
  default last (BlockHeader_hash <$> headers !! (counter - 1)%nat).

(** The block numbers zipped with the counters 500, 1000, ...: where each batch
    starts and the hash of the block it ends with. *)
Definition batches (headers : list BlockHeader) (last : Hash256) (start_block end_block : Z)
    : list (Z * Hash256) :=
  imap (λ i n, (n, stop_hash headers last (Z.to_nat FILTER_SIZE * S i)%nat))
    (block_numbers start_block end_block).

End Scan.

(** ** The chain's operations *)

Section Chain.
  Context `{BO : ByteOrder} `{SHA : Sha256} `{SIP : SipHash} {W T : Type} `{IO : PeerIo W}
    `{WA : WalletApi T}.

Notation chain := (CompactChain W T).

(** A request to the peer, and a call of the wallet. *)
Definition on_peer {A} (k : P2P → net W A) : net chain A := λ fuel c,
  match k (cc_p2p c) fuel (cc_io c) with
  | Some (r, io) => Some (r, MkCompactChain (cc_p2p c) (cc_chain_state c) (cc_wallet c) io)
  | None => None
  end.

Definition wallet_error {A} (r : outcome GuestError A) : outcome Error A :=
  match r with Ok a => Ok a | Err _ => Err (WalletError 1) | Panic s => Panic s end.

Definition ask_wallet {A} (k : T → outcome GuestError A) : net chain A :=
  net_step (λ c, (wallet_error (k (cc_wallet c)), c)).

Definition tell_wallet {A} (k : T → outcome GuestError A * T) : net chain A :=
  net_step (λ c,
    let '(r, t) := k (cc_wallet c) in
    (wallet_error r, MkCompactChain (cc_p2p c) (cc_chain_state c) t (cc_io c))).

Definition lift_outcome {A} (m : outcome Error A) : net chain A := net_step (λ c, (m, c)).

Definition get_and_verify_compact_filters (start_height : Z) (last_block_hash : Hash256)
    : net chain (list CompactFilter) :=
  filter_header ← net_map_err (λ e, FetchCompactFilterHeader (to_error_code e))
    (on_peer (λ p, get_compact_filter_headers p start_height last_block_hash));
  filters ← net_map_err (λ e, FetchCompactFilter (to_error_code e))
    (on_peer (λ p, get_compact_filters p start_height last_block_hash));
  if filters_verified (cfh_filter_hashes filter_header) filters then mret filters
  else net_fail FilterMatchEror.

Definition fetch_and_save_utxos (filters : list CompactFilter) : net chain () :=
  pub_keys ← ask_wallet api_get_pubkeys;
  blockhash_present ← lift_outcome (matching_hashes pub_keys filters);
  if bool_decide (blockhash_present = []) then mret ()
  else
    blocks ← net_map_err (λ e, FetchBlock (to_error_code e))
      (on_peer (λ p, get_block p (MkInv (map (MkInvVect 2) blockhash_present))));
    utxos ← ask_wallet api_get_utxos;
    tell_wallet (api_insert_utxos (scan_blocks pub_keys utxos blocks)).

(** The [for] loop over the batches. *)
Fixpoint sync_batches (l : list (Z * Hash256)) : net chain () :=
  match l with
  | [] => mret ()
  | (current_block_num, last_known_block_hash) :: l =>
    block_filters ← get_and_verify_compact_filters (as_u32 current_block_num)
                      last_known_block_hash;
    (if bool_decide (block_filters = []) then mret () else fetch_and_save_utxos block_filters)
      ≫= λ _,
    sync_batches l
  end.

Definition get_state (c : chain) : ChainState := cc_chain_state c.

Definition set_state (s : ChainState) : net chain () :=
  net_step (λ c, (Ok (), MkCompactChain (cc_p2p c) s (cc_wallet c) (cc_io c))).

(** [while is_sync { .. }]; [n] bounds its turns. *)
Fixpoint sync_loop (n : nat) : net chain () := λ fuel c,
  match n with
  | O => None
  | S n =>
    (fetched_block_headers ← net_map_err (λ e, FetchHeader (to_error_code e))
       (on_peer (λ p, P2P_fetch_headers p (last_block_hash (get_state c))));
     match last fetched_block_headers with
     | None => mret ()
     | Some last_header =>
       let last_hash := BlockHeader_hash last_header in
       start_block ← lift_outcome (add_u64 (last_block_height (get_state c)) 1);
       end_block ← lift_outcome (add_u64 start_block (zlen fetched_block_headers - 1));
       sync_batches (batches fetched_block_headers last_hash start_block end_block) ≫= λ _,
       set_state (MkChainState last_hash end_block) ≫= λ _,
       if zlen fetched_block_headers <? MAX_HEADER_LEN then mret () else sync_loop n
     end) fuel c
  end.

Definition sync_state : net chain () :=
  net_map_err (λ _, NetworkError) (on_peer P2P_keep_alive) ≫= λ _,
  net_loop sync_loop.

Definition Chain_send_transaction (transaction : Tx) : net chain () :=
  net_map_err (λ _, NetworkError) (on_peer P2P_keep_alive) ≫= λ _,
  on_peer (λ p, P2P_send_transaction p transaction).

(** ** Starting *)

Definition connected (address : CustomIPV4SocketAddress) (network : Network) (wallet : T)
    (s : ChainState) (fuel : nat) (w : W) : option (outcome Error chain * W) :=
  match connect_peer address network fuel w with
  | Some (Ok p, w) => Some (Ok (MkCompactChain (Some p) s wallet w), w)
  | Some (Err _, w) => Some (Panic "Failed to connect to peer", w)
  | Some (Panic m, w) => Some (Panic m, w)
  | None => None
  end.

Definition CompactChain_new (address : CustomIPV4SocketAddress) (network : Network)
    (genesis_block : Hash256) (wallet : T) : nat → W → option (outcome Error chain * W) :=
  connected address network wallet (MkChainState genesis_block 0).

End Chain.

(** ** The batches *)

Lemma imap_lookup_inv {A B} (f : nat → A → B) l i y :
  imap f l !! i = Some y → ∃ x, l !! i = Some x ∧ y = f i x.
Proof. rewrite list_lookup_imap. destruct (l !! i); cbn; naive_solver. Qed.

Lemma elem_of_concat {A} (x : A) ll : x ∈ concat ll ↔ ∃ l, x ∈ l ∧ l ∈ ll.
Proof. induction ll as [|l ll IH]; cbn; set_solver. Qed.

(** How many batches there are, and where the [i]-th starts. *)
Definition batch_count (n : Z) : Z := if 1 <? n then (n - 2) / FILTER_SIZE + 1 else 1.

Lemma block_numbers_lookup start n i :
  1 ≤ n →
  block_numbers start (start + (n - 1)) !! i
  = if Z.of_nat i <? batch_count n then Some (start + FILTER_SIZE * Z.of_nat i) else None.
Proof.
  intros Hn. unfold block_numbers, batch_count.
  destruct (Z.ltb_spec start (start + (n - 1))).
  - rewrite (proj2 (Z.ltb_lt 1 n)) by lia. rewrite list_lookup_fmap.
    replace (start + (n - 1) - start + FILTER_SIZE - 1) with (n - 2 + 1 * FILTER_SIZE)
      by (unfold FILTER_SIZE; lia).
    rewrite Z.div_add by done.
    assert (0 ≤ (n - 2) / FILTER_SIZE) by (apply Z.div_pos; unfold FILTER_SIZE; lia).
    destruct (Z.ltb_spec (Z.of_nat i) ((n - 2) / FILTER_SIZE + 1)).
    + rewrite lookup_seq_lt by lia. done.
    + rewrite lookup_seq_ge by lia. done.
  - rewrite (proj2 (Z.ltb_ge 1 n)) by lia. destruct i as [|i]; cbn [lookup list_lookup].
    + rewrite (proj2 (Z.ltb_lt _ _)) by lia. f_equal. unfold FILTER_SIZE. lia.
    + rewrite (proj2 (Z.ltb_ge _ _)) by lia. done.
Qed.

Section ChainLaws.
  Context `{BO : ByteOrder} `{SHA : Sha256}.

Lemma batches_lookup headers lh start i :
  headers ≠ [] →
  batches headers lh start (start + (zlen headers - 1)) !! i
  = if Z.of_nat i <? batch_count (zlen headers)
    then Some (start + FILTER_SIZE * Z.of_nat i,
               stop_hash headers lh (Z.to_nat FILTER_SIZE * S i))
    else None.
Proof.
  intros Hne. unfold batches. rewrite list_lookup_imap, block_numbers_lookup.
  - by destruct (_ <? _).
  - unfold zlen. destruct headers; [done|]. cbn. lia.
Qed.

(** A batch ends at the header its counter points to, or at the last. *)
Lemma stop_hash_at headers lasth counter :
  last headers = Some lasth → (0 < counter)%nat →
  ∃ hd, headers !! (Nat.min counter (length headers) - 1)%nat = Some hd
    ∧ stop_hash headers (BlockHeader_hash lasth) counter = BlockHeader_hash hd.
Proof.
  intros Hl Hc. unfold stop_hash. destruct (headers !! (counter - 1)%nat) as [hd|] eqn:E.
  - exists hd. split; [|done]. apply lookup_lt_Some in E as Hlt.
    by replace (Nat.min counter (length headers) - 1)%nat with (counter - 1)%nat by lia.
  - apply lookup_ge_None in E. exists lasth. split; [|done]. rewrite last_lookup in Hl.
    by replace (Nat.min counter (length headers) - 1)%nat with (pred (length headers)) by lia.
Qed.

Lemma batch_found headers lasth start (j : nat) :
  last headers = Some lasth → (j < length headers)%nat →
  zlen headers = 1 ∨ (zlen headers - 1) mod FILTER_SIZE ≠ 0 →
  ∃ i h k hd, batches headers (BlockHeader_hash lasth) start (start + (zlen headers - 1)) !! i
      = Some (h, BlockHeader_hash hd)
    ∧ headers !! k = Some hd ∧ h ≤ start + Z.of_nat j ∧ (j ≤ k)%nat.
Proof.
  intros Hl Hj Hn. assert (headers ≠ []) as Hne by (by intros ->).
  set (i := (j / 500)%nat).
  pose proof (Nat.div_mod_eq j 500) as Hdm. pose proof (Nat.mod_upper_bound j 500).
  destruct (stop_hash_at headers lasth (Z.to_nat FILTER_SIZE * S i) Hl) as (hd & Hk & Hs).
  { unfold FILTER_SIZE. lia. }
  exists i, (start + FILTER_SIZE * Z.of_nat i),
    (Nat.min (Z.to_nat FILTER_SIZE * S i) (length headers) - 1)%nat, hd.
  rewrite batches_lookup by done. rewrite Hs. split_and!; [|done| |].
  - rewrite (proj2 (Z.ltb_lt _ _)); [done|]. unfold batch_count, FILTER_SIZE, zlen in *.
    destruct (Z.ltb_spec 1 (Z.of_nat (length headers))); [|lia].
    fold i in Hdm. 
    pose proof (Z.div_mod (Z.of_nat (length headers) - 2) 500 ltac:(done)).
    pose proof (Z.mod_pos_bound (Z.of_nat (length headers) - 2) 500 ltac:(lia)).
    destruct Hn as [Hn|Hn]; [lia|].
    pose proof (Z.div_mod (Z.of_nat (length headers) - 1) 500 ltac:(done)).
    pose proof (Z.mod_pos_bound (Z.of_nat (length headers) - 1) 500 ltac:(lia)). lia.
  - fold i in Hdm. unfold FILTER_SIZE. lia.
  - fold i in Hdm. unfold FILTER_SIZE. lia.
Qed.

Lemma batch_before_last headers lasth start q h s :
  last headers = Some lasth → (0 < q)%nat → length headers = (500 * q + 1)%nat →
  (h, s) ∈ batches headers (BlockHeader_hash lasth) start (start + (zlen headers - 1)) →
  ∃ k hd, headers !! k = Some hd ∧ s = BlockHeader_hash hd ∧ (S k < length headers)%nat.
Proof.
  intros Hl Hq Hlen [i Hi]%list_elem_of_lookup.
  assert (headers ≠ []) as Hne by (by intros ->).
  rewrite batches_lookup in Hi by done.
  destruct (Z.ltb_spec (Z.of_nat i) (batch_count (zlen headers))) as [Hlt|]; [|done].
  injection Hi as _ <-.
  destruct (stop_hash_at headers lasth (Z.to_nat FILTER_SIZE * S i) Hl) as (hd & Hk & Hs).
  { unfold FILTER_SIZE. lia. }
  exists (Nat.min (Z.to_nat FILTER_SIZE * S i) (length headers) - 1)%nat, hd.
  split_and!; [done|done|].
  unfold batch_count, FILTER_SIZE, zlen in *. rewrite Hlen in *.
  destruct (Z.ltb_spec 1 (Z.of_nat (500 * q + 1))); [|lia].
  assert ((Z.of_nat (500 * q + 1) - 2) / 500 = Z.of_nat q - 1) as Hdiv.
  { replace (Z.of_nat (500 * q + 1) - 2) with (499 + (Z.of_nat q - 1) * 500) by lia.
    rewrite Z.div_add by done. change (499 / 500) with 0. lia. }
  rewrite Hdiv in Hlt. lia.
Qed.

(** ** The scan *)

Lemma elem_of_new_outputs pub_keys txn p :
  p ∈ new_outputs pub_keys txn ↔
  ∃ i o, tx_outputs txn !! i = Some o ∧ txout_lock_script o ∈ pub_keys
    ∧ p = MkGuestPartialUtxo (hash_bytes (Tx_hash txn)) (as_u32 (Z.of_nat i))
            (as_u64 (txout_satoshis o)) (txout_lock_script o) false.
Proof.
  unfold new_outputs. rewrite list_elem_of_omap. split.
  - intros ([z o] & Hin & H). cbn in H. case_bool_decide as Hk; [|done]. injection H as <-.
    apply list_elem_of_lookup in Hin as [i Hi].
    apply imap_lookup_inv in Hi as (o' & Ho & [= -> ->]). eauto.
  - intros (i & o & Ho & Hk & ->). exists (Z.of_nat i, o). cbn.
    rewrite bool_decide_eq_true_2 by done. split; [|done].
    apply list_elem_of_lookup. exists i. by rewrite list_lookup_imap, Ho.
Qed.

Lemma elem_of_spent_by utxos input p :
  p ∈ spent_by utxos input ↔
  op_hash (txin_prev_output input) ≠ NO_HASH_STOP
  ∧ ∃ u, u ∈ utxos ∧ gpu_txid u = hash_bytes (op_hash (txin_prev_output input))
      ∧ gpu_vout u = op_index (txin_prev_output input)
      ∧ p = MkGuestPartialUtxo (gpu_txid u) (gpu_vout u) (gpu_amount u) (gpu_script u) true.
Proof.
  unfold spent_by. case_bool_decide as Hz; [set_solver|]. rewrite list_elem_of_omap. split.
  - intros (u & Hu & H). split; [done|]. exists u.
    do 2 (case_bool_decide; cbn [andb] in H; [|done]). injection H as <-. done.
  - intros (_ & u & Hu & H1 & H2 & ->). exists u. split; [done|].
    by rewrite !bool_decide_eq_true_2.
Qed.

Lemma elem_of_scan pub_keys utxos blocks p :
  p ∈ scan_blocks pub_keys utxos blocks ↔
  ∃ b txn, b ∈ blocks ∧ txn ∈ block_txns b
    ∧ (p ∈ new_outputs pub_keys txn ∨ ∃ input, input ∈ tx_inputs txn ∧ p ∈ spent_by utxos input).
Proof.
  unfold scan_blocks, scan_txn. rewrite elem_of_concat. split.
  - intros (l & Hp & (b & -> & Hb)%list_elem_of_fmap).
    apply elem_of_concat in Hp as (l & Hp & (txn & -> & Ht)%list_elem_of_fmap).
    exists b, txn. split_and!; try done. apply elem_of_app in Hp as [Hp|Hp]; [by left|right].
    apply elem_of_concat in Hp as (l & Hp & (i & -> & Hi)%list_elem_of_fmap). eauto.
  - intros (b & txn & Hb & Ht & Hp).
    exists (concat (map (λ txn, new_outputs pub_keys txn
      ++ concat (map (spent_by utxos) (tx_inputs txn))) (block_txns b))).
    split; [|apply list_elem_of_fmap; eauto].
    apply elem_of_concat. eexists. split; [|apply list_elem_of_fmap; eauto].
    apply elem_of_app. destruct Hp as [Hp|(i & Hi & Hp)]; [by left|right].
    apply elem_of_concat. eexists. split; [exact Hp|apply list_elem_of_fmap; eauto].
Qed.

Lemma filters_verified_spec hashes filters :
  filters_verified hashes filters = true ↔
  ∀ i h f, hashes !! i = Some h → filters !! i = Some f → sha256d (cf_filter_bytes f) = h.
Proof.
  revert filters. induction hashes as [|h hashes IH]; intros [|f filters]; cbn [filters_verified].
  - split; [|done]. intros _ i h f H. by rewrite lookup_nil in H.
  - split; [|done]. intros _ i h f' H. by rewrite lookup_nil in H.
  - split; [|done]. intros _ i h' f _ H. by rewrite lookup_nil in H.
  - rewrite andb_true_iff, bool_decide_eq_true, IH. split.
    + intros [H1 H2] [|i] h' f' Hh Hf; cbn in *; [by simplify_eq|by eapply H2].
    + intros H. split; [by apply (H 0%nat)|]. intros i h' f' Hh Hf. by apply (H (S i)).
Qed.

End ChainLaws.

(** ** Filters of the wallet's blocks *)

(** The filter of a block as BIP 158 builds it for the scripts [items]. *)
Definition honest_filter `{ByteOrder} `{SipHash} (f : CompactFilter) (items : list bytes) : Prop :=
  is_u64 (zlen items * M)
  ∧ encodes P (cf_filter_bytes f)
      (merge_sort Z.le (map (query_value (BlockFilterReader_new (cf_block_hash f)) (zlen items))
                          items)).

Lemma matching_hashes_ok `{BO : ByteOrder} `{SIP : SipHash} {E} pub_keys filters itemss :
  Forall2 honest_filter filters itemss →
  ∃ hashes, @matching_hashes _ _ E pub_keys filters = Ok hashes
    ∧ hashes `sublist_of` map cf_block_hash filters
    ∧ ∀ i f items k, filters !! i = Some f → itemss !! i = Some items →
        k ∈ pub_keys → k ∈ items → cf_block_hash f ∈ hashes.
Proof.
  induction 1 as [|f items filters itemss [Hnm He] _ (hashes & IH1 & IH2 & IH3)].
  { exists []. by split_and!. }
  cbn [matching_hashes].
  destruct (match_any_built _ items (cf_block_hash f) pub_keys Hnm He) as (b & -> & Hb).
  rewrite IH1. cbn [mbind outcome_bind]. eexists. split; [done|]. split.
  - destruct b; cbn; [by apply sublist_skip|by apply sublist_cons].
  - intros [|i] g its k Hg Hits Hk Hin; cbn in Hg, Hits.
    + simplify_eq. rewrite Hb by eauto. left.
    + destruct b; [right|]; by eapply IH3.
Qed.

(** ** The state of the chain *)

(** A computation that leaves the chain state alone. *)
Class KeepsState {W T A} (m : net (CompactChain W T) A) : Prop :=
  keeps_state fuel c r c' :
    m fuel c = Some (r, c') → cc_chain_state c' = cc_chain_state c.

#[export] Instance keeps_ret W T A (a : A) : KeepsState (mret a : net (CompactChain W T) A).
Proof. intros f c r c' H. by injection H as _ <-. Qed.

#[export] Instance keeps_fail W T A e : KeepsState (net_fail e : net (CompactChain W T) A).
Proof. intros f c r c' H. by injection H as _ <-. Qed.

#[export] Instance keeps_bind W T A B (m : net (CompactChain W T) A)
    (k : A → net (CompactChain W T) B) :
  KeepsState m → (∀ a, KeepsState (k a)) → KeepsState (m ≫= k).
Proof.
  intros Hm Hk f c r c' H. unfold mbind, net_bind in H.
  destruct (m f c) as [[o c1]|] eqn:E; [|done]. apply Hm in E.
  destruct o; [apply Hk in H|by simplify_eq..]. congruence.
Qed.

#[export] Instance keeps_map_err W T A g (m : net (CompactChain W T) A) :
  KeepsState m → KeepsState (net_map_err g m).
Proof.
  intros Hm f c r c' H. unfold net_map_err in H.
  destruct (m f c) as [[o c1]|] eqn:E; [|done]. apply Hm in E. destruct o; by simplify_eq.
Qed.

#[export] Instance keeps_on_peer W T A (k : P2P → net W A) :
  KeepsState (on_peer k : net (CompactChain W T) A).
Proof.
  intros f c r c' H. unfold on_peer in H. destruct (k _ _ _) as [[o io]|]; [|done].
  by injection H as _ <-.
Qed.

#[export] Instance keeps_ask W T A (k : T → outcome GuestError A) :
  KeepsState (ask_wallet k : net (CompactChain W T) A).
Proof. intros f c r c' H. by injection H as _ <-. Qed.

#[export] Instance keeps_tell W T A (k : T → outcome GuestError A * T) :
  KeepsState (tell_wallet k : net (CompactChain W T) A).
Proof.
  intros f c r c' H. unfold tell_wallet, net_step in H. destruct (k (cc_wallet c)).
  by injection H as _ <-.
Qed.

#[export] Instance keeps_lift W T A (m : outcome Error A) :
  KeepsState (lift_outcome m : net (CompactChain W T) A).
Proof. intros f c r c' H. by injection H as _ <-. Qed.

(** What a computation that returns a value consists of. *)
Lemma net_bind_ok {W A B} (m : net W A) (k : A → net W B) fuel w b w' :
  (m ≫= k) fuel w = Some (Ok b, w') →
  ∃ a w1, m fuel w = Some (Ok a, w1) ∧ k a fuel w1 = Some (Ok b, w').
Proof. unfold mbind, net_bind. destruct (m fuel w) as [[[]]|]; naive_solver. Qed.

Lemma map_err_ok {W A} f (m : net W A) fuel w a w' :
  net_map_err f m fuel w = Some (Ok a, w') → m fuel w = Some (Ok a, w').
Proof. unfold net_map_err. destruct (m fuel w) as [[[]]|]; naive_solver. Qed.

Lemma ask_wallet_ok {W T A} (k : T → outcome GuestError A) fuel (c : CompactChain W T) a c' :
  ask_wallet k fuel c = Some (Ok a, c') → c' = c ∧ k (cc_wallet c) = Ok a.
Proof. unfold ask_wallet, net_step. destruct (k _); naive_solver. Qed.

Section SyncLaws.
  Context `{BO : ByteOrder} `{SHA : Sha256} `{SIP : SipHash} {W T : Type} `{IO : PeerIo W}
    `{WA : WalletApi T}.

#[export] Instance keeps_verify n h :
  KeepsState (get_and_verify_compact_filters n h : net (CompactChain W T) _).
Proof.
  unfold get_and_verify_compact_filters. apply keeps_bind; [apply _|intros fh].
  apply keeps_bind; [apply _|intros fs]. destruct (filters_verified _ _); apply _.
Qed.

#[export] Instance keeps_save filters :
  KeepsState (fetch_and_save_utxos filters : net (CompactChain W T) _).
Proof.
  unfold fetch_and_save_utxos. apply keeps_bind; [apply _|intros ks].
  apply keeps_bind; [apply _|intros hs]. case_bool_decide; [apply _|].
  apply keeps_bind; [apply _|intros bs]. apply keeps_bind; apply _.
Qed.

#[export] Instance keeps_sync_batches l :
  KeepsState (sync_batches l : net (CompactChain W T) ()).
Proof.
  induction l as [|[n h] l IH]; cbn [sync_batches]; [apply _|].
  apply keeps_bind; [apply _|intros fs]. apply keeps_bind; [case_bool_decide; apply _|done].
Qed.

(** What a batch of headers that was processed completely makes of the state. *)
Definition advance (s : ChainState) (headers : list BlockHeader) : ChainState :=
  match last headers with
  | None => s
  | Some h => MkChainState (BlockHeader_hash h) (last_block_height s + zlen headers)
  end.

(** The blocks of the filters were scanned: no filter matches a script of the wallet, or
    the matching blocks were fetched and what they pay and spend went to the wallet. *)
Inductive scanned (fuel : nat) (fs : list CompactFilter)
    : CompactChain W T → CompactChain W T → Prop :=
| scanned_empty c : fs = [] → scanned fuel fs c c
| scanned_none c keys :
  api_get_pubkeys (cc_wallet c) = Ok keys → matching_hashes (E := Error) keys fs = Ok [] →
  scanned fuel fs c c
| scanned_some c c1 keys hashes blocks utxos t :
  api_get_pubkeys (cc_wallet c) = Ok keys → matching_hashes (E := Error) keys fs = Ok hashes →
  on_peer (λ p, get_block p (MkInv (map (MkInvVect 2) hashes))) fuel c = Some (Ok blocks, c1) →
  api_get_utxos (cc_wallet c1) = Ok utxos →
  api_insert_utxos (scan_blocks keys utxos blocks) (cc_wallet c1) = (Ok (), t) →
  scanned fuel fs c (MkCompactChain (cc_p2p c1) (cc_chain_state c1) t (cc_io c1)).

(** Batches processed completely: the filters of each came with headers that do not
    contradict them, and their blocks were scanned. *)
Inductive batches_done (fuel : nat)
    : list (Z * Hash256) → CompactChain W T → CompactChain W T → Prop :=
| batches_none c : batches_done fuel [] c c
| batches_next n h l c c1 c2 c3 c4 fh fs :
  on_peer (λ p, get_compact_filter_headers p (as_u32 n) h) fuel c = Some (Ok fh, c1) →
  on_peer (λ p, get_compact_filters p (as_u32 n) h) fuel c1 = Some (Ok fs, c2) →
  (∀ i hash f, cfh_filter_hashes fh !! i = Some hash → fs !! i = Some f →
     sha256d (cf_filter_bytes f) = hash) →
  scanned fuel fs c2 c3 → batches_done fuel l c3 c4 → batches_done fuel ((n, h) :: l) c c4.

(** Rounds of headers: each list is what the peer sent from the position before it, all
    its batches are done, and then the position is that of its last header. *)
Inductive rounds (fuel : nat) : CompactChain W T → list (list BlockHeader) → CompactChain W T → Prop :=
| rounds_none c : rounds fuel c [] c
| rounds_next c c1 c2 c3 hs lasth hss :
  on_peer (λ p, P2P_fetch_headers p (last_block_hash (get_state c))) fuel c = Some (Ok hs, c1) →
  last hs = Some lasth →
  batches_done fuel (batches hs (BlockHeader_hash lasth) (last_block_height (get_state c) + 1)
    (last_block_height (get_state c) + zlen hs)) c1 c2 →
  rounds fuel (MkCompactChain (cc_p2p c2) (advance (get_state c) hs) (cc_wallet c2) (cc_io c2)) hss c3 →
  rounds fuel c (hs :: hss) c3.

Lemma rounds_state fuel c hss c' :
  rounds fuel c hss c' → get_state c' = foldl advance (get_state c) hss.
Proof. induction 1 as [|c c1 c2 c3 hs lasth hss _ _ _ _ IH]; [done|]. by rewrite IH. Qed.

Lemma save_scanned fuel fs (c : CompactChain W T) u c' :
  fetch_and_save_utxos fs fuel c = Some (Ok u, c') → scanned fuel fs c c'.
Proof.
  unfold fetch_and_save_utxos. intros (keys & c1 & H1 & H)%net_bind_ok.
  apply ask_wallet_ok in H1 as [-> Hk]. apply net_bind_ok in H as (hashes & c2 & H2 & H).
  unfold lift_outcome, net_step in H2. injection H2 as Hh ->.
  case_bool_decide as Hne; [subst hashes; unfold mret, net_ret in H; simplify_eq; by eapply scanned_none|].
  apply net_bind_ok in H as (blocks & c3 & H3%map_err_ok & H).
  apply net_bind_ok in H as (utxos & c4 & H4 & H). apply ask_wallet_ok in H4 as [-> Hu].
  unfold tell_wallet, net_step in H. destruct (api_insert_utxos _ _) as [[[]|e|m] t] eqn:Hi; [|done..].
  cbn in H. injection H as _ <-. by eapply scanned_some.
Qed.

Lemma sync_batches_done fuel l (c : CompactChain W T) u c' :
  sync_batches l fuel c = Some (Ok u, c') → batches_done fuel l c c'.
Proof.
  revert c. induction l as [|[n h] l IH]; intros c H; cbn [sync_batches] in H.
  { unfold mret, net_ret in H. simplify_eq. constructor. }
  apply net_bind_ok in H as (fs & c1 & H1 & H). apply net_bind_ok in H as (u1 & c2 & H2 & H).
  unfold get_and_verify_compact_filters in H1.
  apply net_bind_ok in H1 as (fh & c3 & H3%map_err_ok & H1).
  apply net_bind_ok in H1 as (fs' & c4 & H4%map_err_ok & H1).
  destruct (filters_verified _ _) eqn:Hv; [|done]. unfold mret, net_ret in H1. simplify_eq.
  eapply batches_next; [done|done|by apply filters_verified_spec| |by apply IH].
  case_bool_decide as Hfs; [|by eapply save_scanned].
  unfold mret, net_ret in H2. simplify_eq. by apply scanned_empty.
Qed.

(** A synchronisation is a sequence of rounds, and stops in a later one without a trace
    in the state; when it succeeds nothing is left. *)
Lemma sync_loop_rounds n fuel (c : CompactChain W T) r c' :
  sync_loop n fuel c = Some (r, c') →
  ∃ hss c1, rounds fuel c hss c1 ∧ get_state c' = get_state c1
    ∧ (r = Ok () → (∃ hs, last hss = Some hs ∧ zlen hs < MAX_HEADER_LEN ∧ c' = c1)
         ∨ on_peer (λ p, P2P_fetch_headers p (last_block_hash (get_state c1))) fuel c1
           = Some (Ok [], c')).
Proof.
  revert c. induction n as [|n IH]; intros c H; [done|]. cbn [sync_loop] in H.
  unfold mbind at 1, net_bind at 1 in H.
  destruct (net_map_err _ _ fuel c) as [[o c1]|] eqn:E1; [|done].
  pose proof (keeps_state _ _ _ _ E1) as Hs1.
  destruct o as [hs|e|s];
    [apply map_err_ok in E1|by simplify_eq; exists [], c; split_and!; [constructor|..]..].
  destruct (last hs) as [lh|] eqn:Hl.
  2:{ apply last_None in Hl as ->. unfold mret, net_ret in H. simplify_eq. exists [], c.
      split_and!; [constructor|done|by right]. }
  unfold mbind at 1, net_bind at 1, lift_outcome at 1, net_step at 1 in H.
  destruct (add_u64 _ 1) as [start|e|s] eqn:Es;
    [|by simplify_eq; exists [], c; split_and!; [constructor|..]..].
  apply checked_inv in Es as [-> _].
  unfold mbind at 1, net_bind at 1, lift_outcome at 1, net_step at 1 in H.
  destruct (add_u64 _ _) as [stop|e|s] eqn:Ee;
    [|by simplify_eq; exists [], c; split_and!; [constructor|..]..].
  apply checked_inv in Ee as [-> _].
  replace (last_block_height (get_state c) + 1 + (zlen hs - 1))
    with (last_block_height (get_state c) + zlen hs) in H by lia.
  unfold mbind at 1, net_bind at 1 in H.
  destruct (sync_batches _ fuel c1) as [[o c2]|] eqn:E2; [|done].
  pose proof (keeps_state _ _ _ _ E2) as Hs2. destruct o as [u|e|s];
    [|simplify_eq; exists [], c; split_and!; [constructor|unfold get_state; congruence|done]..].
  apply sync_batches_done in E2. unfold mbind, net_bind, set_state, net_step in H.
  assert (MkChainState (BlockHeader_hash lh) (last_block_height (get_state c) + zlen hs)
    = advance (get_state c) hs) as Hadv by (unfold advance; by rewrite Hl).
  rewrite Hadv in H. destruct (Z.ltb_spec (zlen hs) MAX_HEADER_LEN) as [Hlt|Hge].
  - unfold mret, net_ret in H. simplify_eq. eexists [hs], _.
    split_and!; [eapply rounds_next; [done..|constructor]|done|]. intros _. left. by exists hs.
  - destruct (IH _ H) as (hss & c3 & Hr & Hst & Hend). exists (hs :: hss), c3.
    split_and!; [by eapply rounds_next|done|]. intros Hok. destruct (Hend Hok) as [(k & Hk & ?)|?]; [left|by right].
    exists k. split; [|done]. by destruct hss.
Qed.

End SyncLaws.

(** ** Properties *)

(** C18: unless the number of headers is one more than a multiple of 500 (and not one),
    the batches of a synchronisation cover every block: each header lies between
    the height some batch starts at and the block it ends with. *)
Theorem sync_requests_every_block `{BO : ByteOrder} `{SHA : Sha256} headers lasth start j :
  last headers = Some lasth → (j < length headers)%nat →
  zlen headers = 1 ∨ (zlen headers - 1) mod FILTER_SIZE ≠ 0 →
  ∃ i h k hd, batches headers (BlockHeader_hash lasth) start (start + (zlen headers - 1)) !! i
      = Some (h, BlockHeader_hash hd)
    ∧ headers !! k = Some hd ∧ h ≤ start + Z.of_nat j ∧ (j ≤ k)%nat.
Proof. apply batch_found. Qed.

(** C33: with 501, 1001 or 1501 headers the last block is skipped: every batch ends with
    a block before it, so its filter is never requested, although the chain state
    then moves past it. *)
Theorem sync_skips_last_block `{BO : ByteOrder} `{SHA : Sha256} headers lasth start q :
  last headers = Some lasth → (0 < q)%nat → length headers = (500 * q + 1)%nat →
  ∀ h s, (h, s) ∈ batches headers (BlockHeader_hash lasth) start (start + (zlen headers - 1)) →
  ∃ k hd, headers !! k = Some hd ∧ s = BlockHeader_hash hd ∧ (S k < length headers)%nat.
Proof. intros Hl Hq Hlen h s. by apply (batch_before_last _ _ _ q). Qed.

(** C25: the position in the chain moves only over rounds that were processed completely,
    whatever the synchronisation returns.  Each round is a non-empty list of headers that
    the peer sent from the position before it; for each of its batches the filters were
    fetched and did not contradict the filter headers, and the blocks they match were
    fetched, scanned, and the report accepted by the wallet; only then the position is
    that of the last header.  A failure inside a round leaves the position before that
    round; when the synchronisation succeeds, the last list has fewer than 2000 headers
    or the peer has none left. *)
Theorem sync_state_advances `{BO : ByteOrder} `{SHA : Sha256} `{SIP : SipHash} {W T}
    `{IO : PeerIo W} `{WA : WalletApi T} fuel (c : CompactChain W T) r c' :
  sync_state fuel c = Some (r, c') →
  get_state c' = get_state c ∧ r ≠ Ok ()
  ∨ ∃ c0 hss c1, on_peer P2P_keep_alive fuel c = Some (Ok (), c0)
    ∧ rounds fuel c0 hss c1 ∧ get_state c' = get_state c1
    ∧ get_state c' = foldl advance (get_state c) hss
    ∧ (r = Ok () → (∃ hs, last hss = Some hs ∧ zlen hs < MAX_HEADER_LEN ∧ c' = c1)
         ∨ on_peer (λ p, P2P_fetch_headers p (last_block_hash (get_state c1))) fuel c1
           = Some (Ok [], c')).
Proof.
  unfold sync_state, mbind, net_bind. intros H.
  destruct (net_map_err _ _ fuel c) as [[o c0]|] eqn:E; [|done].
  pose proof (keeps_state _ _ _ _ E) as Hs.
  destruct o as [[]|e|s]; [|left; by simplify_eq..]. right. apply map_err_ok in E.
  unfold net_loop in H. apply sync_loop_rounds in H as (hss & c1 & Hr & Hst & Hend).
  exists c0, hss, c1. split_and!; try done. rewrite Hst, (rounds_state _ _ _ _ Hr).
  unfold get_state. by rewrite Hs.
Qed.

(** No block of the wallet is missed among honest filters: matching never panics on
    filters built as BIP 158 prescribes, and the hash of every block with a script
    of the wallet is among the blocks requested. *)
Theorem wallet_blocks_requested `{BO : ByteOrder} `{SIP : SipHash} {E} pub_keys filters itemss :
  Forall2 honest_filter filters itemss →
  ∃ hashes, @matching_hashes _ _ E pub_keys filters = Ok hashes
    ∧ hashes `sublist_of` map cf_block_hash filters
    ∧ ∀ i f items k, filters !! i = Some f → itemss !! i = Some items →
        k ∈ pub_keys → k ∈ items → cf_block_hash f ∈ hashes.
Proof. apply matching_hashes_ok. Qed.

(** C26: what is reported to the wallet: exactly every output of the blocks that pays to
    one of its scripts, as unspent, and every output it knew that an input of the
    blocks spends, as spent. *)
Theorem scan_reports `{BO : ByteOrder} `{SHA : Sha256} pub_keys utxos blocks p :
  p ∈ scan_blocks pub_keys utxos blocks ↔
  ∃ b txn, b ∈ blocks ∧ txn ∈ block_txns b
    ∧ ((∃ i o, tx_outputs txn !! i = Some o ∧ txout_lock_script o ∈ pub_keys
          ∧ p = MkGuestPartialUtxo (hash_bytes (Tx_hash txn)) (as_u32 (Z.of_nat i))
                  (as_u64 (txout_satoshis o)) (txout_lock_script o) false)
       ∨ ∃ input u, input ∈ tx_inputs txn ∧ op_hash (txin_prev_output input) ≠ NO_HASH_STOP
           ∧ u ∈ utxos ∧ gpu_txid u = hash_bytes (op_hash (txin_prev_output input))
           ∧ gpu_vout u = op_index (txin_prev_output input)
           ∧ p = MkGuestPartialUtxo (gpu_txid u) (gpu_vout u) (gpu_amount u) (gpu_script u) true).
Proof.
  rewrite elem_of_scan. split; intros (b & txn & Hb & Ht & H); exists b, txn; split_and!; try done.
  - destruct H as [H|(i & Hi & H)]; [left; by apply elem_of_new_outputs|right].
    apply elem_of_spent_by in H as (Hz & u & Hu & H1 & H2 & ->). by exists i, u.
  - destruct H as [H|(i & u & Hi & Hz & Hu & H1 & H2 & ->)];
      [left; by apply elem_of_new_outputs|right].
    exists i. split; [done|]. apply elem_of_spent_by. split; [done|]. by exists u.
Qed.

(** C40: a spend in the batch that creates the output is missed: an output the wallet did
    not know before the batch is never reported spent, even when another
    transaction of the same batch spends it, so it stays in the balance. *)
Theorem same_batch_spend_missed `{BO : ByteOrder} `{SHA : Sha256}
    pub_keys utxos blocks b txn i o :
  b ∈ blocks → txn ∈ block_txns b → tx_outputs txn !! i = Some o →
  txout_lock_script o ∈ pub_keys →
  (hash_bytes (Tx_hash txn), as_u32 (Z.of_nat i)) ∉ map gpu_outpoint utxos →
  (∃ p, p ∈ scan_blocks pub_keys utxos blocks ∧ gpu_is_spent p = false
     ∧ gpu_outpoint p = (hash_bytes (Tx_hash txn), as_u32 (Z.of_nat i)))
  ∧ ∀ p, p ∈ scan_blocks pub_keys utxos blocks →
      gpu_outpoint p = (hash_bytes (Tx_hash txn), as_u32 (Z.of_nat i)) →
      gpu_is_spent p = false.
Proof.
  intros Hb Ht Ho Hk Hn. split.
  - eexists. split_and!; [apply elem_of_scan; exists b, txn; split_and!; try done;
      left; apply elem_of_new_outputs; eauto|done..].
  - intros p (b' & txn' & _ & _ & [Hp|(input & _ & Hp)])%elem_of_scan Hout.
    + by apply elem_of_new_outputs in Hp as (j & o' & _ & _ & ->).
    + apply elem_of_spent_by in Hp as (_ & u & Hu & _ & _ & ->).
      destruct Hn. rewrite <- Hout. apply list_elem_of_fmap. by exists u.
Qed.

(** A filter is accepted exactly when no announced filter hash contradicts it. Only
    as many filters are checked as hashes were announced, so filter headers without
    hashes make every list of filters pass. *)
Theorem filters_verified_gap `{SHA : Sha256} hashes filters :
  (filters_verified hashes filters = true ↔
     ∀ i h f, hashes !! i = Some h → filters !! i = Some f → sha256d (cf_filter_bytes f) = h)
  ∧ filters_verified [] filters = true.
Proof. split; [apply filters_verified_spec|done]. Qed.

(** ** Witnesses *)

Lemma sync_requests_every_block_witness :
  ∃ i h k hd, @batches std_byteorder padded_sha256 (replicate 700 example_header)
      (@BlockHeader_hash std_byteorder padded_sha256 example_header) 1 700 !! i
      = Some (h, @BlockHeader_hash std_byteorder padded_sha256 hd)
    ∧ replicate 700 example_header !! k = Some hd ∧ h ≤ 1 + 699 ∧ (699 ≤ k)%nat.
Proof.
  apply (@sync_requests_every_block std_byteorder padded_sha256 (replicate 700 example_header)
    example_header 1 699).
  - reflexivity.
  - by vm_compute.
  - right. by vm_compute.
Defined.

Lemma sync_skips_last_block_witness :
  @batches std_byteorder padded_sha256 (replicate 501 example_header)
    (@BlockHeader_hash std_byteorder padded_sha256 example_header) 1 501
  = [(1, @BlockHeader_hash std_byteorder padded_sha256 example_header)]
  ∧ ∃ k hd, replicate 501 example_header !! k = Some hd
      ∧ @BlockHeader_hash std_byteorder padded_sha256 example_header
        = @BlockHeader_hash std_byteorder padded_sha256 hd ∧ (S k < 501)%nat.
Proof.
  split; [vm_compute; reflexivity|].
  apply (@sync_skips_last_block std_byteorder padded_sha256 (replicate 501 example_header)
    example_header 1 1 eq_refl ltac:(lia) eq_refl 1).
  change (zlen (replicate 501 example_header)) with 501. vm_compute. left.
Defined.

(** A wallet that is its scripts and its outputs. *)
#[export] Instance list_wallet : WalletApi (list bytes * list GuestPartialUtxo) := {
  api_get_pubkeys w := Ok w.1;
  api_get_utxos w := Ok w.2;
  api_insert_utxos ps w := (Ok (), (w.1, w.2 ++ ps));
}.

(** A peer that answers the ping, gives one header, its filter header and its filter. *)
Definition example_session : script :=
  let h := @BlockHeader_hash std_byteorder padded_sha256 example_header in
  saying [MPong (MkPing 1); MHeaders (MkHeaders [example_header]);
          MCFHeaders (MkCompactFilterHeader 0 h NO_HASH_STOP
            [@sha256d padded_sha256 example_filter]);
          MCFilters (MkCompactFilter 0 h example_filter)].

Definition example_chain : CompactChain script (list bytes * list GuestPartialUtxo) :=
  MkCompactChain (Some example_peer) (MkChainState (MkHash256 (replicate 32 0)) 0)
    ([[3]], []) example_session.

Lemma sync_state_advances_witness :
  ∃ c' c0 hss c1, @sync_state std_byteorder padded_sha256 example_siphash _ _ _ _ 9%nat example_chain
        = Some (Ok (), c')
    ∧ last_block_height (get_state c') = 1
    ∧ hss ≠ [] ∧ @rounds std_byteorder padded_sha256 example_siphash _ _ _ _ 9%nat c0 hss c1
    ∧ get_state c' = foldl (@advance std_byteorder padded_sha256) (get_state example_chain) hss.
Proof.
  destruct (@sync_state std_byteorder padded_sha256 example_siphash _ _ _ _ 9%nat example_chain)
    as [[r c']|] eqn:E; [|exfalso; vm_compute in E; discriminate E].
  pose proof (sync_state_advances _ _ _ _ E) as H.
  destruct r as [[]|e|s]; [|exfalso; vm_compute in E; discriminate E..].
  assert (last_block_height (get_state c') = 1) as Hone
    by (vm_compute in E; injection E as <-; reflexivity).
  destruct H as [[_ H]|(c0 & hss & c1 & Ha & Hr & _ & Hst & _)]; [by destruct H|].
  exists c', c0, hss, c1. split; [exact eq_refl|]. split; [exact Hone|].
  split; [intros ->; rewrite Hst in Hone; discriminate Hone|]. split; [exact Hr|exact Hst].
Defined.

Lemma wallet_blocks_requested_witness :
  ∃ hashes, @matching_hashes std_byteorder example_siphash Error [[7]; [1]]
      [MkCompactFilter 0 example_block_hash example_filter] = Ok hashes
    ∧ example_block_hash ∈ hashes.
Proof.
  destruct (@wallet_blocks_requested std_byteorder example_siphash Error [[7]; [1]]
    [MkCompactFilter 0 example_block_hash example_filter] [[[1]; [2]]]) as (hashes & H1 & _ & H2).
  - constructor; [|constructor]. split; [by_eval|].
    exists [95; 209; 21; 253; 18], []. split_and!; [done|by_eval|by vm_compute].
  - exists hashes. split; [exact H1|].
    apply (H2 0%nat (MkCompactFilter 0 example_block_hash example_filter) [[1]; [2]] [1]);
      [reflexivity|reflexivity|by_eval|by_eval].
Defined.

(** A block whose first transaction pays the wallet and whose second spends that. *)
Definition paying_tx : Tx :=
  MkTx 2 None [MkTxIn (MkOutPoint (MkHash256 (replicate 32 9)) 0) [] 0] [MkTxOut 5 [1]] None 0.
Definition spending_tx : Tx :=
  MkTx 2 None [MkTxIn (MkOutPoint (@Tx_hash std_byteorder padded_sha256 paying_tx) 0) [] 0]
    [MkTxOut 4 [2]] None 0.

Definition spending_block : Block := MkBlock example_header [paying_tx; spending_tx].

Lemma same_batch_spend_missed_witness :
  Exists (λ p, gpu_is_spent p = false
      ∧ gpu_outpoint p = (hash_bytes (@Tx_hash std_byteorder padded_sha256 paying_tx), 0))
    (@scan_blocks std_byteorder padded_sha256 [[1]] [] [spending_block])
  ∧ Forall (λ p, gpu_outpoint p = (hash_bytes (@Tx_hash std_byteorder padded_sha256 paying_tx), 0) →
      gpu_is_spent p = false)
    (@scan_blocks std_byteorder padded_sha256 [[1]] [] [spending_block]).
Proof.
  destruct (@same_batch_spend_missed std_byteorder padded_sha256 [[1]] [] [spending_block]
    spending_block paying_tx 0 (MkTxOut 5 [1])) as [(p & Hp & H) Hall];
    [left|left|reflexivity|left|cbn; apply not_elem_of_nil|].
  split; [apply Exists_exists; exists p; split; [exact Hp|exact H]|].
  apply Forall_forall. exact Hall.
Defined.
