(* ===== verification/Node.v ===== *)
(** * The node ([node/src/{node,db,lib}.rs], [crates/signer/src/{lib,simple_signer}.rs])

    The node puts the parts together: it synchronises the chain, asks the wallet and
    the signer, announces payments, and keeps its state in the key-value store.
    The other components are seen through the interfaces they export. *)

From S2P Require Import Prelude Errors Io Hash256 TxMsg BlockMsg NetMsg Message BlockFilter WalletApi P2P Chain.

(** ** Interfaces *)

(** The configuration of a wallet, and what its constructor takes. *)
Record WalletInit := MkWalletInit {
  wi_xpub : string;
  wi_account_derivation : string;
  wi_master_fingerprint : string;
  wi_network : ConfigNetwork;
}.

Inductive Init (C : Type) := FromState (state : bytes) | FromConfig (config : C).
Arguments FromState {C}.
Arguments FromConfig {C}.

(** The wallet's methods the node calls; a wallet made from a stored state has the
    state, the outputs and the scripts of the wallet that was stored. *)
Class WalletComponent (T : Type) `{WA : WalletApi T} := {
  wallet_new : Init WalletInit → outcome Error T;
  wallet_balance : T → outcome GuestError Z;
  wallet_get_receive_address : T → outcome GuestError string * T;
  wallet_create_transaction : bytes → Z → Z → T → outcome GuestError bytes * T;
  wallet_finalise_transaction : bytes → T → outcome GuestError bytes;
  wallet_get_state : T → bytes;
  wallet_restored t : ∃ t', wallet_new (FromState (wallet_get_state t)) = Ok t'
    ∧ wallet_get_state t' = wallet_get_state t
    ∧ api_get_utxos t' = api_get_utxos t ∧ api_get_pubkeys t' = api_get_pubkeys t;
}.

(** The signer's. *)
Inductive SignerError := DerivationError | SigningError.

Class SignerComponent (S : Type) := {
  signer_new : Init string → outcome Error S;
  signer_derive_account : S → outcome SignerError (string * string * string);
  signer_sign_psbt : bytes → S → outcome SignerError bytes;
  signer_get_state : S → bytes;
  signer_restored s : signer_new (FromState (signer_get_state s)) = Ok s;
}.

(** The key-value store, opened on the files of the component.  [kv_ready k v d]: the
    store [d] can take the insertion as it is, without merging its segments first; such
    an insertion, when it succeeds, is what a get then returns, and leaves the other keys
    alone.  [kv_settled d]: the files of [d] are in a state from which opening them again
    gives a store with the same answers. *)
Class KvComponent (D : Type) := {
  kv_disk : Type;
  kv_new : kv_disk → outcome StoreError D;
  kv_files : D → kv_disk;
  kv_insert : bytes → bytes → D → outcome StoreError () * D;
  kv_get : bytes → D → outcome StoreError bytes;
  kv_delete : bytes → D → outcome StoreError () * D;
  kv_ready : bytes → bytes → D → Prop;
  kv_inserted k v d d' : kv_ready k v d → kv_insert k v d = (Ok (), d') →
    kv_get k d' = Ok v ∧ ∀ k', k' ≠ k → kv_get k' d' = kv_get k' d;
  kv_settled : D → Prop;
  kv_reopened d : kv_settled d →
    ∃ d2, kv_new (kv_files d) = Ok d2 ∧ ∀ k, kv_get k d2 = kv_get k d;
}.
Arguments kv_disk D {_}.

(** ** [node.rs]: the data *)

Record NodeConfig := MkNodeConfig {
  nc_socket_address : CustomIPV4SocketAddress;
  nc_network : Network;
  nc_xpriv : string;
}.

(** [impl Into<WalletBitcoinNetwork> for Network]. *)
Definition WalletBitcoinNetwork_from (n : Network) : ConfigNetwork :=
  match n with
  | Bitcoin => CBitcoin
  | Testnet => CTestnet
  | Testnet4 => CTestnet4
  | Signet => CSignet
  | Regtest => CRegtest
  end.

Record NodeState := MkNodeState {
  ns_socket_address : CustomIPV4SocketAddress;
  ns_network : Network;
}.

(** [bincode] on the chain's and the node's state: decoding gives back what was
    encoded. *)
Class Bincode := {
  encode_chain_state : ChainState → bytes;
  decode_chain_state : bytes → option ChainState;
  encode_node_state : NodeState → bytes;
  decode_node_state : bytes → option NodeState;
  chain_state_round_trip s : decode_chain_state (encode_chain_state s) = Some s;
  node_state_round_trip s : decode_node_state (encode_node_state s) = Some s;
}.

(** ** [db.rs] *)

Definition CHAIN_STATE_KEY : bytes := str "chain_state".
Definition WALLET_STATE_KEY : bytes := str "wallet_state".
Definition NODE_STATE_KEY : bytes := str "node_state".
Definition SIGNER_STATE_KEY : bytes := str "signer_state".

Definition db_error {A} (r : outcome StoreError A) : outcome Error A :=
  match r with Ok a => Ok a | Err e => Err (DBError e) | Panic s => Panic s end.

Definition db_insert {D} `{KvComponent D} (key value : bytes) (d : D) : outcome Error () * D :=
  let '(r, d) := kv_insert key value d in (db_error r, d).

Definition db_get {D} `{KvComponent D} (key : bytes) (d : D) : outcome Error bytes :=
  db_error (kv_get key d).

Definition db_delete {D} `{KvComponent D} (key : bytes) (d : D) : outcome Error () * D :=
  let '(r, d) := kv_delete key d in (db_error r, d).

(** [unwrap] and [expect] on a result. *)
Definition expect {E F A} (msg : string) (r : outcome E A) : outcome F A :=
  match r with Ok a => Ok a | Err _ => Panic msg | Panic s => Panic s end.

Definition UNWRAP : string := "called `Result::unwrap()` on an `Err` value".

Definition net_unwrap {X A} (m : net X A) : net X A := λ fuel x,
  match m fuel x with Some (Err _, x) => Some (Panic UNWRAP, x) | r => r end.

(** ** [node.rs]: the operations *)

(** The chain holds the wallet and the connection. *)
Record Node (W T S D : Type) := MkNode {
  node_chain : CompactChain W T;
  node_signer : S;
  node_state : NodeState;
  node_db : D;
}.
Arguments MkNode {W T S D}.
Arguments node_chain {W T S D}.
Arguments node_signer {W T S D}.
Arguments node_state {W T S D}.
Arguments node_db {W T S D}.

Section Node.
  Context `{BO : ByteOrder} `{SHA : Sha256} `{SIP : SipHash} `{HX : Hex} {W T S D : Type}
    `{IO : PeerIo W} `{WA : WalletApi T} `{WC : !WalletComponent T} `{SC : SignerComponent S}
    `{KV : KvComponent D} `{BI : Bincode}.

Definition node_wallet (n : Node W T S D) : T := cc_wallet (node_chain n).

(** A computation of the chain, a call of the wallet that changes it, and a value. *)
Definition on_chain {A} (m : net (CompactChain W T) A) : net (Node W T S D) A := λ fuel n,
  match m fuel (node_chain n) with
  | Some (r, c) => Some (r, MkNode c (node_signer n) (node_state n) (node_db n))
  | None => None
  end.

Definition set_wallet (t : T) (n : Node W T S D) : Node W T S D :=
  let c := node_chain n in
  MkNode (MkCompactChain (cc_p2p c) (cc_chain_state c) t (cc_io c)) (node_signer n)
    (node_state n) (node_db n).

Definition on_wallet {A B} (k : T → outcome GuestError A * T)
    (f : outcome GuestError A → outcome Error B) : net (Node W T S D) B := net_step (λ n,
  let '(r, t) := k (node_wallet n) in (f r, set_wallet t n)).

Definition query {A} (f : Node W T S D → outcome Error A) : net (Node W T S D) A :=
  net_step (λ n, (f n, n)).

(** [self.db.insert(key, value).unwrap()] in order: a failure panics. *)
Fixpoint db_inserts (l : list (bytes * bytes)) (d : D) : outcome Error () * D :=
  match l with
  | [] => (Ok (), d)
  | (k, v) :: l =>
    match db_insert k v d with
    | (Ok _, d) => db_inserts l d
    | (Err _, d) => (Panic UNWRAP, d)
    | (Panic s, d) => (Panic s, d)
    end
  end.

(** What [store_state] inserts, in the order of its calls. *)
Definition state_entries (n : Node W T S D) : list (bytes * bytes) :=
  [(CHAIN_STATE_KEY, encode_chain_state (get_state (node_chain n)));
   (WALLET_STATE_KEY, wallet_get_state (node_wallet n));
   (SIGNER_STATE_KEY, signer_get_state (node_signer n));
   (NODE_STATE_KEY, encode_node_state (node_state n))].

Definition store_state : net (Node W T S D) () := net_step (λ n,
  let '(r, d) := db_inserts (state_entries n) (node_db n) in
  (r, MkNode (node_chain n) (node_signer n) (node_state n) d)).

Definition wallet_err {A} (code : Z) (r : outcome GuestError A) : outcome Error A :=
  match r with Ok a => Ok a | Err _ => Err (WalletError code) | Panic s => Panic s end.

Definition Node_balance : net (Node W T S D) Z :=
  on_chain sync_state ≫= λ _,
  store_state ≫= λ _,
  query (λ n, wallet_err 3 (wallet_balance (node_wallet n))).

Definition Node_get_receive_address : net (Node W T S D) string :=
  address ← on_wallet wallet_get_receive_address (wallet_err 4);
  store_state ≫= λ _,
  mret address.

Definition Node_send_to_address (recipient : bytes) (amount fee_rate : Z)
    : net (Node W T S D) () :=
  on_chain sync_state ≫= λ _,
  transaction ← on_wallet (wallet_create_transaction recipient amount fee_rate) (expect UNWRAP);
  signed_transaction ← query (λ n, expect UNWRAP (signer_sign_psbt transaction (node_signer n)));
  finalised_transaction ←
    query (λ n, expect UNWRAP (wallet_finalise_transaction signed_transaction (node_wallet n)));
  deserialised_transaction ← query (λ _, expect UNWRAP (Tx_read (cursor finalised_transaction)).1);
  net_unwrap (on_chain (Chain_send_transaction deserialised_transaction)) ≫= λ _,
  store_state ≫= λ _,
  mret ().

(** [Node::new] and [Node::restore]: the store is opened on the files first; the world
    is the connection's. *)
Definition Node_new (config : NodeConfig) (disk : kv_disk D) (fuel : nat) (w : W)
    : option (outcome Error (Node W T S D) * W) :=
  let prepared :=
    db ← expect UNWRAP (kv_new disk);
    signer ← signer_new (FromConfig (nc_xpriv config));
    account ← expect UNWRAP (signer_derive_account signer);
    let '(xpub, master_fingerprint, account_derivation) := (account : string * string * string) in
    wallet ← wallet_new (FromConfig (MkWalletInit xpub account_derivation master_fingerprint
                                       (WalletBitcoinNetwork_from (nc_network config))));
    genesis ← genesis_block_hash_from_network (nc_network config);
    Ok (db, signer, wallet, genesis) in
  match prepared with
  | Err e => Some (Err e, w)
  | Panic s => Some (Panic s, w)
  | Ok (db, signer, wallet, genesis) =>
    match CompactChain_new (nc_socket_address config) (nc_network config) genesis wallet fuel w with
    | Some (Ok chain, w) =>
      Some (Ok (MkNode chain signer (MkNodeState (nc_socket_address config) (nc_network config)) db), w)
    | Some (Err e, w) => Some (Err e, w)
    | Some (Panic s, w) => Some (Panic s, w)
    | None => None
    end
  end.

(** [CompactChain::restore]: the connection comes first, then the state is decoded. *)
Definition CompactChain_restore (address : CustomIPV4SocketAddress) (network : Network)
    (wallet : T) (state : bytes) (fuel : nat) (w : W)
    : option (outcome Error (CompactChain W T) * W) :=
  match connect_peer address network fuel w with
  | Some (Ok p, w) =>
    match decode_chain_state state with
    | Some s => Some (Ok (MkCompactChain (Some p) s wallet w), w)
    | None => Some (Panic "Failed to deserialise Chain State", w)
    end
  | Some (Err _, w) => Some (Panic "Failed to connect to peer", w)
  | Some (Panic m, w) => Some (Panic m, w)
  | None => None
  end.

Definition Node_restore (disk : kv_disk D) (fuel : nat) (w : W)
    : option (outcome Error (Node W T S D) * W) :=
  let prepared :=
    db ← expect UNWRAP (kv_new disk);
    wallet_state ← expect "cannot retrieve old wallet state" (db_get WALLET_STATE_KEY db);
    wallet ← wallet_new (FromState wallet_state);
    signer_state ← expect "cannot retrieve old signer state" (db_get SIGNER_STATE_KEY db);
    signer ← signer_new (FromState signer_state);
    serialized ← expect "cannot retrieve node state" (db_get NODE_STATE_KEY db);
    state ← unwrap_opt UNWRAP (decode_node_state serialized);
    chain_state ← expect "cannot retrieve old chain state" (db_get CHAIN_STATE_KEY db);
    Ok (db, wallet, signer, state, chain_state) in
  match prepared with
  | Err e => Some (Err e, w)
  | Panic s => Some (Panic s, w)
  | Ok (db, wallet, signer, state, chain_state) =>
    match CompactChain_restore (ns_socket_address state) (ns_network state) wallet chain_state
            fuel w with
    | Some (Ok chain, w) => Some (Ok (MkNode chain signer state db), w)
    | Some (Err e, w) => Some (Err e, w)
    | Some (Panic s, w) => Some (Panic s, w)
    | None => None
    end
  end.

(** ** [lib.rs]: the component's interface *)

(** [map_err(|err| err.to_error_code())]. *)
Definition with_code {A} (m : net (Node W T S D) A) (fuel : nat) (n : Node W T S D)
    : option (outcome Z A * Node W T S D) :=
  match m fuel n with
  | Some (Ok a, n) => Some (Ok a, n)
  | Some (Err e, n) => Some (Err (to_error_code e), n)
  | Some (Panic s, n) => Some (Panic s, n)
  | None => None
  end.

(** The configuration as the interface has it, and its conversions. *)
Inductive WasiBitcoinNetwork :=
| WasiBitcoin | WasiTestnet | WasiTestnet4 | WasiSignet | WasiRegtest.

Definition Network_from (val : WasiBitcoinNetwork) : Network :=
  match val with
  | WasiBitcoin => Bitcoin
  | WasiTestnet => Testnet
  | WasiRegtest => Regtest
  | WasiTestnet4 => Testnet4
  | WasiSignet => Signet
  end.

Record WasiNodeConfig := MkWasiNodeConfig {
  wnc_network : WasiBitcoinNetwork;
  wnc_address : Z * Z * Z * Z;
  wnc_port : Z;
  wnc_xpriv : string;
}.

Definition NodeConfig_from (val : WasiNodeConfig) : NodeConfig :=
  MkNodeConfig (MkSocketAddress (wnc_address val) (wnc_port val)) (Network_from (wnc_network val))
    (wnc_xpriv val).

Inductive NodeInitialization := NodeOldState | NodeInitConfig (config : WasiNodeConfig).

(** The constructor of the component, on the files of the key-value store. *)
Definition guest_node_new (init : NodeInitialization) (disk : kv_disk D)
    : nat → W → option (outcome Error (Node W T S D) * W) :=
  match init with
  | NodeOldState => Node_restore disk
  | NodeInitConfig config => Node_new (NodeConfig_from config) disk
  end.

Definition guest_get_balance := with_code Node_balance.
Definition guest_receive_address := with_code Node_get_receive_address.
Definition guest_send_to_address (recipient : bytes) (amount fee_rate : Z) :=
  with_code (Node_send_to_address recipient amount fee_rate).

End Node.

(** ** Lemmas *)

Section NodeLaws.
  Context `{BO : ByteOrder} `{SHA : Sha256} `{SIP : SipHash} `{HX : Hex} {W T S D : Type}
    `{IO : PeerIo W} `{WA : WalletApi T} `{WC : !WalletComponent T} `{SC : SignerComponent S}
    `{KV : KvComponent D} `{BI : Bincode}.

Implicit Types n : Node W T S D.

(** Each insertion of a list finds the store ready. *)
Fixpoint inserts_ready (l : list (bytes * bytes)) (d : D) : Prop :=
  match l with
  | [] => True
  | (k, v) :: l =>
    kv_ready k v d ∧ ∀ d', kv_insert k v d = (Ok (), d') → inserts_ready l d'
  end.

Lemma db_insert_inv k v (d d' : D) :
  db_insert k v d = (Ok (), d') → kv_insert k v d = (Ok (), d').
Proof.
  unfold db_insert. destruct (kv_insert k v d) as [[[]|e|s] d1] eqn:E; cbn; try done.
  by intros [= <-].
Qed.

(** Insertions under distinct keys: each is there afterwards, the others as before. *)
Lemma db_inserts_ok l (d d' : D) :
  NoDup (map fst l) → inserts_ready l d → db_inserts l d = (Ok (), d') →
  (∀ k v, (k, v) ∈ l → kv_get k d' = Ok v)
  ∧ ∀ k, k ∉ map fst l → kv_get k d' = kv_get k d.
Proof.
  revert d. induction l as [|[k v] l IH]; intros d Hnd Hr H; cbn [db_inserts] in H.
  { simplify_eq. split; [set_solver|done]. }
  destruct (db_insert k v d) as [[[]|e|s] d1] eqn:E; try done.
  apply db_insert_inv in E. destruct Hr as [Hr Hrs].
  destruct (kv_inserted _ _ _ _ Hr E) as [Hk Hother].
  cbn in Hnd. apply NoDup_cons in Hnd as [Hnin Hnd].
  destruct (IH _ Hnd (Hrs _ E) H) as [Hin Hout]. split.
  - intros k' v' [[= -> ->]|Hkv]%elem_of_cons; [|by apply Hin].
    by rewrite Hout.
  - intros k' Hk'. cbn in Hk'. rewrite Hout by set_solver. apply Hother. set_solver.
Qed.

Lemma state_keys_nodup n : NoDup (map fst (state_entries n)).
Proof. cbn. apply (bool_decide_unpack _). by vm_compute. Qed.

(** A database that holds the four entries of states. *)
Definition holds_state (d : D) (s : ChainState) (t : T) (sg : S) (ns : NodeState) : Prop :=
  kv_get CHAIN_STATE_KEY d = Ok (encode_chain_state s)
  ∧ kv_get WALLET_STATE_KEY d = Ok (wallet_get_state t)
  ∧ kv_get SIGNER_STATE_KEY d = Ok (signer_get_state sg)
  ∧ kv_get NODE_STATE_KEY d = Ok (encode_node_state ns).

Lemma db_inserts_holds n d d' :
  inserts_ready (state_entries n) d → db_inserts (state_entries n) d = (Ok (), d') →
  holds_state d' (get_state (node_chain n)) (node_wallet n) (node_signer n) (node_state n).
Proof.
  intros Hr H. destruct (db_inserts_ok _ _ _ (state_keys_nodup n) Hr H) as [Hin _].
  split_and!; apply Hin; cbn; set_solver.
Qed.

Lemma store_state_holds fuel n r n' :
  inserts_ready (state_entries n) (node_db n) →
  store_state fuel n = Some (Ok r, n') →
  node_chain n' = node_chain n ∧ node_signer n' = node_signer n ∧ node_state n' = node_state n
  ∧ holds_state (node_db n') (get_state (node_chain n)) (node_wallet n) (node_signer n)
      (node_state n).
Proof.
  intros Hr. unfold store_state, net_step.
  destruct (db_inserts _ _) as [[[]|e|s] d] eqn:E; intros H; try done.
  injection H as _ <-. cbn. split_and!; try done. by apply db_inserts_holds in E.
Qed.

(** Restoring on files whose database holds a state. *)
Lemma restore_holds disk d s t sg ns fuel (w w' : W) p :
  kv_new disk = Ok d → holds_state d s t sg ns →
  connect_peer (ns_socket_address ns) (ns_network ns) fuel w = Some (Ok p, w') →
  ∃ t', Node_restore disk fuel w = Some (Ok (MkNode (MkCompactChain (Some p) s t' w') sg ns d), w')
    ∧ wallet_get_state t' = wallet_get_state t
    ∧ api_get_utxos t' = api_get_utxos t ∧ api_get_pubkeys t' = api_get_pubkeys t.
Proof.
  intros Hnew (Hc & Hw & Hs & Hn) Hconn. destruct (wallet_restored t) as (t' & Ht & Hst).
  exists t'. split; [|done]. unfold Node_restore, db_get.
  rewrite Hnew. cbn [expect mbind outcome_bind]. rewrite Hw. cbn [db_error expect mbind outcome_bind]. rewrite Ht. cbn [mbind outcome_bind].
  rewrite Hs. cbn [db_error expect mbind outcome_bind]. rewrite signer_restored.
  cbn [mbind outcome_bind]. rewrite Hn. cbn [db_error expect mbind outcome_bind].
  rewrite node_state_round_trip. cbn [unwrap_opt mbind outcome_bind].
  rewrite Hc. cbn [db_error expect mbind outcome_bind].
  unfold CompactChain_restore. by rewrite Hconn, chain_state_round_trip.
Qed.

(** The state is that of the files opened again. *)
Lemma reopened_holds d s t sg ns :
  kv_settled d → holds_state d s t sg ns →
  ∃ d2, kv_new (kv_files d) = Ok d2 ∧ holds_state d2 s t sg ns.
Proof.
  intros (d2 & Hnew & Hsame)%kv_reopened (H1 & H2 & H3 & H4). exists d2. split; [done|].
  by split_and!; rewrite Hsame.
Qed.

End NodeLaws.

(** ** Properties *)

(** Asking for the balance synchronises first and then reports the wallet's balance;
    when it succeeds and the store took the insertions without a merge, the position
    in the chain, the wallet, the signer and the configuration are in the database. *)
Theorem balance_stores_state `{BO : ByteOrder} `{SHA : Sha256} `{SIP : SipHash} {W T S D}
    `{IO : PeerIo W} `{WA : WalletApi T} `{WC : !WalletComponent T} `{SC : SignerComponent S}
    `{KV : KvComponent D} `{BI : Bincode} fuel (n n' : Node W T S D) b :
  (∀ u c, sync_state fuel (node_chain n) = Some (Ok u, c) →
     inserts_ready (state_entries (MkNode c (node_signer n) (node_state n) (node_db n)))
       (node_db n)) →
  Node_balance fuel n = Some (Ok b, n') →
  (∃ u c, sync_state fuel (node_chain n) = Some (Ok u, c) ∧ node_chain n' = c)
  ∧ wallet_balance (node_wallet n') = Ok b
  ∧ holds_state (node_db n') (get_state (node_chain n')) (node_wallet n') (node_signer n)
      (node_state n).
Proof.
  unfold Node_balance, on_chain. unfold mbind, net_bind. intros Hr H.
  destruct (sync_state fuel (node_chain n)) as [[[u|e|s] c]|] eqn:Es; try done.
  destruct (store_state fuel _) as [[[[]|e|s] n1]|] eqn:Est; try done.
  apply store_state_holds in Est; [|by eapply Hr]. destruct Est as (Hc & Hsg & Hns & Hh). cbn in Hc, Hsg, Hns, Hh.
  unfold query, net_step, wallet_err in H.
  destruct (wallet_balance (node_wallet n1)) eqn:Eb; simplify_eq.
  split_and!; [by exists u, (node_chain n')|done|].
  unfold node_wallet in *. exact Hh.
Qed.

(** C38: a payment the wallet refuses aborts the node: when the chain synchronises and the
    wallet returns an error, insufficient funds for instance, [send_to_address]
    panics instead of returning an error code, and nothing is stored. *)
Theorem refused_payment_panics `{BO : ByteOrder} `{SHA : Sha256} `{SIP : SipHash} {W T S D}
    `{IO : PeerIo W} `{WA : WalletApi T} `{WC : !WalletComponent T} `{SC : SignerComponent S}
    `{KV : KvComponent D} `{BI : Bincode} fuel (n : Node W T S D) u c recipient amount fee_rate e t :
  sync_state fuel (node_chain n) = Some (Ok u, c) →
  wallet_create_transaction recipient amount fee_rate (cc_wallet c) = (Err e, t) →
  ∃ n', guest_send_to_address recipient amount fee_rate fuel n = Some (Panic UNWRAP, n')
    ∧ node_db n' = node_db n.
Proof.
  intros Hs Hw. unfold guest_send_to_address, with_code, Node_send_to_address, on_chain,
    mbind, net_bind. rewrite Hs. unfold on_wallet, net_step, node_wallet.
  cbn [node_chain]. rewrite Hw. cbn [expect]. eexists. split; [reflexivity|]. done.
Qed.

(** ** Witnesses *)

(** A wallet that is its balance, a signer that is its key, a store that is a list. *)
#[export] Instance number_wallet : WalletApi Z := {
  api_get_pubkeys _ := Ok [];
  api_get_utxos _ := Ok [];
  api_insert_utxos _ t := (Ok (), t);
}.

#[export, refine] Instance number_wallet_component : WalletComponent Z := {
  wallet_new i := match i with FromState [z] => Ok z | FromState _ => Panic UNWRAP
                  | FromConfig _ => Ok 0 end;
  wallet_balance t := Ok t;
  wallet_get_receive_address t := (Ok "bc1", t);
  wallet_create_transaction _ amount _ t :=
    if amount <=? t then (Ok [], t - amount) else (Err GCoinSelection, t);
  wallet_finalise_transaction b _ := Ok b;
  wallet_get_state t := [t];
}.
Proof. intros t. by exists t. Defined.

#[export, refine] Instance number_signer : SignerComponent Z := {
  signer_new i := match i with FromState [z] => Ok z | FromState _ => Panic UNWRAP
                  | FromConfig _ => Ok 0 end;
  signer_derive_account _ := Ok (("", ""), "");
  signer_sign_psbt b _ := Ok b;
  signer_get_state s := [s];
}.
Proof. done. Defined.

Fixpoint assoc (k : bytes) (l : list (bytes * bytes)) : outcome StoreError bytes :=
  match l with
  | [] => Err EntryNotFound
  | (k', v) :: l => if bool_decide (k = k') then Ok v else assoc k l
  end.

#[export, refine] Instance list_kv : KvComponent (list (bytes * bytes)) := {
  kv_disk := list (bytes * bytes);
  kv_new disk := Ok disk;
  kv_files d := d;
  kv_insert k v d := (Ok (), (k, v) :: d);
  kv_get := assoc;
  kv_delete k d := (Ok (), base.filter (λ e, e.1 ≠ k) d);
  kv_ready _ _ _ := True;
  kv_settled _ := True;
}.
Proof.
  2: { intros d _. by exists d. }
  intros k v d d' _ [= <-]. cbn [assoc]. rewrite bool_decide_eq_true_2 by done. split; [done|].
  intros k' Hk. by rewrite bool_decide_eq_false_2.
Defined.

(** The list always takes an insertion. *)
Ltac by_ready := repeat first [exact I | split | intro].

Definition network_code (n : Network) : Z :=
  match n with Bitcoin => 0 | Testnet => 1 | Testnet4 => 2 | Signet => 3 | Regtest => 4 end.

#[export, refine] Instance plain_bincode : Bincode := {
  encode_chain_state s := last_block_height s :: hash_bytes (last_block_hash s);
  decode_chain_state b :=
    match b with h :: hash => Some (MkChainState (MkHash256 hash) h) | [] => None end;
  encode_node_state s :=
    let '(a, b, c, d) := sa_ip (ns_socket_address s) in
    [a; b; c; d; sa_port (ns_socket_address s); network_code (ns_network s)];
  decode_node_state l :=
    match l with
    | [a; b; c; d; port; n] =>
      Some (MkNodeState (MkSocketAddress (a, b, c, d) port)
        (if n =? 0 then Bitcoin else if n =? 1 then Testnet else if n =? 2 then Testnet4
         else if n =? 3 then Signet else Regtest))
    | _ => None
    end;
}.
Proof.
  - intros [[b] h]. done.
  - intros [[[[[a b] c] d] port] n]. by destruct n.
Defined.

(** A peer that completes the handshake, and then answers a ping and has no headers. *)
Definition greeting : script := saying [MVersion example_version; MVerack; MPong (MkPing 1)].
Definition idle : script := saying [MPong (MkPing 1); MHeaders (MkHeaders [])].

Definition example_node : Node script Z Z (list (bytes * bytes)) :=
  MkNode (MkCompactChain (Some example_peer) (MkChainState (MkHash256 [5]) 10) 70000 idle) 1
    (MkNodeState (MkSocketAddress (127, 0, 0, 1) 8333) Bitcoin) [].

Lemma example_syncs :
  ∃ u c, @sync_state std_byteorder padded_sha256 example_siphash _ _ _ _ 5%nat
      (node_chain example_node) = Some (Ok u, c) ∧ cc_wallet c = 70000.
Proof. eexists _, _. split; vm_compute; reflexivity. Qed.

Lemma refused_payment_panics_witness :
  ∃ n', @guest_send_to_address std_byteorder padded_sha256 example_siphash script Z Z _ _ _ _ _ _ _
      [9] 80000 1 5%nat example_node = Some (Panic UNWRAP, n').
Proof.
  destruct example_syncs as (u & c & Hs & Hw).
  destruct (@refused_payment_panics std_byteorder padded_sha256 example_siphash _ _ _
    (list (bytes * bytes)) _ _ _ _ _ _ 5%nat example_node u c [9] 80000 1 GCoinSelection 70000 Hs)
    as (n' & H & _); [by rewrite Hw|]. exists n'. exact H.
Defined.

Lemma example_balance :
  ∃ n', @Node_balance std_byteorder padded_sha256 example_siphash script Z Z _ _ _ _ _ _ _ 5%nat
      example_node = Some (Ok 70000, n').
Proof. eexists. vm_compute. reflexivity. Qed.

Lemma balance_stores_state_witness :
  ∃ n', @Node_balance std_byteorder padded_sha256 example_siphash script Z Z _ _ _ _ _ _ _ 5%nat
      example_node = Some (Ok 70000, n')
    ∧ holds_state (node_db n') (get_state (node_chain n')) (node_wallet n') 1
        (node_state example_node).
Proof.
  destruct example_balance as (n' & H). exists n'. split; [exact H|].
  apply (@balance_stores_state std_byteorder padded_sha256 example_siphash _ _ _ _ _ _ _ _ _ _
    _ _ _ _ (λ u c Hc, ltac:(by_ready)) H).
Defined.
