(* ===== verification/Components.v ===== *)
(** * The components behind the node's interfaces

    The node was verified against what it uses of the signer and of the key-value
    store; here the signer component and the log-structured store implement these
    interfaces.  The store keeps the promise on insertions as long as they do not
    trigger a merge, which is the condition [kv_ready] of the interface, and the promise
    on opening it again as long as its records are in one file, which is [kv_settled]. *)

From S2P Require Import Prelude Errors Io VarInt KvEntry KvStore KvSegments KvBitcask KvRestart WalletApi Wallet Signer Node.

(** ** The signer *)

Section SignerImplementation.
  Context `{PC : PsbtCrate} `{SC : !SignerCrate} `{SB : !SignerBincode}.

Definition signer_error (e : GuestSignerError) : SignerError :=
  match e with GDerivationError => DerivationError | GSigningError => SigningError end.

Definition signer_initialization (i : Init string) : SignerInitialization :=
  match i with FromState s => SignerOldState s | FromConfig xpiv => SignerConfig xpiv end.

#[local, refine] Instance simple_signer_component : SignerComponent SimpleSigner := {
  signer_new i := guest_signer_new (signer_initialization i);
  signer_derive_account s := Prelude.map_err signer_error (guest_derive_account s);
  signer_sign_psbt b s := Prelude.map_err signer_error (guest_sign_psbt s b);
  signer_get_state s := guest_signer_get_state s;
}.
Proof.
  intros s. unfold guest_signer_new, signer_initialization, SimpleSigner_from.
  unfold guest_signer_get_state, SimpleSigner_get_state. by rewrite signer_round_trip.
Defined.

End SignerImplementation.

(** ** The key-value store *)

Section KvImplementation.
  Context `{BO : ByteOrder} `{WA : Wasi} {S : Type} `{ST : !Store S} `{SO : !StoreOk S}.
  Context `{HI : !HashIter Z} `{HK : !HashIter bytes}.

(** Files can be read. *)
Context (files_readable : ∀ w, readable (S := S) w).

(** The store and the world around it. *)
Definition bitcask : Type := KVStore S * world.

Definition bitcask_new (start : world) : outcome StoreError bitcask :=
  match KvBitcask.guest_new start with
  | (Ok kv, w) => Ok (kv, w)
  | (Err e, _) => Err e
  | (Panic m, _) => Panic m
  end.

(** The store represents a map, its next insertion does not merge and fits. *)
Definition bitcask_ready (k v : bytes) (d : bitcask) : Prop :=
  (∃ m, kv_rep d.2 d.1 m) ∧ can_append d.2 d.1 ∧ no_merge_due d.1 ∧ kv_wf k v.

Definition active_size (d : bitcask) : Z :=
  Segment_size_in_bytes (sgs_active_segment (kv_segments d.1)).

(** The records are in one file of the default directory, of less than 4 GiB, and the
    clock gives an id that no file has. *)
Definition bitcask_settled (d : bitcask) : Prop :=
  reopenable (S:=S) ∧ (∃ m logs, one_file d.2 d.1 m logs) ∧ active_size d < 4294967296
  ∧ sgs_directory (kv_segments d.1) = cfg_directory default_config
  ∧ KvSegments.fresh d.2 (kv_segments d.1).

(** The component, started again on the files of a store in one file, gives the same
    answers. *)
Lemma bitcask_reopens d :
  bitcask_settled d →
  ∃ d2, bitcask_new d.2 = Ok d2
    ∧ ∀ k, KvBitcask.guest_get d2.2 d2.1 k = KvBitcask.guest_get d.2 d.1 k.
Proof.
  intros (Hre & (m & logs & Hone) & Hsz & Hdir & Hfresh). pose proof Hone as [Hrep Hj Hset _].
  destruct (reopen_settled d.2 default_config logs m Hre) as (kv2 & w2 & H & Hrep2 & _); try done.
  - rewrite <- Hdir. apply Hj.
  - by eapply one_file_small.
  - by eapply fresh_new_id.
  - eexists. split; reflexivity.
  - exists (kv2, w2). unfold bitcask_new, KvBitcask.guest_new. rewrite H. split; [done|]. intros k.
    cbn [fst snd]. by rewrite (guest_get_rep _ _ _ _ Hrep2), (guest_get_rep _ _ _ _ Hrep).
Qed.

#[local, refine] Instance bitcask_component : KvComponent bitcask := {
  kv_disk := world;
  kv_new := bitcask_new;
  kv_files d := d.2;
  kv_insert k v d := KvBitcask.guest_insert d.2 d.1 k v;
  kv_get k d := KvBitcask.guest_get d.2 d.1 k;
  kv_delete k d := KvBitcask.guest_delete d.2 d.1 k;
  kv_ready := bitcask_ready;
  kv_settled := bitcask_settled;
}.
Proof.
  2: exact bitcask_reopens.
  intros k v [kv w] [kv' w'] ((m & Hm) & Hc & Hn & Hwf) H. cbn [fst snd] in *.
  unfold KvBitcask.guest_insert, KVStore_update in H.
  destruct (KVStore_put w kv k v) as [r [kv1 w1]] eqn:E. injection H as Hr <- <-.
  destruct (KVStore_put_ok _ _ _ _ _ _ _ _ Hm Hc Hn Hwf E) as [Hm' _].
  assert (is_ok r = true) as Hok by (destruct r; done). rewrite Hok in Hm'.
  rewrite !(guest_get_rep _ _ _ _ Hm') by apply files_readable.
  rewrite lookup_insert_eq. split; [done|]. intros k' Hne.
  rewrite (guest_get_rep _ _ _ _ Hm'), (guest_get_rep _ _ _ _ Hm) by apply files_readable.
  by rewrite lookup_insert_ne.
Defined.

End KvImplementation.
