(* ===== verification/Assembly.v ===== *)
(** * The parts together

    The watch-only wallet implements the interfaces the chain and the node were
    verified against, and what the chain finds in the blocks reaches the wallet. *)

From S2P Require Import Prelude Errors Io Hash256 TxMsg BlockMsg NetMsg Message BlockFilter P2P Chain Node WalletTypes CoinSelection WalletApi Wallet.

(** ** The wallet behind the interfaces *)

Section Implementation.
  Context `{BC : BitcoinCrate} `{KC : KeyCrate} `{PC : !PsbtCrate} `{WT : !WalletText}
    {R : Type} `{RNG : RngCore R} (fresh : R).

(** The wallet as the component sees it: its state and the source of random numbers. *)
#[local] Instance watch_only_api : WalletApi (WatchOnly * R) := {
  api_get_pubkeys t := guest_get_pubkeys t.1;
  api_get_utxos t := Ok (guest_get_utxos t.1);
  api_insert_utxos ps t := let '(r, w) := guest_insert_utxos t.1 ps in (r, (w, t.2));
}.

(** [Initialization] of the two sides. *)
Definition initialization (i : Init WalletInit) : Initialization :=
  match i with
  | FromState s => OldState s
  | FromConfig c =>
    InitConfig (MkWalletConfig (wi_xpub c) (wi_account_derivation c) (wi_master_fingerprint c)
                  (wi_network c))
  end.

#[local, refine] Instance watch_only_component : WalletComponent (WatchOnly * R) := {
  wallet_new i := w ← Node.expect UNWRAP (guest_new (initialization i)); Ok (w, fresh);
  wallet_balance t := guest_balance t.1;
  wallet_get_receive_address t :=
    let '(r, w) := guest_get_receive_address t.1 in (r, (w, t.2));
  wallet_create_transaction recipient amount fee_rate t :=
    guest_create_transaction t.1 recipient amount fee_rate t.2;
  wallet_finalise_transaction b _ := guest_finalise_transaction b;
  wallet_get_state t := guest_get_state t.1;
}.
Proof.
  intros [w r]. exists (w, fresh). unfold guest_get_state, guest_new, initialization. cbn [fst].
  rewrite bincode_round_trip. done.
Defined.

End Implementation.

(** ** From the blocks to the wallet *)

Lemma elem_of_keys {K V} `{Countable K} (leb : K → K → bool) (m : gmap K V) k :
  k ∈ keys leb m ↔ is_Some (m !! k).
Proof.
  unfold keys, entries. rewrite merge_sort_Permutation. split.
  - intros ([k' v] & -> & Hin)%list_elem_of_fmap. apply elem_of_map_to_list in Hin. by exists v.
  - intros [v Hv]. apply list_elem_of_fmap. exists (k, v). by rewrite elem_of_map_to_list.
Qed.

Section EndToEnd.
  Context `{BO : ByteOrder} `{SHA : Sha256} `{KC : KeyCrate} `{PC : !PsbtCrate}.

Implicit Types w : WatchOnly.

(** The entry of a wallet's output. *)
Definition entry_of (u : WeightedUtxo) : GuestPartialUtxo :=
  GuestPartialUtxo_from (PartialUtxo_from (wu_utxo u)).

Lemma elem_of_guest_utxos w p :
  p ∈ guest_get_utxos w ↔ ∃ o u, utxo_map w !! o = Some u ∧ p = entry_of u.
Proof.
  unfold guest_get_utxos, get_utxos. rewrite map_map. split.
  - intros (u & -> & [o Ho]%elem_of_values)%list_elem_of_fmap. by exists o, u.
  - intros (o & u & Ho & ->). apply list_elem_of_fmap. exists u. split; [done|].
    apply elem_of_values. by exists o.
Qed.

(** An entry as the wallet takes it in. *)
Definition taken (g : GuestPartialUtxo) : PartialUtxo :=
  MkPartialUtxo (gpu_outpoint g) (gpu_amount g) (gpu_script g) (gpu_is_spent g).

Lemma partial_utxos_ok {E} ps :
  Forall (λ g, length (gpu_txid g) = 32%nat) ps → @partial_utxos E ps = Ok (map taken ps).
Proof.
  induction 1 as [|g ps Hg _ IH]; [done|]. cbn [partial_utxos]. unfold PartialUtxo_try_from.
  rewrite bool_decide_eq_true_2 by done. cbn [mbind outcome_bind]. by rewrite IH.
Qed.

(** What the scan reports can be inserted. *)
Lemma scan_insertable w blocks :
  filed w →
  let ps := scan_blocks (get_pubkeys w) (guest_get_utxos w) blocks in
  Forall (λ g, length (gpu_txid g) = 32%nat) ps ∧ Forall (acceptable w) (map taken ps).
Proof.
  intros Hw. cbv zeta. rewrite Forall_fmap, !Forall_forall. split.
  - intros p (b & txn & _ & _ & [Hp|(input & _ & Hp)])%elem_of_scan.
    + apply elem_of_new_outputs in Hp as (i & o & _ & _ & ->). cbn. unfold Tx_hash, sha256d. cbn.
      apply sha256_length.
    + apply elem_of_spent_by in Hp as (_ & u & Hu & _ & _ & ->).
      apply elem_of_guest_utxos in Hu as (o & v & Hv & ->). cbn.
      destruct (Hw _ _ Hv) as [-> Hlen]. done.
  - intros p (b & txn & _ & _ & [Hp|(input & _ & Hp)])%elem_of_scan.
    + apply elem_of_new_outputs in Hp as (i & o & _ & Hk & ->). left. cbn.
      unfold get_pubkeys in Hk. by apply elem_of_keys in Hk.
    + apply elem_of_spent_by in Hp as (_ & u & Hu & _ & _ & ->).
      apply elem_of_guest_utxos in Hu as (o & v & Hv & ->). right. cbn.
      unfold gpu_outpoint. cbn. destruct (Hw _ _ Hv) as [-> _].
      rewrite <- surjective_pairing. by exists v.
Qed.

(** The entry of an output that was inserted as new, or marked. *)
Lemma entry_of_taken u g : PartialUtxo_from (wu_utxo u) = taken g → entry_of u = g.
Proof. unfold entry_of. intros ->. by destruct g. Qed.

Lemma entry_of_marked u u0 o :
  utxo_outpoint (wu_utxo u) = o → utxo_outpoint (wu_utxo u0) = o →
  utxo_txout (wu_utxo u) = utxo_txout (wu_utxo u0) → utxo_is_spent (wu_utxo u) = true →
  entry_of u = MkGuestPartialUtxo (gpu_txid (entry_of u0)) (gpu_vout (entry_of u0))
                 (gpu_amount (entry_of u0)) (gpu_script (entry_of u0)) true.
Proof. unfold entry_of, GuestPartialUtxo_from, PartialUtxo_from. cbn. by intros -> -> -> ->. Qed.

Lemma taken_outpoints ps : map pu_outpoint (map taken ps) = map gpu_outpoint ps.
Proof. by rewrite map_map. Qed.

(** Inserting what the scan reports. *)
Lemma scan_inserted w blocks :
  filed w →
  let ps := scan_blocks (get_pubkeys w) (guest_get_utxos w) blocks in
  NoDup (map gpu_outpoint ps) →
  ∃ w', guest_insert_utxos w ps = (Ok (), w') ∧ filed w'
    ∧ ∀ p, p ∈ ps → ∃ u, utxo_map w' !! gpu_outpoint p = Some u
        ∧ utxo_is_spent (wu_utxo u) = gpu_is_spent p
        ∧ (utxo_map w !! gpu_outpoint p = None → entry_of u = p)
        ∧ ∀ u0, utxo_map w !! gpu_outpoint p = Some u0 →
            utxo_txout (wu_utxo u) = utxo_txout (wu_utxo u0).
Proof.
  intros Hw ps Hnd. destruct (scan_insertable w blocks Hw) as [H32 Hacc]. fold ps in H32, Hacc.
  destruct (insert_utxos_succeeds _ _ Hacc) as [w' Hw'].
  destruct (insert_utxos_ok _ _ _ Hw') as (_ & _ & Hkept & Hnews).
  rewrite taken_outpoints in Hnews.
  exists w'. unfold guest_insert_utxos. rewrite (partial_utxos_ok _ H32). cbn [try_bind].
  rewrite Hw'. split; [done|]. split.
  { replace w' with (insert_utxos w (map taken ps)).2 by (by rewrite Hw').
    apply insert_utxos_filed; [|done]. by apply Forall_map. }
  intros p Hp. destruct (Hnews Hnd (taken p)) as (u & Hu & Hs & Hnew).
  { apply list_elem_of_fmap. by exists p. }
  exists u. split_and!; [done|done| |].
  - intros Hn. by apply entry_of_taken, Hnew.
  - intros u0 Hu0. destruct (Hkept _ _ Hu0) as (u1 & Hu1 & Htx). cbn in Hu. congruence.
Qed.

End EndToEnd.

(** ** What a synchronisation does to the wallet

    [WalletMoves R m]: whatever the peer does, [m] moves the wallet along [R]. *)

Class WalletMoves {W T A} (R : relation T) (m : net (CompactChain W T) A) : Prop :=
  wallet_moves fuel c r c' : m fuel c = Some (r, c') → R (cc_wallet c) (cc_wallet c').

Section Moves.
  Context {W T : Type} (R : relation T) `{!PreOrder R}.

#[export] Instance moves_ret A (a : A) : WalletMoves R (mret a : net (CompactChain W T) A).
Proof. intros f c r c' H. by injection H as _ <-. Qed.

#[export] Instance moves_step A (k : CompactChain W T → outcome Errors.Error A * CompactChain W T) :
  (∀ c, R (cc_wallet c) (cc_wallet (k c).2)) → WalletMoves R (net_step k).
Proof. intros Hk f c r c' H. injection H as H. specialize (Hk c). by rewrite H in Hk. Qed.

#[export] Instance moves_bind A B (m : net (CompactChain W T) A) (k : A → net (CompactChain W T) B) :
  WalletMoves R m → (∀ a, WalletMoves R (k a)) → WalletMoves R (m ≫= k).
Proof.
  intros Hm Hk f c r c' H. unfold mbind, net_bind in H.
  destruct (m f c) as [[o c1]|] eqn:E; [|done]. apply Hm in E.
  destruct o; [apply Hk in H|by simplify_eq..]. by transitivity (cc_wallet c1).
Qed.

#[export] Instance moves_map_err A g (m : net (CompactChain W T) A) :
  WalletMoves R m → WalletMoves R (net_map_err g m).
Proof.
  intros Hm f c r c' H. unfold net_map_err in H.
  destruct (m f c) as [[o c1]|] eqn:E; [|done]. apply Hm in E. destruct o; by simplify_eq.
Qed.

#[export] Instance moves_on_peer A (k : P2P → net W A) :
  WalletMoves R (on_peer k : net (CompactChain W T) A).
Proof.
  intros f c r c' H. unfold on_peer in H. destruct (k _ _ _) as [[o io]|]; [|done].
  by injection H as _ <-.
Qed.

#[export] Instance moves_set_state s : WalletMoves R (set_state s : net (CompactChain W T) ()).
Proof. apply moves_step. done. Qed.

#[export] Instance moves_lift A (m : outcome Errors.Error A) :
  WalletMoves R (lift_outcome m : net (CompactChain W T) A).
Proof. apply moves_step. done. Qed.

End Moves.

Section Synchronisation.
  Context {W T : Type} (R : relation T) `{!PreOrder R}.
  Context `{BO : ByteOrder} `{SHA : Sha256} `{SIP : SipHash} `{IO : PeerIo W} `{WA : WalletApi T}.

(** What the wallet promises of an insertion of what a scan reports about it. *)
Hypothesis insertion_moves : ∀ t pub_keys utxos blocks,
  api_get_pubkeys t = Ok pub_keys → api_get_utxos t = Ok utxos →
  R t (api_insert_utxos (scan_blocks pub_keys utxos blocks) t).2.

#[export] Instance moves_verify n h :
  WalletMoves R (get_and_verify_compact_filters n h : net (CompactChain W T) _).
Proof.
  unfold get_and_verify_compact_filters. apply (moves_bind R); [apply _|intros fh].
  apply (moves_bind R); [apply _|intros fs]. destruct (filters_verified _ _); [apply _|].
  by apply (moves_step R).
Qed.

Lemma moves_save filters : WalletMoves R (fetch_and_save_utxos filters : net (CompactChain W T) _).
Proof.
  intros f c r c' H. unfold fetch_and_save_utxos, ask_wallet, tell_wallet, lift_outcome in H.
  unfold mbind at 1, net_bind at 1, net_step at 1 in H.
  destruct (api_get_pubkeys (cc_wallet c)) as [ks|e|s] eqn:Ek; cbn [wallet_error] in H;
    [|by simplify_eq..].
  unfold mbind at 1, net_bind at 1, net_step at 1 in H.
  destruct (matching_hashes ks filters) as [hs|e|s]; [|by simplify_eq..].
  case_bool_decide; [by injection H as _ <-|].
  unfold mbind at 1, net_bind at 1 in H.
  destruct (net_map_err _ _ f c) as [[o c1]|] eqn:E1; [|done].
  assert (cc_wallet c1 = cc_wallet c) as Hw.
  { symmetry. exact (wallet_moves (R := eq) _ _ _ _ E1). }
  destruct o as [blocks|e|s]; [|simplify_eq; by rewrite Hw..].
  unfold mbind, net_bind, net_step in H. rewrite Hw in H.
  destruct (api_get_utxos (cc_wallet c)) as [us|e|s] eqn:Eu; cbn [wallet_error] in H;
    [|simplify_eq; by rewrite Hw..].
  specialize (insertion_moves _ _ _ blocks Ek Eu).
  destruct (api_insert_utxos _ _) as [o t]. by injection H as _ <-.
Qed.

Lemma moves_batches l : WalletMoves R (sync_batches l : net (CompactChain W T) ()).
Proof.
  induction l as [|[n h] l IH]; cbn [sync_batches]; [apply _|].
  apply (moves_bind R); [apply _|intros fs].
  apply (moves_bind R); [case_bool_decide; [apply _|apply moves_save]|done].
Qed.

Lemma moves_loop n : WalletMoves R (sync_loop n : net (CompactChain W T) ()).
Proof.
  induction n as [|n IH]; intros f c r c' H; [done|]. cbn [sync_loop] in H. revert H.
  apply (moves_bind R); [apply _|]. intros hs. destruct (last hs) as [lh|]; [|apply _].
  apply (moves_bind R); [apply _|intros start]. apply (moves_bind R); [apply _|intros stop].
  apply (moves_bind R); [apply moves_batches|intros _].
  apply (moves_bind R); [apply _|intros _]. destruct (_ <? _); [apply _|done].
Qed.

Lemma moves_sync : WalletMoves R (sync_state : net (CompactChain W T) ()).
Proof.
  unfold sync_state. apply (moves_bind R); [apply _|intros _ f c r c' H].
  by eapply moves_loop.
Qed.

End Synchronisation.

(** How the wallet may move: it stays well filed, keeps its account and forgets no
    output. *)
Definition wallet_grows `{KC : KeyCrate} (w w' : WatchOnly) : Prop :=
  filed w → filed w' ∧ same_account w w'
    ∧ ∀ o u, utxo_map w !! o = Some u →
        ∃ u', utxo_map w' !! o = Some u' ∧ utxo_txout (wu_utxo u') = utxo_txout (wu_utxo u).

#[export] Instance wallet_grows_preorder `{KC : KeyCrate} : PreOrder wallet_grows.
Proof.
  split.
  - intros w Hw. split_and!; [done|by split_and!|eauto].
  - intros w1 w2 w3 H12 H23 Hw. destruct (H12 Hw) as (H2 & Ha & Hk).
    destruct (H23 H2) as (H3 & Ha' & Hk'). split_and!; [done| |].
    + unfold same_account in *. intuition congruence.
    + intros o u Hu. destruct (Hk o u Hu) as (u' & Hu' & E).
      destruct (Hk' o u' Hu') as (u'' & Hu'' & E'). exists u''. split; [done|congruence].
Qed.

Definition wallet_part_grows `{KC : KeyCrate} {R} (t t' : WatchOnly * R) : Prop :=
  wallet_grows t.1 t'.1.

#[export] Instance wallet_part_grows_preorder `{KC : KeyCrate} {R} :
  PreOrder (wallet_part_grows (R := R)).
Proof.
  split; [intros t; unfold wallet_part_grows; reflexivity|].
  intros t1 t2 t3 H12 H23. exact (transitivity (R := wallet_grows) H12 H23).
Qed.

Lemma scan_insertion_grows `{BO : ByteOrder} `{SHA : Sha256} `{PC : PsbtCrate} w blocks :
  wallet_grows w
    (guest_insert_utxos w (scan_blocks (get_pubkeys w) (guest_get_utxos w) blocks)).2.
Proof.
  intros Hw. destruct (scan_insertable w blocks Hw) as [H32 Hacc].
  destruct (insert_utxos_succeeds _ _ Hacc) as [w' Hw'].
  unfold guest_insert_utxos. rewrite (partial_utxos_ok _ H32). cbn [try_bind]. rewrite Hw'. cbn [snd].
  destruct (insert_utxos_ok _ _ _ Hw') as (Ha & _ & Hk & _).
  split_and!; [|done|done].
  replace w' with (insert_utxos w (map taken (scan_blocks (get_pubkeys w) (guest_get_utxos w) blocks))).2
    by (by rewrite Hw').
  apply insert_utxos_filed; [|done]. by apply Forall_map.
Qed.

(** What [fetch_and_save_utxos] reports to the wallet [w] about blocks. *)
Definition report `{BO : ByteOrder} `{SHA : Sha256} `{KC : KeyCrate} (w : WatchOnly)
    (blocks : list Block) : list GuestPartialUtxo :=
  scan_blocks (get_pubkeys w) (guest_get_utxos w) blocks.

(** Inserting the report: the new payments and the spends are known afterwards. *)
Lemma report_inserted `{BO : ByteOrder} `{SHA : Sha256} `{PC : PsbtCrate} w blocks :
  filed w →
  NoDup (map gpu_outpoint (report w blocks)) →
  ∃ w', guest_insert_utxos w (report w blocks) = (Ok (), w') ∧ filed w'
    ∧ (∀ b txn i o, b ∈ blocks → txn ∈ block_txns b → tx_outputs txn !! i = Some o →
         TxMsg.txout_lock_script o ∈ get_pubkeys w →
         utxo_map w !! (hash_bytes (Tx_hash txn), as_u32 (Z.of_nat i)) = None →
         MkGuestPartialUtxo (hash_bytes (Tx_hash txn)) (as_u32 (Z.of_nat i))
           (as_u64 (txout_satoshis o)) (txout_lock_script o) false ∈ guest_get_utxos w')
    ∧ (∀ b txn input u, b ∈ blocks → txn ∈ block_txns b → input ∈ tx_inputs txn →
         op_hash (txin_prev_output input) ≠ NO_HASH_STOP → u ∈ guest_get_utxos w →
         gpu_txid u = hash_bytes (op_hash (txin_prev_output input)) →
         gpu_vout u = op_index (txin_prev_output input) →
         MkGuestPartialUtxo (gpu_txid u) (gpu_vout u) (gpu_amount u) (gpu_script u) true
           ∈ guest_get_utxos w').
Proof.
  intros Hw Hnd. destruct (scan_inserted w blocks Hw Hnd) as (w' & Hins & Hw' & Hall).
  exists w'. split_and!; [done|done| |].
  - intros b txn i o Hb Ht Ho Hk Hn.
    set (p := MkGuestPartialUtxo _ _ _ _ false).
    destruct (Hall p) as (u & Hu & _ & Hnew & _).
    { apply elem_of_scan. exists b, txn. split_and!; try done. left.
      apply elem_of_new_outputs. by exists i, o. }
    apply elem_of_guest_utxos. eexists _, u. split; [exact Hu|]. symmetry. by apply Hnew.
  - intros b txn input g Hb Ht Hi Hz Hg H1 H2.
    set (p := MkGuestPartialUtxo _ _ _ _ true).
    destruct (Hall p) as (u & Hu & Hs & _ & Hkept).
    { apply elem_of_scan. exists b, txn. split_and!; try done. right. exists input.
      split; [done|]. apply elem_of_spent_by. split; [done|]. by exists g. }
    apply elem_of_guest_utxos in Hg as (o & u0 & Hu0 & ->).
    destruct (Hw _ _ Hu0) as [Ho _]. subst o.
    assert (gpu_outpoint p = utxo_outpoint (wu_utxo u0)) as Hp
      by (unfold gpu_outpoint, p; cbn; by rewrite <- surjective_pairing).
    rewrite Hp in Hu, Hkept. apply elem_of_guest_utxos. eexists _, u. split; [exact Hu|].
    symmetry. eapply entry_of_marked; [by apply Hw' in Hu as [-> _]|done|by apply Hkept|done].
Qed.

(** ** Properties *)

(** C6: payments reach the wallet. When the outpoints that the scan of some blocks
    reports are distinct, inserting the report succeeds, and afterwards the wallet lists
    every output of the blocks that pays one of its scripts and was not known before, as
    unspent and with its value, and every output it knew before these blocks that they
    spend, as spent.  (An output that the same blocks pay and spend is listed as unspent,
    [same_batch_spend_missed].) *)
Theorem payments_reach_wallet `{BO : ByteOrder} `{SHA : Sha256} `{PC : PsbtCrate} w blocks :
  filed w →
  NoDup (map gpu_outpoint (report w blocks)) →
  ∃ w', guest_insert_utxos w (report w blocks) = (Ok (), w') ∧ filed w'
    ∧ (∀ b txn i o, b ∈ blocks → txn ∈ block_txns b → tx_outputs txn !! i = Some o →
         TxMsg.txout_lock_script o ∈ get_pubkeys w →
         utxo_map w !! (hash_bytes (Tx_hash txn), as_u32 (Z.of_nat i)) = None →
         MkGuestPartialUtxo (hash_bytes (Tx_hash txn)) (as_u32 (Z.of_nat i))
           (as_u64 (txout_satoshis o)) (txout_lock_script o) false ∈ guest_get_utxos w')
    ∧ (∀ b txn input u, b ∈ blocks → txn ∈ block_txns b → input ∈ tx_inputs txn →
         op_hash (txin_prev_output input) ≠ NO_HASH_STOP → u ∈ guest_get_utxos w →
         gpu_txid u = hash_bytes (op_hash (txin_prev_output input)) →
         gpu_vout u = op_index (txin_prev_output input) →
         MkGuestPartialUtxo (gpu_txid u) (gpu_vout u) (gpu_amount u) (gpu_script u) true
           ∈ guest_get_utxos w').
Proof. apply report_inserted. Qed.

(** C13: a synchronisation never harms the wallet.  Whatever the peer sends and
    wherever the synchronisation stops, with a result or with an error, the wallet's
    outputs stay filed under their own outpoints, its account and scripts are
    unchanged, and no output it knew is forgotten or changes its value or script. *)
Theorem sync_preserves_wallet `{BO : ByteOrder} `{SHA : Sha256} `{SIP : SipHash} {W : Type}
    `{IO : PeerIo W} `{PC : PsbtCrate} {R : Type}
    fuel (c : CompactChain W (WatchOnly * R)) r c' :
  sync_state (WA := watch_only_api) fuel c = Some (r, c') →
  filed (cc_wallet c).1 →
  filed (cc_wallet c').1 ∧ same_account (cc_wallet c).1 (cc_wallet c').1
  ∧ ∀ o u, utxo_map (cc_wallet c).1 !! o = Some u →
      ∃ u', utxo_map (cc_wallet c').1 !! o = Some u'
        ∧ utxo_txout (wu_utxo u') = utxo_txout (wu_utxo u).
Proof.
  intros H Hw. refine (moves_sync (wallet_part_grows (R := R)) _ fuel c r c' H Hw).
  intros [w rng] ks us blocks Hk Hu. injection Hk as <-. injection Hu as <-. cbn [fst snd].
  pose proof (scan_insertion_grows w blocks) as G. cbn [api_insert_utxos watch_only_api].
  unfold wallet_part_grows. cbn [fst snd]. by destruct (guest_insert_utxos _ _).
Qed.

(** ** Witnesses: a peer with one block that pays the wallet *)

Definition wallet_script : bytes := [0; 20; 7; 0; 0].

Definition wallet_tx : Tx :=
  MkTx 2 None [TxMsg.MkTxIn (MkOutPoint (MkHash256 (replicate 32 9)) 0) [] 0]
    [TxMsg.MkTxOut 5000 wallet_script] None 0.

Definition wallet_block : Block := MkBlock example_header [wallet_tx].

(** A filter that matches the wallet's script. *)
Definition wallet_filter : bytes := [1; 0; 0; 0].

Definition paying_session : script :=
  let h := @BlockHeader_hash std_byteorder padded_sha256 example_header in
  saying [MPong (MkPing 1); MHeaders (MkHeaders [example_header]);
          MCFHeaders (MkCompactFilterHeader 0 h NO_HASH_STOP
            [@sha256d padded_sha256 wallet_filter]);
          MCFilters (MkCompactFilter 0 h wallet_filter); MBlock wallet_block].

Definition paid_chain : CompactChain script (WatchOnly * ()) :=
  MkCompactChain (Some example_peer) (MkChainState (MkHash256 (replicate 32 0)) 0)
    (receiving_wallet, ()) paying_session.

Definition sync_paid := @sync_state std_byteorder padded_sha256 example_siphash script
  (WatchOnly * ()) _ watch_only_api 12%nat paid_chain.

(** The synchronisation finds the payment: the balance is 5,000. *)
Example sync_finds_payment :
  match sync_paid with
  | Some (Ok _, c) => balance (cc_wallet c).1 = Ok 5000 ∧ last_block_height (get_state c) = 1
  | _ => False
  end.
Proof. vm_compute. split; reflexivity. Qed.

Lemma receiving_filed : filed receiving_wallet.
Proof. intros o u H. vm_compute in H. destruct o as [[|] ]; discriminate H. Qed.

Lemma payments_reach_wallet_witness :
  ∃ w', guest_insert_utxos receiving_wallet
          (@report std_byteorder padded_sha256 _ receiving_wallet [wallet_block]) = (Ok (), w')
    ∧ MkGuestPartialUtxo (hash_bytes (@Tx_hash std_byteorder padded_sha256 wallet_tx)) 0 5000
        wallet_script false ∈ guest_get_utxos w'.
Proof.
  destruct (@payments_reach_wallet std_byteorder padded_sha256 _ _ receiving_wallet [wallet_block])
    as (w' & H1 & _ & H2 & _).
  - exact receiving_filed.
  - apply (bool_decide_eq_true_1 _). vm_compute. reflexivity.
  - exists w'. split; [exact H1|].
    apply (H2 wallet_block wallet_tx 0%nat (TxMsg.MkTxOut 5000 wallet_script));
      [left|left|reflexivity| |vm_compute; reflexivity].
    apply (bool_decide_eq_true_1 _). vm_compute. reflexivity.
Defined.

Lemma some_of {A} (o : option A) : bool_decide (is_Some o) = true → ∃ x, o = Some x.
Proof. intros [x ->]%bool_decide_eq_true. by exists x. Qed.

Lemma sync_paid_ends :
  ∃ x, @sync_state std_byteorder padded_sha256 example_siphash script (WatchOnly * ()) _
         watch_only_api 12%nat paid_chain = Some x.
Proof. apply some_of. vm_compute. reflexivity. Qed.

Lemma paid_chain_filed : filed (cc_wallet paid_chain).1.
Proof. unfold paid_chain. cbn [cc_wallet fst]. exact receiving_filed. Qed.

Lemma sync_preserves_wallet_witness :
  ∃ r c', @sync_state std_byteorder padded_sha256 example_siphash script (WatchOnly * ()) _
            watch_only_api 12%nat paid_chain = Some (r, c')
    ∧ filed (cc_wallet c').1 ∧ same_account (cc_wallet paid_chain).1 (cc_wallet c').1.
Proof.
  destruct sync_paid_ends as [[r c'] E]. exists r, c'. split; [exact E|].
  destruct (sync_preserves_wallet _ _ _ _ E paid_chain_filed) as (H1 & H2 & _).
  split; [exact H1|exact H2].
Defined.
