(* ===== verification/AnyPeer.v ===== *)
(** * Synchronising with any peer

    What a peer that says anything at all cannot break: after a synchronisation,
    however it ends, every amount of the wallet is a 64-bit number, every output is
    filed under its own outpoint and paid to the key the wallet derives for it, so
    that the balance adds up and every output can be signed for. *)

From S2P Require Import Prelude Errors Io Hash256 TxMsg BlockMsg NetMsg Message BlockFilter P2P Chain WalletTypes CoinSelection WalletApi Wallet Assembly.

Section Sound.
  Context `{KC : KeyCrate} `{PC : !PsbtCrate}.

Definition amounts_u64 (w : WatchOnly) : Prop := map_Forall (λ _ u, is_u64 (wu_value u)) (utxo_map w).

Record sound (w : WatchOnly) : Prop := {
  sound_amounts : amounts_u64 w;
  sound_filed : filed w;
  sound_pubkeys : pubkeys_keyed w;
  sound_utxos : utxos_keyed w;
}.

(** The relation along which a synchronisation moves the wallet. *)
Definition stays_sound {R} (t t' : WatchOnly * R) : Prop := sound t.1 → sound t'.1.

#[export] Instance stays_sound_preorder {R} : PreOrder (stays_sound (R := R)).
Proof. split; [intros t Ht; exact Ht|]. intros t1 t2 t3 H12 H23 H1. exact (H23 (H12 H1)). Qed.

Lemma insert_utxos_amounts ps w :
  Forall (λ p, is_u64 (pu_amount p)) ps → amounts_u64 w → amounts_u64 (insert_utxos w ps).2.
Proof.
  intros Hps. revert w. induction Hps as [|p ps Hp _ IH]; intros w Hw; [done|]. cbn [insert_utxos].
  unfold insert_utxo. destruct (utxo_map w !! pu_outpoint p) as [u|] eqn:Eu; cbn [try_bind].
  - apply IH, map_Forall_insert_2; [|done]. exact (Hw _ _ Eu).
  - destruct (pubkey_map w !! pu_script p); cbn [try_bind]; [|done].
    by apply IH, map_Forall_insert_2.
Qed.

Lemma scan_amounts `{BO : ByteOrder} `{SHA : Sha256} w blocks :
  amounts_u64 w →
  Forall (λ g, is_u64 (gpu_amount g)) (scan_blocks (get_pubkeys w) (guest_get_utxos w) blocks).
Proof.
  intros Hw. apply Forall_forall.
  intros p (b & txn & _ & _ & [Hp|(input & _ & Hp)])%elem_of_scan.
  - apply elem_of_new_outputs in Hp as (i & o & _ & _ & ->). apply as_u64_range.
  - apply elem_of_spent_by in Hp as (_ & u & Hu & _ & _ & ->).
    apply elem_of_guest_utxos in Hu as (o & v & Hv & ->). exact (Hw _ _ Hv).
Qed.

Lemma scan_insertion_sound `{BO : ByteOrder} `{SHA : Sha256} w blocks :
  sound w →
  sound (guest_insert_utxos w (scan_blocks (get_pubkeys w) (guest_get_utxos w) blocks)).2.
Proof.
  intros [Ha Hf Hp Hu]. destruct (scan_insertion_grows w blocks Hf) as (Hf' & _).
  pose proof (scan_amounts w blocks Ha) as Hs. destruct (scan_insertable w blocks Hf) as [H32 _].
  revert Hf'. unfold guest_insert_utxos. rewrite (partial_utxos_ok _ H32). cbn [try_bind].
  set (ps := map taken _).
  assert (Forall (λ p, is_u64 (pu_amount p)) ps) as Hps by (by apply Forall_map).
  pose proof (insert_utxos_amounts ps w Hps Ha). destruct (insert_utxos_keyed ps w Hp Hu).
  destruct (insert_utxos w ps) as [r w']. by split.
Qed.

End Sound.

(** Wherever it stops, a synchronisation leaves the wallet sound. *)
Lemma sync_sound `{BO : ByteOrder} `{SHA : Sha256} `{SIP : SipHash} {W : Type}
    `{IO : PeerIo W} `{PC : PsbtCrate} {R : Type} fuel (c : CompactChain W (WatchOnly * R)) r c' :
  sync_state (WA := watch_only_api) fuel c = Some (r, c') → sound (cc_wallet c).1 →
  sound (cc_wallet c').1.
Proof.
  intros H Hw. refine (moves_sync (stays_sound (R := R)) _ fuel c r c' H Hw).
  intros [w rng] ks us blocks Hk Hu. injection Hk as <-. injection Hu as <-. cbn [fst snd].
  pose proof (scan_insertion_sound w blocks) as G. cbn [api_insert_utxos watch_only_api].
  unfold stays_sound. cbn [fst snd]. by destruct (guest_insert_utxos _ _).
Qed.

Lemma sound_balance `{PC : PsbtCrate} w :
  sound w →
  let total := zsum (λ kv, unspent_value kv.2) (map_to_list (utxo_map w)) in
  balance w = if total <? 2 ^ 64 then Ok total
              else Panic "called `Option::unwrap()` on a `None` value".
Proof.
  intros Hs. apply balance_is_total. intros o u Ho. destruct (sound_amounts _ Hs o u Ho). lia.
Qed.

(** A new wallet is sound, and stays so when it hands out an address. *)
Lemma sound_new `{PC : PsbtCrate} xpub network derivation fingerprint :
  sound (WatchOnly_new xpub network derivation fingerprint).
Proof. split; intros ? ? H; cbn in H; by rewrite lookup_empty in H. Qed.

Lemma sound_receive `{PC : PsbtCrate} w : sound w → sound (get_receive_address w).2.
Proof.
  intros [Ha Hf Hp Hu]. destruct (get_receive_address_keyed w Hp Hu) as [Hp' Hu'].
  split; [| |done|done].
  - unfold get_receive_address. by destruct (derive _ _ _).
  - unfold get_receive_address. by destruct (derive _ _ _).
Qed.

(** ** Properties *)

(** C14: no peer can make a sound wallet unsound.  In a sound wallet, as a new one is and
    one that hands out an address stays (a payment ends it), the amounts are 64-bit numbers and the outputs are filed under
    their outpoints and paid to the keys the wallet derives for them; whatever the peer
    sends and wherever the synchronisation stops, it is sound afterwards, and its balance
    is the sum of the unspent outputs if that is below [2 ^ 64], and a panic otherwise
    (which a peer can cause, since blocks are not validated). *)
Theorem any_peer_keeps_wallet_sound `{BO : ByteOrder} `{SHA : Sha256} `{SIP : SipHash} {W : Type}
    `{IO : PeerIo W} `{PC : PsbtCrate} {R : Type} fuel (c : CompactChain W (WatchOnly * R)) r c' :
  sync_state (WA := watch_only_api) fuel c = Some (r, c') → sound (cc_wallet c).1 →
  let w' := (cc_wallet c').1 in
  let total := zsum (λ kv, unspent_value kv.2) (map_to_list (utxo_map w')) in
  sound w'
  ∧ balance w' = if total <? 2 ^ 64 then Ok total
                 else Panic "called `Option::unwrap()` on a `None` value".
Proof.
  intros H Hw. cbv zeta. pose proof (sync_sound _ _ _ _ H Hw) as Hs.
  split; [done|]. by apply sound_balance.
Qed.

(** ** Witness *)

Lemma receiving_sound : sound receiving_wallet.
Proof. apply sound_receive, sound_new. Qed.

Lemma any_peer_keeps_wallet_sound_witness :
  ∃ r c', @sync_state std_byteorder padded_sha256 example_siphash script (WatchOnly * ()) _
            watch_only_api 12%nat paid_chain = Some (r, c')
    ∧ sound (cc_wallet c').1.
Proof.
  destruct sync_paid_ends as [[r c'] E]. exists r, c'. split; [exact E|].
  exact (proj1 (any_peer_keeps_wallet_sound _ _ _ _ E receiving_sound)).
Defined.
