(* ===== verification/Honest.v ===== *)
(** * Synchronising with an honest peer

    A peer that answers every request truthfully, over any number of rounds of
    headers and of batches of filters: the synchronisation then ends, the position in
    the chain is the last block's, and the wallet knows every payment that the blocks
    it asked for make to it. *)

From S2P Require Import Prelude Errors Io Hash256 TxMsg BlockMsg NetMsg Message BlockFilter P2P Chain WalletTypes CoinSelection WalletApi Wallet Assembly.

(** ** What a connection still has to say *)

Section Hears.
  Context `{BO : ByteOrder} `{SHA : Sha256}.
  Context (magic : bytes) (wall : Z) (rest : bytes) (e : io_error).
  Hypothesis magic_length : zlen magic = 4.

(** The peer's stream holds the messages [ms]; the clock is below [t]. *)
Definition hears (ms : list Message) (t : Z) (w : script) : Prop :=
  sc_input w = rdr (concat (map (wire magic) ms) ++ rest) e
  ∧ 0 ≤ sc_time w ≤ t ∧ sc_wall w = wall.

(** [m] returns [a] and takes worlds of [P] to worlds of [Q]. *)
Definition runs {W A} (fuel : nat) (P : W → Prop) (m : net W A) (a : A) (Q : W → Prop) : Prop :=
  ∀ w, P w → ∃ w', m fuel w = Some (Ok a, w') ∧ Q w'.

Lemma runs_ret {W A} fuel (P : W → Prop) (a : A) : runs fuel P (mret a) a P.
Proof. intros w Hw. by exists w. Qed.

Lemma runs_bind {W A B} fuel (P Q R : W → Prop) (m : net W A) (k : A → net W B) a b :
  runs fuel P m a Q → runs fuel Q (k a) b R → runs fuel P (m ≫= k) b R.
Proof.
  intros Hm Hk w Hw. destruct (Hm w Hw) as (w1 & E1 & Hw1). destruct (Hk w1 Hw1) as (w2 & E2 & Hw2).
  exists w2. unfold mbind, net_bind. by rewrite E1.
Qed.

Lemma runs_map_err {W A} fuel (P Q : W → Prop) f (m : net W A) a :
  runs fuel P m a Q → runs fuel P (net_map_err f m) a Q.
Proof.
  intros Hm w Hw. destruct (Hm w Hw) as (w1 & E1 & Hw1). exists w1. unfold net_map_err. by rewrite E1.
Qed.

Lemma runs_receive fuel t m ms time :
  sendable wall m → answers t m → time < 2 ^ 62 → (0 < fuel)%nat →
  runs fuel (hears (m :: ms) time) (receive t) (message_received m) (hears ms (time + 2)).
Proof.
  intros Hm Ha Ht Hf [input sent tm wl rnd] (Hi & Htm & Hw). cbn in Hi, Htm, Hw. subst.
  cbn [map concat]. rewrite <- app_assoc.
  pose proof (receive_script magic t [] m (concat (map (wire magic) ms) ++ rest) e sent tm wall rnd fuel) as H.
  cbn [map concat app] in H. rewrite H by (done || lia || (cbn; lia)).
  eexists. split; [reflexivity|]. change (zlen (@nil Message)) with 0.
  unfold hears. cbn [sc_input sc_time sc_wall]. split_and!; [done|lia|lia|done].
Qed.

Lemma runs_send fuel p m b ms time :
  Message_write m (peer_magic p) = Ok b →
  runs fuel (hears ms time) (send p m) () (hears ms time).
Proof.
  intros Hb [input sent tm wl rnd] (Hi & Htm & Hw). unfold send, net_step. rewrite Hb. cbn.
  eexists. split; [reflexivity|]. done.
Qed.

Lemma runs_random fuel ms time : ∀ w, hears ms time w →
  ∃ n w', random_nonce fuel w = Some (Ok n, w') ∧ hears ms time w'.
Proof. intros [input sent tm wl rnd] Hw. eexists _, _. split; [reflexivity|]. done. Qed.

(** ** The requests *)

Lemma runs_keep_alive fuel p q ms time :
  sendable wall (MPong q) → time < 2 ^ 62 → (0 < fuel)%nat →
  runs fuel (hears (MPong q :: ms) time) (Peer_keep_alive p) () (hears ms (time + 2)).
Proof.
  intros Hq Ht Hf w Hw. unfold Peer_keep_alive. unfold mbind at 1, net_bind at 1.
  destruct (runs_random fuel _ _ _ Hw) as (n & w1 & -> & Hw1).
  destruct (runs_send fuel p (MPing (MkPing n)) _ _ _ eq_refl _ Hw1) as (w2 & E2 & Hw2).
  unfold mbind, net_bind. rewrite E2. unfold net_match.
  destruct (runs_receive fuel commands.PONG (MPong q) ms time Hq (or_introl eq_refl) Ht Hf _ Hw2)
    as (w3 & -> & Hw3). exists w3. done.
Qed.

Lemma runs_headers fuel p h hs ms time :
  sendable wall (MHeaders hs) → time < 2 ^ 62 → (0 < fuel)%nat →
  runs fuel (hears (MHeaders hs :: ms) time) (Peer_fetch_headers p h) (headers_inner hs)
    (hears ms (time + 2)).
Proof.
  intros Hs Ht Hf. unfold Peer_fetch_headers. eapply runs_bind; [by eapply runs_send|].
  eapply runs_bind; [apply runs_receive; [done|by left|done|done]|apply runs_ret].
Qed.

Lemma runs_filter_headers fuel p n h fh ms time :
  sendable wall (MCFHeaders fh) → time < 2 ^ 62 → (0 < fuel)%nat →
  runs fuel (hears (MCFHeaders fh :: ms) time) (fetch_compact_filter_headers p n h) fh
    (hears ms (time + 2)).
Proof.
  intros Hs Ht Hf. unfold fetch_compact_filter_headers. eapply runs_bind; [by eapply runs_send|].
  eapply runs_bind; [apply runs_receive; [done|by left|done|done]|apply runs_ret].
Qed.

Lemma runs_filters_loop fuel stop fs f ms n acc time :
  Forall (λ f, sendable wall (MCFilters f)) (fs ++ [f]) →
  Forall (λ f, cf_block_hash f ≠ stop) fs → cf_block_hash f = stop →
  time + 2 * zlen (fs ++ [f]) < 2 ^ 62 → (0 < fuel)%nat → (length fs < n)%nat →
  runs fuel (hears (map MCFilters (fs ++ [f]) ++ ms) time) (filters_loop n stop acc)
    (acc ++ fs ++ [f]) (hears ms (time + 2 * zlen (fs ++ [f]))).
Proof.
  intros Hs Hne Hf Ht Hfuel. revert n acc time Hs Ht.
  induction Hne as [|g fs Hg _ IH]; intros n acc time Hs Ht Hn; (destruct n as [|n]; [cbn in Hn; lia|]);
    cbn [app map] in *; apply Forall_cons in Hs as [Hs1 Hs2].
  - change (zlen [f]) with 1 in *. intros w Hw. cbn [filters_loop].
    unfold mbind, net_bind.
    destruct (runs_receive fuel commands.CFILTERS (MCFilters f) ms time Hs1 (or_introl eq_refl)
      ltac:(lia) Hfuel _ Hw) as (w1 & -> & Hw1). cbn [message_received].
    rewrite bool_decide_eq_true_2 by done. exists w1. split; [done|]. by replace (time + 2 * 1) with (time + 2) by lia.
  - rewrite zlen_cons in *. intros w Hw. cbn [filters_loop]. unfold mbind, net_bind.
    pose proof (zlen_nonneg (fs ++ [f])).
    destruct (runs_receive fuel commands.CFILTERS (MCFilters g) _ time Hs1 (or_introl eq_refl)
      ltac:(lia) Hfuel _ Hw) as (w1 & -> & Hw1). cbn [message_received].
    rewrite bool_decide_eq_false_2 by done.
    destruct (IH n (acc ++ [g]) (time + 2) Hs2 ltac:(lia) ltac:(cbn in Hn; lia) _ Hw1) as (w2 & -> & Hw2).
    exists w2. rewrite <- app_assoc. split; [done|].
    by replace (time + 2 * (1 + zlen (fs ++ [f]))) with (time + 2 + 2 * zlen (fs ++ [f])) by lia.
Qed.

Lemma runs_filters fuel p n stop fs f ms time :
  Forall (λ f, sendable wall (MCFilters f)) (fs ++ [f]) →
  Forall (λ f, cf_block_hash f ≠ stop) fs → cf_block_hash f = stop →
  time + 2 * zlen (fs ++ [f]) < 2 ^ 62 → (length fs < fuel)%nat →
  runs fuel (hears (map MCFilters (fs ++ [f]) ++ ms) time) (fetch_compact_filters p n stop)
    (fs ++ [f]) (hears ms (time + 2 * zlen (fs ++ [f]))).
Proof.
  intros Hs Hne Hf Ht Hn. unfold fetch_compact_filters. eapply runs_bind; [by eapply runs_send|].
  unfold net_loop. intros w Hw.
  by apply (runs_filters_loop fuel stop fs f ms fuel [] time Hs Hne Hf Ht ltac:(lia) Hn w Hw).
Qed.

Lemma runs_blocks_loop fuel n bs acc ms time :
  bs ≠ [] → Forall (λ b, sendable wall (MBlock b)) bs →
  time + 2 * zlen bs < 2 ^ 62 → (0 < fuel)%nat → (length bs ≤ n)%nat →
  runs fuel (hears (map MBlock bs ++ ms) time) (blocks_loop n (length (acc ++ bs)) acc)
    (acc ++ bs) (hears ms (time + 2 * zlen bs)).
Proof.
  intros Hne Hs. revert n acc time Hne.
  induction Hs as [|b bs Hb _ IH]; intros n acc time Hne Ht Hf Hn; [done|].
  destruct n as [|n]; [cbn in Hn; lia|]. pose proof (zlen_nonneg bs).
  rewrite zlen_cons in *. intros w Hw. cbn [blocks_loop map app]. unfold mbind, net_bind.
  destruct (runs_receive fuel commands.BLOCK (MBlock b) _ time Hb (or_introl eq_refl)
    ltac:(lia) Hf _ Hw) as (w1 & -> & Hw1). cbn [message_received].
  destruct bs as [|b' bs].
  - rewrite bool_decide_eq_true_2 by done. exists w1. split; [done|]. exact Hw1.
  - rewrite bool_decide_eq_false_2 by (rewrite !length_app; cbn; lia).
    destruct (IH n (acc ++ [b]) (time + 2) ltac:(done) ltac:(lia) Hf ltac:(cbn in *; lia) _ Hw1)
      as (w2 & E2 & Hw2).
    rewrite <- app_assoc in E2. cbn [app] in E2. rewrite E2. exists w2. split; [done|].
    by replace (time + 2 * (1 + zlen (b' :: bs))) with (time + 2 + 2 * zlen (b' :: bs)) by lia.
Qed.

Lemma runs_blocks fuel p inv bs ms time :
  bs ≠ [] → length (inv_objects inv) = length bs → Forall (λ b, sendable wall (MBlock b)) bs →
  time + 2 * zlen bs < 2 ^ 62 → (length bs ≤ fuel)%nat →
  runs fuel (hears (map MBlock bs ++ ms) time) (fetch_blocks p inv) bs
    (hears ms (time + 2 * zlen bs)).
Proof.
  intros Hne Hlen Hs Ht Hn. unfold fetch_blocks. eapply runs_bind; [by eapply runs_send|].
  unfold net_loop. rewrite Hlen. intros w Hw.
  apply (runs_blocks_loop fuel fuel bs [] ms time Hne Hs Ht); [destruct bs; cbn in Hn; [done|lia]|done|done].
Qed.
End Hears.

(** ** An honest peer *)

Section HonestPeer.
  Context `{BO : ByteOrder} `{SHA : Sha256} `{SIP : SipHash}.

Definition block_hash (b : Block) : Hash256 := BlockHeader_hash (block_header b).

(** The blocks the client asks for once it has the filters [fs] of [bs]. *)
Definition asked (keys : list bytes) (fs : list CompactFilter) (bs : list Block) : list Block :=
  match matching_hashes (E := Errors.Error) keys fs with
  | Ok hashes => filter (λ b, block_hash b ∈ hashes) bs
  | _ => []
  end.

(** A batch: the blocks, the answer with the hashes of their filters, and the filters. *)
Record batch := MkBatch {
  bt_blocks : list Block;
  bt_headers : CompactFilterHeader;
  bt_filters : list CompactFilter;
}.

(** What the peer says about a batch. *)
Definition batch_session (keys : list bytes) (bt : batch) : list Message :=
  MCFHeaders (bt_headers bt) :: map MCFilters (bt_filters bt)
    ++ map MBlock (asked keys (bt_filters bt) (bt_blocks bt)).

(** The scripts of a block: those its outputs pay, and those of the outputs [utxos]
    that its inputs spend. *)
Definition block_scripts (utxos : list GuestPartialUtxo) (b : Block) (k : bytes) : Prop :=
  ∃ txn, txn ∈ block_txns b ∧
    ((∃ o, o ∈ tx_outputs txn ∧ txout_lock_script o = k)
     ∨ ∃ input u, input ∈ tx_inputs txn ∧ u ∈ utxos ∧ gpu_script u = k
         ∧ gpu_txid u = hash_bytes (op_hash (txin_prev_output input))
         ∧ gpu_vout u = op_index (txin_prev_output input)).

(** The answers are true: one filter for each block, which holds the block's scripts,
    and its hash in the filter headers. *)
Record honest (now : Z) (keys : list bytes) (utxos : list GuestPartialUtxo) (bt : batch)
    : Prop := {
  honest_count : 1 ≤ zlen (bt_blocks bt) ≤ 500;
  honest_distinct : NoDup (map block_hash (bt_blocks bt));
  honest_hashes : map cf_block_hash (bt_filters bt) = map block_hash (bt_blocks bt);
  honest_headers :
    cfh_filter_hashes (bt_headers bt) = map (λ f, sha256d (cf_filter_bytes f)) (bt_filters bt);
  honest_filters : Forall2 (λ f b, ∃ items, honest_filter f items
    ∧ ∀ k, block_scripts utxos b k → k ∈ items) (bt_filters bt) (bt_blocks bt);
  honest_sendable : Forall (sendable now) (batch_session keys bt);
}.

Lemma filter_asked {A B} `{EqDecision B} (g : A → B) (l : list B) (bs : list A) :
  NoDup (map g bs) → l `sublist_of` map g bs → length (filter (λ b, g b ∈ l) bs) = length l.
Proof.
  intros Hnd Hs. rewrite <- (length_map g). apply Permutation_length, NoDup_Permutation.
  - eapply sublist_NoDup; [done|]. apply fmap_sublist, sublist_filter.
  - by eapply sublist_NoDup.
  - intros x. split.
    + intros Hx. apply list_elem_of_fmap in Hx as (b & Hxb & Hb). apply list_elem_of_filter in Hb as [Hb _].
      by rewrite Hxb.
    + intros Hx. pose proof (elem_of_sublist _ _ _ Hx Hs) as Hm.
      apply list_elem_of_fmap in Hm as (b & Hxb & Hb). apply list_elem_of_fmap. exists b.
      split; [done|]. apply list_elem_of_filter. by rewrite <- Hxb.
Qed.

(** What is asked of an honest peer: every block with a script of the wallet. *)
Lemma honest_asked now keys utxos bs fh fs :
  honest now keys utxos (MkBatch bs fh fs) →
  ∃ hashes, matching_hashes (E := Errors.Error) keys fs = Ok hashes
    ∧ length (asked keys fs bs) = length hashes
    ∧ ∀ b k, b ∈ bs → k ∈ keys → block_scripts utxos b k → b ∈ asked keys fs bs.
Proof.
  intros [_ Hnd Hh _ Hf _]. cbn in Hnd, Hh, Hf.
  assert (∃ itemss, Forall2 honest_filter fs itemss
    ∧ ∀ i f b items, fs !! i = Some f → bs !! i = Some b → itemss !! i = Some items → ∀ k, block_scripts utxos b k → k ∈ items) as (itemss & Hi & Hk).
  { clear Hnd Hh. induction Hf as [|f b fs bs (items & Hfi & Hb) _ (itemss & IH1 & IH2)].
    - exists []. split; [done|]. by intros [|i].
    - exists (items :: itemss). split; [by constructor|].
      intros [|i] f' b' its Hf' Hb' Hits; cbn in *; [by simplify_eq|by eapply IH2]. }
  destruct (matching_hashes_ok (E := Errors.Error) keys fs itemss Hi) as (hashes & E & Hsub & Hreq).
  exists hashes. split; [done|]. unfold asked. rewrite E. rewrite Hh in Hsub.
  split; [by apply filter_asked|].
  intros b k [i Hbi]%list_elem_of_lookup Hkk Hs. apply list_elem_of_filter.
  split; [|by eapply list_elem_of_lookup_2].
  destruct (Forall2_lookup_r _ _ _ _ _ Hf Hbi) as (f & Hfi & _).
  destruct (Forall2_lookup_l _ _ _ _ _ Hi Hfi) as (items & Hits & _).
  assert (cf_block_hash f = block_hash b) as <-.
  { assert (map cf_block_hash fs !! i = Some (cf_block_hash f)) as H1 by (rewrite list_lookup_fmap, Hfi; done).
    rewrite Hh, list_lookup_fmap, Hbi in H1. cbn in H1. congruence. }
  eapply Hreq; try done. by eapply Hk.
Qed.


(** The wallet [w'] knows what the blocks pay to the wallet [w] and spend of it. *)
Definition learns `{KC : KeyCrate} (w w' : WatchOnly) (bs : list Block) : Prop :=
  (∀ b txn i o, b ∈ bs → txn ∈ block_txns b → tx_outputs txn !! i = Some o →
     TxMsg.txout_lock_script o ∈ get_pubkeys w →
     utxo_map w !! (hash_bytes (Tx_hash txn), as_u32 (Z.of_nat i)) = None →
     MkGuestPartialUtxo (hash_bytes (Tx_hash txn)) (as_u32 (Z.of_nat i))
       (as_u64 (txout_satoshis o)) (txout_lock_script o) false ∈ guest_get_utxos w')
  ∧ (∀ b txn input u, b ∈ bs → txn ∈ block_txns b → input ∈ tx_inputs txn →
       op_hash (txin_prev_output input) ≠ NO_HASH_STOP → u ∈ guest_get_utxos w →
       gpu_script u ∈ get_pubkeys w →
       gpu_txid u = hash_bytes (op_hash (txin_prev_output input)) →
       gpu_vout u = op_index (txin_prev_output input) →
       MkGuestPartialUtxo (gpu_txid u) (gpu_vout u) (gpu_amount u) (gpu_script u) true
         ∈ guest_get_utxos w').

Lemma learns_asked `{KC : KeyCrate} now bs fh fs (w w' : WatchOnly) :
  honest now (get_pubkeys w) (guest_get_utxos w) (MkBatch bs fh fs) →
  learns w w' (asked (get_pubkeys w) fs bs) → learns w w' bs.
Proof.
  intros Hh [H1 H2]. destruct (honest_asked _ _ _ _ _ _ Hh) as (_ & _ & _ & Hin). split.
  - intros b txn i o Hb Ht Ho Hk. apply (H1 b txn i o); try done. eapply Hin; [done..|].
    exists txn. split; [done|]. left. exists o. split; [by eapply list_elem_of_lookup_2|done].
  - intros b txn input u Hb Ht Hi Hz Hu Hk E1 E2. apply (H2 b txn input u); try done.
    eapply Hin; [done..|]. exists txn. split; [done|]. right. by exists input, u.
Qed.

End HonestPeer.

(** ** The wallet's side of a batch *)

Section Learning.
  Context `{BO : ByteOrder} `{SHA : Sha256} `{SIP : SipHash} `{PC : PsbtCrate}.

(** The wallet once the batch has been scanned. *)
Definition next_wallet (w : WatchOnly) (bt : batch) : WatchOnly :=
  (guest_insert_utxos w (report w (asked (get_pubkeys w) (bt_filters bt) (bt_blocks bt)))).2.

(** The outpoints that the scan of the batch reports are distinct. *)
Definition reports_distinct (w : WatchOnly) (bt : batch) : Prop :=
  NoDup (map gpu_outpoint (report w (asked (get_pubkeys w) (bt_filters bt) (bt_blocks bt)))).

Lemma next_wallet_learns now w bt :
  honest now (get_pubkeys w) (guest_get_utxos w) bt → reports_distinct w bt → filed w →
  guest_insert_utxos w (report w (asked (get_pubkeys w) (bt_filters bt) (bt_blocks bt)))
    = (Ok (), next_wallet w bt)
  ∧ filed (next_wallet w bt) ∧ learns w (next_wallet w bt) (bt_blocks bt)
  ∧ wallet_grows w (next_wallet w bt).
Proof.
  intros Hh Hnd Hw. destruct bt as [bs fh fs]. unfold reports_distinct in Hnd. cbn in *.
  destruct (report_inserted w (asked (get_pubkeys w) fs bs) Hw Hnd) as (w' & Hins & Hw' & Hp & Hsp).
  assert (Hg : wallet_grows w (next_wallet w (MkBatch bs fh fs))) by apply scan_insertion_grows.
  revert Hg. unfold next_wallet. cbn [bt_blocks bt_filters]. rewrite Hins. cbn [snd].
  intros Hg. split_and!; [done|done| |done].
  apply (learns_asked _ _ _ _ _ _ Hh). split; [done|].
  intros b txn input u Hb Ht' Hi Hz Hu _. by apply (Hsp b txn input u).
Qed.

Definition wallet_after (w : WatchOnly) (bts : list batch) : WatchOnly := foldl next_wallet w bts.

(** What the peer says about the batches, and that it says it truthfully, as the
    wallet goes on. *)
Fixpoint batches_session (w : WatchOnly) (bts : list batch) : list Message :=
  match bts with
  | [] => []
  | bt :: bts => batch_session (get_pubkeys w) bt ++ batches_session (next_wallet w bt) bts
  end.

Fixpoint honest_batches (now : Z) (w : WatchOnly) (bts : list batch) : Prop :=
  match bts with
  | [] => True
  | bt :: bts =>
    honest now (get_pubkeys w) (guest_get_utxos w) bt ∧ reports_distinct w bt
    ∧ honest_batches now (next_wallet w bt) bts
  end.

(** The wallet after all of them has learned every batch on the way. *)
Lemma batches_learned now w bts :
  honest_batches now w bts → filed w →
  filed (wallet_after w bts) ∧ wallet_grows w (wallet_after w bts)
  ∧ ∀ bt, bt ∈ bts → ∃ w1 w2, filed w1 ∧ wallet_grows w w1 ∧ learns w1 w2 (bt_blocks bt)
      ∧ filed w2 ∧ wallet_grows w1 w2 ∧ wallet_grows w2 (wallet_after w bts).
Proof.
  revert w. induction bts as [|bt bts IH]; intros w.
  - intros _ Hw. split_and!; [done|reflexivity|]. intros bt Hbt. by apply not_elem_of_nil in Hbt.
  - intros (Hh & Hnd & Hbs) Hw.
    destruct (next_wallet_learns now w bt Hh Hnd Hw) as (_ & Hw1 & Hl & Hg).
    destruct (IH _ Hbs Hw1) as (Hf & Hg' & Hall). split_and!; [done|by etrans|].
    intros bt' [->|Hin]%elem_of_cons.
    + exists w, (next_wallet w bt). split_and!; done || reflexivity.
    + destruct (Hall _ Hin) as (w1 & w2 & ? & ? & ? & ? & ? & ?). exists w1, w2.
      split_and!; try done. by etrans.
Qed.

(** An output that becomes known was paid by a transaction of the blocks. *)
Lemma next_wallet_known now w bt o :
  honest now (get_pubkeys w) (guest_get_utxos w) bt → filed w →
  is_Some (utxo_map (next_wallet w bt) !! o) →
  is_Some (utxo_map w !! o)
  ∨ ∃ b txn, b ∈ bt_blocks bt ∧ txn ∈ block_txns b ∧ o.1 = hash_bytes (Tx_hash txn).
Proof.
  intros Hh Hw H. unfold next_wallet, guest_insert_utxos in H. unfold report in H.
  set (blocks := asked _ _ _) in H.
  destruct (scan_insertable w blocks Hw) as [H32 _].
  rewrite (partial_utxos_ok _ H32) in H. cbn [try_bind] in H.
  destruct (insert_utxos w _) as [r w1] eqn:E. cbn [snd] in H.
  assert (w1 = (insert_utxos w (map taken (scan_blocks (get_pubkeys w) (guest_get_utxos w) blocks))).2)
    as -> by (by rewrite E).
  apply insert_utxos_known in H as [H|H]; [by left|].
  rewrite map_map in H. apply list_elem_of_fmap in H as (p & -> & Hp).
  apply elem_of_scan in Hp as (b & txn & Hb & Ht & Hp).
  destruct Hp as [Hp|(input & _ & Hp)].
  - apply elem_of_new_outputs in Hp as (i & o & _ & _ & ->). right. exists b, txn. split_and!; [|done|done].
    unfold blocks, asked in Hb. destruct (matching_hashes _ _); [|by apply not_elem_of_nil in Hb..].
    by apply list_elem_of_filter in Hb as [_ Hb].
  - apply elem_of_spent_by in Hp as (_ & u & Hu & _ & _ & ->). left.
    apply elem_of_guest_utxos in Hu as (o & v & Hv & ->). cbn.
    unfold gpu_outpoint. cbn. destruct (Hw _ _ Hv) as [-> _]. rewrite <- surjective_pairing. by exists v.
Qed.

Lemma wallet_after_known now w bts o :
  honest_batches now w bts → filed w → is_Some (utxo_map (wallet_after w bts) !! o) →
  is_Some (utxo_map w !! o)
  ∨ ∃ bt b txn, bt ∈ bts ∧ b ∈ bt_blocks bt ∧ txn ∈ block_txns b ∧ o.1 = hash_bytes (Tx_hash txn).
Proof.
  revert w. induction bts as [|bt bts IH]; intros w Hh Hw H; [by left|].
  destruct Hh as (Hh & Hnd & Hbs). destruct (next_wallet_learns now w bt Hh Hnd Hw) as (_ & Hw1 & _).
  destruct (IH _ Hbs Hw1 H) as [H'|(bt' & b & txn & Hbt & Hb)]; [|right; exists bt', b, txn; split; [by right|done]].
  destruct (next_wallet_known _ _ _ _ Hh Hw H') as [|(b & txn & Hb)]; [by left|right].
  exists bt, b, txn. split; [left|done].
Qed.

End Learning.

(** ** The chain's side of a session *)

Section Session.
  Context `{BO : ByteOrder} `{SHA : Sha256} `{SIP : SipHash} `{PC : PsbtCrate} {R : Type}.
  Context (magic : bytes) (wall : Z) (rest : bytes) (e : io_error) (p : Peer).
  Hypothesis magic_length : zlen magic = 4.

#[local] Existing Instance watch_only_api.

Notation chain := (CompactChain script (WatchOnly * R)).
Notation hears := (hears magic wall rest e).

(** A chain connected to the peer, with the state [s] and the wallet [t]. *)
Definition hearing (ms : list Message) (time : Z) (s : ChainState) (t : WatchOnly * R) (c : chain)
    : Prop :=
  cc_p2p c = Some p ∧ cc_chain_state c = s ∧ cc_wallet c = t ∧ hears ms time (cc_io c).

Lemma runs_on_peer {A} fuel (k : P2P → net script A) a ms time ms' time' s t :
  runs fuel (hears ms time) (k (Some p)) a (hears ms' time') →
  runs fuel (hearing ms time s t) (on_peer k) a (hearing ms' time' s t).
Proof.
  intros Hk [p2p s0 t0 io] (Hp & Hs & Ht & Hio). cbn in *. subst.
  destruct (Hk io Hio) as (io' & E & Hio'). eexists. split; [unfold on_peer; cbn; by rewrite E|].
  by split_and!.
Qed.

Lemma runs_lift {A} fuel (P : chain → Prop) (a : A) m :
  m = Ok a → runs fuel P (lift_outcome m) a P.
Proof. intros -> c Hc. by exists c. Qed.

Lemma runs_ask {A} fuel ms time s t (k : WatchOnly * R → outcome GuestError A) a :
  k t = Ok a → runs fuel (hearing ms time s t) (ask_wallet k) a (hearing ms time s t).
Proof.
  intros Hk c (Hp & Hs & Ht & Hio). exists c. unfold ask_wallet, net_step. rewrite Ht, Hk. done.
Qed.

Lemma runs_tell {A} fuel ms time s t t' (k : WatchOnly * R → outcome GuestError A * (WatchOnly * R)) a :
  k t = (Ok a, t') → runs fuel (hearing ms time s t) (tell_wallet k) a (hearing ms time s t').
Proof.
  intros Hk [p2p s0 t0 io] (Hp & Hs & Ht & Hio). cbn in *. subst.
  eexists. unfold tell_wallet, net_step. cbn. rewrite Hk. split; [done|]. by split_and!.
Qed.

Lemma runs_set_state fuel ms time s s' t :
  runs fuel (hearing ms time s t) (set_state s') () (hearing ms time s' t).
Proof.
  intros [p2p s0 t0 io] (Hp & Hs & Ht & Hio). eexists. split; [reflexivity|]. by split_and!.
Qed.

(** ** The synchronisation *)

Lemma runs_verify fuel n stop fh fs f ms time s t :
  sendable wall (MCFHeaders fh) → Forall (λ f, sendable wall (MCFilters f)) (fs ++ [f]) →
  Forall (λ f, cf_block_hash f ≠ stop) fs → cf_block_hash f = stop →
  cfh_filter_hashes fh = map (λ f, sha256d (cf_filter_bytes f)) (fs ++ [f]) →
  time + 2 + 2 * zlen (fs ++ [f]) < 2 ^ 62 → (length fs < fuel)%nat →
  runs fuel (hearing (MCFHeaders fh :: map MCFilters (fs ++ [f]) ++ ms) time s t)
    (get_and_verify_compact_filters n stop) (fs ++ [f])
    (hearing ms (time + 2 + 2 * zlen (fs ++ [f])) s t).
Proof.
  intros Hh Hs Hne Hf Hhash Ht Hn. unfold get_and_verify_compact_filters.
  pose proof (zlen_nonneg (fs ++ [f])).
  eapply runs_bind.
  { apply runs_map_err, runs_on_peer, runs_filter_headers; [done|done|lia|lia]. }
  eapply runs_bind; [apply runs_map_err, runs_on_peer, runs_filters; try done|].
  rewrite (proj2 (filters_verified_spec _ _)); [apply runs_ret|].
  intros i h g Hi Hg. rewrite Hhash, list_lookup_fmap, Hg in Hi. by injection Hi as <-.
Qed.

(** The clock only has to be below the bound. *)
Lemma hearing_weaken ms time time' s t c :
  hearing ms time s t c → time ≤ time' → hearing ms time' s t c.
Proof. intros (? & ? & ? & ? & ? & ?) ?. repeat split; try done; lia. Qed.

Lemma runs_weaken {A} fuel (P : chain → Prop) m (a : A) ms time time' s t :
  runs fuel P m a (hearing ms time s t) → time ≤ time' → runs fuel P m a (hearing ms time' s t).
Proof.
  intros Hm Ht c Hc. destruct (Hm c Hc) as (c' & E & Hc'). exists c'.
  split; [done|by eapply hearing_weaken].
Qed.

Lemma runs_save fuel bs fh fs ms time s w r :
  honest wall (get_pubkeys w) (guest_get_utxos w) (MkBatch bs fh fs) → filed w →
  reports_distinct w (MkBatch bs fh fs) →
  0 ≤ time → time + 2 * zlen bs < 2 ^ 62 → (length bs ≤ fuel)%nat →
  runs fuel (hearing (map MBlock (asked (get_pubkeys w) fs bs) ++ ms) time s (w, r))
    (fetch_and_save_utxos fs) ()
    (hearing ms (time + 2 * zlen bs) s (next_wallet w (MkBatch bs fh fs), r)).
Proof.
  intros Hh Hw Hnd Ht0 Ht Hn. destruct (honest_asked _ _ _ _ _ _ Hh) as (hashes & E & Hlen & _).
  assert (zlen (asked (get_pubkeys w) fs bs) ≤ zlen bs) as Hle.
  { unfold asked. rewrite E. unfold zlen. pose proof (sublist_length _ _ (sublist_filter (λ b, block_hash b ∈ hashes) bs)). lia. }
  pose proof (honest_sendable _ _ _ _ Hh) as Hs. unfold batch_session in Hs. cbn in Hs.
  rewrite Forall_cons, Forall_app, !Forall_fmap in Hs. destruct Hs as (_ & _ & Hs).
  destruct (next_wallet_learns wall w _ Hh Hnd Hw) as (Hins & _). cbn [bt_blocks bt_filters] in Hins.
  apply runs_weaken with (time := time + 2 * zlen (asked (get_pubkeys w) fs bs)); [|lia].
  unfold fetch_and_save_utxos. eapply runs_bind; [by apply runs_ask|].
  eapply runs_bind; [by apply runs_lift, E|]. case_bool_decide as Hne.
  - subst hashes. apply nil_length_inv in Hlen as Ha. rewrite Ha in *. cbn [map app zlen length].
    unfold report, scan_blocks in Hins. cbn in Hins. injection Hins as <-. rewrite Z.add_0_r. apply runs_ret.
  - eapply runs_bind.
    { apply runs_map_err, runs_on_peer, (runs_blocks magic wall rest e magic_length); [| |done|lia|].
      - intros Ha. rewrite Ha in Hlen. by destruct hashes.
      - cbn [inv_objects]. by rewrite length_map.
      - unfold zlen in Hle. lia. }
    eapply runs_bind; [by apply runs_ask|]. apply runs_tell. cbn [api_insert_utxos watch_only_api fst snd].
    fold (report w (asked (get_pubkeys w) fs bs)). by rewrite Hins.
Qed.

(** The filters end with the last block's, the first with its hash. *)
Lemma honest_last now keys utxos bs fh fs :
  honest now keys utxos (MkBatch bs fh fs) →
  ∃ b fs0 f, last bs = Some b ∧ fs = fs0 ++ [f] ∧ cf_block_hash f = block_hash b
    ∧ Forall (λ g, cf_block_hash g ≠ block_hash b) fs0.
Proof.
  intros [Hc Hnd Hh _ _ _]. cbn in *.
  destruct bs as [|b bs _] using rev_ind; [unfold zlen in Hc; cbn in Hc; lia|].
  destruct fs as [|f fs _] using rev_ind.
  { rewrite map_app in Hh. by destruct (map block_hash bs). }
  rewrite !map_app in Hh. apply app_inj_tail in Hh as [Hh Hf].
  exists b, fs, f. split_and!; [apply last_snoc|done|done|].
  rewrite map_app, <- Hh in Hnd. apply NoDup_app in Hnd as (_ & Hnd & _).
  apply Forall_forall. intros g Hg Heq. apply (Hnd (cf_block_hash g)).
  - apply list_elem_of_fmap. by exists g.
  - rewrite Heq. left.
Qed.

(** One batch takes at most four clock units for each block, and two. *)
Lemma runs_batch fuel n bs b fh fs l ms ms' time time' s w r t' :
  honest wall (get_pubkeys w) (guest_get_utxos w) (MkBatch bs fh fs) → last bs = Some b → filed w →
  reports_distinct w (MkBatch bs fh fs) →
  0 ≤ time → time + 2 + 4 * zlen bs < 2 ^ 62 → (length bs ≤ fuel)%nat →
  let w' := next_wallet w (MkBatch bs fh fs) in
  runs fuel (hearing ms (time + 2 + 4 * zlen bs) s (w', r)) (sync_batches l) ()
    (hearing ms' time' s t') →
  runs fuel (hearing (batch_session (get_pubkeys w) (MkBatch bs fh fs) ++ ms) time s (w, r))
      (sync_batches ((n, block_hash b) :: l)) () (hearing ms' time' s t').
Proof.
  intros Hh Hb Hw Hnd Ht0 Ht Hn w' Hl. subst w'.
  destruct (honest_last _ _ _ _ _ _ Hh) as (b' & fs0 & f & Hb' & Hfs & Hf & Hfs0).
  rewrite Hb in Hb'. injection Hb' as <-.
  pose proof (honest_hashes _ _ _ _ Hh) as Hlen. apply (f_equal length) in Hlen.
  rewrite !length_map in Hlen. cbn in Hlen.
  pose proof (honest_sendable _ _ _ _ Hh) as Hs. unfold batch_session in Hs. cbn in Hs.
  rewrite !Forall_cons, Forall_app, !Forall_fmap in Hs. destruct Hs as (Hs2 & Hs3 & _).
  assert (Hsave := runs_save fuel bs fh fs ms (time + 2 + 2 * zlen fs) s w r Hh Hw Hnd
    ltac:(unfold zlen in *; lia) ltac:(unfold zlen in *; lia) Hn).
  unfold batch_session. cbn [sync_batches bt_headers bt_filters bt_blocks app].
  rewrite <- app_assoc. rewrite Hfs in *. eapply runs_bind.
  { apply (runs_verify fuel _ (block_hash b) fh fs0 f); try done.
    - apply (honest_headers _ _ _ _ Hh).
    - unfold zlen in *. lia.
    - rewrite length_app in Hlen. cbn in Hlen. lia. }
  rewrite bool_decide_eq_false_2 by (by destruct fs0).
  eapply runs_bind; [|exact Hl]. eapply runs_weaken; [exact Hsave|]. unfold zlen in *. lia.
Qed.

(** ** A round of headers, in batches *)

Definition batch_blocks (bts : list batch) : list Block := concat (map bt_blocks bts).

(** Where a batch starts and the block it ends with. *)
Definition batch_bounds (start : Z) (i : nat) (bt : batch) : Z * Hash256 :=
  (start + FILTER_SIZE * Z.of_nat i,
   default NO_HASH_STOP (block_hash <$> last (bt_blocks bt))).

(** The batches of a round: 500 blocks in every batch but the last, which has the
    rest. *)
Definition batched (bts : list batch) : Prop :=
  ∃ full final, bts = full ++ [final]
    ∧ Forall (λ bt, length (bt_blocks bt) = 500%nat) full
    ∧ (1 ≤ length (bt_blocks final) ≤ 500)%nat.

(** The batches the client asks for: all, unless the round has one block more than a
    multiple of 500; then the last batch, which is that block, is left out (the case of
    [sync_skips_last_block]). *)
Definition requested (bts : list batch) : list batch :=
  let n := zlen (batch_blocks bts) in
  if (1 <? n) && ((n - 1) mod FILTER_SIZE =? 0) then removelast bts else bts.

Lemma batch_blocks_app bts bts' : batch_blocks (bts ++ bts') = batch_blocks bts ++ batch_blocks bts'.
Proof. unfold batch_blocks. by rewrite map_app, concat_app. Qed.

Lemma full_length full :
  Forall (λ bt, length (bt_blocks bt) = 500%nat) full →
  length (batch_blocks full) = (500 * length full)%nat.
Proof.
  induction 1 as [|bt full Hbt _ IH]; [done|]. unfold batch_blocks in *. cbn [map concat].
  rewrite length_app, Hbt, IH. cbn. lia.
Qed.

Lemma full_lookup full i bt rest' :
  Forall (λ bt, length (bt_blocks bt) = 500%nat) full → full !! i = Some bt →
  (batch_blocks full ++ rest') !! (500 * S i - 1)%nat = last (bt_blocks bt).
Proof.
  intros Hf Hi. pose proof (proj1 (Forall_lookup _ _) Hf i bt Hi) as Hlen. cbn beta in Hlen.
  rewrite <- (take_drop_middle full i bt Hi), batch_blocks_app.
  assert (length (take i full) = i) as Hti
    by (apply length_take_le; apply lookup_lt_Some in Hi; lia).
  assert (Forall (λ bt, length (bt_blocks bt) = 500%nat) (take i full)) as Hft by (by apply Forall_take).
  pose proof (full_length _ Hft) as Hl. rewrite Hti in Hl.
  unfold batch_blocks at 2. cbn [map concat]. rewrite <- !app_assoc.
  rewrite lookup_app_r by lia. rewrite Hl, lookup_app_l by lia.
  rewrite last_lookup, Hlen. f_equal. lia.
Qed.

Lemma batched_length full final :
  Forall (λ bt, length (bt_blocks bt) = 500%nat) full →
  length (batch_blocks (full ++ [final])) = (500 * length full + length (bt_blocks final))%nat.
Proof.
  intros Hfull. rewrite batch_blocks_app, length_app, (full_length _ Hfull).
  unfold batch_blocks. cbn. by rewrite app_nil_r.
Qed.

Lemma requested_cases full final :
  Forall (λ bt, length (bt_blocks bt) = 500%nat) full → (1 ≤ length (bt_blocks final) ≤ 500)%nat →
  (requested (full ++ [final]) = full ∧ full ≠ [] ∧ length (bt_blocks final) = 1%nat)
  ∨ (requested (full ++ [final]) = full ++ [final] ∧ (full = [] ∨ (2 ≤ length (bt_blocks final))%nat)).
Proof.
  intros Hfull Hfin. unfold requested, zlen, FILTER_SIZE. rewrite (batched_length _ final Hfull).
  rewrite removelast_last. set (k := length (bt_blocks final)) in *.
  replace (Z.of_nat (500 * length full + k) - 1) with (Z.of_nat k - 1 + Z.of_nat (length full) * 500) by lia.
  rewrite Z.mod_add, Z.mod_small by lia.
  destruct full as [|bt full]; [right; split; [|by left]; cbn [length]|].
  - destruct (Z.ltb_spec 1 (Z.of_nat (500 * 0 + k))); [|done].
    by rewrite (proj2 (Z.eqb_neq _ _)) by lia.
  - cbn [length]. rewrite (proj2 (Z.ltb_lt _ _)) by lia. cbn [andb].
    destruct (Z.eqb_spec (Z.of_nat k - 1) 0); [left; split_and!; [done|done|lia]|right].
    split; [done|right; lia].
Qed.

Lemma requested_prefix bts : requested bts `prefix_of` bts.
Proof.
  unfold requested. destruct (_ && _); [|done]. destruct bts as [|bt bts _] using rev_ind; [done|].
  rewrite removelast_last. by exists [bt].
Qed.

Lemma requested_length bts : zlen (batch_blocks (requested bts)) ≤ zlen (batch_blocks bts).
Proof.
  destruct (requested_prefix bts) as [k Hk]. rewrite Hk at 2. rewrite batch_blocks_app, zlen_app.
  pose proof (zlen_nonneg (batch_blocks k)). lia.
Qed.

(** As many batches as the source counts. *)
Lemma requested_count {A} (l : list A) full final :
  Forall (λ bt, length (bt_blocks bt) = 500%nat) full → (1 ≤ length (bt_blocks final) ≤ 500)%nat →
  length l = (500 * length full + length (bt_blocks final))%nat →
  batch_count (zlen l) = Z.of_nat (length (requested (full ++ [final]))).
Proof.
  intros Hfull Hfin Hlen. unfold batch_count, FILTER_SIZE, zlen. rewrite Hlen.
  destruct (requested_cases full final Hfull Hfin) as [(-> & Hne & ->)|[-> Hor]].
  - destruct full as [|bt full]; [done|]. cbn [length].
    rewrite (proj2 (Z.ltb_lt _ _)) by lia.
    replace (Z.of_nat (500 * S (length full) + 1) - 2) with (499 + Z.of_nat (length full) * 500) by lia.
    rewrite Z.div_add by done. rewrite Z.div_small; lia.
  - rewrite length_app. cbn [length]. set (k := length (bt_blocks final)) in *.
    destruct (Z.ltb_spec 1 (Z.of_nat (500 * length full + k))); [|lia].
    replace (Z.of_nat (500 * length full + k) - 2)
      with (Z.of_nat k - 2 + Z.of_nat (length full) * 500) by lia.
    rewrite Z.div_add by done. rewrite Z.div_small; [lia|].
    destruct Hor as [->|]; cbn [length] in *; lia.
Qed.

(** The last block of a batch among the blocks of the round. *)
Lemma batch_last full final i bt :
  Forall (λ bt, length (bt_blocks bt) = 500%nat) full → (1 ≤ length (bt_blocks final) ≤ 500)%nat →
  (full ++ [final]) !! i = Some bt →
  batch_blocks (full ++ [final])
    !! (Nat.min (500 * S i) (500 * length full + length (bt_blocks final)) - 1)%nat
  = last (bt_blocks bt).
Proof.
  intros Hfull Hfin Hbt. rewrite batch_blocks_app.
  destruct (decide (i < length full)%nat) as [Hlt|Hge].
  - rewrite lookup_app_l in Hbt by done. rewrite Nat.min_l by lia. by apply full_lookup.
  - pose proof (lookup_lt_Some _ _ _ Hbt) as Hi. rewrite length_app in Hi. cbn in Hi.
    assert (i = length full) as -> by lia.
    rewrite lookup_app_r, Nat.sub_diag in Hbt by lia. injection Hbt as <-.
    rewrite Nat.min_r by lia. rewrite lookup_app_r by (rewrite full_length by done; lia).
    rewrite full_length by done. unfold batch_blocks. cbn [map concat]. rewrite app_nil_r.
    rewrite last_lookup. f_equal. lia.
Qed.

(** The batches of the source are these. *)
Lemma requested_batches bts lasth start :
  batched bts → last (batch_blocks bts) = Some lasth →
  batches (map block_header (batch_blocks bts)) (block_hash lasth) start
    (start + (zlen (map block_header (batch_blocks bts)) - 1))
  = list.imap (batch_bounds start) (requested bts).
Proof.
  intros (full & final & -> & Hfull & Hfin) Hl.
  set (headers := map block_header (batch_blocks (full ++ [final]))).
  assert (length headers = 500 * length full + length (bt_blocks final))%nat as Hlen
    by (unfold headers; by rewrite length_map, batched_length).
  assert (headers ≠ []) as Hne by (intros E; rewrite E in Hlen; cbn in Hlen; lia).
  assert (last headers = Some (block_header lasth)) as Hlh.
  { unfold headers. change (map block_header ?l) with (block_header <$> l). by rewrite fmap_last, Hl. }
  pose proof (requested_count headers full final Hfull Hfin Hlen) as Hc.
  pose proof (requested_prefix (full ++ [final])) as Hpre.
  apply list_eq. intros i. rewrite batches_lookup, Hc, list_lookup_imap by done.
  destruct (Z.ltb_spec (Z.of_nat i) (Z.of_nat (length (requested (full ++ [final]))))) as [Hi|Hi].
  - destruct (lookup_lt_is_Some_2 (requested (full ++ [final])) i ltac:(lia)) as [bt Hbt]. rewrite Hbt. cbn.
    unfold batch_bounds. do 2 f_equal. eapply prefix_lookup_Some in Hbt; [|exact Hpre].
    destruct (stop_hash_at headers (block_header lasth) (Z.to_nat FILTER_SIZE * S i) Hlh) as (hd & Hk & Hs);
      [unfold FILTER_SIZE; lia|].
    change (BlockHeader_hash (block_header lasth)) with (block_hash lasth) in Hs. rewrite Hs.
    pose proof (batch_last full final i bt Hfull Hfin Hbt) as E.
    rewrite <- Hlen in E. apply (f_equal (fmap block_header)) in E.
    rewrite <- list_lookup_fmap in E.
    change (block_header <$> batch_blocks (full ++ [final])) with headers in E.
    change (Z.to_nat FILTER_SIZE) with 500%nat in Hk. rewrite Hk in E.
    destruct (last (bt_blocks bt)) as [b|]; [|done]. cbn in E. by injection E as ->.
  - rewrite (lookup_ge_None_2 (requested _)) by lia. done.
Qed.

Lemma runs_batches fuel l bts ms time s w r :
  Forall2 (λ x bt, block_hash <$> last (bt_blocks bt) = Some x.2) l bts →
  honest_batches wall w bts → filed w →
  0 ≤ time → time + 6 * zlen (batch_blocks bts) < 2 ^ 62 →
  (length (batch_blocks bts) ≤ fuel)%nat →
  runs fuel (hearing (batches_session w bts ++ ms) time s (w, r)) (sync_batches l) ()
    (hearing ms (time + 6 * zlen (batch_blocks bts)) s (wallet_after w bts, r)).
Proof.
  intros Hl. revert time w. induction Hl as [|[n h] bt l bts Hx Hl IH]; intros time w Hh Hw Ht0 Ht Hn.
  - cbn. change (zlen (batch_blocks [])) with 0. rewrite Z.add_0_r. apply runs_ret.
  - destruct Hh as (Hh & Hnd & Hbs). cbn [snd] in Hx. pose proof (honest_count _ _ _ _ Hh) as Hc.
    destruct (next_wallet_learns wall w bt Hh Hnd Hw) as (_ & Hw1 & _).
    assert (batch_blocks (bt :: bts) = bt_blocks bt ++ batch_blocks bts) as Ebl by done.
    rewrite Ebl, zlen_app in *. rewrite length_app in Hn. pose proof (zlen_nonneg (batch_blocks bts)).
    destruct bt as [bs fh fs]. cbn [bt_blocks] in *.
    destruct (last bs) as [b|] eqn:Eb; [|done]. injection Hx as <-.
    cbn [batches_session]. rewrite <- app_assoc.
    eapply runs_batch; try done; [lia|lia|].
    eapply runs_weaken.
    + intros c Hc'. eapply (IH (time + 6 * zlen bs)); try done; [lia|lia|lia|].
      eapply hearing_weaken; [exact Hc'|lia].
    + lia.
Qed.

(** ** Rounds of headers *)

(** What the peer says in the rounds: headers and batches, until fewer than 2000
    headers come, or none. *)
Fixpoint rounds_session (w : WatchOnly) (rs : list (list batch)) : list Message :=
  match rs with
  | [] => [MHeaders (MkHeaders [])]
  | bts :: rs =>
    MHeaders (MkHeaders (map block_header (batch_blocks bts))) :: batches_session w (requested bts)
      ++ (if zlen (batch_blocks bts) <? MAX_HEADER_LEN then []
          else rounds_session (wallet_after w (requested bts)) rs)
  end.

Fixpoint honest_rounds (w : WatchOnly) (rs : list (list batch)) : Prop :=
  match rs with
  | [] => sendable wall (MHeaders (MkHeaders []))
  | bts :: rs =>
    batched bts ∧ sendable wall (MHeaders (MkHeaders (map block_header (batch_blocks bts))))
    ∧ honest_batches wall w (requested bts)
    ∧ (if zlen (batch_blocks bts) <? MAX_HEADER_LEN then rs = []
       else honest_rounds (wallet_after w (requested bts)) rs)
  end.

(** All batches that are asked for in the rounds. *)
Definition served (rs : list (list batch)) : list batch := concat (map requested rs).

(** These are all batches when no round has one block more than a multiple of 500. *)
Lemma served_all rs :
  Forall (λ bts, zlen (batch_blocks bts) = 1
    ∨ (zlen (batch_blocks bts) - 1) mod FILTER_SIZE ≠ 0) rs → served rs = concat rs.
Proof.
  unfold served. induction 1 as [|bts rs Hb _ IH]; [done|]. cbn [map concat]. rewrite IH. f_equal.
  unfold requested. destruct Hb as [->|Hb]; [done|]. rewrite (proj2 (Z.eqb_neq _ _)) by done.
  by rewrite andb_false_r.
Qed.

Lemma advance_app s l k : advance (advance s l) k = advance s (l ++ k).
Proof.
  unfold advance. rewrite last_app. destruct (last k) as [h|] eqn:Ek.
  - destruct (last l) eqn:El; cbn; rewrite zlen_app; [by rewrite Z.add_assoc|].
    apply last_None in El as ->. done.
  - apply last_None in Ek as ->. rewrite app_nil_r. done.
Qed.

Lemma batched_bounds bts start :
  batched bts →
  (∃ b, last (batch_blocks bts) = Some b) ∧ 1 ≤ zlen (batch_blocks bts)
  ∧ Forall2 (λ x bt, block_hash <$> last (bt_blocks bt) = Some x.2)
      (list.imap (batch_bounds start) (requested bts)) (requested bts).
Proof.
  intros (full & final & -> & Hfull & Hfin). pose proof (batched_length full final Hfull) as Hlen.
  split_and!.
  - apply last_is_Some. intros E. rewrite E in Hlen. cbn in Hlen. lia.
  - unfold zlen. lia.
  - apply Forall2_same_length_lookup_2; [by rewrite length_imap|].
    intros i x bt Hx Hbt. rewrite list_lookup_imap, Hbt in Hx. injection Hx as <-. unfold batch_bounds.
    cbn [snd]. eapply prefix_lookup_Some in Hbt; [|apply requested_prefix].
    assert (is_Some (last (bt_blocks bt))) as [b ->]; [|done].
    apply last_is_Some. intros E. apply list_elem_of_lookup_2 in Hbt.
    apply elem_of_app in Hbt as [Hbt|Hbt%list_elem_of_singleton].
    + rewrite Forall_forall in Hfull. specialize (Hfull _ Hbt). by rewrite E in Hfull.
    + subst bt. rewrite E in Hfin. cbn in Hfin. lia.
Qed.

Lemma runs_rounds n fuel rs time s w r :
  honest_rounds w rs → filed w → (length rs < n)%nat →
  0 ≤ last_block_height s → last_block_height s + zlen (batch_blocks (concat rs)) < 2 ^ 64 →
  0 ≤ time → time + 8 * zlen (batch_blocks (concat rs)) + 2 < 2 ^ 62 →
  (length (batch_blocks (concat rs)) < fuel)%nat →
  runs fuel (hearing (rounds_session w rs) time s (w, r)) (sync_loop n) ()
    (hearing [] (time + 8 * zlen (batch_blocks (concat rs)) + 2)
       (advance s (map block_header (batch_blocks (concat rs)))) (wallet_after w (served rs), r)).
Proof.
  revert n time s w. induction rs as [|bts rs IH]; intros n time s w Hh Hw Hn Hs0 Hs Ht0 Ht Hf;
    (destruct n as [|n]; [cbn in Hn; lia|]); cbn [honest_rounds rounds_session concat] in *.
  - change (zlen (batch_blocks [])) with 0 in *. intros c Hc. cbn [sync_loop]. unfold get_state. rewrite (proj1 (proj2 Hc)).
    revert c Hc. eapply runs_bind.
    { apply runs_map_err, runs_on_peer, runs_headers; [done|done|lia|cbn in Hf; lia]. }
    cbn [headers_inner last]. eapply runs_weaken; [apply runs_ret|]. lia.
  - destruct Hh as (Hsh & Hsend & Hbs & Hrs).
    rewrite batch_blocks_app, zlen_app, length_app in *. set (bl := batch_blocks bts) in *.
    destruct (batched_bounds bts (last_block_height s + 1) Hsh) as ([b Hb] & H1 & Hbounds).
    fold bl in Hb, H1. pose proof (zlen_nonneg (batch_blocks (concat rs))).
    destruct (batches_learned wall w (requested bts) Hbs Hw) as (Hw' & _ & _).
    pose proof (requested_length bts) as Hreq. fold bl in Hreq.
    pose proof (zlen_nonneg (batch_blocks (requested bts))).
    assert (last (map block_header bl) = Some (block_header b)) as Hl.
    { change (map block_header bl) with (block_header <$> bl). by rewrite fmap_last, Hb. }
    assert (zlen (map block_header bl) = zlen bl) as Hz by (unfold zlen; by rewrite length_map).
    intros c Hc. cbn [sync_loop]. unfold get_state. rewrite (proj1 (proj2 Hc)). revert c Hc.
    eapply runs_bind.
    { apply runs_map_err, runs_on_peer, runs_headers; [done|done|lia|lia]. }
    cbn [headers_inner]. rewrite Hl, Hz.
    eapply runs_bind; [apply runs_lift; apply checked_ok; lia|].
    eapply runs_bind; [apply runs_lift; apply checked_ok; lia|].
    change (BlockHeader_hash (block_header b)) with (block_hash b).
    rewrite <- Hz, (requested_batches bts b _ Hsh Hb).
    eapply runs_bind.
    { apply runs_batches; try done; unfold zlen in *; lia. }
    eapply runs_bind; [apply runs_set_state|]. fold bl. rewrite Hz.
    set (s' := MkChainState _ _).
    assert (s' = advance s (map block_header bl)) as ->.
    { unfold s', advance. rewrite Hl, Hz. f_equal. lia. }
    rewrite map_app, <- advance_app.
    assert (wallet_after w (served (bts :: rs)) = wallet_after (wallet_after w (requested bts)) (served rs))
      as -> by apply foldl_app.
    destruct (Z.ltb_spec (zlen bl) MAX_HEADER_LEN) as [Hlt|Hge].
    + subst rs. change (zlen (batch_blocks (concat []))) with 0.
      eapply runs_weaken; [apply runs_ret|]. lia.
    + eapply runs_weaken.
      * apply IH; try done; [cbn in Hn; lia|..|lia|lia|lia].
        -- unfold advance. rewrite Hl. cbn. lia.
        -- unfold advance. rewrite Hl. cbn. rewrite Hz. lia.
      * lia.
Qed.

Lemma honest_batches_app w bts bts' :
  honest_batches wall w bts → honest_batches wall (wallet_after w bts) bts' →
  honest_batches wall w (bts ++ bts').
Proof.
  revert w. induction bts as [|bt bts IH]; intros w; [done|]. cbn.
  intros (H1 & H2 & H3) H4. split_and!; auto.
Qed.

Lemma rounds_batches w rs : honest_rounds w rs → honest_batches wall w (served rs).
Proof.
  revert w. induction rs as [|bts rs IH]; intros w; [done|]. cbn [honest_rounds].
  intros (_ & _ & Hb & Hr). unfold served. cbn [map concat]. apply honest_batches_app; [done|].
  destruct (_ <? _); [by subst rs|by apply IH].
Qed.

(** A payment in a batch is known ever after. *)
Lemma payments_known w bts b txn i o :
  honest_batches wall w bts → filed w → b ∈ batch_blocks bts →
  txn ∈ block_txns b → tx_outputs txn !! i = Some o → TxMsg.txout_lock_script o ∈ get_pubkeys w →
  ∃ u, utxo_map (wallet_after w bts) !! (hash_bytes (Tx_hash txn), as_u32 (Z.of_nat i)) = Some u.
Proof.
  intros Hh Hw Hb Ht Ho Hk. unfold batch_blocks in Hb.
  apply Chain.elem_of_concat in Hb as (bl & Hb & (bt & -> & Hbt)%list_elem_of_fmap).
  destruct (batches_learned wall w bts Hh Hw) as (_ & _ & Hall).
  destruct (Hall bt Hbt) as (w1 & w2 & Hw1 & Hg1 & [Hl _] & Hw2 & Hg12 & Hg2).
  assert (get_pubkeys w1 = get_pubkeys w) as E.
  { destruct (Hg1 Hw) as (_ & (_ & _ & Ep & _) & _). unfold get_pubkeys. by rewrite Ep. }
  rewrite <- E in Hk. destruct (Hg2 Hw2) as (_ & _ & Hkeep).
  destruct (utxo_map w1 !! (hash_bytes (Tx_hash txn), as_u32 (Z.of_nat i))) as [u|] eqn:Eu.
  - assert (wallet_grows w1 (wallet_after w bts)) as Hg by (by etrans).
    destruct (Hg Hw1) as (_ & _ & Hk1). destruct (Hk1 _ _ Eu) as (u' & Hu' & _). by exists u'.
  - specialize (Hl b txn i o Hb Ht Ho Hk Eu).
    apply elem_of_guest_utxos in Hl as (op & u & Hu & Ee).
    destruct (Hw2 _ _ Hu) as [Eop _]. destruct (Hkeep _ _ Hu) as (u' & Hu' & _). exists u'.
    assert ((hash_bytes (Tx_hash txn), as_u32 (Z.of_nat i)) = op) as ->; [|done].
    rewrite <- Eop, (surjective_pairing (utxo_outpoint (wu_utxo u))).
    f_equal; [exact (f_equal gpu_txid Ee)|exact (f_equal gpu_vout Ee)].
Qed.

(** Every round has a block. *)
Lemma rounds_count w rs : honest_rounds w rs → (length rs ≤ length (batch_blocks (concat rs)))%nat.
Proof.
  revert w. induction rs as [|bts rs IH]; intros w; [cbn; lia|]. cbn [honest_rounds concat length].
  intros (Hsh & _ & _ & Hr). destruct (batched_bounds bts 0 Hsh) as (_ & H1 & _).
  rewrite batch_blocks_app, length_app. unfold zlen in H1.
  destruct (_ <? _); [subst rs; cbn; lia|]. apply IH in Hr. lia.
Qed.

End Session.

(** The whole synchronisation, with the wallet it ends with. *)
Lemma honest_sync `{BO : ByteOrder} `{SHA : Sha256} `{SIP : SipHash}
    `{PC : PsbtCrate} {R : Type} (c : CompactChain script (WatchOnly * R)) p w r
    magic q rs rest e fuel :
  cc_p2p c = Some p → cc_wallet c = (w, r) →
  sc_input (cc_io c) = rdr (concat (map (wire magic) (MPong q :: rounds_session w rs)) ++ rest) e →
  sendable (sc_wall (cc_io c)) (MPong q) → honest_rounds (sc_wall (cc_io c)) w rs → filed w →
  zlen magic = 4 → 0 ≤ sc_time (cc_io c) < 2 ^ 61 → 0 ≤ last_block_height (get_state c) < 2 ^ 63 →
  let blocks := batch_blocks (concat rs) in
  zlen blocks < 2 ^ 57 → (length blocks < fuel)%nat →
  let w' := wallet_after w (served rs) in
  ∃ c', sync_state (WA := watch_only_api) fuel c = Some (Ok (), c')
    ∧ get_state c' = advance (get_state c) (map block_header blocks)
    ∧ cc_wallet c' = (w', r) ∧ filed w' ∧ wallet_grows w w'
    ∧ (∀ bt, bt ∈ served rs → ∃ w1 w2, filed w1 ∧ wallet_grows w w1
         ∧ learns w1 w2 (bt_blocks bt) ∧ filed w2 ∧ wallet_grows w1 w2 ∧ wallet_grows w2 w')
    ∧ (∀ b txn i o, b ∈ batch_blocks (served rs) → txn ∈ block_txns b → tx_outputs txn !! i = Some o →
         TxMsg.txout_lock_script o ∈ get_pubkeys w →
         ∃ u, utxo_map w' !! (hash_bytes (Tx_hash txn), as_u32 (Z.of_nat i)) = Some u)
    ∧ cc_p2p c' = Some p
    ∧ hears magic (sc_wall (cc_io c)) rest e [] (sc_time (cc_io c) + 4 + 8 * zlen blocks) (cc_io c').
Proof.
  intros Hp Hwal Hin Hq Hh Hw Hm Ht Hs blocks Hbl Hf w'. pose proof (rounds_count _ _ _ Hh) as Hrs.
  fold blocks in Hrs. pose proof (zlen_nonneg blocks).
  pose proof (rounds_batches _ _ _ Hh) as Hb.
  destruct (batches_learned _ w (served rs) Hb Hw) as (Hw' & Hg & Hall).
  assert (runs fuel (hearing magic (sc_wall (cc_io c)) rest e p (MPong q :: rounds_session w rs)
      (sc_time (cc_io c)) (get_state c) (w, r)) (sync_state (WA := watch_only_api)) ()
    (hearing magic (sc_wall (cc_io c)) rest e p [] (sc_time (cc_io c) + 2 + 8 * zlen blocks + 2)
      (advance (get_state c) (map block_header blocks)) (wallet_after w (served rs), r))) as Hsync.
  { unfold sync_state. eapply runs_bind.
    - apply runs_map_err, runs_on_peer, runs_keep_alive; [done|done|lia|lia].
    - apply (runs_rounds magic (sc_wall (cc_io c)) rest e p Hm); try done; fold blocks; lia. }
  destruct (Hsync c) as (c' & E & (Hp' & Hst & Hwal' & Hears)).
  { split_and!; [done|done|done|]. split_and!; [done|lia|lia|done]. }
  exists c'. split_and!; try done.
  - intros b txn i o. by apply (payments_known (sc_wall (cc_io c))).
  - by replace (sc_time (cc_io c) + 4 + 8 * zlen blocks)
      with (sc_time (cc_io c) + 2 + 8 * zlen blocks + 2) by lia.
Qed.

(** ** Properties *)

(** C4: a synchronisation with an honest peer succeeds and finds what the blocks pay.
    The peer answers without delay in rounds of any number of headers, and for each batch of up to 500
    blocks that the client asks for it gives a filter for each block that holds the
    block's scripts, the filters' hashes, and the blocks asked for; no outpoint is
    reported twice in a batch.  With fuel for more turns than there are blocks the
    synchronisation ends without an error; the chain state is the last block's; the
    wallet keeps its keys and everything it knew, and learns each batch asked for: every
    output of a block that pays one of its scripts and was not known becomes known as
    unspent, and every output of its scripts that it knew before the batch and the batch
    spends becomes spent; so at the end it knows every payment of every block of these
    batches.  They are all batches when no round has one header more than a multiple of
    500; in such a round the last block is not asked for. *)
Theorem honest_sync_finds_payments `{BO : ByteOrder} `{SHA : Sha256} `{SIP : SipHash}
    `{PC : PsbtCrate} {R : Type} (c : CompactChain script (WatchOnly * R)) p w r
    magic q rs rest e fuel :
  cc_p2p c = Some p → cc_wallet c = (w, r) →
  sc_input (cc_io c) = rdr (concat (map (wire magic) (MPong q :: rounds_session w rs)) ++ rest) e →
  sendable (sc_wall (cc_io c)) (MPong q) → honest_rounds (sc_wall (cc_io c)) w rs → filed w →
  zlen magic = 4 → 0 ≤ sc_time (cc_io c) < 2 ^ 61 → 0 ≤ last_block_height (get_state c) < 2 ^ 63 →
  let blocks := batch_blocks (concat rs) in
  zlen blocks < 2 ^ 57 → (length blocks < fuel)%nat →
  ∃ c' w', sync_state (WA := watch_only_api) fuel c = Some (Ok (), c')
    ∧ get_state c' = advance (get_state c) (map block_header blocks)
    ∧ cc_wallet c' = (w', r) ∧ filed w' ∧ wallet_grows w w'
    ∧ (∀ bt, bt ∈ served rs → ∃ w1 w2, filed w1 ∧ wallet_grows w w1
         ∧ learns w1 w2 (bt_blocks bt) ∧ filed w2 ∧ wallet_grows w1 w2 ∧ wallet_grows w2 w')
    ∧ (∀ b txn i o, b ∈ batch_blocks (served rs) → txn ∈ block_txns b → tx_outputs txn !! i = Some o →
         TxMsg.txout_lock_script o ∈ get_pubkeys w →
         ∃ u, utxo_map w' !! (hash_bytes (Tx_hash txn), as_u32 (Z.of_nat i)) = Some u)
    ∧ (Forall (λ bts, zlen (batch_blocks bts) = 1
         ∨ (zlen (batch_blocks bts) - 1) mod FILTER_SIZE ≠ 0) rs → served rs = concat rs).
Proof.
  intros Hp Hwal Hin Hq Hh Hw Hm Ht Hs blocks Hbl Hf.
  destruct (honest_sync c p w r magic q rs rest e fuel Hp Hwal Hin Hq Hh Hw Hm Ht Hs Hbl Hf)
    as (c' & H1 & H2 & H3 & H4 & H5 & H6 & H7 & _). exists c', (wallet_after w (served rs)).
  split_and!; try done. apply served_all.
Qed.

(** ** Witness: a peer with 502 blocks, the last of which pays the wallet *)

#[local] Existing Instances std_byteorder padded_sha256 example_siphash.

#[export] Instance message_wf_dec now m : Decision (message_wf now m).
Proof.
  destruct m; cbn [message_wf]; try apply _.
  apply and_dec; [apply _|]. destruct (Version_validate now _) as [[]| |]; [by left|by right..].
Defined.
#[export] Instance sendable_dec now m : Decision (sendable now m).
Proof. unfold sendable. apply _. Defined.

Definition empty_block (i : Z) : Block :=
  MkBlock (MkBlockHeader (i + 2) NO_HASH_STOP NO_HASH_STOP 1231006505 0x1d00ffff 0) [].

(** The filter of a block: no items, or the wallet's script. *)
Definition filter_of (b : Block) : CompactFilter :=
  MkCompactFilter 0 (block_hash b) (if block_txns b is [] then [0] else wallet_filter).

Definition batch_of (bs : list Block) : batch :=
  MkBatch bs
    (MkCompactFilterHeader 0 (default NO_HASH_STOP (block_hash <$> last bs)) NO_HASH_STOP
       (map (λ b, sha256d (cf_filter_bytes (filter_of b))) bs))
    (map filter_of bs).

Definition full_batch : batch := batch_of (map empty_block (seqZ 0 500)).
Definition last_batch : batch := batch_of [empty_block 500; wallet_block].
Definition paid_round : list batch := [full_batch; last_batch].

Lemma batch_of_honest w bs :
  guest_get_utxos w = [] → 1 ≤ zlen bs ≤ 500 → NoDup (map block_hash bs) →
  Forall (λ b, block_txns b = [] ∨ b = wallet_block) bs →
  Forall (sendable example_wall) (batch_session (get_pubkeys w) (batch_of bs)) →
  honest example_wall (get_pubkeys w) (guest_get_utxos w) (batch_of bs).
Proof.
  intros Hu Hc Hnd Hbs Hs. split; cbn [batch_of bt_blocks bt_filters bt_headers cfh_filter_hashes];
    [done|done|by rewrite map_map|by rewrite map_map| |done].
  rewrite Hu. clear -Hbs. induction Hbs as [|b bs Hb _ IH]; cbn [map]; constructor; [|done].
  destruct Hb as [Hb| ->].
  - exists []. split.
    + split; [by_eval|]. exists [], []. cbn. rewrite Hb. split_and!; [done|constructor|done].
    + intros k (txn & Ht & _). rewrite Hb in Ht. by apply not_elem_of_nil in Ht.
  - exists [wallet_script]. split.
    + split; [by_eval|]. exists [0; 0; 0], [false; false; false; false].
      split_and!; [done|by_eval|by vm_compute].
    + intros k (txn & Ht & [(o & Ho & <-)|(input & u & _ & Hn & _)]).
      * apply list_elem_of_singleton in Ht. subst txn. apply list_elem_of_singleton in Ho.
        subst o. left.
      * by apply not_elem_of_nil in Hn.
Qed.

(** The empty blocks change nothing. *)
Lemma full_batch_wallet : next_wallet receiving_wallet full_batch = receiving_wallet.
Proof. vm_compute. reflexivity. Qed.

Lemma paid_batches : honest_batches example_wall receiving_wallet paid_round.
Proof.
  unfold paid_round. cbn [honest_batches]. rewrite full_batch_wallet. split_and!; [..|done].
  - apply batch_of_honest; [reflexivity|by vm_compute|by_eval| |by_eval].
    apply Forall_map, Forall_forall. intros i _. by left.
  - by_eval.
  - apply batch_of_honest; [reflexivity|by vm_compute|by_eval| |by_eval].
    apply Forall_cons. split; [by left|]. apply Forall_cons. split; [by right|constructor].
  - by_eval.
Qed.

Lemma paid_rounds : honest_rounds example_wall receiving_wallet [paid_round].
Proof.
  cbn [honest_rounds]. split_and!; [|by_eval|exact paid_batches|by vm_compute].
  exists [full_batch], last_batch. split_and!; [done|by apply Forall_singleton|cbn; lia|cbn; lia].
Qed.

Definition paid_peer : CompactChain script (WatchOnly * ()) :=
  MkCompactChain (Some example_peer) (MkChainState (MkHash256 (replicate 32 0)) 0)
    (receiving_wallet, ()) (saying (MPong (MkPing 1) :: rounds_session receiving_wallet [paid_round])).

Lemma honest_sync_finds_payments_witness :
  ∃ c' w', sync_state (WA := watch_only_api) 503%nat paid_peer = Some (Ok (), c')
    ∧ last_block_height (get_state c') = 502 ∧ cc_wallet c' = (w', ())
    ∧ ∃ u, utxo_map w' !! (hash_bytes (Tx_hash wallet_tx), 0) = Some u.
Proof.
  destruct (honest_sync_finds_payments paid_peer example_peer receiving_wallet ()
    (peer_magic example_peer) (MkPing 1) [paid_round] [] eof 503)
    as (c' & w' & E & Hst & Hw & _ & _ & _ & Hp & _).
  - reflexivity.
  - reflexivity.
  - rewrite app_nil_r. reflexivity.
  - by_eval.
  - exact paid_rounds.
  - exact receiving_filed.
  - reflexivity.
  - by vm_compute.
  - by vm_compute.
  - by vm_compute.
  - change (length (batch_blocks (concat [paid_round]))) with 502%nat. lia.
  - exists c', w'. split; [exact E|]. split; [rewrite Hst; vm_compute; reflexivity|].
    split; [exact Hw|].
    apply (Hp wallet_block wallet_tx 0%nat (TxMsg.MkTxOut 5000 wallet_script));
      [by_eval|left|reflexivity|by_eval].
Defined.
