(* ===== verification/EndToEnd.v ===== *)
(** * From the peer to the disk and back

    The node with the components it is shipped with: the compact chain, the watch-only
    wallet and the log-structured store.  What an honest peer's blocks pay is in the
    balance, on the disk, and in the node of the next start. *)

From S2P Require Import Prelude Errors Io Hash256 TxMsg BlockMsg NetMsg Message BlockFilter KvEntry KvStore KvSegments KvBitcask KvRestart WalletTypes CoinSelection WalletApi Wallet P2P Chain Node Components Assembly AnyPeer Honest.

(** ** The store under the node *)

Section Stored.
  Context `{BO : ByteOrder} `{WA : Wasi} {S : Type} `{ST : !Store S} `{SO : !StoreOk S}.
  Context `{HI : !HashIter Z} `{HK : !HashIter bytes}.
  Context (files_readable : ∀ w, readable (S := S) w).

#[local] Instance stored_kv : KvComponent (KVStore S * world) :=
  bitcask_component files_readable.

Implicit Types d : KVStore S * world.

(** The bytes that insertions write. *)
Definition entries_size (l : list (bytes * bytes)) : Z :=
  foldr Z.add 0 (map (λ x, record_length x.1 x.2) l).

Lemma entries_size_nonneg l : 0 ≤ entries_size l.
Proof.
  induction l as [|x l IH]; [done|]. unfold entries_size in *. cbn [map foldr].
  pose proof (record_length_pos x.1 x.2). lia.
Qed.

(** A store in one file takes the insertions, on a healthy disk and below the
    threshold, and stays in its file. *)
Lemma db_inserts_one_file l : ∀ d m logs,
  disk_ok (S:=S) → one_file d.2 d.1 m logs → inserts_ready l d →
  active_size d + entries_size l ≤ sgs_max_segment_size_bytes (kv_segments d.1) < 4294967296 →
  ∃ d' m' logs', db_inserts l d = (Ok (), d') ∧ one_file d'.2 d'.1 m' logs'
    ∧ active_size d' = active_size d + entries_size l
    ∧ sgs_directory (kv_segments d'.1) = sgs_directory (kv_segments d.1)
    ∧ sgs_max_segment_size_bytes (kv_segments d'.1) = sgs_max_segment_size_bytes (kv_segments d.1).
Proof.
  induction l as [|[k v] l IH]; intros d m logs Hdisk Hone Hready Hsz.
  { exists d, m, logs. split_and!; [done|done| |done|done]. unfold entries_size. cbn. lia. }
  destruct Hready as [((m0 & Hm0) & Hc & Hn & Hwf) Hready]. destruct d as [kv w]. cbn [fst snd] in *.
  change (entries_size ((k, v) :: l)) with (record_length k v + entries_size l) in *.
  pose proof (entries_size_nonneg l). pose proof (record_length_pos k v).
  assert (0 ≤ active_size (kv, w)) as Hpos.
  { destruct (jr_active _ _ _ (of_journal _ _ _ _ Hone)) as (x & _ & Hx). unfold active_size.
    cbn [fst]. rewrite Hx. apply zlen_nonneg. }
  assert (below_threshold (kv_segments kv)) as Hbelow.
  { unfold below_threshold, as_i64. rewrite as_u64_id by ints.
    rewrite (proj2 (Z.ltb_lt _ _)) by lia. unfold active_size in *. cbn [fst] in *. lia. }
  assert (∃ kv' w', guest_insert w kv k v = (Ok tt, (kv', w'))) as (kv' & w' & E).
  { unfold guest_insert, KVStore_update. destruct (KVStore_put w kv k v) as [r [kv' w']] eqn:E.
    destruct (KVStore_put_ok _ _ _ _ _ _ _ _ (of_rep _ _ _ _ Hone) Hc Hn Hwf E) as [_ Hok].
    rewrite (Hok Hdisk). by exists kv', w'. }
  destruct (put_one_file _ _ _ _ _ _ _ _ Hone Hc Hn Hwf Hbelow E)
    as (logs1 & Hone1 & Hs1 & _ & Hd1 & Hm1 & _).
  destruct (IH (kv', w') _ _ Hdisk Hone1) as (d' & m' & logs' & H1 & H2 & H3 & H4 & H5).
  - by apply Hready.
  - unfold active_size in *. cbn [fst] in *. rewrite Hs1, Hm1. lia.
  - exists d', m', logs'. split_and!; try done.
    + cbn [db_inserts]. unfold db_insert. cbn [kv_insert stored_kv bitcask_component fst snd].
      rewrite E. exact H1.
    + rewrite H3. unfold active_size in *. cbn [fst] in *. rewrite Hs1. lia.
    + by rewrite H4.
    + by rewrite H5.
Qed.

End Stored.

(** ** The node on its store *)

Section Whole.
  Context `{BO : ByteOrder} `{SHA : Sha256} `{SIP : SipHash} `{HX : Hex}.
  Context `{BC : BitcoinCrate} `{KC : KeyCrate} `{PC : !PsbtCrate} `{WT : !WalletText}.
  Context {R : Type} `{RNG : RngCore R} (seed : R) {SG : Type} `{SC : SignerComponent SG} `{BI : Bincode}.
  Context `{WA : Wasi} {S : Type} `{ST : !Store S} `{SO : !StoreOk S}.
  Context `{HI : !HashIter Z} `{HK : !HashIter bytes}.
  Context (files_readable : ∀ w, readable (S := S) w).

#[local] Existing Instance watch_only_api.
#[local] Instance whole_wallet : WalletComponent (WatchOnly * R) := watch_only_component seed.
#[local] Instance whole_kv : KvComponent (KVStore S * world) := bitcask_component files_readable.

Abbreviation whole_node := (Node script (WatchOnly * R) SG (KVStore S * world)).

(** What is stored of a position in the chain, a wallet, a signer and a configuration. *)
Definition node_entries (s : ChainState) (t : WatchOnly * R) (sg : SG) (ns : NodeState)
    : list (bytes * bytes) :=
  [(CHAIN_STATE_KEY, encode_chain_state s); (WALLET_STATE_KEY, wallet_get_state t);
   (SIGNER_STATE_KEY, signer_get_state sg); (NODE_STATE_KEY, encode_node_state ns)].

(** The balance is the wallet's once the chain is synchronised and the state stored. *)
Lemma Node_balance_runs fuel (n : whole_node) u c' d' b :
  sync_state fuel (node_chain n) = Some (Ok u, c') →
  db_inserts (node_entries (get_state c') (cc_wallet c') (node_signer n) (node_state n)) (node_db n)
    = (Ok (), d') →
  wallet_balance (cc_wallet c') = Ok b →
  Node_balance fuel n = Some (Ok b, MkNode c' (node_signer n) (node_state n) d').
Proof.
  intros Hs Hd Hb. unfold Node_balance, on_chain. unfold mbind, net_bind. rewrite Hs.
  unfold store_state, net_step, query.
  change (state_entries (MkNode c' (node_signer n) (node_state n) (node_db n)))
    with (node_entries (get_state c') (cc_wallet c') (node_signer n) (node_state n)).
  cbn [node_db]. rewrite Hd. unfold net_step, node_wallet. cbn [node_chain]. by rewrite Hb.
Qed.

(** The state that the files hold is that of the node of the next start. *)
Lemma restored_node (d : KVStore S * world) s (t : WatchOnly * R) (sg : SG) ns fuel io io' p :
  kv_settled d → holds_state d s t sg ns →
  connect_peer (ns_socket_address ns) (ns_network ns) fuel io = Some (Ok p, io') →
  ∃ (n2 : whole_node) t2, guest_node_new NodeOldState (kv_files d) fuel io = Some (Ok n2, io')
    ∧ node_chain n2 = MkCompactChain (Some p) s t2 io' ∧ t2.1 = t.1
    ∧ node_signer n2 = sg ∧ node_state n2 = ns.
Proof.
  intros Hset Hholds Hconn. destruct (reopened_holds d _ _ _ _ Hset Hholds) as (d2 & Hnew & Hholds2).
  destruct (restore_holds (kv_files d) d2 s t sg ns fuel io io' p Hnew Hholds2 Hconn)
    as (t2 & Ht & Hst & _).
  eexists _, t2. split; [exact Ht|]. split_and!; try done.
  apply (f_equal bincode_deserialize) in Hst. cbn in Hst. unfold guest_get_state in Hst.
  rewrite !bincode_round_trip in Hst. by injection Hst.
Qed.

(** The first insertion alone changes the position and nothing else. *)
Lemma torn_holds (d d' : KVStore S * world) s s' (t : WatchOnly * R) (sg : SG) ns :
  holds_state d s t sg ns → inserts_ready [(CHAIN_STATE_KEY, encode_chain_state s')] d →
  db_inserts [(CHAIN_STATE_KEY, encode_chain_state s')] d = (Ok (), d') → holds_state d' s' t sg ns.
Proof.
  intros (_ & Hw & Hs & Hn) Hr Hd.
  destruct (db_inserts_ok [(CHAIN_STATE_KEY, encode_chain_state s')] d d' (NoDup_singleton _) Hr Hd) as [Hin Hout].
  split_and!; [apply Hin; left|rewrite Hout; [done|cbn; apply (bool_decide_unpack _); by vm_compute]..].
Qed.

(** ** Properties *)

(** C2: the money an honest peer shows is in the balance, on the disk, and there after a
    restart.  A node in its first session, whose wallet so far only received and whose
    store has its records in one segment file, on a healthy disk, asks for the balance
    while the peer serves blocks truthfully and without delay; the wallet's unspent
    outputs are worth less than [2 ^ 64], the state fits below the segment threshold and
    no merge is due.  The call succeeds and returns the sum of the wallet's unspent
    outputs, with every payment of every block that the client asked for among the
    wallet's outputs (all blocks but the last one of a round of one header more than a
    multiple of 500); the component started again on the files, with an id that no file
    has, once a peer is connected, is at the position of the last block with exactly that
    wallet, the same signer and the same configuration. *)
Theorem payments_survive_restart (n : whole_node) p w r magic q rs rest e fuel m logs fuel' io io' p' :
  let c := node_chain n in
  cc_p2p c = Some p → node_wallet n = (w, r) → sound w →
  sc_input (cc_io c) = rdr (concat (map (wire magic) (MPong q :: rounds_session w rs)) ++ rest) e →
  sendable (sc_wall (cc_io c)) (MPong q) → honest_rounds (sc_wall (cc_io c)) w rs →
  zlen magic = 4 → 0 ≤ sc_time (cc_io c) < 2 ^ 61 → 0 ≤ last_block_height (get_state c) < 2 ^ 63 →
  let blocks := batch_blocks (concat rs) in
  zlen blocks < 2 ^ 57 → (length blocks < fuel)%nat →
  let w' := wallet_after w (served rs) in
  let total := zsum (λ kv, unspent_value kv.2) (map_to_list (utxo_map w')) in
  total < 2 ^ 64 →
  let s' := advance (get_state c) (map block_header blocks) in
  let stored := node_entries s' (w', r) (node_signer n) (node_state n) in
  disk_ok (S:=S) → reopenable (S:=S) → one_file (node_db n).2 (node_db n).1 m logs →
  sgs_directory (kv_segments (node_db n).1) = cfg_directory default_config →
  sgs_max_segment_size_bytes (kv_segments (node_db n).1) = cfg_max_segment_size_bytes default_config →
  inserts_ready stored (node_db n) →
  active_size (node_db n) + entries_size stored ≤ cfg_max_segment_size_bytes default_config →
  (let d' := (db_inserts stored (node_db n)).2 in KvSegments.fresh d'.2 (kv_segments d'.1)) →
  connect_peer (ns_socket_address (node_state n)) (ns_network (node_state n)) fuel' io
    = Some (Ok p', io') →
  ∃ n' n2, guest_get_balance fuel n = Some (Ok total, n')
    ∧ (∀ b txn i o, b ∈ batch_blocks (served rs) → txn ∈ block_txns b → tx_outputs txn !! i = Some o →
         TxMsg.txout_lock_script o ∈ get_pubkeys w →
         is_Some (utxo_map w' !! (hash_bytes (Tx_hash txn), as_u32 (Z.of_nat i))))
    ∧ guest_node_new NodeOldState (kv_files (node_db n')) fuel' io = Some (Ok (n2 : whole_node), io')
    ∧ get_state (node_chain n2) = s' ∧ (node_wallet n2).1 = w'
    ∧ node_signer n2 = node_signer n ∧ node_state n2 = node_state n.
Proof.
  intros c Hp Hw Hsound Hin Hq Hh Hm Ht Hs blocks Hbl Hf w' total Htot s' stored
    Hdisk Hre Hone Hdir Hmax Hready Hsz Hfresh Hconn.
  destruct (honest_sync c p w r magic q rs rest e fuel Hp Hw Hin Hq Hh (sound_filed _ Hsound) Hm Ht Hs
    Hbl Hf) as (c' & Hsync & Hst & Hwal & _ & _ & _ & Hpay & _).
  fold blocks s' in Hst. fold w' in Hwal, Hpay.
  assert (balance w' = Ok total) as Hbal.
  { pose proof (sync_sound _ _ _ _ Hsync) as Hsound'. change (cc_wallet c = (w, r)) in Hw.
    rewrite Hwal, Hw in Hsound'.
    cbn [fst] in Hsound'.
    rewrite (sound_balance _ (Hsound' Hsound)). fold total. by rewrite (proj2 (Z.ltb_lt _ _)). }
  destruct (db_inserts_one_file files_readable stored (node_db n) m logs Hdisk Hone Hready)
    as (d' & m' & logs' & Hd & Hone' & Hsz' & Hdir' & _); [rewrite Hmax; cbn in Hsz |- *; lia|].
  change (db_inserts stored (node_db n) = (Ok (), d')) in Hd. rewrite Hd in Hfresh. cbn [snd] in Hfresh.
  assert (bitcask_settled d') as Hset.
  { split_and!; [done|by exists m', logs'|rewrite Hsz'; cbn in Hsz |- *; lia|by rewrite Hdir'|done]. }
  unfold stored in Hd, Hready. rewrite <- Hst, <- Hwal in Hd, Hready.
  pose proof (db_inserts_holds (MkNode c' (node_signer n) (node_state n) (node_db n)) _ _ Hready Hd)
    as Hholds.
  destruct (restored_node d' _ _ _ _ fuel' io io' p' Hset Hholds Hconn) as (n2 & t2 & Hn2 & H1 & H2 & H3 & H4).
  exists (MkNode c' (node_signer n) (node_state n) d'), n2. split_and!; try done.
  - unfold guest_get_balance, with_code.
    erewrite Node_balance_runs; [reflexivity|exact Hsync|exact Hd|].
    rewrite Hwal. cbn. unfold guest_balance. by rewrite Hbal.
  - by rewrite H1.
  - unfold node_wallet. rewrite H1. cbn. rewrite H2. unfold node_wallet. cbn. by rewrite Hwal.
Qed.

(** C35: a stop in the middle of storing the state loses payments for good.  A node whose
    state is on the disk, in one segment file and with no merge due, synchronises with an
    honest peer; a block pays the wallet an output it did not know.  The process stops
    after the first of the insertions of [store_state], the one of the position in the
    chain.  The component started again is then past that block with the wallet from before it, and after a further
    synchronisation with any honest peer whose blocks do not have that transaction (they
    come after that position) the wallet still does not know the output. *)
Theorem torn_state_loses_payments (n : whole_node) p w r magic q rs rest e fuel m logs
    fuel' io io' p' magic' q' rs' rest' e' fuel'' b txn i o :
  let c := node_chain n in
  cc_p2p c = Some p → node_wallet n = (w, r) → filed w →
  sc_input (cc_io c) = rdr (concat (map (wire magic) (MPong q :: rounds_session w rs)) ++ rest) e →
  sendable (sc_wall (cc_io c)) (MPong q) → honest_rounds (sc_wall (cc_io c)) w rs →
  zlen magic = 4 → 0 ≤ sc_time (cc_io c) < 2 ^ 61 → 0 ≤ last_block_height (get_state c) →
  let blocks := batch_blocks (concat rs) in
  zlen blocks < 2 ^ 57 → (length blocks < fuel)%nat →
  let s' := advance (get_state c) (map block_header blocks) in
  last_block_height s' < 2 ^ 63 →
  b ∈ batch_blocks (served rs) → txn ∈ block_txns b → tx_outputs txn !! i = Some o →
  TxMsg.txout_lock_script o ∈ get_pubkeys w →
  let op := (hash_bytes (Tx_hash txn), as_u32 (Z.of_nat i)) in
  utxo_map w !! op = None →
  holds_state (node_db n) (get_state c) (w, r) (node_signer n) (node_state n) →
  disk_ok (S:=S) → reopenable (S:=S) → one_file (node_db n).2 (node_db n).1 m logs →
  sgs_directory (kv_segments (node_db n).1) = cfg_directory default_config →
  sgs_max_segment_size_bytes (kv_segments (node_db n).1) = cfg_max_segment_size_bytes default_config →
  let first := [(CHAIN_STATE_KEY, encode_chain_state s')] in
  inserts_ready first (node_db n) →
  active_size (node_db n) + entries_size first ≤ cfg_max_segment_size_bytes default_config →
  let d1 := (db_inserts first (node_db n)).2 in
  KvSegments.fresh d1.2 (kv_segments d1.1) →
  connect_peer (ns_socket_address (node_state n)) (ns_network (node_state n)) fuel' io
    = Some (Ok p', io') →
  sc_input io' = rdr (concat (map (wire magic') (MPong q' :: rounds_session w rs')) ++ rest') e' →
  sendable (sc_wall io') (MPong q') → honest_rounds (sc_wall io') w rs' →
  zlen magic' = 4 → 0 ≤ sc_time io' < 2 ^ 61 →
  zlen (batch_blocks (concat rs')) < 2 ^ 57 → (length (batch_blocks (concat rs')) < fuel'')%nat →
  (∀ b' txn', b' ∈ batch_blocks (served rs') → txn' ∈ block_txns b' →
     hash_bytes (Tx_hash txn') ≠ hash_bytes (Tx_hash txn)) →
  ∃ c' n2 c3, sync_state fuel c = Some (Ok (), c') ∧ is_Some (utxo_map (cc_wallet c').1 !! op)
    ∧ take 1 (state_entries (MkNode c' (node_signer n) (node_state n) (node_db n))) = first
    ∧ guest_node_new NodeOldState (kv_files d1) fuel' io = Some (Ok (n2 : whole_node), io')
    ∧ get_state c' = s' ∧ get_state (node_chain n2) = s' ∧ (node_wallet n2).1 = w
    ∧ sync_state fuel'' (node_chain n2) = Some (Ok (), c3)
    ∧ get_state c3 = advance s' (map block_header (batch_blocks (concat rs')))
    ∧ utxo_map (cc_wallet c3).1 !! op = None.
Proof.
  intros c Hp Hw Hfiled Hin Hq Hh Hm Ht Hs blocks Hbl Hf s' Hs' Hb Htx Ho Hk op Hop Hholds Hdisk Hre Hone
    Hdir Hmax first Hready Hsz d1 Hfresh Hconn Hin' Hq' Hh' Hm' Ht' Hbl' Hf' Hnew.
  assert (last_block_height (get_state c) ≤ last_block_height s') as Hmono.
  { unfold s', advance. destruct (last _); [|lia]. cbn. pose proof (zlen_nonneg (map block_header blocks)). lia. }
  destruct (honest_sync c p w r magic q rs rest e fuel Hp Hw Hin Hq Hh Hfiled Hm Ht ltac:(lia) Hbl Hf)
    as (c' & Hsync & Hst & Hwal & _ & _ & _ & Hpay & _).
  destruct (db_inserts_one_file files_readable first (node_db n) m logs Hdisk Hone Hready)
    as (d' & m' & logs' & Hd & Hone' & Hsz' & Hdir' & _); [rewrite Hmax; cbn in Hsz |- *; lia|].
  change (db_inserts first (node_db n) = (Ok (), d')) in Hd.
  assert (d1 = d') as Ed by (unfold d1; by rewrite Hd). rewrite Ed in *.
  assert (bitcask_settled d') as Hset.
  { split_and!; [done|by exists m', logs'|rewrite Hsz'; cbn in Hsz |- *; lia|by rewrite Hdir'|done]. }
  assert (holds_state d' s' (w, r) (node_signer n) (node_state n)) as Hholds'
    by (by eapply torn_holds).
  destruct (restored_node d' _ _ _ _ fuel' io io' p' Hset Hholds' Hconn)
    as (n2 & [w2 r2] & Hn2 & H1 & H2 & _). cbn [fst] in H2. subst w2.
  destruct (honest_sync (node_chain n2) p' w r2 magic' q' rs' rest' e' fuel'')
    as (c3 & Hsync3 & Hst3 & Hwal3 & _); rewrite ?H1; try done; [cbn; lia|].
  exists c', n2, c3. split_and!; try done.
  - rewrite Hwal. destruct (Hpay b txn i o Hb Htx Ho Hk) as [u Hu]. by exists u.
  - unfold state_entries. cbn [take node_chain]. by rewrite Hst.
  - by rewrite H1.
  - unfold node_wallet. by rewrite H1.
  - by rewrite Hst3, H1.
  - rewrite Hwal3. cbn [fst].
    destruct (utxo_map (wallet_after w (served rs')) !! op) as [u|] eqn:E; [|done]. exfalso.
    destruct (wallet_after_known (sc_wall io') w (served rs') op) as [[u' Hu']|(bt & b' & txn' & Hbt & Hb' & Ht2 & Eo)];
      [by apply rounds_batches|done|by exists u|by rewrite Hu' in Hop|].
    apply (Hnew b' txn'); [|done|done]. unfold batch_blocks. apply Chain.elem_of_concat.
    exists (bt_blocks bt). split; [done|]. apply list_elem_of_fmap. by exists bt.
Qed.

End Whole.

(** ** Witness *)

(** A wallet's state, written as the bits of one number. *)
Fixpoint to_bits (p : positive) : bytes :=
  match p with xH => [] | xO p => 0 :: to_bits p | xI p => 1 :: to_bits p end.

Fixpoint of_bits (l : bytes) : positive :=
  match l with [] => xH | b :: l => if b =? 0 then xO (of_bits l) else xI (of_bits l) end.

Lemma of_to_bits p : of_bits (to_bits p) = p.
Proof. by induction p as [p IH|p IH|]; cbn; rewrite ?IH. Qed.

#[local] Instance WeightedUtxo_countable : Countable WeightedUtxo.
Proof.
  refine (inj_countable' (λ u, let x := wu_utxo u in
      [(utxo_outpoint x).1; txo_script_pubkey (utxo_txout x);
       [wu_satisfaction_weight u; (utxo_outpoint x).2; txo_value (utxo_txout x);
        KeychainKind_as_u32 (utxo_keychain x); if utxo_is_spent x then 1 else 0;
        utxo_derivation_index x]; match utxo_chain_position x with Some n => [n] | None => [] end])
    (λ l, match l with
     | [txid; script; [weight; vout; value; kind; spent; index]; position] =>
       MkWeightedUtxo weight (MkUtxo (txid, vout) (WalletTypes.MkTxOut value script)
         (if kind =? 0 then External else Internal) (spent =? 1) index (head position))
     | _ => MkWeightedUtxo 0 (MkUtxo ([], 0) (WalletTypes.MkTxOut 0 []) External false 0 None)
     end) _).
  by intros [? [[] [] [] [] ? []]].
Defined.
#[local] Instance PubkeyDetails_countable : Countable PubkeyDetails.
Proof.
  refine (inj_countable' (λ u, (KeychainKind_as_u32 (pd_key_type u), pd_key_depth u))
    (λ x, MkPubkeyDetails (if x.1 =? 0 then External else Internal) x.2) _).
  by intros [[] ?].
Defined.

Definition wallet_fields (w : WatchOnly)
    : gmap WalletTypes.OutPoint WeightedUtxo * (gmap bytes PubkeyDetails * list (list Z)) :=
  (utxo_map w, (pubkey_map w,
    [account_xpub w : list Z; [network_code (network w); receive_depth w; change_depth w];
     account_derivation w; master_fingerprint w])).

Definition wallet_of_fields
    (x : gmap WalletTypes.OutPoint WeightedUtxo * (gmap bytes PubkeyDetails * list (list Z)))
    : option WatchOnly :=
  match x with
  | (utxos, (pubkeys, [xpub; [n; receive; change]; derivation; fingerprint])) =>
    Some (MkWatchOnly (xpub : Xpub)
      (if n =? 0 then Bitcoin else if n =? 1 then Testnet else if n =? 2 then Testnet4
       else if n =? 3 then Signet else Regtest)
      pubkeys P2WPKH receive change utxos derivation fingerprint)
  | _ => None
  end.

#[local, refine] Instance number_text : WalletText := {
  xpub_from_str _ := Some ([] : list Z);
  derivation_from_str _ := Some [];
  fingerprint_from_str _ := Some [];
  bincode_serialize w := to_bits (countable.encode (wallet_fields w));
  bincode_deserialize b := countable.decode (of_bits b) ≫= wallet_of_fields;
}.
Proof.
  intros w. rewrite of_to_bits, decode_encode. by destruct w as [? [] ? []].
Defined.

(** A peer with two blocks, the second of which pays the wallet. *)
#[local] Existing Instances std_byteorder padded_sha256 example_siphash std_hex watch_only_api.

Definition short_round : list batch := [last_batch].

Lemma short_rounds : honest_rounds example_wall receiving_wallet [short_round].
Proof.
  cbn [honest_rounds]. split_and!; [|by_eval| |by vm_compute].
  - exists [], last_batch. split_and!; [done|constructor|cbn; lia|cbn; lia].
  - unfold short_round. cbn [honest_batches]. split_and!; [|by_eval|done].
    apply batch_of_honest; [reflexivity|by vm_compute|by_eval| |by_eval].
    apply Forall_cons. split; [by left|]. apply Forall_cons. split; [by right|constructor].
Qed.

#[local] Existing Instances mem_wasi restart_iter_Z restart_iter_bytes.
#[local] Instance mem_kv : KvComponent (KVStore WasiStore * @world mem_wasi) :=
  bitcask_component mem_readable.

(** Insertions that the store in memory takes are ready, and are the node's. *)
Lemma mem_puts_inserts l : ∀ kv (w : @world mem_wasi) m t,
  kv_rep (WA:=mem_wasi) w kv m → mem_puts l kv w = Some t →
  inserts_ready l (kv, w) ∧ db_inserts l (kv, w) = (Ok (), t).
Proof.
  induction l as [|[k v] l IH]; intros kv w m t Hrep H; cbn [mem_puts] in H; [by simplify_eq|].
  destruct (mem_ready kv w k v) eqn:Er; [|done]. apply mem_ready_ok in Er as (H1 & H2 & H3).
  destruct (guest_insert (WA:=mem_wasi) w kv k v) as [[[]| |] [kv' w']] eqn:E; try done.
  pose proof E as E'. unfold guest_insert, KVStore_update in E'.
  destruct (KVStore_put (WA:=mem_wasi) w kv k v) as [r [kv1 w1]] eqn:Ep. injection E' as Hr <- <-.
  destruct (KVStore_put_ok (WA:=mem_wasi) _ _ _ _ _ _ _ _ Hrep H1 H2 H3 Ep) as [Hrep' _].
  destruct (IH _ _ _ _ Hrep' H) as [Hready Hdb]. split.
  - split; [by split; [exists m|]|]. intros d' Hd'.
    change (guest_insert (WA:=mem_wasi) w kv k v = (Ok (), d')) in Hd'. rewrite E in Hd'.
    by injection Hd' as <-.
  - cbn [db_inserts]. unfold db_insert.
    change (kv_insert k v (kv, w)) with (guest_insert (WA:=mem_wasi) w kv k v). by rewrite E.
Qed.

Definition first_store : outcome StoreError (KVStore WasiStore) * mem_world :=
  KVStore_new (S:=WasiStore) (MkMem ∅ 1) default_config.

(** A node on the store [d]. *)
Definition first_node (d : KVStore WasiStore * mem_world)
    : Node script (WatchOnly * Z) Z (KVStore WasiStore * mem_world) :=
  MkNode (MkCompactChain (Some example_peer) (MkChainState (MkHash256 (replicate 32 0)) 0)
      (receiving_wallet, 0) (saying (MPong (MkPing 1) :: rounds_session receiving_wallet [short_round])))
    1 (MkNodeState (MkSocketAddress (127, 0, 0, 1) 83) Bitcoin) d.

Definition short_blocks : list Block := batch_blocks (concat [short_round]).

(** What it stores after the synchronisation. *)
Definition first_entries : list (bytes * bytes) :=
  node_entries 0
    (advance (MkChainState (MkHash256 (replicate 32 0)) 0) (map block_header short_blocks))
    (wallet_after receiving_wallet (served [short_round]), 0) 1
    (MkNodeState (MkSocketAddress (127, 0, 0, 1) 83) Bitcoin).

Lemma first_store_takes :
  match first_store with
  | (Ok kv, w) => match mem_puts first_entries kv w with Some t => mem_fresh t | None => false end
  | _ => false
  end = true.
Proof. vm_compute. reflexivity. Qed.

Lemma first_entries_fit : entries_size first_entries ≤ 1048576.
Proof. by_eval. Qed.

Lemma first_total :
  zsum (λ kv, unspent_value kv.2)
    (map_to_list (utxo_map (wallet_after receiving_wallet (served [short_round])))) = 5000.
Proof. vm_compute. reflexivity. Qed.

Lemma greeting_connects :
  ∃ p w, connect_peer (MkSocketAddress (127, 0, 0, 1) 83) Bitcoin 2%nat greeting = Some (Ok p, w).
Proof. eexists _, _. vm_compute. reflexivity. Qed.

Lemma payments_survive_restart_witness :
  ∃ d n' (n2 : Node script (WatchOnly * Z) Z (KVStore WasiStore * mem_world)) io',
    guest_get_balance (WC:=watch_only_component 0) 3%nat (first_node d)
      = Some (Ok 5000, n')
    ∧ guest_node_new (WC:=watch_only_component 0) NodeOldState (node_db n').2 2%nat greeting
      = Some (Ok n2, io')
    ∧ is_Some (utxo_map (node_wallet n2).1 !! (hash_bytes (Tx_hash wallet_tx), 0)).
Proof.
  pose proof first_store_takes as Htakes.
  destruct (open_one_file (WA:=mem_wasi) (S:=WasiStore) (MkMem ∅ 1) default_config mem_reopenable)
    as (kv & w & Hnew & Hone & Hsz & _ & Hdir & Hmax & _);
    [intros n; apply (lookup_empty (M:=gmap (bytes * bytes)))|by_eval|eexists; split; reflexivity|].
  unfold first_store in Htakes. rewrite Hnew in Htakes.
  destruct (mem_puts first_entries kv w) as [[kv' w']|] eqn:Ep; [|discriminate Htakes].
  destruct (mem_puts_inserts _ _ _ _ _ (of_rep _ _ _ _ Hone) Ep) as [Hready Hdb].
  destruct greeting_connects as (p & io' & Hconn).
  destruct (payments_survive_restart (WA:=mem_wasi) 0 mem_readable (first_node (kv, w))
    example_peer receiving_wallet 0 (peer_magic example_peer) (MkPing 1) [short_round] [] eof 3%nat
    ∅ {[ 1 := [] ]} 2%nat greeting io' p) as (n' & n2 & H1 & H2 & H4 & _ & H6 & _).
  - reflexivity.
  - reflexivity.
  - exact receiving_sound.
  - rewrite app_nil_r. reflexivity.
  - by_eval.
  - exact short_rounds.
  - reflexivity.
  - split; vm_compute; congruence.
  - split; vm_compute; congruence.
  - vm_compute; reflexivity.
  - change (length (batch_blocks (concat [short_round]))) with 2%nat. lia.
  - rewrite first_total. lia.
  - exact mem_disk_ok.
  - exact mem_reopenable.
  - exact Hone.
  - exact Hdir.
  - exact Hmax.
  - exact Hready.
  - pose proof first_entries_fit. unfold active_size. cbn [first_node node_db fst].
    rewrite Hsz. exact first_entries_fit.
  - change (let d' := (db_inserts first_entries (kv, w)).2 in
            KvSegments.fresh (WA:=mem_wasi) d'.2 (kv_segments d'.1)).
    cbv zeta. rewrite Hdb. by apply mem_fresh_ok.
  - exact Hconn.
  - exists (kv, w), n', n2, io'. rewrite first_total in H1. split_and!; [exact H1|exact H4|].
    rewrite <- H6 in H2. apply (H2 wallet_block wallet_tx 0%nat (TxMsg.MkTxOut 5000 wallet_script));
      [by_eval|left|reflexivity|by_eval].
Defined.

(** The same node with its first state on the disk; the insertion after which it stops;
    and the peer of the next start, which has no more blocks. *)
Definition start_state : ChainState := MkChainState (MkHash256 (replicate 32 0)) 0.

Definition start_entries : list (bytes * bytes) :=
  node_entries 0 start_state (receiving_wallet, 0) 1
    (MkNodeState (MkSocketAddress (127, 0, 0, 1) 83) Bitcoin).

Definition torn_entry : list (bytes * bytes) :=
  [(CHAIN_STATE_KEY, encode_chain_state (advance start_state (map block_header short_blocks)))].

Definition next_peer : script :=
  saying ([MVersion example_version; MVerack; MPong (MkPing 1)]
          ++ MPong (MkPing 2) :: rounds_session receiving_wallet []).

Lemma torn_store_takes :
  match first_store with
  | (Ok kv, w) =>
    match mem_puts start_entries kv w with
    | Some (kv, w) => match mem_puts torn_entry kv w with Some t => mem_fresh t | None => false end
    | None => false
    end
  | _ => false
  end = true.
Proof. vm_compute. reflexivity. Qed.

Lemma torn_entries_fit : entries_size start_entries + entries_size torn_entry ≤ 1048576.
Proof. by_eval. Qed.

Lemma next_peer_connects :
  ∃ p w, connect_peer (MkSocketAddress (127, 0, 0, 1) 83) Bitcoin 2%nat next_peer = Some (Ok p, w)
    ∧ sc_input w = rdr (concat (map (wire (peer_magic example_peer))
        (MPong (MkPing 2) :: rounds_session receiving_wallet [])) ++ []) eof
    ∧ sc_wall w = example_wall ∧ 0 ≤ sc_time w < 2 ^ 61.
Proof.
  eexists _, _. split; [vm_compute; reflexivity|]. split; [vm_compute; reflexivity|].
  split; [reflexivity|]. split; vm_compute; congruence.
Qed.

Lemma torn_state_loses_payments_witness :
  ∃ d d1 c' (n2 : Node script (WatchOnly * Z) Z (KVStore WasiStore * mem_world)) io' c3,
    sync_state 3%nat (node_chain (first_node d)) = Some (Ok (), c')
    ∧ is_Some (utxo_map (cc_wallet c').1 !! (hash_bytes (Tx_hash wallet_tx), 0))
    ∧ db_inserts torn_entry d = (Ok (), d1)
    ∧ guest_node_new (WC:=watch_only_component 0) NodeOldState d1.2 2%nat next_peer = Some (Ok n2, io')
    ∧ last_block_height (get_state (node_chain n2)) = 2
    ∧ sync_state 1%nat (node_chain n2) = Some (Ok (), c3)
    ∧ utxo_map (cc_wallet c3).1 !! (hash_bytes (Tx_hash wallet_tx), 0) = None.
Proof.
  pose proof torn_store_takes as Htakes. pose proof torn_entries_fit as Hfit.
  pose proof (entries_size_nonneg torn_entry) as Hpos.
  destruct (open_one_file (WA:=mem_wasi) (S:=WasiStore) (MkMem ∅ 1) default_config mem_reopenable)
    as (kv0 & w0 & Hnew & Hone0 & Hsz0 & _ & Hdir0 & Hmax0 & _);
    [intros n; apply (lookup_empty (M:=gmap (bytes * bytes)))|by_eval|eexists; split; reflexivity|].
  unfold first_store in Htakes. rewrite Hnew in Htakes.
  destruct (mem_puts start_entries kv0 w0) as [[kv w]|] eqn:Ep; [|discriminate Htakes].
  destruct (mem_puts torn_entry kv w) as [[kv1 w1]|] eqn:Ep1; [|discriminate Htakes].
  destruct (mem_puts_inserts _ _ _ _ _ (of_rep _ _ _ _ Hone0) Ep) as [Hready0 Hdb0].
  destruct (db_inserts_one_file (WA:=mem_wasi) mem_readable start_entries (kv0, w0) _ _ mem_disk_ok Hone0 Hready0)
    as (d & m & logs & Hd & Hone & Hsz & Hdir & Hmax);
    [unfold active_size; cbn [fst]; rewrite Hsz0, Hmax0;
     change (cfg_max_segment_size_bytes default_config) with 1048576; lia|].
  change (db_inserts start_entries (kv0, w0) = (Ok (), d)) in Hd. rewrite Hdb0 in Hd. injection Hd as <-.
  destruct (mem_puts_inserts _ _ _ _ _ (of_rep _ _ _ _ Hone) Ep1) as [Hready1 Hdb1].
  destruct next_peer_connects as (p & io' & Hconn & Hin & Hwall & Htime).
  cbn [fst snd] in *.
  assert (active_size (kv, w) = entries_size start_entries) as Hact.
  { rewrite Hsz. unfold active_size. cbn [fst]. by rewrite Hsz0. }
  destruct (torn_state_loses_payments (WA:=mem_wasi) 0 mem_readable (first_node (kv, w))
    example_peer receiving_wallet 0 (peer_magic example_peer) (MkPing 1) [short_round] [] eof 3%nat
    m logs 2%nat next_peer io' p (peer_magic example_peer) (MkPing 2) [] [] eof 1%nat
    wallet_block wallet_tx 0%nat (TxMsg.MkTxOut 5000 wallet_script))
    as (c' & n2 & c3 & H1 & H2 & _ & H4 & _ & H5 & _ & H7 & _ & H9).
  - reflexivity.
  - reflexivity.
  - exact receiving_filed.
  - rewrite app_nil_r. reflexivity.
  - by_eval.
  - exact short_rounds.
  - reflexivity.
  - split; vm_compute; congruence.
  - vm_compute; congruence.
  - vm_compute; reflexivity.
  - change (length (batch_blocks (concat [short_round]))) with 2%nat. lia.
  - vm_compute; reflexivity.
  - by_eval.
  - left.
  - reflexivity.
  - by_eval.
  - vm_compute; reflexivity.
  - exact (db_inserts_holds (WC:=watch_only_component 0) (first_node (kv0, w0)) (kv0, w0) (kv, w)
      Hready0 Hdb0).
  - exact mem_disk_ok.
  - exact mem_reopenable.
  - exact Hone.
  - cbn [first_node node_db fst]. rewrite Hdir. exact Hdir0.
  - cbn [first_node node_db fst]. rewrite Hmax. exact Hmax0.
  - exact Hready1.
  - change (active_size (kv, w) + entries_size torn_entry ≤ 1048576). rewrite Hact. exact Hfit.
  - exact (@eq_ind_r _ (Ok (), (kv1, w1)) (λ x, KvSegments.fresh (WA:=mem_wasi) x.2.2 (kv_segments x.2.1))
      (mem_fresh_ok kv1 w1 Htakes) _ Hdb1).
  - exact Hconn.
  - exact Hin.
  - rewrite Hwall. by_eval.
  - rewrite Hwall. change (sendable example_wall (MHeaders (MkHeaders []))). by_eval.
  - reflexivity.
  - exact Htime.
  - vm_compute; reflexivity.
  - cbn; lia.
  - intros b' txn' Hb'. destruct (not_elem_of_nil b' Hb').
  - exists (kv, w), (kv1, w1), c', n2, io', c3. split; [exact H1|]. split; [exact H2|]. split; [exact Hdb1|].
    split; [|split; [|split; [exact H7|exact H9]]].
    + exact (eq_ind _ (λ x, guest_node_new (WC:=watch_only_component 0) NodeOldState x.2.2 2%nat next_peer
        = Some (Ok n2, io')) H4 _ Hdb1).
    + etrans; [exact (f_equal last_block_height H5)|]. vm_compute; reflexivity.
Defined.
