(* ===== verification/Payment.v ===== *)
(** * A payment, from the balance to the peer

    [send_to_address] with the wallet and the signer it is shipped with: the wallet
    prepares the payment, the signer signs it, the wallet finalises it, the node parses
    the result and hands it to the peer that asks for it. *)

From S2P Require Import Prelude Errors Io Hash256 TxMsg BlockMsg NetMsg Message BlockFilter WalletTypes CoinSelection WalletApi Wallet Signer P2P Chain Node Components Assembly AnyPeer Honest EndToEnd.

(** ** The two forms of a transaction *)

(** A transaction of the [bitcoin] crate as the message of the network. *)
Definition wire_tx (t : Transaction) : Tx :=
  MkTx (tr_version t) (Some 1)
    (map (λ i, TxMsg.MkTxIn
       (MkOutPoint (MkHash256 (txi_previous_output i).1) (txi_previous_output i).2)
       (txi_script_sig i) (txi_sequence i)) (tr_input t))
    (map (λ o, TxMsg.MkTxOut (txo_value o) (txo_script_pubkey o)) (tr_output t))
    (Some (map (λ i, MkTxWitness (map MkTxWitnessData (txi_witness i))) (tr_input t)))
    (tr_lock_time t).

(** The fee that [extract_tx] accepts of any transaction: it refuses more than 25,000
    satoshi for a virtual byte, and no transaction has less than ten. *)
Definition EXTRACT_FEE : Z := 250000.

(** What the crate documents: a PSBT survives its serialisation; the consensus
    encoding of a transaction with a witness is the one of the network; [extract_tx]
    succeeds when every input has its final witness and the value it spends, and the
    fee is neither negative nor absurd. *)
Class WireCrate `{BO : ByteOrder} `{PC : PsbtCrate} := {
  psbt_round_trip p : psbt_deserialize (psbt_serialize p) = Some p;
  tx_serialize_wire t :
    tr_input t ≠ [] → Forall (λ i, txi_witness i ≠ []) (tr_input t) →
    tx_serialize t = Tx_write (wire_tx t);
  extract_tx_ok p :
    length (psbt_inputs p) = length (tr_input (psbt_unsigned_tx p)) →
    Forall (λ i, is_Some (in_final_script_witness i)) (psbt_inputs p) →
    Forall (λ o, ∃ t, o = Some t ∧ 0 ≤ txo_value t) (map in_witness_utxo (psbt_inputs p)) →
    Forall (λ t, 0 ≤ txo_value t) (tr_output (psbt_unsigned_tx p)) →
    zsum (λ i, default 0 (txo_value <$> in_witness_utxo i)) (psbt_inputs p) < 2 ^ 64 →
    0 ≤ tx_fee p ≤ EXTRACT_FEE →
    is_Some (extract_tx p);
}.

(** ** Handing over a transaction *)

Section Handover.
  Context `{BO : ByteOrder} `{SHA : Sha256} (magic : bytes) (wall : Z) (rest : bytes) (e : io_error).
  Hypothesis magic_length : zlen magic = 4.

(** The peer asks for the announced transaction and gets it. *)
Lemma send_transaction_runs fuel p t inv v ms time w :
  sendable wall (MGetData inv) → head (inv_objects inv) = Some v → iv_hash v = Tx_hash t →
  time < 2 ^ 62 → (0 < fuel)%nat → hears magic wall rest e (MGetData inv :: ms) time w →
  ∃ w', Peer_send_transaction p t fuel w = Some (Ok (), w')
    ∧ last (sc_sent w') = Some (wire (peer_magic p) (MTx t)).
Proof.
  intros Hs Hv Hh Ht Hf Hw. unfold Peer_send_transaction. unfold mbind at 1, net_bind at 1.
  destruct (runs_send magic wall rest e fuel p (MInv (MkInv [MkInvVect 1 (Tx_hash t)])) _ _ _ eq_refl
    _ Hw) as (w1 & -> & Hw1). unfold mbind, net_bind.
  destruct (runs_receive magic wall rest e magic_length fuel commands.GETDATA (MGetData inv) ms time Hs
    (or_introl eq_refl) Ht Hf _ Hw1) as (w2 & -> & _).
  cbn [message_received]. destruct (inv_objects inv) as [|v' l]; [done|]. injection Hv as ->.
  rewrite bool_decide_eq_true_2 by done. unfold send, net_step. eexists. split; [reflexivity|].
  cbn. apply last_snoc.
Qed.

End Handover.

(** ** Signing and finalising *)

Section Signed.
  Context `{BO : ByteOrder} `{BC : BitcoinCrate} `{PC : PsbtCrate} `{SC : !SignerCrate} `{WC : !WireCrate}.

(** The transaction that signing and finalising make of a payment. *)
Definition signed_tx (s : SimpleSigner) (psbt : Psbt) : option Transaction :=
  match sign_psbt s psbt with
  | Ok signed =>
    match finalise_inputs (E := Wallet.Error) (psbt_inputs signed) with
    | Ok (i :: inputs) => extract_tx (MkPsbt (psbt_unsigned_tx signed) (clear_input i :: inputs))
    | _ => None
    end
  | _ => None
  end.

(** The first signature of an input and its key become the witness. *)
Lemma finalise_inputs_witness {E F} l :
  is_ok (finalise_inputs (E := E) l) = true →
  ∃ l', finalise_inputs (E := F) l = Ok l'
    ∧ map (λ i, in_final_script_witness i) l'
      = map (λ i, (λ s : CompressedPublicKey * bytes, [s.2; pubkey_bytes s.1])
                  <$> head (in_partial_sigs i)) l
    ∧ Forall (λ i, is_Some (in_final_script_witness i)) l'
    ∧ map in_witness_utxo l' = map in_witness_utxo l.
Proof.
  induction l as [|i l IH]; [by exists []|]. cbn [finalise_inputs].
  destruct (head (in_partial_sigs i)) as [[k sig]|] eqn:Eh; cbn [unwrap_opt mbind outcome_bind]; [|done].
  destruct (finalise_inputs (E := E) l) as [x| |]; [|done..]. intros _.
  destruct (IH eq_refl) as (l' & -> & Hm & Hs & Hu). eexists. split; [reflexivity|].
  cbn [map in_final_script_witness in_witness_utxo]. rewrite Hm, Eh, Hu.
  split; [done|]. split; [by constructor|done].
Qed.

(** Extracting puts the witness of each input into the transaction. *)
Lemma extracted_witness (i : Input) l' (inputs : list Input) (ins : list TxIn) n k pk sig j :
  map (λ i, in_final_script_witness i) (i :: l')
  = map (λ i, (λ s : CompressedPublicKey * bytes, [s.2; pubkey_bytes s.1])
              <$> head (in_partial_sigs i)) inputs →
  map txi_witness ins = map (λ i, default [] (in_final_script_witness i)) (clear_input i :: l') →
  inputs !! n = Some k → in_partial_sigs k = [(pk, sig)] → ins !! n = Some j →
  txi_witness j = [sig; pubkey_bytes pk].
Proof.
  intros Hfw Hwit Hk Hps Hj.
  change (map (λ i, in_final_script_witness i) (clear_input i :: l')
    = map (λ i, (λ s : CompressedPublicKey * bytes, [s.2; pubkey_bytes s.1])
                <$> head (in_partial_sigs i)) inputs) in Hfw.
  apply (f_equal (.!! n)) in Hfw. apply (f_equal (.!! n)) in Hwit. cbn beta in Hfw, Hwit.
  rewrite !list_lookup_fmap, Hk in Hfw. rewrite list_lookup_fmap, Hj in Hwit.
  rewrite list_lookup_fmap in Hwit. destruct ((clear_input i :: l') !! n) as [y|]; [|done].
  cbn [fmap option_fmap option_map] in Hfw, Hwit. rewrite Hps in Hfw. cbn in Hfw.
  injection Hfw as Hy. injection Hwit as ->. by rewrite Hy.
Qed.

(** A payment that pays something spends something. *)
Lemma payment_has_inputs w recipient fee_rate amount script psbt :
  payment_ok w recipient fee_rate amount script psbt → 0 < amount → psbt_inputs psbt ≠ [].
Proof.
  intros (selected & chosen & _ & Hsel & _ & Hin & Hhead & Htail & Hfee) Ha E.
  rewrite E in Hin. destruct selected; [|done]. apply Permutation_nil_l in Hsel.
  destruct chosen; [|done]. unfold tx_fee in Hfee. rewrite E in Hfee.
  destruct (tr_output (psbt_unsigned_tx psbt)) as [|o outs]; [done|]. injection Hhead as ->.
  cbn [tail] in Htail.
  assert (0 ≤ zsum txo_value outs) as Hpos.
  { clear -Htail. induction Htail as [|o outs [_ Ho] _ IH]; unfold zsum in *; cbn; [done|].
    pose proof (minimal_non_dust_amount script). lia. }
  unfold zsum in *. cbn in Hfee. lia.
Qed.

(** The fee depends on the transaction and on what it spends. *)
Lemma input_total_map (l : list Input) :
  zsum (λ i, default 0 (txo_value <$> in_witness_utxo i)) l
  = zsum (λ o, default 0 (txo_value <$> o)) (map in_witness_utxo l).
Proof. by rewrite zsum_map. Qed.

Lemma tx_fee_same p p' :
  psbt_unsigned_tx p = psbt_unsigned_tx p' →
  map in_witness_utxo (psbt_inputs p) = map in_witness_utxo (psbt_inputs p') → tx_fee p = tx_fee p'.
Proof. intros Ht Hu. unfold tx_fee. by rewrite !input_total_map, Ht, Hu. Qed.

(** The amounts of a payment: no negative ones, the inputs are below [2 ^ 64]. *)
Lemma payment_amounts w recipient fee_rate amount script psbt :
  payment_ok w recipient fee_rate amount script psbt → 0 < amount →
  payable fee_rate amount script (values outpoint_leb (utxo_map w)) →
  Forall (λ o, ∃ t, o = Some t ∧ 0 ≤ txo_value t) (map in_witness_utxo (psbt_inputs psbt))
  ∧ Forall (λ t, 0 ≤ txo_value t) (tr_output (psbt_unsigned_tx psbt))
  ∧ zsum (λ i, default 0 (txo_value <$> in_witness_utxo i)) (psbt_inputs psbt) < 2 ^ 64
  ∧ 0 ≤ tx_fee psbt.
Proof.
  intros (selected & chosen & Hch & Hsel & _ & Hin & Hhead & Htail & Hfee) Ha Hpay.
  pose proof (pay_values _ _ _ _ Hpay) as Hv.
  assert (Forall (λ u, 0 ≤ wu_value u) chosen) as Hvc.
  { rewrite Forall_forall in Hv |- *. intros u Hu. by eapply Hv, elem_of_submseteq. }
  assert (∀ l, 0 ≤ zsum (fee_of fee_rate) l) as Hf
    by (intros l; apply zsum_nonneg, Forall_true; intros u; apply fee_of_nonneg).
  split_and!.
  - rewrite Hin, Hsel. apply Forall_map, Forall_map. eapply Forall_impl; [exact Hvc|].
    intros u Hu. by eexists.
  - destruct (tr_output (psbt_unsigned_tx psbt)) as [|o outs]; [done|]. injection Hhead as ->.
    constructor; [cbn; lia|]. eapply Forall_impl; [exact Htail|]. intros o [_ Ho].
    pose proof (minimal_non_dust_amount script). lia.
  - rewrite (zsum_witness_utxos _ _ Hin), Hsel, zsum_map.
    change ((λ u, txo_value (utxo_txout u)) ∘ wu_utxo) with wu_value.
    pose proof (zsum_submseteq wu_value _ _ Hv Hch). pose proof (pay_total _ _ _ _ Hpay).
    pose proof (Hf (values outpoint_leb (utxo_map w))). lia.
  - pose proof (Hf chosen). lia.
Qed.

(** The signed transaction of a payment: its outputs and what it spends are the
    payment's, and the witness of each input is a signature of the key that the spent
    output is locked to. *)
Lemma signed_payment m network w xpub fp path recipient fee_rate amount {R} `{RngCore R} (rand : R)
    psbt t script w1 :
  derive_account (SimpleSigner_new m) = Ok (xpub, fp, path) →
  rtc wallet_step (WatchOnly_new xpub network path fp) w →
  get_change_script w = (Ok script, w1) →
  payable fee_rate amount script (values outpoint_leb (utxo_map w)) → 0 < amount →
  create_psbt w recipient fee_rate amount rand = (Ok psbt, t) → tx_fee psbt ≤ EXTRACT_FEE →
  ∃ psbt' tx, sign_psbt (SimpleSigner_new m) psbt = Ok psbt'
    ∧ finalise_psbt_tx psbt' = Ok (tx_serialize tx) ∧ signed_tx (SimpleSigner_new m) psbt = Some tx
    ∧ payment_ok w recipient fee_rate amount script psbt
    ∧ tr_output tx = tr_output (psbt_unsigned_tx psbt)
    ∧ map txi_previous_output (tr_input tx)
      = map txi_previous_output (tr_input (psbt_unsigned_tx psbt))
    ∧ length (tr_input tx) = length (psbt_inputs psbt) ∧ tr_input tx ≠ []
    ∧ ∀ n i, tr_input tx !! n = Some i → ∃ x o,
        txi_witness i = [ecdsa x psbt n; pubkey_bytes (to_pub (xpub_from_priv x))]
        ∧ in_witness_utxo <$> psbt_inputs psbt !! n = Some (Some o)
        ∧ txo_script_pubkey o = new_p2wpkh (to_pub (xpub_from_priv x)).
Proof.
  intros Hacc Hr Hc Hpay Ha Hp Hex.
  assert (∀ s w2, get_change_script w = (Ok s, w2) →
    payable fee_rate amount s (values outpoint_leb (utxo_map w))) as Hpay'
    by (intros s w2 Hs; rewrite Hc in Hs; by injection Hs as <- _).
  pose proof (create_psbt_ok _ _ _ recipient _ _ rand Hc Hpay) as Hok. rewrite Hp in Hok.
  destruct t as [w2 rand2]. destruct Hok as [_ Hok].
  pose proof (payment_has_inputs _ _ _ _ _ _ Hok Ha) as Hne.
  destruct (signer_signs m network w xpub fp path recipient fee_rate amount rand psbt (w2, rand2)
    Hacc Hr Hpay' Hp) as (psbt' & Hs & Htx & Hwu & Hsigs & Hfin).
  destruct (finalise_inputs_witness (F := Wallet.Error) _ Hfin) as (l' & Hl' & Hfw & Hsome & Hwu').
  assert (length (psbt_inputs psbt') = length (psbt_inputs psbt)) as Hlen
    by (apply (f_equal length) in Hwu; by rewrite !length_map in Hwu).
  assert (length l' = length (psbt_inputs psbt')) as Hlen'
    by (apply (f_equal length) in Hfw; by rewrite !length_map in Hfw).
  destruct l' as [|i l']; [destruct (psbt_inputs psbt); [done|cbn in *; lia]|].
  apply Forall_cons in Hsome as [Hi Hsome].
  set (final := MkPsbt (psbt_unsigned_tx psbt') (clear_input i :: l')).
  assert (map in_witness_utxo (psbt_inputs final) = map in_witness_utxo (psbt_inputs psbt)) as Hwuf
    by (by rewrite <- Hwu, <- Hwu').
  destruct (payment_amounts _ _ _ _ _ _ Hok Ha Hpay) as (Ha1 & Ha2 & Ha3 & Ha4).
  destruct (extract_tx_ok final) as [tx Htx'];
    [cbn [final psbt_inputs psbt_unsigned_tx]; rewrite Htx, <- (create_psbt_input_count _ _ _ _ _ _ _ Hp),
       <- Hlen; exact Hlen'
    |by constructor|by rewrite Hwuf|by cbn; rewrite Htx
    |by rewrite input_total_map, Hwuf, <- input_total_map
    |by rewrite (tx_fee_same final psbt Htx Hwuf)|].
  destruct (extract_tx_fills _ _ Htx') as (Hout & Hprev & Hwit). subst final.
  cbn [psbt_unsigned_tx psbt_inputs] in *.
  rewrite Htx in Hout, Hprev.
  assert (length (tr_input tx) = length (psbt_inputs psbt)) as Hlt
    by (apply (f_equal length) in Hwit; rewrite !length_map in Hwit; cbn [length] in *; lia).
  exists psbt', tx. unfold finalise_psbt_tx, signed_tx. rewrite Hs, Hl'. cbn [mbind outcome_bind].
  rewrite Htx'. split_and!; try done.
  - intros E. rewrite E in Hlt. by destruct (psbt_inputs psbt).
  - intros n j Hj. assert (is_Some (psbt_inputs psbt' !! n)) as [k Hk].
    { apply lookup_lt_is_Some. rewrite Hlen, <- Hlt. by eapply lookup_lt_Some. }
    destruct (Hsigs n k Hk) as (x & o & Hps & Hwo & Hsc). exists x, o.
    pose proof (f_equal (.!! n) Hwu) as Hu. cbn beta in Hu. rewrite !list_lookup_fmap, Hk in Hu.
    cbn in Hu. rewrite <- Hu, Hwo. split_and!; [|done|done]. by eapply extracted_witness.
Qed.

End Signed.

(** ** The node's payment *)

(** What the chain reports only inserts outputs. *)
Lemma wallet_after_steps `{BO : ByteOrder} `{SHA : Sha256} `{SIP : SipHash} `{PC : PsbtCrate} bts :
  ∀ w, rtc wallet_step w (wallet_after w bts).
Proof.
  unfold wallet_after. induction bts as [|bt bts IH]; intros w; [apply rtc_refl|]. cbn [foldl].
  etrans; [|apply IH]. unfold next_wallet, guest_insert_utxos.
  destruct (partial_utxos _) as [mapped| |]; cbn [try_bind]; [|apply rtc_refl..].
  apply rtc_once. pose proof (step_insert w mapped) as Hstep. by destruct (insert_utxos w mapped).
Qed.

Section Pays.
  Context `{BO : ByteOrder} `{SHA : Sha256} `{SIP : SipHash} `{HX : Hex}.
  Context `{BC : BitcoinCrate} `{PC : PsbtCrate} `{WT : !WalletText} `{SC : !SignerCrate}
    `{SB : !SignerBincode} `{WC : !WireCrate}.
  Context {R : Type} `{RNG : RngCore R} (seed : R) {D : Type} `{KV : KvComponent D} `{BI : Bincode}.

#[local] Existing Instances watch_only_api simple_signer_component.
#[local] Instance paying_wallet : WalletComponent (WatchOnly * R) := watch_only_component seed.

Abbreviation paying_node := (Node script (WatchOnly * R) SimpleSigner D).

(** The calls between the components: bytes cross from one to the other. *)
Lemma prepared_payment m w recipient fee_rate rate amount (r : R) psbt t psbt' tx :
  from_sat_per_vb fee_rate = Some rate → create_psbt w recipient rate amount r = (Ok psbt, t) →
  sign_psbt (SimpleSigner_new m) psbt = Ok psbt' → finalise_psbt_tx psbt' = Ok (tx_serialize tx) →
  tx_wf (wire_tx tx) → tr_input tx ≠ [] → Forall (λ i, txi_witness i ≠ []) (tr_input tx) →
  wallet_create_transaction recipient amount fee_rate (w, r) = (Ok (psbt_serialize psbt), t)
  ∧ signer_sign_psbt (psbt_serialize psbt) (SimpleSigner_new m) = Ok (psbt_serialize psbt')
  ∧ (∀ t' : WatchOnly * R, wallet_finalise_transaction (psbt_serialize psbt') t' = Ok (tx_serialize tx))
  ∧ (Tx_read (cursor (tx_serialize tx))).1 = Ok (wire_tx tx).
Proof.
  intros Hrate Hp Hs Hf Hwf Hne Hw. split_and!.
  - cbn. unfold guest_create_transaction, create_psbt_tx. rewrite Hrate, Hp. done.
  - change (Prelude.map_err signer_error (guest_sign_psbt (SimpleSigner_new m) (psbt_serialize psbt))
      = Ok (psbt_serialize psbt')). unfold guest_sign_psbt.
    rewrite psbt_round_trip. cbn [unwrap_opt mbind outcome_bind]. by rewrite Hs.
  - intros t'. change (guest_finalise_transaction (psbt_serialize psbt') = Ok (tx_serialize tx)).
    unfold guest_finalise_transaction. rewrite psbt_round_trip.
    cbn [unwrap_opt mbind outcome_bind]. by rewrite Hf.
  - rewrite tx_serialize_wire by done. unfold cursor.
    pose proof (Tx_round_trip (wire_tx tx) [] eof Hwf) as H. rewrite app_nil_r in H. by rewrite H.
Qed.

(** The chain hands the transaction over. *)
Lemma Chain_send_runs (c : CompactChain script (WatchOnly * R)) p magic rest e q inv v t time fuel :
  cc_p2p c = Some p → zlen magic = 4 → time < 2 ^ 61 + 2 ^ 60 + 16 → (0 < fuel)%nat →
  hears magic (sc_wall (cc_io c)) rest e [MPong q; MGetData inv] time (cc_io c) →
  sendable (sc_wall (cc_io c)) (MPong q) → sendable (sc_wall (cc_io c)) (MGetData inv) →
  head (inv_objects inv) = Some v → iv_hash v = Tx_hash t →
  ∃ io', Chain_send_transaction t fuel c = Some (Ok (), MkCompactChain (Some p) (cc_chain_state c) (cc_wallet c) io')
    ∧ last (sc_sent io') = Some (wire (peer_magic p) (MTx t)).
Proof.
  intros Hp Hm Ht Hf Hw Hq Hg Hv Hh. destruct c as [p2p s wal io]. cbn [cc_p2p cc_io] in *. subst p2p.
  destruct (runs_keep_alive magic (sc_wall io) rest e Hm fuel p q _ time Hq ltac:(lia) Hf io Hw)
    as (io1 & E1 & Hw1).
  destruct (send_transaction_runs magic (sc_wall io) rest e Hm fuel p t inv v [] (time + 2) io1 Hg Hv Hh
    ltac:(lia) Hf Hw1) as (io2 & E2 & Hl).
  exists io2. split; [|done]. unfold Chain_send_transaction. unfold mbind, net_bind, net_map_err, on_peer.
  cbn [cc_p2p cc_io]. unfold P2P_keep_alive, P2P_send_transaction, with_peer. rewrite E1.
  cbn [cc_p2p cc_io cc_chain_state cc_wallet]. by rewrite E2.
Qed.

(** The steps of [send_to_address] in order. *)
Lemma Node_send_runs fuel (n : paying_node) recipient amount fee_rate c' t b b' b'' tx c'' d' :
  sync_state fuel (node_chain n) = Some (Ok (), c') →
  wallet_create_transaction recipient amount fee_rate (cc_wallet c') = (Ok b, t) →
  signer_sign_psbt b (node_signer n) = Ok b' → wallet_finalise_transaction b' t = Ok b'' →
  (Tx_read (cursor b'')).1 = Ok tx →
  Chain_send_transaction tx fuel (MkCompactChain (cc_p2p c') (cc_chain_state c') t (cc_io c'))
    = Some (Ok (), c'') →
  db_inserts (state_entries (MkNode c'' (node_signer n) (node_state n) (node_db n))) (node_db n)
    = (Ok (), d') →
  guest_send_to_address recipient amount fee_rate fuel n
  = Some (Ok (), MkNode c'' (node_signer n) (node_state n) d').
Proof.
  intros Hs Hc Hsign Hf Hr Hsend Hd.
  unfold guest_send_to_address, with_code, Node_send_to_address, on_chain, query, on_wallet, net_unwrap,
    mbind, net_bind, net_step. rewrite Hs. unfold node_wallet. cbn [node_chain].
  rewrite Hc. cbn [expect set_wallet node_signer node_chain node_state node_db]. rewrite Hsign.
  cbn [expect node_chain cc_wallet]. rewrite Hf. cbn [expect]. rewrite Hr.
  cbn [expect node_chain]. rewrite Hsend. unfold store_state, net_step. cbn [node_db]. by rewrite Hd.
Qed.

(** ** Properties *)

(** C3: a payment reaches the peer.  A node whose wallet watches the signer's account and
    so far only received, with an honest peer that then asks for what is announced:
    when the wallet, as it is after the synchronisation, prepares the payment, its amounts
    are payable, its fee is at most 250,000 satoshi (which the crate never takes for
    absurd), the transaction has a form the network can carry, and the store takes the
    node's state, then the call succeeds, and the last message it has sent is a
    transaction that pays the recipient exactly the amount, spends outputs of the wallet,
    each at most once, returns change above the dust limit to the change script or none,
    leaves at least the fee of the inputs, and has, as the witness of each input, a
    signature made with the private key of the public key that the spent output is locked
    to, and that public key. *)
Theorem payment_reaches_peer (n : paying_node) m network xpub fp path p w r magic q rs q' inv v rest e
    fuel recipient fee_rate rate amount psbt t change_script w1 d' :
  let c := node_chain n in
  derive_account (SimpleSigner_new m) = Ok (xpub, fp, path) → node_signer n = SimpleSigner_new m →
  rtc wallet_step (WatchOnly_new xpub network path fp) w →
  cc_p2p c = Some p → node_wallet n = (w, r) → filed w →
  sc_input (cc_io c)
    = rdr (concat (map (wire magic) (MPong q :: rounds_session w rs))
           ++ concat (map (wire magic) [MPong q'; MGetData inv]) ++ rest) e →
  sendable (sc_wall (cc_io c)) (MPong q) → honest_rounds (sc_wall (cc_io c)) w rs →
  sendable (sc_wall (cc_io c)) (MPong q') → sendable (sc_wall (cc_io c)) (MGetData inv) →
  zlen magic = 4 → 0 ≤ sc_time (cc_io c) < 2 ^ 61 → 0 ≤ last_block_height (get_state c) < 2 ^ 63 →
  let blocks := batch_blocks (concat rs) in
  zlen blocks < 2 ^ 57 → (length blocks < fuel)%nat →
  let w' := wallet_after w (served rs) in
  from_sat_per_vb fee_rate = Some rate → get_change_script w' = (Ok change_script, w1) →
  payable rate amount change_script (values outpoint_leb (utxo_map w')) → 0 < amount →
  create_psbt w' recipient rate amount r = (Ok psbt, t) → tx_fee psbt ≤ EXTRACT_FEE →
  (∀ tx, signed_tx (SimpleSigner_new m) psbt = Some tx →
     tx_wf (wire_tx tx) ∧ head (inv_objects inv) = Some v ∧ iv_hash v = Tx_hash (wire_tx tx)) →
  db_inserts (node_entries seed (advance (get_state c) (map block_header blocks)) t (node_signer n)
    (node_state n)) (node_db n) = (Ok (), d') →
  ∃ n' tx, guest_send_to_address recipient amount fee_rate fuel n = Some (Ok (), n')
    ∧ last (sc_sent (cc_io (node_chain n'))) = Some (wire (peer_magic p) (MTx (wire_tx tx)))
    ∧ payment_ok w' recipient rate amount change_script psbt
    ∧ tr_output tx = tr_output (psbt_unsigned_tx psbt)
    ∧ map txi_previous_output (tr_input tx)
      = map txi_previous_output (tr_input (psbt_unsigned_tx psbt))
    ∧ ∀ k i, tr_input tx !! k = Some i → ∃ x o,
        txi_witness i = [ecdsa x psbt k; pubkey_bytes (to_pub (xpub_from_priv x))]
        ∧ in_witness_utxo <$> psbt_inputs psbt !! k = Some (Some o)
        ∧ txo_script_pubkey o = new_p2wpkh (to_pub (xpub_from_priv x)).
Proof.
  intros c Hacc Hsig Hreach Hp Hw Hfiled Hin Hq Hh Hq' Hg Hm Ht Hs blocks Hbl Hf w' Hrate Hc Hpay Ha
    Hcreate Hex Htx Hdb.
  destruct (honest_sync c p w r magic q rs _ e fuel Hp Hw Hin Hq Hh Hfiled Hm Ht Hs Hbl Hf)
    as (c' & Hsync & Hst & Hwal & _ & _ & _ & _ & Hp' & Hi & Htime & Hwall).
  fold blocks in Hst, Htime. fold w' in Hwal. pose proof (zlen_nonneg blocks).
  assert (rtc wallet_step (WatchOnly_new xpub network path fp) w') as Hreach'
    by (etrans; [exact Hreach|apply wallet_after_steps]).
  destruct (signed_payment m network w' xpub fp path recipient rate amount r psbt t change_script w1
    Hacc Hreach' Hc Hpay Ha Hcreate Hex)
    as (psbt' & tx & Hsign & Hfin & Hst' & Hok & Hout & Hprev & _ & Hne & Hwit).
  destruct (Htx tx Hst') as (Hwf & Hv & Hhash).
  destruct (prepared_payment m w' recipient fee_rate rate amount r psbt t psbt' tx Hrate Hcreate Hsign
    Hfin Hwf Hne) as (H1 & H2 & H3 & H4).
  { apply Forall_lookup. intros k i Hk. by destruct (Hwit k i Hk) as (x & o & -> & _). }
  destruct (Chain_send_runs (MkCompactChain (cc_p2p c') (cc_chain_state c') t (cc_io c')) p magic rest e
    q' inv v (wire_tx tx) (sc_time (cc_io c) + 4 + 8 * zlen blocks) fuel) as (io' & Hsend & Hlast);
    cbn [cc_p2p cc_io]; rewrite ?Hwall; try done; [lia|lia|].
  rewrite <- Hwal in H1. rewrite <- Hsig in H2.
  exists (MkNode (MkCompactChain (Some p) (cc_chain_state c') t io') (node_signer n) (node_state n) d'), tx.
  split; [|split_and!; [exact Hlast|done..]].
  eapply Node_send_runs; [exact Hsync|exact H1|exact H2|apply H3|exact H4|exact Hsend|].
  rewrite <- Hst in Hdb. exact Hdb.
Qed.

End Pays.

(** ** Witness *)

(** PSBTs written as the bits of one number, transactions as on the network. *)
Definition txin_fields (i : Wallet.TxIn) : WalletTypes.OutPoint * bytes * Z * list bytes :=
  (txi_previous_output i, txi_script_sig i, txi_sequence i, txi_witness i).

Definition txout_fields (o : WalletTypes.TxOut) : Z * bytes := (txo_value o, txo_script_pubkey o).

Definition input_fields (i : Input) :=
  (txout_fields <$> in_witness_utxo i,
   (in_partial_sigs i : list (list Z * bytes), in_sighash_type i, in_redeem_script i),
   (in_witness_script i, (in_bip32_derivation i : list (list Z * (bytes * list Z))),
    in_final_script_witness i)).

Definition psbt_fields (p : Psbt) :=
  let t := psbt_unsigned_tx p in
  (tr_version t, tr_lock_time t, map txin_fields (tr_input t), map txout_fields (tr_output t),
   map input_fields (psbt_inputs p)).

Definition input_of (x : option (Z * bytes) * (list (list Z * bytes) * option Z * option bytes)
    * (option bytes * list (list Z * (bytes * list Z)) * option (list bytes))) : Input :=
  let '(u, (sigs, sighash, redeem), (ws, bip32, final)) := x in
  MkInput ((λ o, WalletTypes.MkTxOut o.1 o.2) <$> u) sigs sighash redeem ws bip32 final.

Definition psbt_of (x : Z * Z * list (WalletTypes.OutPoint * bytes * Z * list bytes)
    * list (Z * bytes) * list (option (Z * bytes) * (list (list Z * bytes) * option Z * option bytes)
    * (option bytes * list (list Z * (bytes * list Z)) * option (list bytes)))) : Psbt :=
  let '(version, lock, ins, outs, inputs) := x in
  MkPsbt (MkTransaction version lock
      (map (λ i, let '(o, s, n, w) := i in Wallet.MkTxIn o s n w) ins)
      (map (λ o, WalletTypes.MkTxOut o.1 o.2) outs)) (map input_of inputs).

Lemma psbt_of_fields p : psbt_of (psbt_fields p) = p.
Proof.
  destruct p as [[v l ins outs] inputs]. unfold psbt_of, psbt_fields. cbn. f_equal; [f_equal|].
  - induction ins as [|[] ins IH]; cbn; by rewrite ?IH.
  - induction outs as [|[] outs IH]; cbn; by rewrite ?IH.
  - induction inputs as [|[[[]|] ? ? ? ? ? ?] inputs IH]; cbn; by rewrite ?IH.
Qed.

#[local] Existing Instances std_byteorder padded_sha256 example_siphash std_hex watch_only_api number_text
  simple_signer_component.

#[local] Instance wire_psbt : PsbtCrate := {
  PsbtError := unit;
  from_unsigned_tx := @from_unsigned_tx _ plain_psbt;
  psbt_serialize p := to_bits (countable.encode (psbt_fields p));
  psbt_deserialize b := psbt_of <$> countable.decode (of_bits b);
  extract_tx := @extract_tx _ plain_psbt;
  tx_serialize t := Tx_write (wire_tx t);
  pubkey_bytes k := k;
  from_unsigned_tx_ok := @from_unsigned_tx_ok _ plain_psbt;
  extract_tx_fills := @extract_tx_fills _ plain_psbt;
}.

#[local, refine] Instance wire_crate : WireCrate := {}.
Proof.
  - intros p. change (psbt_of <$> countable.decode (of_bits (to_bits (countable.encode (psbt_fields p))))
      = Some p). rewrite of_to_bits, decode_encode. exact (f_equal Some (psbt_of_fields p)).
  - done.
  - intros p Hl _ _ _ _ _. cbn. rewrite bool_decide_eq_true_2 by done. by eexists.
Defined.

(** The signer of the paths, for this crate. *)
#[local] Instance wire_signer : SignerCrate (PC := wire_psbt) := {
  Xpriv := @Xpriv _ _ path_signer;
  xpriv_from_str := @xpriv_from_str _ _ path_signer;
  derive_priv := @derive_priv _ _ path_signer;
  xpub_from_priv := @xpub_from_priv _ _ path_signer;
  xpub_fingerprint := @xpub_fingerprint _ _ path_signer;
  into_derivation_path := @into_derivation_path _ _ path_signer;
  xpub_to_string := @xpub_to_string _ _ path_signer;
  fingerprint_to_string := @fingerprint_to_string _ _ path_signer;
  path_to_string := @path_to_string _ _ path_signer;
  psbt_sign := @psbt_sign _ _ path_signer;
  ecdsa := @ecdsa _ _ path_signer;
  derive_priv_nil := @derive_priv_nil _ _ path_signer;
  derive_priv_cons := @derive_priv_cons _ _ path_signer;
  ckd_pub_from_priv := @ckd_pub_from_priv _ _ path_signer;
  account_path := @account_path _ _ path_signer;
  psbt_sign_ok := @psbt_sign_ok _ _ path_signer;
}.

#[local, refine] Instance bits_signer : SignerBincode (PC := wire_psbt) := {
  signer_serialize s := to_bits (countable.encode (master_xpriv s : list Z, master_xpub s : list Z));
  signer_deserialize b :=
    (λ x : list Z * list Z, MkSimpleSigner (SC := wire_signer) x.1 x.2) <$> countable.decode (of_bits b);
}.
Proof. intros s. rewrite of_to_bits, decode_encode. by destruct s. Defined.

(** The payment of the funded wallet. *)
Definition payer : SimpleSigner := SimpleSigner_new (SC := wire_signer) [7].

Definition paid_psbt : option (Psbt * (WatchOnly * Z)) :=
  match create_psbt funded_published [9; 9] 1000 40000 1 with
  | (Ok psbt, t) => Some (psbt, t)
  | _ => None
  end.

Definition paid_tx : option Tx :=
  '(psbt, _) ← paid_psbt; wire_tx <$> signed_tx payer psbt.

Lemma paid_tx_wf : match paid_tx with Some t => bool_decide (tx_wf t) | None => false end = true.
Proof. vm_compute. reflexivity. Qed.

Definition paid_object : InvVect :=
  MkInvVect 1 (match paid_tx with Some t => Tx_hash t | None => NO_HASH_STOP end).

Definition asking : Inv := MkInv [paid_object].

(** A node with the funded wallet and a peer without new blocks that asks for the
    payment. *)
Definition node_that_pays : Node script (WatchOnly * Z) SimpleSigner (list (bytes * bytes)) :=
  MkNode (MkCompactChain (Some example_peer) (MkChainState (MkHash256 (replicate 32 0)) 0)
      (funded_published, 1)
      (saying ((MPong (MkPing 1) :: rounds_session funded_published [])
               ++ [MPong (MkPing 2); MGetData asking])))
    payer (MkNodeState (MkSocketAddress (127, 0, 0, 1) 83) Bitcoin) [].

Lemma list_inserts l (d : list (bytes * bytes)) : ∃ d', db_inserts l d = (Ok (), d').
Proof. revert d. induction l as [|[k v] l IH]; intros d; [by exists d|]. apply IH. Qed.

Lemma paid_fee : match paid_psbt with Some (psbt, _) => tx_fee psbt <=? EXTRACT_FEE | None => false end = true.
Proof. vm_compute. reflexivity. Qed.

Lemma funded_filed : filed funded_published.
Proof.
  unfold funded_published. apply (insert_utxos_filed [example_partial 1 100000 [0; 20; 7; 0; 0] false]).
  - by_eval.
  - intros o u H. vm_compute in H. destruct o as [[|]]; discriminate H.
Qed.

Lemma published_reaches : rtc (wallet_step (PC := wire_psbt)) published_wallet funded_published.
Proof.
  eapply rtc_l; [apply step_receive|]. apply rtc_once.
  assert (funded_published = (insert_utxos (PC := wire_psbt)
    (get_receive_address (PC := wire_psbt) published_wallet).2
    [example_partial 1 100000 [0; 20; 7; 0; 0] false]).2) as -> by (vm_compute; reflexivity).
  apply step_insert.
Qed.

Lemma payment_reaches_peer_witness :
  ∃ n' tx, guest_send_to_address (WC := watch_only_component 1) (SC := simple_signer_component)
      [9; 9] 40000 4 3%nat node_that_pays = Some (Ok (), n')
    ∧ last (sc_sent (cc_io (node_chain n'))) = Some (wire (peer_magic example_peer) (MTx (wire_tx tx)))
    ∧ head (tx_outputs (wire_tx tx)) = Some (TxMsg.MkTxOut 40000 [9; 9]).
Proof.
  pose proof paid_tx_wf as Hwf. unfold paid_tx in Hwf.
  destruct paid_psbt as [[psbt t]|] eqn:Ep; [|discriminate Hwf]. cbn [mbind option_bind] in Hwf.
  assert (create_psbt funded_published [9; 9] 1000 40000 1 = (Ok psbt, t)) as Hcreate.
  { unfold paid_psbt in Ep. by destruct (create_psbt _ _ _ _ _) as [[]]; simplify_eq. }
  destruct (list_inserts (node_entries 1 (advance (MkChainState (MkHash256 (replicate 32 0)) 0) []) t payer
    (MkNodeState (MkSocketAddress (127, 0, 0, 1) 83) Bitcoin)) []) as [d' Hd].
  destruct (payment_reaches_peer 1 node_that_pays [7] Bitcoin [7] [1; 2; 3; 4]
    [HARDENED + 84; HARDENED; HARDENED] example_peer funded_published 1 (peer_magic example_peer)
    (MkPing 1) [] (MkPing 2) asking paid_object [] eof 3%nat [9; 9] 4 1000 40000 psbt t change_of_funded
    (get_change_script funded_published).2 d') as (n' & tx & H1 & H2 & H3 & H4 & _).
  - reflexivity.
  - reflexivity.
  - exact published_reaches.
  - reflexivity.
  - reflexivity.
  - exact funded_filed.
  - rewrite app_nil_r, <- concat_app, <- map_app. reflexivity.
  - by_eval.
  - change (sendable example_wall (MHeaders (MkHeaders []))). by_eval.
  - by_eval.
  - change (sendable example_wall (MGetData asking)). by_eval.
  - reflexivity.
  - split; vm_compute; congruence.
  - split; vm_compute; congruence.
  - vm_compute; reflexivity.
  - cbn; lia.
  - reflexivity.
  - reflexivity.
  - apply (published_payable change_of_funded (get_change_script (PC := plain_psbt) funded_published).2).
    reflexivity.
  - lia.
  - exact Hcreate.
  - pose proof paid_fee as Hfee. rewrite Ep in Hfee. by apply Z.leb_le.
  - intros tx Htx. change (signed_tx payer psbt = Some tx) in Htx. rewrite Htx in Hwf.
    split; [by apply bool_decide_eq_true_1 in Hwf|]. split; [reflexivity|].
    unfold paid_object, paid_tx. rewrite Ep. cbn [mbind option_bind]. by rewrite Htx.
  - exact Hd.
  - exists n', tx. split; [exact H1|]. split; [exact H2|].
    destruct H3 as (selected & chosen & _ & _ & _ & _ & Hhead & _). cbn [wire_tx tx_outputs].
    rewrite H4. destruct (tr_output (psbt_unsigned_tx psbt)); [done|]. by injection Hhead as ->.
Defined.
