(* ===== verification/F64.v ===== *)
(** * Double-precision numbers, as the mobile money example uses them

    [f64] is IEEE 754 binary64 with the specification of floating-point arithmetic
    of the Standard Library ([SpecFloat]: signed zeros, infinities, one NaN, finite
    numbers with mantissa and exponent).  This file adds what the example takes from
    Rust: [as f64], [str::parse::<f64>] and the shortest decimal of [{}].  A value is
    well formed ([f64_ok]) when its mantissa is canonical; the operations keep this,
    and on well-formed values the comparison is the one of the real numbers, which
    gives the signs of sums, differences and products. *)

From S2P Require Import Prelude.
From Stdlib Require Import SpecFloat.

Notation f64 := spec_float.

#[export] Instance f64_eq_dec : EqDecision f64.
Proof. solve_decision. Defined.

Definition f64_add : f64 → f64 → f64 := SFadd 53 1024.
Definition f64_sub : f64 → f64 → f64 := SFsub 53 1024.
Definition f64_mul : f64 → f64 → f64 := SFmul 53 1024.

(** [a >= b]: false when one of them is NaN. *)
Definition f64_ge (a b : f64) : bool := SFleb b a.

(** [z as f64]: rounded to the nearest, ties to even. *)
Definition f64_of_Z (z : Z) : f64 := binary_normalize 53 1024 z 0 false.

Definition f64_ok (x : f64) : Prop := valid_binary 53 1024 x = true.

(** ** [str::parse::<f64>] *)

(** The correctly rounded quotient of two integers. *)
Definition f64_of_ratio (s : bool) (n d : Z) : f64 :=
  match n with
  | 0 => S754_zero s
  | _ => let '(q, e, l) := SFdiv_core_binary 53 1024 n 0 d 0 in binary_round_aux 53 1024 s q e l
  end.

(** The value [n * 10 ^ e] with its sign. *)
Definition f64_of_decimal (s : bool) (n e : Z) : f64 :=
  if 0 <=? e then f64_of_ratio s (n * 10 ^ e) 1 else f64_of_ratio s n (10 ^ (- e)).

Fixpoint take_digits (l : bytes) : bytes * bytes :=
  match l with
  | b :: l' => if is_digit b then let '(ds, r) := take_digits l' in (b :: ds, r) else ([], l)
  | [] => ([], [])
  end.

(** An optional sign. *)
Definition take_sign (l : bytes) : bool * bytes :=
  match l with
  | b :: l' => if b =? 45 then (true, l') else if b =? 43 then (false, l') else (false, l)
  | [] => (false, [])
  end.

Definition number (ds : bytes) : Z := foldl (λ acc b, 10 * acc + (b - 48)) 0 ds.

(** The exponent stops growing once it has reached 65536. *)
Definition exponent_value (ds : bytes) : Z :=
  foldl (λ acc b, if acc <? 65536 then 10 * acc + (b - 48) else acc) 0 ds.

(** What follows the digits: nothing, or [e] and a signed number. *)
Definition parse_exponent (l : bytes) : option Z :=
  match l with
  | [] => Some 0
  | b :: l =>
    if (b =? 101) || (b =? 69) then
      let '(neg, l) := take_sign l in
      let '(ds, r) := take_digits l in
      match ds, r with
      | _ :: _, [] => Some (if neg then - exponent_value ds else exponent_value ds)
      | _, _ => None
      end
    else None
  end.

(** Digits, optionally a point and digits, with at least one digit in all. *)
Definition parse_decimal (s : bool) (l : bytes) : option f64 :=
  let '(int, r) := take_digits l in
  let '(frac, r) := match r with b :: r' => if b =? 46 then take_digits r' else ([], r)
                            | [] => ([], []) end in
  match int ++ frac with
  | [] => None
  | ds => e ← parse_exponent r; Some (f64_of_decimal s (number ds) (e - Z.of_nat (length frac)))
  end.

Definition lower_byte (b : Z) : Z := if between 65 90 b then b + 32 else b.

Definition parse_f64 (l : bytes) : option f64 :=
  match l with
  | [] => None
  | _ =>
    let '(s, l) := take_sign l in
    match parse_decimal s l with
    | Some x => Some x
    | None =>
      let w := map lower_byte l in
      if bool_decide (w = str "nan") then Some S754_nan
      else if bool_decide (w = str "inf" ∨ w = str "infinity") then Some (S754_infinity s)
      else None
    end
  end.

(** ** [{}] of a number

    The shortest decimal that reads back as the number, the closest one among those
    of the same length: digits are produced until what is left lies within half a
    unit of the mantissa. *)

(** [a < b], or [a ≤ b] when the bounds of the interval belong to it. *)
Definition within (inclusive : bool) (a b : Z) : bool := if inclusive then a <=? b else a <? b.

Fixpoint shortest_digits (fuel : nat) (inclusive : bool) (mant minus plus scale acc : Z) (n : nat)
    : Z * nat :=
  match fuel with
  | O => (acc, n)
  | S fuel =>
    let acc := 10 * acc + mant / scale in
    let mant := mant mod scale in
    let n := S n in
    let down := within inclusive mant minus in
    let up := within inclusive scale (mant + plus) in
    if down || up then (if up && (negb down || (scale <=? 2 * mant)) then acc + 1 else acc, n)
    else shortest_digits fuel inclusive (10 * mant) (10 * minus) (10 * plus) scale acc n
  end.

(** The digits and the position of the decimal point of [m * 2 ^ e]; the position is
    estimated from the number of bits and then corrected. *)
Definition shortest (m e : Z) : bytes * Z :=
  let '(mant, plus, exp) :=
    if m =? 4503599627370496 then (4 * m, 2, e - 2) else (2 * m, 1, e - 1) in
  let inclusive := Z.even m || (m <? 4503599627370496) in
  let num z := if 0 <=? exp then z * 2 ^ exp else z in
  let den := if 0 <=? exp then 1 else 2 ^ (- exp) in
  let k0 := Z.shiftr ((Z.log2 (mant + plus - 1) + 1 + exp) * 1292913986) 32 in
  let low := if 0 <=? k0 then within inclusive (10 ^ k0 * den) (num (mant + plus))
             else within inclusive den (num (mant + plus) * 10 ^ (- k0)) in
  let k := if low then k0 + 1 else k0 in
  let scale := if 0 <=? k - 1 then den * 10 ^ (k - 1) else den in
  let unit := if 0 <=? k - 1 then 1 else 10 ^ (1 - k) in
  let '(d, n) := shortest_digits 17 inclusive (num mant * unit) (num 1 * unit) (num plus * unit)
                   scale 0 0 in
  let ds := dec d in
  (ds, k + (Z.of_nat (length ds) - Z.of_nat n)).

Definition zeros (n : Z) : bytes := replicate (Z.to_nat n) 48.

Definition decimal_text (ds : bytes) (exp : Z) : bytes :=
  let len := Z.of_nat (length ds) in
  if exp <=? 0 then str "0." ++ zeros (- exp) ++ ds
  else if exp <? len then take (Z.to_nat exp) ds ++ str "." ++ drop (Z.to_nat exp) ds
  else ds ++ zeros (exp - len).

Definition show_f64 (x : f64) : bytes :=
  let sign (s : bool) := if s then str "-" else [] in
  match x with
  | S754_nan => str "NaN"
  | S754_infinity s => sign s ++ str "inf"
  | S754_zero s => sign s ++ str "0"
  | S754_finite s m e => let '(ds, exp) := shortest (Z.pos m) e in sign s ++ decimal_text ds exp
  end.

(** ** Examples *)

Definition reads_as (t : string) (x : f64) : bool := bool_decide (parse_f64 (str t) = Some x).
Definition prints_as (t out : string) : bool :=
  bool_decide (show_f64 <$> parse_f64 (str t) = Some (str out)).

Example parse_examples :
  forallb (λ p, prints_as p.1 p.2)
    [("1000", "1000"); ("0.1", "0.1"); (".5", "0.5"); ("5.", "5"); ("+1e3", "1000");
     ("1E-7", "0.0000001"); ("nAn", "NaN"); ("-Infinity", "-inf"); ("-0", "-0");
     ("123456789012345678", "123456789012345680"); ("1e23", "100000000000000000000000");
     ("9007199254740993", "9007199254740992"); ("1.7976931348623157e308", "17976931348623157"%string
       +:+ String.concat "" (replicate 292 "0"));
     ("0.3", "0.3"); ("2.5e-1", "0.25"); ("1e400", "inf"); ("1e-400", "0");
     ("9.5", "9.5"); ("0.99999999999999999", "1"); ("4.35", "4.35"); ("1099.1", "1099.1")]
  ∧ forallb (λ t, bool_decide (parse_f64 (str t) = None))
    [""; "."; "e5"; "1e"; "1 "; "--1"; "0x10"; "1_000"; "-"].
Proof. vm_compute. auto. Qed.

Example sum_examples :
  show_f64 <$> (a ← parse_f64 (str "0.1"); b ← parse_f64 (str "0.2"); Some (f64_add a b))
    = Some (str "0.30000000000000004")
  ∧ f64_of_Z 1000 = f64_of_decimal false 1000 0.
Proof. split; vm_compute; reflexivity. Qed.

(** ** Rounding keeps mantissas canonical *)

Lemma fexp_eq x : fexp 53 1024 x = Z.max (x - 53) (-1074).
Proof. done. Qed.

Lemma digits_bounds m : 0 < m → 1 ≤ Zdigits2 m ∧ 2 ^ (Zdigits2 m - 1) ≤ m < 2 ^ Zdigits2 m.
Proof.
  destruct m as [|p|p]; intros Hm; [lia| |lia]. clear Hm. cbn [Zdigits2].
  assert (H : Z.pos (digits2_pos p) = Z.log2 (Z.pos p) + 1).
  { induction p as [p IH|p IH|]; cbn [digits2_pos]; [| |done]; rewrite Pos2Z.inj_succ, IH.
    - rewrite (Pos2Z.inj_xI p), Z.log2_succ_double; lia.
    - rewrite (Pos2Z.inj_xO p), Z.log2_double; lia. }
  pose proof (Z.log2_spec (Z.pos p) ltac:(lia)). pose proof (Z.log2_nonneg (Z.pos p)).
  rewrite H. replace (Z.log2 (Z.pos p) + 1 - 1) with (Z.log2 (Z.pos p)) by lia.
  rewrite Z.add_1_r. lia.
Qed.

Lemma digits_0 : Zdigits2 0 = 0.
Proof. done. Qed.

Lemma digits_nonneg m : 0 ≤ m → 0 ≤ Zdigits2 m.
Proof. intros. destruct (decide (m = 0)) as [->|]; [done|]. destruct (digits_bounds m); lia. Qed.

(** The number of digits is the only one with these bounds. *)
Lemma digits_unique m d : 0 < d → 2 ^ (d - 1) ≤ m < 2 ^ d → Zdigits2 m = d.
Proof.
  intros Hd [H1 H2]. assert (0 < 2 ^ (d - 1)) by (apply Z.pow_pos_nonneg; lia).
  destruct (digits_bounds m ltac:(lia)) as (H3 & H4 & H5).
  destruct (Z.lt_trichotomy (Zdigits2 m) d) as [Hlt|[->|Hlt]]; [|done|].
  - assert (2 ^ Zdigits2 m ≤ 2 ^ (d - 1)) by (apply Z.pow_le_mono_r; lia). lia.
  - assert (2 ^ d ≤ 2 ^ (Zdigits2 m - 1)) by (apply Z.pow_le_mono_r; lia). lia.
Qed.

Lemma digits_mono m n : 0 ≤ m ≤ n → Zdigits2 m ≤ Zdigits2 n.
Proof.
  intros. destruct (decide (m = 0)) as [->|]; [rewrite digits_0; apply digits_nonneg; lia|].
  destruct (digits_bounds m ltac:(lia)) as (? & ? & _).
  destruct (digits_bounds n ltac:(lia)) as (? & _ & ?).
  destruct (decide (Zdigits2 m ≤ Zdigits2 n)); [done|].
  assert (2 ^ Zdigits2 n ≤ 2 ^ (Zdigits2 m - 1)) by (apply Z.pow_le_mono_r; lia). lia.
Qed.

Lemma digits_div m n : 0 ≤ m → 0 ≤ n → Zdigits2 (m / 2 ^ n) = Z.max 0 (Zdigits2 m - n).
Proof.
  intros Hm Hn. assert (0 < 2 ^ n) by (apply Z.pow_pos_nonneg; lia).
  destruct (decide (m < 2 ^ n)) as [Hlt|Hge].
  - rewrite Z.div_small by lia. rewrite digits_0.
    destruct (decide (m = 0)) as [->|]; [rewrite digits_0; lia|].
    destruct (digits_bounds m ltac:(lia)) as (? & ? & _).
    destruct (decide (Zdigits2 m ≤ n)); [lia|].
    assert (2 ^ n ≤ 2 ^ (Zdigits2 m - 1)) by (apply Z.pow_le_mono_r; lia). lia.
  - destruct (digits_bounds m ltac:(lia)) as (H1 & H2 & H3).
    assert (n < Zdigits2 m).
    { destruct (decide (n < Zdigits2 m)); [done|].
      assert (2 ^ Zdigits2 m ≤ 2 ^ n) by (apply Z.pow_le_mono_r; lia). lia. }
    rewrite Z.max_r by lia. apply digits_unique; [lia|].
    replace (Zdigits2 m - n - 1) with (Zdigits2 m - 1 - n) by lia.
    split.
    + rewrite Z.pow_sub_r by lia. apply Z.div_le_mono; lia.
    + apply Z.div_lt_upper_bound; [lia|]. rewrite <- Z.pow_add_r by lia.
      by replace (n + (Zdigits2 m - n)) with (Zdigits2 m) by lia.
Qed.

Lemma shr_1_m r : 0 ≤ shr_m r → shr_m (shr_1 r) = shr_m r / 2.
Proof.
  destruct r as [m x y]. cbn [shr_m]. intros. rewrite <- Z.div2_div.
  unfold shr_1. destruct m as [|[p|p|]|p]; cbn; done || lia.
Qed.

Lemma iter_shr_m p r : 0 ≤ shr_m r → shr_m (iter_pos shr_1 p r) = shr_m r / 2 ^ Z.pos p.
Proof.
  revert r. induction p as [p IH|p IH|]; intros r Hr; cbn [iter_pos].
  - pose proof (shr_1_m r Hr) as H1.
    assert (0 ≤ shr_m (shr_1 r)) by (rewrite H1; apply Z.div_pos; lia).
    assert (0 ≤ shr_m (iter_pos shr_1 p (shr_1 r)))
      by (rewrite IH by done; apply Z.div_pos; lia).
    rewrite !IH, H1 by done. rewrite !Z.div_div by lia. f_equal.
    rewrite Pos2Z.inj_xI, Z.add_1_r, Z.pow_succ_r by lia.
    replace (2 * Z.pos p) with (Z.pos p + Z.pos p) by lia. rewrite Z.pow_add_r by lia. lia.
  - assert (0 ≤ shr_m (iter_pos shr_1 p r)) by (rewrite IH by done; apply Z.div_pos; lia).
    rewrite !IH by done. rewrite Z.div_div by lia. f_equal.
    replace (Z.pos p~0) with (Z.pos p + Z.pos p) by lia. rewrite Z.pow_add_r by lia. lia.
  - by rewrite shr_1_m.
Qed.

(** Shifting to the exponent of the format divides the mantissa. *)
Lemma shr_fexp_spec m e l :
  0 ≤ m → let n := Z.max 0 (fexp 53 1024 (Zdigits2 m + e) - e) in
  shr_m (shr_fexp 53 1024 m e l).1 = m / 2 ^ n ∧ (shr_fexp 53 1024 m e l).2 = e + n.
Proof.
  intros Hm n. unfold shr_fexp, shr.
  assert (Hr : shr_m (shr_record_of_loc m l) = m) by (by destruct l as [|[]]).
  destruct (fexp 53 1024 (Zdigits2 m + e) - e) as [|p|p] eqn:E; subst n; cbn [fst snd Z.max].
  - rewrite Hr, Z.pow_0_r, Z.div_1_r. rewrite Z.max_l; [by rewrite Z.add_0_r|lia].
  - rewrite iter_shr_m by (rewrite Hr; lia). by rewrite Hr.
  - rewrite Hr, Z.max_l by lia. by rewrite Z.pow_0_r, Z.div_1_r, Z.add_0_r.
Qed.

Lemma round_nearest_range m l : round_nearest_even m l = m ∨ round_nearest_even m l = m + 1.
Proof. destruct l as [|[]]; cbn; auto. destruct (Z.even m); auto. Qed.

(** What rounding gives: a well-formed number of the sign asked for. *)
Definition rounded (s : bool) (x : f64) : Prop :=
  f64_ok x ∧ match x with S754_nan => False
                        | S754_zero t | S754_infinity t | S754_finite t _ _ => t = s end.

Lemma binary_round_aux_ok s m e l :
  0 ≤ m → e ≤ fexp 53 1024 (Zdigits2 m + e) → rounded s (binary_round_aux 53 1024 s m e l).
Proof.
  intros Hm He. unfold binary_round_aux.
  pose proof (shr_fexp_spec m e l Hm) as [H1 H2]. cbv zeta in H1, H2.
  destruct (shr_fexp 53 1024 m e l) as [r1 e1]. cbn [fst snd] in H1, H2.
  rewrite Z.max_r in H1, H2 by lia. rewrite fexp_eq in *.
  set (n := Z.max (Zdigits2 m + e - 53) (-1074) - e) in *.
  assert (Hd1 := digits_div m n Hm ltac:(lia)). rewrite <- H1 in Hd1.
  assert (0 ≤ shr_m r1) by (rewrite H1; apply Z.div_pos; lia).
  set (m1 := round_nearest_even (shr_m r1) (loc_of_shr_record r1)).
  assert (Hm1 : shr_m r1 ≤ m1) by (pose proof (round_nearest_range (shr_m r1) (loc_of_shr_record r1)); lia).
  pose proof (digits_mono (shr_m r1) m1 ltac:(lia)) as Hd2.
  assert (He1 : 0 < m1 → e1 ≤ Z.max (Zdigits2 m1 + e1 - 53) (-1074)).
  { intros Hp. destruct (digits_bounds m1 Hp) as [? _]. pose proof (digits_nonneg m Hm). lia. }
  pose proof (shr_fexp_spec m1 e1 loc_Exact ltac:(lia)) as [H3 H4]. cbv zeta in H3, H4.
  destruct (shr_fexp 53 1024 m1 e1 loc_Exact) as [r2 e2]. cbn [fst snd] in H3, H4.
  rewrite fexp_eq in H3, H4.
  assert (Hp2 : 0 ≤ shr_m r2) by (rewrite H3; apply Z.div_pos; [lia|apply Z.pow_pos_nonneg; lia]).
  assert (Hd3 := digits_div m1 (Z.max 0 (Z.max (Zdigits2 m1 + e1 - 53) (-1074) - e1))
                   ltac:(lia) ltac:(lia)). rewrite <- H3 in Hd3.
  destruct (shr_m r2) as [|p|p] eqn:Em; [by split|..|lia].
  destruct (e2 <=? 1024 - 53) eqn:Ee; [|by split].
  split; [|done]. unfold f64_ok, valid_binary, bounded. rewrite Ee, andb_true_r.
  unfold canonical_mantissa. rewrite fexp_eq. apply Z.eqb_eq.
  change (Z.pos (digits2_pos p)) with (Zdigits2 (Z.pos p)).
  destruct (digits_bounds (Z.pos p) ltac:(lia)) as [? _].
  assert (0 < m1) by (destruct (decide (m1 = 0)) as [->|]; [|lia]; by rewrite Z.div_0_l in H3 by (apply Z.pow_nonzero; lia)).
  specialize (He1 ltac:(lia)). lia.
Qed.

Lemma shl_align_spec m e e' :
  Z.pos (shl_align m e e').1 = Z.pos m * 2 ^ Z.max 0 (e - e')
  ∧ (shl_align m e e').2 = Z.min e e'.
Proof.
  unfold shl_align. destruct (e' - e) as [|p|p] eqn:E; cbn [fst snd].
  - rewrite Z.max_l, Z.pow_0_r by lia. lia.
  - rewrite Z.max_l, Z.pow_0_r by lia. lia.
  - rewrite Z.max_r by lia. split; [|lia]. replace (e - e') with (Z.pos p) by lia.
    clear E. induction p as [|p IH] using Pos.peano_ind; [cbn; lia|].
    rewrite Pos.iter_succ, Pos2Z.inj_xO, IH, Pos2Z.inj_succ, Z.pow_succ_r; lia.
Qed.

Lemma digits_shift m n : 0 < m → 0 ≤ n → Zdigits2 (m * 2 ^ n) = Zdigits2 m + n.
Proof.
  intros Hm Hn. destruct (digits_bounds m Hm) as (H1 & H2 & H3).
  assert (0 < 2 ^ n) by (apply Z.pow_pos_nonneg; lia).
  apply digits_unique; [lia|]. replace (Zdigits2 m + n - 1) with (Zdigits2 m - 1 + n) by lia.
  rewrite !Z.pow_add_r by lia. nia.
Qed.

Lemma binary_round_ok s m e : rounded s (binary_round 53 1024 s m e).
Proof.
  unfold binary_round.
  pose proof (shl_align_spec m e (fexp 53 1024 (Z.pos (digits2_pos m) + e))) as [H1 H2].
  destruct (shl_align _ _ _) as [mz ez]. cbn [fst snd] in H1, H2.
  apply binary_round_aux_ok; [lia|]. rewrite H1, digits_shift by lia.
  cbn [Zdigits2]. rewrite !fexp_eq in *. lia.
Qed.

Lemma normalize_ok z e : rounded (z <? 0) (binary_normalize 53 1024 z e false).
Proof.
  destruct z as [|p|p]; cbn [binary_normalize]; [done|..].
  - apply (binary_round_ok false).
  - apply (binary_round_ok true).
Qed.

Lemma f64_of_Z_ok z : f64_ok (f64_of_Z z).
Proof. apply normalize_ok. Qed.

Lemma rounded_ok s x : rounded s x → f64_ok x.
Proof. by intros [? _]. Qed.

Lemma f64_add_ok x y : f64_ok x → f64_ok y → f64_ok (f64_add x y).
Proof.
  intros Hx Hy. unfold f64_add.
  destruct x as [[]|[]| |[] mx ex], y as [[]|[]| |[] my ey]; cbn [SFadd]; try done;
    eapply rounded_ok, normalize_ok.
Qed.

Lemma f64_sub_ok x y : f64_ok x → f64_ok y → f64_ok (f64_sub x y).
Proof.
  intros Hx Hy. unfold f64_sub.
  destruct x as [[]|[]| |[] mx ex], y as [[]|[]| |[] my ey]; cbn [SFsub]; try done;
    eapply rounded_ok, normalize_ok.
Qed.

(** A canonical mantissa has 53 digits, or fewer at the least exponent. *)
Lemma finite_ok s m e :
  f64_ok (S754_finite s m e) ↔
  e ≤ 971 ∧ e = Z.max (Zdigits2 (Z.pos m) + e - 53) (-1074).
Proof.
  unfold f64_ok, valid_binary, bounded, canonical_mantissa.
  rewrite andb_true_iff, Z.eqb_eq, Z.leb_le, fexp_eq. cbn [Zdigits2]. lia.
Qed.

Lemma digits_mul a b : 0 < a → 0 < b → Zdigits2 a + Zdigits2 b - 1 ≤ Zdigits2 (a * b).
Proof.
  intros Ha Hb. destruct (digits_bounds a Ha) as (? & ? & _), (digits_bounds b Hb) as (? & ? & _).
  assert (Zdigits2 (2 ^ (Zdigits2 a + Zdigits2 b - 2)) = Zdigits2 a + Zdigits2 b - 1) as <-.
  { replace (2 ^ _) with (1 * 2 ^ (Zdigits2 a + Zdigits2 b - 2)) by lia.
    rewrite digits_shift by lia. cbn. lia. }
  apply digits_mono. split; [apply Z.pow_nonneg; lia|].
  replace (Zdigits2 a + Zdigits2 b - 2) with ((Zdigits2 a - 1) + (Zdigits2 b - 1)) by lia.
  rewrite Z.pow_add_r by lia. apply Z.mul_le_mono_nonneg; try done; apply Z.pow_nonneg; lia.
Qed.

(** The product of two finite numbers has the sign of the product. *)
Lemma mul_finite_rounded sx mx ex sy my ey :
  f64_ok (S754_finite sx mx ex) → f64_ok (S754_finite sy my ey) →
  rounded (xorb sx sy) (f64_mul (S754_finite sx mx ex) (S754_finite sy my ey)).
Proof.
  intros [? Hx]%finite_ok [? Hy]%finite_ok. unfold f64_mul, SFmul. apply binary_round_aux_ok; [lia|].
  rewrite Pos2Z.inj_mul, fexp_eq. pose proof (digits_mul (Z.pos mx) (Z.pos my) ltac:(lia) ltac:(lia)).
  destruct (digits_bounds (Z.pos mx) ltac:(lia)) as [? _].
  destruct (digits_bounds (Z.pos my) ltac:(lia)) as [? _]. lia.
Qed.

Lemma f64_mul_ok x y : f64_ok x → f64_ok y → f64_ok (f64_mul x y).
Proof.
  intros Hx Hy. destruct x as [[]|[]| |sx mx ex], y as [[]|[]| |sy my ey]; try done.
  by eapply rounded_ok, mul_finite_rounded.
Qed.

(** *** Reading numbers *)

Lemma f64_of_ratio_ok s n d : 0 ≤ n → 0 < d → rounded s (f64_of_ratio s n d).
Proof.
  intros Hn Hd. unfold f64_of_ratio. destruct n as [|p|p]; [by split| |lia].
  unfold SFdiv_core_binary. cbv zeta. rewrite !Z.add_0_r, Z.sub_0_r.
  set (e := Z.min (fexp 53 1024 (Zdigits2 (Z.pos p) - Zdigits2 d)) 0).
  assert (Hm : match 0 - e with 0 => Z.pos p | Z.pos _ => Z.shiftl (Z.pos p) (0 - e) | Z.neg _ => 0 end
               = Z.pos p * 2 ^ (- e)).
  { rewrite Z.sub_0_l. destruct (- e) eqn:E; [lia|by rewrite Z.shiftl_mul_pow2|lia]. }
  rewrite Hm. assert (0 ≤ - e) by lia. pose proof (Z.pow_pos_nonneg 2 (- e) ltac:(lia) ltac:(lia)).
  pose proof (Z_div_mod (Z.pos p * 2 ^ (- e)) d ltac:(lia)) as Hq.
  destruct (Z.div_eucl _ d) as [q r]. destruct Hq as [Hq Hr].
  assert (0 ≤ q) by nia. apply binary_round_aux_ok; [done|].
  assert (Hge : Zdigits2 (Z.pos p) - e - Zdigits2 d ≤ Zdigits2 q).
  { destruct (digits_bounds d Hd) as (? & _ & ?).
    destruct (digits_bounds (Z.pos p) ltac:(lia)) as (? & ? & _).
    destruct (decide (Zdigits2 (Z.pos p) - e - Zdigits2 d ≤ 0)); [pose proof (digits_nonneg q); lia|].
    set (k := Zdigits2 (Z.pos p) - e - Zdigits2 d) in *.
    assert (Hk : Zdigits2 (2 ^ (k - 1)) = k).
    { replace (2 ^ (k - 1)) with (1 * 2 ^ (k - 1)) by lia. rewrite digits_shift by lia. cbn. lia. }
    rewrite <- Hk. apply digits_mono. split; [apply Z.pow_nonneg; lia|].
    assert (2 ^ (k - 1) * 2 ^ Zdigits2 d ≤ Z.pos p * 2 ^ (- e)).
    { rewrite <- Z.pow_add_r by lia.
      replace (k - 1 + Zdigits2 d) with (Zdigits2 (Z.pos p) - 1 + - e) by lia.
      rewrite Z.pow_add_r by lia. nia. }
    assert (2 ^ (k - 1) < q + 1); [|lia].
    apply (Z.mul_lt_mono_pos_r d); [lia|].
    pose proof (Z.pow_pos_nonneg 2 (k - 1) ltac:(lia) ltac:(lia)).
    assert (2 ^ (k - 1) * d ≤ 2 ^ (k - 1) * 2 ^ Zdigits2 d) by (apply Z.mul_le_mono_nonneg_l; lia).
    nia. }
  subst e. rewrite !fexp_eq in *. pose proof (digits_nonneg q ltac:(lia)). lia.
Qed.

Lemma f64_of_decimal_ok s n e : 0 ≤ n → rounded s (f64_of_decimal s n e).
Proof.
  intros Hn. unfold f64_of_decimal.
  destruct (Z.leb_spec 0 e); apply f64_of_ratio_ok; try lia; apply Z.pow_pos_nonneg || apply Z.mul_nonneg_nonneg; lia.
Qed.

Lemma take_digits_ok l : Forall (λ b, is_digit b = true) (take_digits l).1.
Proof.
  induction l as [|b l IH]; cbn; [constructor|].
  destruct (is_digit b) eqn:E; [|constructor]. destruct (take_digits l). by constructor.
Qed.

Lemma number_nonneg ds : Forall (λ b, is_digit b = true) ds → 0 ≤ number ds.
Proof.
  unfold number. cut (∀ acc, 0 ≤ acc → Forall (λ b, is_digit b = true) ds →
    0 ≤ foldl (λ acc b, 10 * acc + (b - 48)) acc ds); [intros H; by apply H|].
  induction ds as [|b ds IH]; intros acc Ha; cbn; [done|].
  inv 1 as [|?? Hb Hds]. apply IH; [|done].
  unfold is_digit, between in Hb. apply andb_true_iff in Hb as [?%Z.leb_le _]. lia.
Qed.

(** Every number read from text is well formed. *)
Lemma parse_f64_ok l x : parse_f64 l = Some x → f64_ok x.
Proof.
  unfold parse_f64. destruct l as [|b l]; [done|]. destruct (take_sign (b :: l)) as [s t].
  destruct (parse_decimal s t) as [y|] eqn:E.
  - intros [= <-]. unfold parse_decimal in E.
    pose proof (take_digits_ok t) as Hi. destruct (take_digits t) as [int r].
    assert (Hf : ∀ r', Forall (λ b, is_digit b = true) (take_digits r').1) by apply take_digits_ok.
    destruct (match r with [] => _ | _ => _ end) as [frac r'] eqn:Er.
    assert (Forall (λ b, is_digit b = true) frac).
    { destruct r as [|c r]; simplify_eq; [constructor|].
      destruct (c =? 46); simplify_eq; [|constructor]. specialize (Hf r). by rewrite Er in Hf. }
    destruct (int ++ frac) as [|d ds] eqn:Ed; [done|].
    apply bind_Some in E as (e & _ & [= <-]).
    eapply rounded_ok, f64_of_decimal_ok, number_nonneg. rewrite <- Ed. by apply Forall_app.
  - repeat case_bool_decide; intros; simplify_eq; done.
Qed.

(** ** Order and signs *)

(** Not negative (and not NaN), and a finite such number: an amount of money. *)
Definition f64_nonneg (x : f64) : Prop := f64_ok x ∧ f64_ge x (S754_zero false) = true.
Definition f64_amount (x : f64) : Prop :=
  f64_nonneg x ∧ match x with S754_zero _ | S754_finite _ _ _ => True | _ => False end.

#[export] Instance f64_nonneg_dec x : Decision (f64_nonneg x).
Proof. unfold f64_nonneg, f64_ok. apply _. Defined.
#[export] Instance f64_amount_dec x : Decision (f64_amount x).
Proof. unfold f64_amount. destruct x; apply _. Defined.

Lemma rounded_nonneg x : rounded false x → f64_nonneg x.
Proof. by intros [? Hx]; split; [|destruct x; subst]. Qed.

Lemma normalize_nonneg z e : 0 ≤ z → f64_nonneg (binary_normalize 53 1024 z e false).
Proof.
  intros. apply rounded_nonneg. pose proof (normalize_ok z e) as Hz.
  by rewrite (proj2 (Z.ltb_ge z 0)) in Hz.
Qed.

Lemma nonneg_add x y : f64_nonneg x → f64_nonneg y → f64_nonneg (f64_add x y).
Proof.
  intros [Hx Hx'] [Hy Hy']. unfold f64_add.
  destruct x as [[]|[]| |[] mx ex], y as [[]|[]| |[] my ey]; cbn [SFadd]; try done.
  apply normalize_nonneg. cbn [cond_Zopp]. lia.
Qed.

Lemma nonneg_mul x y : f64_amount x → f64_amount y → f64_nonneg (f64_mul x y).
Proof.
  intros [[Hx Hx'] Fx] [[Hy Hy'] Fy].
  destruct x as [[]| | |[] mx ex], y as [[]| | |[] my ey]; try done.
  apply rounded_nonneg, (mul_finite_rounded false mx ex false my ey); done.
Qed.

(** On canonical mantissas the comparison is the one of the numbers, scaled to the
    smaller exponent. *)
Lemma finite_le_spec my ey mx ex :
  f64_ok (S754_finite false mx ex) → f64_ok (S754_finite false my ey) →
  SFleb (S754_finite false my ey) (S754_finite false mx ex) = true →
  Z.pos my * 2 ^ Z.max 0 (ey - Z.min ex ey) ≤ Z.pos mx * 2 ^ Z.max 0 (ex - Z.min ex ey).
Proof.
  intros [? Hx]%finite_ok [? Hy]%finite_ok. unfold SFleb. cbn [SFcompare].
  destruct (Z.compare_spec ey ex) as [->|Hlt|]; [|intros _|done].
  - rewrite Z.min_id, Z.sub_diag. change (Pos.compare_cont Eq my mx) with (my ?= mx)%positive.
    rewrite Z.max_id, Z.pow_0_r, !Z.mul_1_r.
    destruct (Pos.compare_spec my mx); [subst; lia|lia|done].
  - destruct (digits_bounds (Z.pos my) ltac:(lia)) as (? & _ & Hmy).
    destruct (digits_bounds (Z.pos mx) ltac:(lia)) as (? & Hmx & _).
    rewrite Z.min_r by lia. rewrite Z.sub_diag, Z.max_l, Z.max_r, Z.pow_0_r, Z.mul_1_r by lia.
    assert (Hmy' : Z.pos my < 2 ^ (Zdigits2 (Z.pos mx) - 1 + (ex - ey))).
    { eapply Z.lt_le_trans; [exact Hmy|]. apply Z.pow_le_mono_r; lia. }
    rewrite Z.pow_add_r in Hmy' by lia. etrans; [apply Z.lt_le_incl, Hmy'|].
    apply Z.mul_le_mono_nonneg_r; [apply Z.pow_nonneg; lia|done].
Qed.

(** Taking a finite amount from a balance that covers it leaves no debt. *)
Lemma nonneg_sub x y : f64_nonneg x → f64_amount y → f64_ge x y = true → f64_nonneg (f64_sub x y).
Proof.
  intros [Hx Hx'] [[Hy Hy'] Fy] Hge. unfold f64_sub.
  destruct x as [[]|[]| |[] mx ex], y as [[]| | |[] my ey]; cbn [SFsub]; try done.
  apply normalize_nonneg. pose proof (finite_le_spec _ _ _ _ Hx Hy Hge).
  destruct (shl_align_spec mx ex (Z.min ex ey)) as [H1 _].
  destruct (shl_align_spec my ey (Z.min ex ey)) as [H2 _]. cbn [cond_Zopp]. rewrite H1, H2. lia.
Qed.
