(* ===== verification/MobileMoney.v ===== *)
(** * The mobile money example ([examples/mobile-money/src/main.rs])

    A line-oriented program with a dollar account and, once created, a bitcoin
    account kept by a node component.  A command is a function on the application's
    state and the world, with the error text or the panic it ends in; the
    floating-point arithmetic, the reading and the printing of amounts are those of
    [F64].

    Parameters: the terminal and the environment, the node component as the
    example's own [wit/world.wit] declares it (an earlier interface than the node of
    this repository exports), the [shlex] and [clap] crates, and [Amount::to_btc] of
    the bitcoin crate.  Engine and linker set-up of [create_node] and the WASI view
    are wasmtime's: one call of the parameter [instantiate]. *)

From S2P Require Import Prelude F64.
From Stdlib Require Import SpecFloat.

(** ** The node component of the example's world *)

Inductive MmError := MmNetworkError | MmTbdexError | MmNoTbdx.
Inductive MmBitcoinNetwork := MmMainnet | MmTestnet | MmRegtest.
Record SocketAddress := MkSocketAddress { sa_ip : bytes; sa_port : Z }.
Record TbdexConfig := MkTbdexConfig { pfi_uri : bytes; vc_url : bytes; acct_number : bytes }.
Record MmNodeConfig := MkMmNodeConfig {
  mm_wallet_address : bytes;
  mm_wallet_filter : bytes;
  mm_genesis_blockhash : bytes;
  mm_network : MmBitcoinNetwork;
  mm_socket_address : SocketAddress;
}.
Record OfferingBargain := MkOfferingBargain {
  offer_fee : option bytes;
  offer_estimated_settlement_time : Z;
  offer_id : bytes;
  offer_rate : bytes;
}.

(** What the program finds around it.  A call of the component returns nothing when
    the component trapped.  [read_line] gives the empty text at the end of the input. *)
Class Host (W : Type) := {
  instance : Type;
  node_handle : Type;
  env_var_os : string → W → option bytes;
  instantiate : bytes → W → option instance * W;
  call_constructor : instance → MmNodeConfig → option TbdexConfig → W → option node_handle * W;
  call_get_balance : instance → node_handle → W → option (MmError + Z) * W;
  call_get_conversion_offer :
    instance → node_handle → W → option (MmError + OfferingBargain) * W;
  call_convert_amount :
    instance → node_handle → bytes → bytes → W → option (MmError + bytes) * W;
  stdout_write : bytes → W → outcome bytes () * W;
  stdout_flush : W → outcome bytes () * W;
  read_line : W → outcome bytes bytes * W;
}.

(** ** The crates *)

(** The parts of a [clap::Command] that the program sets. *)
Record ClapArg := MkClapArg { arg_name : bytes; arg_help : bytes; arg_required : bool }.
Record Subcommand := MkSubcommand {
  sub_name : bytes;
  sub_alias : option bytes;
  sub_about : bytes;
  sub_args : list ClapArg;
}.
Record ClapCommand := MkClapCommand {
  cmd_name : bytes;
  cmd_multicall : bool;
  cmd_arg_required_else_help : bool;
  cmd_subcommand_required : bool;
  cmd_version : bytes;
  cmd_author : bytes;
  cmd_about : bytes;
  cmd_subcommands : list Subcommand;
}.

(** The subcommand found and its arguments. *)
Record ArgMatches := MkArgMatches { am_subcommand : bytes; am_args : list (bytes * bytes) }.

Definition subcommand_matches (name : bytes) (m : ArgMatches) : option (list (bytes * bytes)) :=
  if bool_decide (am_subcommand m = name) then Some (am_args m) else None.

Fixpoint get_one (arg : bytes) (l : list (bytes * bytes)) : option bytes :=
  match l with
  | [] => None
  | (a, v) :: l => if bool_decide (a = arg) then Some v else get_one arg l
  end.

(** A word that clap takes as a value and not as an option. *)
Definition is_value (v : bytes) : bool :=
  match v with b :: _ => negb (b =? 45) | [] => true end.

(** [shlex::split] and [Command::try_get_matches_from].  The law is clap's documented
    treatment of a multicall command: the first word names a subcommand (here one
    without alias), and as many values as it has arguments follow. *)
Class Crates := {
  shlex_split : bytes → option (list bytes);
  try_get_matches_from : ClapCommand → list bytes → outcome bytes ArgMatches;
  to_btc : Z → f64;
  clap_matches c s values :
    cmd_multicall c = true → NoDup (map sub_name (cmd_subcommands c)) →
    s ∈ cmd_subcommands c → length values = length (sub_args s) →
    forallb is_value values = true →
    try_get_matches_from c (sub_name s :: values)
      = Ok (MkArgMatches (sub_name s) (zip (map arg_name (sub_args s)) values));
  to_btc_sign z : is_u64 z → rounded false (to_btc z);
}.

(** [str::trim]: white space is Unicode's, in UTF-8. *)
Definition whitespace : list bytes :=
  map (λ b, [b]) [9; 10; 11; 12; 13; 32]
  ++ [[194; 133]; [194; 160]; [225; 154; 128]]
  ++ map (λ b, [226; 128; b]) ([128; 129; 130; 131; 132; 133; 134; 135; 136; 137; 138]
                                 ++ [168; 169; 175])
  ++ [[226; 129; 159]; [227; 128; 128]].

Fixpoint strip_prefix (p l : bytes) : option bytes :=
  match p, l with
  | [], _ => Some l
  | a :: p, b :: l => if a =? b then strip_prefix p l else None
  | _, _ => None
  end.

Fixpoint trim_with (ws : list bytes) (fuel : nat) (l : bytes) : bytes :=
  match fuel with
  | O => l
  | S fuel => match omap (λ p, strip_prefix p l) ws with
              | l' :: _ => trim_with ws fuel l'
              | [] => l
              end
  end.

Definition trim (l : bytes) : bytes :=
  let l := trim_with whitespace (length l) l in
  reverse (trim_with (map reverse whitespace) (length l) (reverse l)).

Example trim_example :
  trim (str " " ++ [9; 226; 128; 168] ++ str "deposit 5" ++ [194; 160; 13; 10]) = str "deposit 5"
  ∧ trim [32; 10] = [].
Proof. split; vm_compute; reflexivity. Qed.

(** ** The application *)

Record UsdAccount := MkUsdAccount { account_number : bytes; usd_balance : f64 }.

Record BtcAccount (I N : Type) := MkBtcAccount {
  btc_address : bytes;
  btc_node : N;
  btc_nodeworld : I;
  btc_balance : f64;
  btc_current_rate : f64;
}.
Arguments MkBtcAccount {_ _} _ _ _ _ _.
Arguments btc_address {_ _} _.
Arguments btc_node {_ _} _.
Arguments btc_nodeworld {_ _} _.
Arguments btc_balance {_ _} _.
Arguments btc_current_rate {_ _} _.

Record MobileMoneyApp (I N : Type) := MkMobileMoneyApp {
  username : bytes;
  usd_account : UsdAccount;
  btc_account : option (BtcAccount I N);
}.
Arguments MkMobileMoneyApp {_ _} _ _ _.
Arguments username {_ _} _.
Arguments usd_account {_ _} _.
Arguments btc_account {_ _} _.

Definition set_usd_balance {I N} (b : f64) (a : MobileMoneyApp I N) : MobileMoneyApp I N :=
  MkMobileMoneyApp (username a) (MkUsdAccount (account_number (usd_account a)) b) (btc_account a).
Definition set_btc {I N} (b : BtcAccount I N) (a : MobileMoneyApp I N) : MobileMoneyApp I N :=
  MkMobileMoneyApp (username a) (usd_account a) (Some b).
Definition set_btc_balance {I N} (x : f64) (b : BtcAccount I N) : BtcAccount I N :=
  MkBtcAccount (btc_address b) (btc_node b) (btc_nodeworld b) x (btc_current_rate b).
Definition set_btc_rate {I N} (x : f64) (b : BtcAccount I N) : BtcAccount I N :=
  MkBtcAccount (btc_address b) (btc_node b) (btc_nodeworld b) (btc_balance b) x.

Definition UNWRAP_NONE : string := "called `Option::unwrap()` on a `None` value".
Definition UNWRAP_ERR : string := "called `Result::unwrap()` on an `Err` value".

(** The command line grammar that [respond] hands to clap. *)
Definition required_arg (name help : string) : ClapArg := MkClapArg (str name) (str help) true.
Definition subcommand (name about : string) (args : list ClapArg) : Subcommand :=
  MkSubcommand (str name) None (str about) args.

Definition repl_command : ClapCommand :=
  MkClapCommand (str "Repl Mobile Money") true true true (str "1.0") (str "Bitspend")
    (str "A CLI application for mobile money")
    [subcommand "deposit" "Deposit money into user account"
       [required_arg "amount" "Amount to deposit"];
     subcommand "withdraw" "Withdraw money from user account"
       [required_arg "amount" "Amount to withdraw"];
     subcommand "convert" "Convert Usd to BTC"
       [required_arg "amount" "Usd amount to convert"; required_arg "offer_id" "The offer ID"];
     subcommand "send_btc" "Send Btc To An Address"
       [required_arg "amount" "Btc Amount To Send"; required_arg "address" "Address To Send"];
     subcommand "balance" "Check the balance of a user" [];
     subcommand "create_btc_account" "Create a BTC account" [];
     subcommand "convert_offer" "Get conversion offer" [];
     MkSubcommand (str "quit") (Some (str "exit")) (str "Quit the REPL") []].

Section App.
  Context {W : Type} `{H : Host W} `{CR : Crates}.

Definition App : Type := MobileMoneyApp instance node_handle.

(** A method: the application and the world before and after, and what it returns. *)
Definition cmd (A : Type) : Type := App * W → outcome bytes A * (App * W).

#[global] Instance cmd_ret : MRet cmd := λ A a st, (Ok a, st).
#[global] Instance cmd_bind : MBind cmd := λ A B f m st, try_bind (m st) f.

Definition get_app : cmd App := λ st, (Ok st.1, st).
Definition put_app (a : App) : cmd () := λ st, (Ok (), (a, st.2)).
Definition lift {A} (r : outcome bytes A) : cmd A := λ st, (r, st).

(** A call on the world; [std::io::stdout().write(..).map_err(..)?]. *)
Definition host {A} (f : W → outcome bytes A * W) : cmd A :=
  λ st, let '(r, w) := f st.2 in (r, (st.1, w)).
Definition say (t : bytes) : cmd () := host (stdout_write t).

(** [.unwrap()] of a call that may trap, [.unwrap().unwrap()] of one that may also
    return an error. *)
Definition unwrap_call {A} (f : W → option A * W) : cmd A :=
  host (λ w, let '(r, w) := f w in (unwrap_opt UNWRAP_ERR r, w)).
Definition unwrap_call2 {A} (f : W → option (MmError + A) * W) : cmd A :=
  r ← unwrap_call f; lift (match r with inl _ => Panic UNWRAP_ERR | inr a => Ok a end).

Definition create_account (name : bytes) : App :=
  MkMobileMoneyApp name (MkUsdAccount (str "29495683467") (f64_of_Z 1000)) None.

Definition node_config : MmNodeConfig :=
  MkMmNodeConfig (str "bcrt1qlhwg8036lga3c2t4pmmc6wf49f8t0m5gshjzpj")
    (str "0014fddc83be3afa3b1c29750ef78d39352a4eb7ee88")
    (str "0f9188f13cb7b2c71f2a335e3a4fc328bf5beb436012afca590b1a11466e2206")
    MmRegtest (MkSocketAddress (str "127.0.0.1") 18744).

(** [PathBuf::join] with a relative path. *)
Definition path_join (dir file : bytes) : bytes :=
  match last dir with
  | None => file
  | Some b => if b =? 47 then dir ++ file else dir ++ str "/" ++ file
  end.

Definition create_node (acct : bytes) : cmd (instance * node_handle) :=
  out_dir ← (λ st, (unwrap_opt UNWRAP_NONE (env_var_os "OUT_DIR" st.2), st)) : cmd bytes;
  inst ← unwrap_call (instantiate (path_join out_dir (str "nodenode.wasm")));
  resource ← unwrap_call (call_constructor inst node_config
    (Some (MkTbdexConfig (str "did:dht:zkp5gbsqgzn69b3y5dtt5nnpjtdq6sxyukpzo68npsf79bmtb9zy")
                         (str "mock-idv.tbddev.org") acct)));
  mret (inst, resource).

Definition create_btc_account : cmd bool :=
  let address := str "bcrt1qlhwg8036lga3c2t4pmmc6wf49f8t0m5gshjzpj" in
  a ← get_app;
  '(nodeworld, node) ← create_node (account_number (usd_account a));
  balance ← unwrap_call2 (call_get_balance nodeworld node);
  put_app (set_btc (MkBtcAccount address node nodeworld (to_btc (as_u64 balance)) (f64_of_Z 0)) a) ≫= λ _,
  say (str "Address: " ++ address ++ [10] ++ str "Account created" ++ [10]) ≫= λ _,
  mret false.

Definition deposit (amount : f64) : cmd bool :=
  a ← get_app;
  let balance := f64_add (usd_balance (usd_account a)) amount in
  put_app (set_usd_balance balance a) ≫= λ _,
  say (str "Amount deposited. New balance: " ++ show_f64 balance ++ [10]) ≫= λ _,
  mret false.

Definition insufficient_funds : cmd () := say (str "Insufficient funds!" ++ [10]).

Definition withdraw (amount : f64) : cmd bool :=
  a ← get_app;
  (if f64_ge (usd_balance (usd_account a)) amount then
     let balance := f64_sub (usd_balance (usd_account a)) amount in
     put_app (set_usd_balance balance a) ≫= λ _,
     say (str "Withdrew Ammount " ++ show_f64 amount ++ str ". New balance: "
            ++ show_f64 balance ++ [10])
   else insufficient_funds) ≫= λ _,
  mret false.

(** [self.btc_account.as_mut().unwrap()]. *)
Definition get_btc : cmd (BtcAccount instance node_handle) :=
  a ← get_app; lift (unwrap_opt UNWRAP_NONE (btc_account a)).

Definition send_btc (amount : f64) (address : bytes) : cmd bool :=
  a ← get_app;
  b ← get_btc;
  (if f64_ge (btc_balance b) amount then
     put_app (set_btc (set_btc_balance (f64_sub (btc_balance b) amount) b) a) ≫= λ _,
     say (str "Sent Amount: " ++ show_f64 amount ++ str "btc to Address: " ++ address ++ [10])
   else insufficient_funds) ≫= λ _,
  mret false.

(** The fee printed is the number 2; the rate is stored before the text is printed. *)
Definition convert_offer : cmd bool :=
  a ← get_app;
  b ← get_btc;
  offer ← unwrap_call2 (call_get_conversion_offer (btc_nodeworld b) (btc_node b));
  rate ← lift (unwrap_opt UNWRAP_ERR (parse_f64 (offer_rate offer)));
  put_app (set_btc (set_btc_rate rate b) a) ≫= λ _,
  say (str "Fee: 2" ++ [10] ++ str "Rate: " ++ offer_rate offer ++ [10] ++ str "Settlement Time: "
         ++ dec (offer_estimated_settlement_time offer) ++ [10] ++ str "Id: " ++ offer_id offer
         ++ [10]) ≫= λ _,
  mret false.

Definition convert (id : bytes) (amount : f64) : cmd bool :=
  a ← get_app;
  (if f64_ge (usd_balance (usd_account a)) amount then
     b ← get_btc;
     unwrap_call2 (call_convert_amount (btc_nodeworld b) (btc_node b) (show_f64 amount) id) ≫= λ _,
     let usd := f64_sub (usd_balance (usd_account a)) amount in
     let btc := f64_add (btc_balance b) (f64_mul amount (btc_current_rate b)) in
     put_app (set_btc (set_btc_balance btc b) (set_usd_balance usd a)) ≫= λ _,
     say (str "Converted Amount " ++ show_f64 amount ++ [10] ++ str "New Btc balance: "
            ++ show_f64 btc ++ [10] ++ str "New Usd Balance: " ++ show_f64 usd ++ [10])
   else insufficient_funds) ≫= λ _,
  mret false.

Definition check_balance : cmd bool :=
  a ← get_app;
  say (str "Usd Balance: " ++ show_f64 (usd_balance (usd_account a)) ++ [10]) ≫= λ _,
  match btc_account a with
  | Some b => say (str "Btc Balance: " ++ show_f64 (btc_balance b) ++ [10])
  | None => mret ()
  end ≫= λ _,
  mret false.

(** ** Commands *)

(** A subcommand whose amount does not parse does nothing. *)
Definition with_amount (args : list (bytes * bytes)) (k : f64 → cmd bool) : cmd bool :=
  match get_one (str "amount") args ≫= parse_f64 with
  | Some amount => k amount
  | None => mret false
  end.

Definition dispatch (matches : ArgMatches) : cmd bool :=
  match subcommand_matches (str "deposit") matches with
  | Some m => with_amount m deposit
  | None =>
  match subcommand_matches (str "withdraw") matches with
  | Some m => with_amount m withdraw
  | None =>
  match subcommand_matches (str "convert") matches with
  | Some m => with_amount m (λ amount, match get_one (str "offer_id") m with
                                       | Some id => convert id amount | None => mret false end)
  | None =>
  match subcommand_matches (str "send_btc") matches with
  | Some m => with_amount m (λ amount, match get_one (str "address") m with
                                       | Some address => send_btc amount address
                                       | None => mret false end)
  | None =>
  if subcommand_matches (str "balance") matches is Some _ then check_balance
  else if subcommand_matches (str "convert_offer") matches is Some _ then convert_offer
  else if subcommand_matches (str "create_btc_account") matches is Some _ then create_btc_account
  else if subcommand_matches (str "quit") matches is Some _ then mret true
  else mret false
  end end end end.

(** The words of a line and what clap makes of them. *)
Definition parse_line (line : bytes) : outcome bytes ArgMatches :=
  args ← ok_or (str "error: Invalid quoting") (shlex_split line);
  try_get_matches_from repl_command args.

Definition respond (line : bytes) : cmd bool := lift (parse_line line) ≫= dispatch.

Definition readline : cmd bytes :=
  say (str "$ ") ≫= λ _, host stdout_flush ≫= λ _, host read_line.

(** The loop of [main], a turn per line read. *)
Fixpoint main_loop (fuel : nat) (st : App * W) : option (outcome bytes () * (App * W)) :=
  match fuel with
  | O => None
  | S fuel =>
    match readline st with
    | (Err e, st) => Some (Err e, st)
    | (Panic m, st) => Some (Panic m, st)
    | (Ok line, st) =>
      if bool_decide (trim line = []) then main_loop fuel st
      else
        match respond (trim line) st with
        | (Ok true, st) => Some (Ok (), st)
        | (Ok false, st) => main_loop fuel st
        | (Panic m, st) => Some (Panic m, st)
        | (Err e, st) =>
          match (say e ≫= λ _, host stdout_flush) st with
          | (Ok _, st) => main_loop fuel st
          | (Err e, st) => Some (Err e, st)
          | (Panic m, st) => Some (Panic m, st)
          end
        end
    end
  end.

Definition main (fuel : nat) (w : W) : option (outcome bytes () * (App * W)) :=
  main_loop fuel (create_account (str "demo_user"), w).

End App.

(** ** What the commands keep *)

(** [run] unfolds a command and follows it along every branch. *)
Ltac run :=
  unfold insufficient_funds, get_btc, get_app, put_app, unwrap_call2, unwrap_call, say, host, lift,
    unwrap_opt, mbind, cmd_bind, mret, cmd_ret in *;
  cbn [fst snd try_bind];
  repeat (case_match; simplify_eq; cbn [fst snd try_bind] in *; try done).

Section Laws.
  Context {W : Type} `{H : Host W} `{CR : Crates}.

(** Neither account is in debt, and the rate is a finite number. *)
Definition balances_ok (a : App) : Prop :=
  f64_nonneg (usd_balance (usd_account a))
  ∧ match btc_account a with
    | Some b => f64_nonneg (btc_balance b) ∧ f64_amount (btc_current_rate b)
    | None => True
    end.

(** A property of the application that the assignments of the commands keep, for
    the amounts and rates admitted by [good]. *)
Class Closed (P : App → Prop) (good : f64 → Prop) : Prop := {
  closed_deposit a x :
    P a → good x → P (set_usd_balance (f64_add (usd_balance (usd_account a)) x) a);
  closed_withdraw a x :
    P a → good x → f64_ge (usd_balance (usd_account a)) x = true →
    P (set_usd_balance (f64_sub (usd_balance (usd_account a)) x) a);
  closed_send a b x :
    P a → btc_account a = Some b → good x → f64_ge (btc_balance b) x = true →
    P (set_btc (set_btc_balance (f64_sub (btc_balance b) x) b) a);
  closed_offer a b r : P a → btc_account a = Some b → good r → P (set_btc (set_btc_rate r b) a);
  closed_convert a b x :
    P a → btc_account a = Some b → good x → f64_ge (usd_balance (usd_account a)) x = true →
    P (set_btc (set_btc_balance (f64_add (btc_balance b) (f64_mul x (btc_current_rate b))) b)
         (set_usd_balance (f64_sub (usd_balance (usd_account a)) x) a));
  closed_create a addr n i z :
    P a → P (set_btc (MkBtcAccount addr n i (to_btc (as_u64 z)) (f64_of_Z 0)) a);
}.

(** The amount on a line, and that every rate on offer is admitted. *)
Definition line_amount (line : bytes) : option f64 :=
  match parse_line line with
  | Ok m => get_one (str "amount") (am_args m) ≫= parse_f64
  | _ => None
  end.

Definition offers (good : f64 → Prop) : Prop :=
  ∀ i n w o w' r, call_get_conversion_offer i n w = (Some (inr o), w') →
    parse_f64 (offer_rate o) = Some r → good r.

Section Keeping.
  Context (P : App → Prop) (good : f64 → Prop) `{CL : !Closed P good}.

Lemma deposit_keeps x st : good x → P st.1 → P (deposit x st).2.1.
Proof.
  intros Hx HP. pose proof (closed_deposit st.1 x HP Hx) as HD. unfold deposit.
  destruct st as [a w]. run.
Qed.

Lemma withdraw_keeps x st : good x → P st.1 → P (withdraw x st).2.1.
Proof.
  intros Hx HP. pose proof (closed_withdraw st.1 x HP Hx) as HD. unfold withdraw.
  destruct st as [a w]. run; auto.
Qed.

Lemma send_btc_keeps x address st : good x → P st.1 → P (send_btc x address st).2.1.
Proof.
  intros Hx HP. pose proof (λ b, closed_send st.1 b x HP) as HD. unfold send_btc.
  destruct st as [a w]. run; auto.
Qed.

Lemma convert_offer_keeps st : offers good → P st.1 → P (convert_offer st).2.1.
Proof.
  intros Ho HP. pose proof (λ b r, closed_offer st.1 b r HP) as HD. unfold convert_offer.
  destruct st as [a w]. run; eauto.
Qed.

Lemma convert_keeps id x st : good x → P st.1 → P (convert id x st).2.1.
Proof.
  intros Hx HP. pose proof (λ b, closed_convert st.1 b x HP) as HD. unfold convert.
  destruct st as [a w]. run; auto.
Qed.

Lemma create_btc_account_keeps st : P st.1 → P (create_btc_account st).2.1.
Proof.
  intros HP. pose proof (λ addr n i z, closed_create st.1 addr n i z HP) as HD.
  unfold create_btc_account, create_node. destruct st as [a w]. run; auto.
Qed.

Lemma check_balance_keeps st : P st.1 → P (check_balance st).2.1.
Proof. intros HP. unfold check_balance. destruct st as [a w]. run; auto. Qed.

Lemma with_amount_keeps l k st :
  (∀ x, get_one (str "amount") l ≫= parse_f64 = Some x → P st.1 → P (k x st).2.1) →
  P st.1 → P (with_amount l k st).2.1.
Proof. intros Hk HP. unfold with_amount. case_match; auto. Qed.

Lemma dispatch_keeps m st :
  offers good →
  (∀ x, get_one (str "amount") (am_args m) ≫= parse_f64 = Some x → good x) →
  P st.1 → P (dispatch m st).2.1.
Proof.
  intros Ho Hx HP. unfold dispatch, subcommand_matches.
  repeat case_bool_decide; cbn; try apply with_amount_keeps;
    eauto using deposit_keeps, withdraw_keeps, convert_offer_keeps, create_btc_account_keeps,
      check_balance_keeps.
  - intros x E ?. case_match; [eapply convert_keeps|]; eauto.
  - intros x E ?. case_match; [eapply send_btc_keeps|]; eauto.
Qed.

(** Every command keeps the property. *)
Lemma respond_keeps line st :
  offers good → (∀ x, line_amount line = Some x → good x) →
  P st.1 → P (respond line st).2.1.
Proof.
  unfold line_amount. intros Ho Hx HP. unfold respond, mbind, cmd_bind, lift.
  destruct (parse_line line); cbn; try done. by apply dispatch_keeps.
Qed.

End Keeping.

(** The balances stay non-negative for finite non-negative amounts and rates. *)
#[global] Instance balances_closed : Closed balances_ok f64_amount.
Proof.
  assert (∀ x, f64_amount x → f64_nonneg x) as weak by (by intros x []).
  split; unfold balances_ok.
  - intros a x [Hu Hb] Hx. split; [|done]. cbn. auto using nonneg_add.
  - intros a x [Hu Hb] Hx Hge. split; [|done]. cbn. auto using nonneg_sub.
  - intros a b x [Hu Hb] E Hx Hge. rewrite E in Hb. destruct Hb. cbn. auto using nonneg_sub.
  - intros a b r [Hu Hb] E Hr. rewrite E in Hb. destruct Hb. cbn. auto.
  - intros a b x [Hu Hb] E Hx Hge. rewrite E in Hb. destruct Hb. cbn.
    auto using nonneg_sub, nonneg_add, nonneg_mul.
  - intros a addr n i z [Hu Hb]. split; [done|]. cbn. split; [|by_eval].
    apply rounded_nonneg, to_btc_sign, as_u64_range.
Qed.

(** NaN stays NaN, whatever is typed or offered. *)
Definition usd_is_nan (a : App) : Prop := usd_balance (usd_account a) = S754_nan.

#[global] Instance nan_closed : Closed usd_is_nan (λ _, True).
Proof.
  unfold usd_is_nan. split; cbn; try done; intros a x; [by intros ->|by intros ->|].
  intros y ->. done.
Qed.

(** The states of a session: the world changes between commands as it will. *)
Inductive session (good : f64 → Prop) (st : App * W) : App * W → Prop :=
| session_start : session good st st
| session_step st' line w :
    session good st st' → (∀ x, line_amount line = Some x → good x) →
    session good st ((respond line st').2.1, w).

Lemma session_keeps P good `{!Closed P good} st st' :
  offers good → session good st st' → P st.1 → P st'.1.
Proof. intros Ho. induction 1; [done|]. intros HP. cbn. eapply respond_keeps; eauto. Qed.

(** The loop of [main] keeps what the commands keep, when the lines that can be typed
    have admitted amounts only. *)
Lemma main_loop_keeps P good `{!Closed P good} fuel st r st' :
  offers good →
  (∀ w line w' x, read_line w = (Ok line, w') → line_amount (trim line) = Some x → good x) →
  main_loop fuel st = Some (r, st') → P st.1 → P st'.1.
Proof.
  intros Ho Hl. revert st. induction fuel as [|fuel IH]; intros [a w]; [done|]. cbn [main_loop].
  assert (Hr : ∀ line, (readline (a, w)).1 = Ok line → ∀ x, line_amount (trim line) = Some x → good x).
  { unfold readline. run; intros line Hline x Hx; simplify_eq; eauto. }
  assert (Ha : (readline (a, w)).2.1 = a) by (unfold readline; run).
  destruct (readline (a, w)) as [[line|e|m] [a1 w1]]; cbn in Hr, Ha; subst a1; [|naive_solver..].
  case_bool_decide; intros E HP; [by apply (IH _ E)|].
  pose proof (respond_keeps P good (trim line) (a, w1) Ho (Hr line eq_refl) HP) as HR.
  destruct (respond (trim line) (a, w1)) as [[[]|e|m] [a2 w2]]; cbn in HR; simplify_eq; [done|eauto|..|done].
  assert (Hs : ((say e ≫= λ _, host stdout_flush) (a2, w2)).2.1 = a2) by run.
  destruct ((say e ≫= _) (a2, w2)) as [[] [a3 w3]]; cbn in Hs; subst; simplify_eq; eauto.
Qed.

(** Words and amounts of the simplest lines. *)
Lemma parse_line_ok line s values :
  shlex_split line = Some (sub_name s :: values) → s ∈ cmd_subcommands repl_command →
  length values = length (sub_args s) → forallb is_value values = true →
  parse_line line = Ok (MkArgMatches (sub_name s) (zip (map arg_name (sub_args s)) values)).
Proof.
  intros E Hs Hl Hv. unfold parse_line. rewrite E. cbn [ok_or mbind outcome_bind].
  apply clap_matches; try done. by_eval.
Qed.

(** What a new bitcoin account holds. *)
Lemma create_btc_account_inv st st' :
  create_btc_account st = (Ok false, st') →
  ∃ b z, btc_account st'.1 = Some b ∧ btc_balance b = to_btc (as_u64 z)
    ∧ btc_current_rate b = S754_zero false ∧ usd_account st'.1 = usd_account st.1.
Proof.
  unfold create_btc_account, create_node. destruct st as [a w]. run; intros; simplify_eq.
  by eexists _, _.
Qed.

(** Adding a product with zero changes no balance that is not the negative zero. *)
Lemma add_zero_product b x :
  rounded false b → f64_amount x → f64_add b (f64_mul x (S754_zero false)) = b.
Proof.
  intros [_ Hb] [_ Hx]. destruct x as [sx| | |sx mx ex]; try done;
    destruct b as [[]|[]| |[] mb eb], sx; done.
Qed.

Lemma with_amount_get amount l k st :
  get_one (str "amount") l = Some amount →
  with_amount l k st = if parse_f64 amount is Some x then k x st else (Ok false, st).
Proof. intros E. unfold with_amount. rewrite E. cbn. by destruct (parse_f64 amount). Qed.

End Laws.

(** ** Theorems *)

(** C30: the dollar balance, the bitcoin balance and the rate never become negative or NaN
    in a session in which only finite non-negative amounts are typed and only such
    rates are offered. *)
Theorem balances_never_negative {W} `{H : Host W} `{CR : Crates} name w st :
  offers f64_amount →
  session f64_amount (create_account name, w) st →
  balances_ok st.1.
Proof.
  intros Ho Hs. eapply (session_keeps balances_ok f64_amount); [done..|].
  split; [by_eval|done].
Qed.

(** Amounts are not checked: once NaN was deposited the dollar balance is NaN for the
    rest of the session, and every withdrawal is refused. *)
Theorem nan_deposit_freezes {W} `{H : Host W} `{CR : Crates} st st' x :
  session (λ _, True) (deposit S754_nan st).2 st' →
  usd_balance (usd_account st'.1) = S754_nan ∧ (withdraw x st').2.1 = st'.1.
Proof.
  intros Hs. assert (Hn : usd_is_nan st'.1).
  { eapply (session_keeps usd_is_nan (λ _, True)); [done..|].
    unfold deposit, usd_is_nan. destruct st as [a w]. run;
      by destruct (usd_balance (usd_account a)). }
  split; [done|]. unfold usd_is_nan in Hn. unfold withdraw. destruct st' as [a w]. cbn in Hn.
  assert (Hge : f64_ge (usd_balance (usd_account a)) x = false) by (rewrite Hn; by destruct x).
  run; congruence.
Qed.

(** Converting before an offer was asked for takes the dollars and adds no bitcoin: a
    new account has the rate zero. *)
Theorem conversion_without_offer_buys_nothing {W} `{H : Host W} `{CR : Crates}
    st st1 st2 id x :
  create_btc_account st = (Ok false, st1) →
  f64_amount x → f64_ge (usd_balance (usd_account st1.1)) x = true →
  convert id x st1 = (Ok false, st2) →
  btc_balance <$> btc_account st2.1 = btc_balance <$> btc_account st1.1
  ∧ usd_balance (usd_account st2.1) = f64_sub (usd_balance (usd_account st.1)) x.
Proof.
  intros (b & z & Eb & Ez & Er & Eu)%create_btc_account_inv Hx Hge.
  destruct st1 as [a w]. cbn [fst] in *. rewrite <- Eu. unfold convert.
  pose proof (add_zero_product (btc_balance b) x) as Ha. rewrite Ez in Ha.
  specialize (Ha (to_btc_sign _ (as_u64_range z)) Hx).
  run; intros; simplify_eq. cbn. by rewrite Er, Ez, Ha.
Qed.

(** [send_btc] sends nothing: the node component is not called, all that happens to
    the world is one line of text. *)
Theorem send_btc_sends_nothing {W} `{H : Host W} `{CR : Crates} a w x address b :
  btc_account a = Some b →
  ∃ text, (send_btc x address (a, w)).2.2 = (stdout_write text w).2
    ∧ (send_btc x address (a, w)).2.1
      = if f64_ge (btc_balance b) x
        then set_btc (set_btc_balance (f64_sub (btc_balance b) x) b) a else a.
Proof.
  intros Eb. unfold send_btc. run; try congruence; eexists; (split; [|done]);
    match goal with E : stdout_write _ _ = _ |- _ => by rewrite E end.
Qed.

(** A command line with a known subcommand and values for its arguments calls the
    method with the number that the amount stands for; an amount that is no number
    leaves everything as it is. *)
Theorem commands_call_methods {W} `{H : Host W} `{CR : Crates} line amount extra st :
  is_value amount = true → is_value extra = true →
  (shlex_split line = Some [str "deposit"; amount] →
     respond line st = if parse_f64 amount is Some x then deposit x st else (Ok false, st))
  ∧ (shlex_split line = Some [str "withdraw"; amount] →
     respond line st = if parse_f64 amount is Some x then withdraw x st else (Ok false, st))
  ∧ (shlex_split line = Some [str "convert"; amount; extra] →
     respond line st = if parse_f64 amount is Some x then convert extra x st else (Ok false, st))
  ∧ (shlex_split line = Some [str "send_btc"; amount; extra] →
     respond line st = if parse_f64 amount is Some x then send_btc x extra st else (Ok false, st))
  ∧ (shlex_split line = Some [str "quit"] → respond line st = (Ok true, st)).
Proof.
  intros Ha He.
  assert (Hr : ∀ i s values, cmd_subcommands repl_command !! i = Some s →
    shlex_split line = Some (sub_name s :: values) →
    length values = length (sub_args s) → forallb is_value values = true →
    respond line st
    = dispatch (MkArgMatches (sub_name s) (zip (map arg_name (sub_args s)) values)) st).
  { intros i s values Hi E Hl Hv. unfold respond.
    rewrite (parse_line_ok line s values); try done. by eapply list_elem_of_lookup_2. }
  split_and!; intros E.
  - rewrite (Hr 0%nat _ [amount] eq_refl E eq_refl); [|cbn; by rewrite Ha].
    apply (with_amount_get amount [(str "amount", amount)] deposit).
    reflexivity.
  - rewrite (Hr 1%nat _ [amount] eq_refl E eq_refl); [|cbn; by rewrite Ha].
    apply (with_amount_get amount [(str "amount", amount)] withdraw).
    reflexivity.
  - rewrite (Hr 2%nat _ [amount; extra] eq_refl E eq_refl); [|cbn; by rewrite Ha, He].
    apply (with_amount_get amount [(str "amount", amount); (str "offer_id", extra)] (λ x, convert extra x)).
    reflexivity.
  - rewrite (Hr 3%nat _ [amount; extra] eq_refl E eq_refl); [|cbn; by rewrite Ha, He].
    apply (with_amount_get amount [(str "amount", amount); (str "address", extra)] (λ x, send_btc x extra)).
    reflexivity.
  - by rewrite (Hr 7%nat _ [] eq_refl E eq_refl).
Qed.

(** At the end of the input the program does not end: [read_line] gives an empty line,
    which is skipped, for ever. *)
Theorem end_of_input_spins {W} `{H : Host W} `{CR : Crates} (at_end : W → Prop) a w fuel :
  (∀ w t, at_end w → ∃ w', stdout_write t w = (Ok (), w') ∧ at_end w') →
  (∀ w, at_end w → ∃ w', stdout_flush w = (Ok (), w') ∧ at_end w') →
  (∀ w, at_end w → ∃ w', read_line w = (Ok [], w') ∧ at_end w') →
  at_end w → main_loop fuel (a, w) = None.
Proof.
  intros Hw Hf Hr. revert w. induction fuel as [|fuel IH]; intros w He; [done|]. cbn [main_loop].
  destruct (Hw w (str "$ ") He) as (w1 & E1 & H1), (Hf w1 H1) as (w2 & E2 & H2),
    (Hr w2 H2) as (w3 & E3 & H3).
  assert (readline (a, w) = (Ok [], (a, w3))) as ->; [|by apply IH].
  unfold readline, say, host, mbind, cmd_bind. cbn [snd fst]. rewrite E1. cbn [try_bind snd fst].
  rewrite E2. cbn [try_bind snd fst]. by rewrite E3.
Qed.

(** ** A terminal, a node that answers, and examples *)

(** The lines to be typed, the texts printed so far (latest first), and the calls the
    node component has received. *)
Record terminal := MkTerminal { typed : list bytes; printed : list bytes; node_calls : Z }.

Definition called (w : terminal) : terminal := MkTerminal (typed w) (printed w) (node_calls w + 1).

#[local] Instance terminal_host : Host terminal := {
  instance := unit;
  node_handle := unit;
  env_var_os _ _ := Some (str "/out");
  instantiate _ w := (Some (), w);
  call_constructor _ _ _ w := (Some (), called w);
  call_get_balance _ _ w := (Some (inr 150000000), called w);
  call_get_conversion_offer _ _ w :=
    (Some (inr (MkOfferingBargain None 10 (str "offer_1") (str "0.25"))), called w);
  call_convert_amount _ _ _ _ w := (Some (inr (str "ok")), called w);
  stdout_write t w := (Ok (), MkTerminal (typed w) (t :: printed w) (node_calls w));
  stdout_flush w := (Ok (), w);
  read_line w :=
    match typed w with
    | [] => (Ok [], w)
    | l :: ls => (Ok (l ++ [10]), MkTerminal ls (printed w) (node_calls w))
    end;
}.

(** Words between spaces, no quoting. *)
Fixpoint words (l : bytes) : list bytes :=
  match l with
  | [] => [[]]
  | b :: l =>
    let ws := words l in
    if b =? 32 then [] :: ws
    else match ws with v :: ws => (b :: v) :: ws | [] => [[b]] end
  end.

Definition plain_matches (c : ClapCommand) (args : list bytes) : outcome bytes ArgMatches :=
  match args with
  | [] => Err (str "usage")
  | n :: values =>
    match list_find (λ s, sub_name s = n) (cmd_subcommands c) with
    | Some (_, s) =>
      if bool_decide (length values = length (sub_args s)) && forallb is_value values
      then Ok (MkArgMatches n (zip (map arg_name (sub_args s)) values))
      else Err (str "usage")
    | None => Err (str "error: unrecognized subcommand")
    end
  end.

Lemma plain_matches_ok c s values :
  NoDup (map sub_name (cmd_subcommands c)) → s ∈ cmd_subcommands c →
  length values = length (sub_args s) → forallb is_value values = true →
  plain_matches c (sub_name s :: values)
  = Ok (MkArgMatches (sub_name s) (zip (map arg_name (sub_args s)) values)).
Proof.
  intros Hd Hs Hl Hv. unfold plain_matches.
  destruct (list_find _ _) as [[i t]|] eqn:E.
  - apply list_find_Some in E as (Hi & Hn & _). apply list_elem_of_lookup in Hs as [j Hj].
    assert (i = j) as ->.
    { eapply NoDup_lookup; [exact Hd|..]; rewrite list_lookup_fmap;
        [rewrite Hi|rewrite Hj]; cbn; by rewrite ?Hn. }
    simplify_eq. by rewrite bool_decide_eq_true_2, Hv by done.
  - apply list_find_None in E. rewrite Forall_forall in E. by destruct (E s).
Qed.

#[local, refine] Instance plain_crates : Crates := {
  shlex_split l := Some (filter (λ v, v ≠ []) (words l));
  try_get_matches_from := plain_matches;
  to_btc z := f64_of_ratio false z 100000000;
}.
Proof.
  - intros c s values _. apply plain_matches_ok.
  - intros z Hz. apply f64_of_ratio_ok; [unfold is_u64 in Hz|]; lia.
Defined.

Definition typing (l : list string) : terminal := MkTerminal (map str l) [] 0.

(** A whole run of the program: what it printed, and how often the node was called. *)
Definition transcript (fuel : nat) (l : list string) : option (bool * list bytes * Z) :=
  match main fuel (typing l) with
  | Some (r, (_, w)) =>
    Some (is_ok r, filter (λ t, t ≠ str "$ ") (reverse (printed w)), node_calls w)
  | None => None
  end.

Definition NL : string := String (Ascii.ascii_of_nat 10) EmptyString.

Example example_run :
  transcript 20 ["deposit 99.5"; ""; "withdraw 2000"; "withdraw 99.25"; "create_btc_account";
                 "convert 100 x"; "convert_offer"; "convert 100 offer_1"; "send_btc 0.5 addr";
                 "balance"; "pay"; "quit"]
  = Some (true, map str
      [ "Amount deposited. New balance: 1099.5" +:+ NL;
        "Insufficient funds!" +:+ NL;
        "Withdrew Ammount 99.25. New balance: 1000.25" +:+ NL;
        "Address: bcrt1qlhwg8036lga3c2t4pmmc6wf49f8t0m5gshjzpj" +:+ NL +:+ "Account created" +:+ NL;
        "Converted Amount 100" +:+ NL +:+ "New Btc balance: 1.5" +:+ NL +:+ "New Usd Balance: 900.25" +:+ NL;
        "Fee: 2" +:+ NL +:+ "Rate: 0.25" +:+ NL +:+ "Settlement Time: 10" +:+ NL +:+ "Id: offer_1" +:+ NL;
        "Converted Amount 100" +:+ NL +:+ "New Btc balance: 26.5" +:+ NL +:+ "New Usd Balance: 800.25" +:+ NL;
        "Sent Amount: 0.5btc to Address: addr" +:+ NL;
        "Usd Balance: 800.25" +:+ NL;
        "Btc Balance: 26" +:+ NL;
        "error: unrecognized subcommand" ], 5).
Proof. vm_compute. reflexivity. Qed.

(** A command on the bitcoin account before there is one ends the program. *)
Example send_without_account_panics :
  is_panic <$> (fst <$> main 5 (typing ["send_btc 1 addr"; "quit"])) = Some true.
Proof. vm_compute. reflexivity. Qed.

Definition start_state : App (W := terminal) * terminal := (create_account (str "demo_user"), typing []).
Definition after (line : string) (st : App * terminal) : App * terminal := (respond (str line) st).2.

Lemma after_session line st0 st :
  session f64_amount st0 st →
  match line_amount (str line) with Some x => bool_decide (f64_amount x) | None => true end = true →
  session f64_amount st0 (after line st).
Proof.
  intros Hs Hx. unfold after.
  assert (Ha : ∀ x, line_amount (str line) = Some x → f64_amount x).
  { intros x E. rewrite E in Hx. by apply bool_decide_eq_true_1 in Hx. }
  pose proof (session_step f64_amount st0 st (str line) (respond (str line) st).2.2 Hs Ha).
  by destruct (respond (str line) st) as [? []].
Qed.

Lemma balances_never_negative_witness :
  balances_ok (after "send_btc 0.1 a" (after "convert 7.7 o" (after "convert_offer"
    (after "create_btc_account" (after "withdraw 999.9" start_state))))).1.
Proof.
  apply (balances_never_negative (str "demo_user") (typing [])).
  - intros i n w o w' r [= <- <-]. intros E.
    assert (r = f64_of_ratio false 25 100) as -> by (vm_compute in E; vm_compute; congruence). by_eval.
  - do 5 (apply after_session; [|vm_compute; reflexivity]). apply session_start.
Defined.

Lemma nan_deposit_freezes_witness :
  usd_balance (usd_account (deposit S754_nan start_state).2.1) = S754_nan
  ∧ (withdraw (f64_of_Z 1) (deposit S754_nan start_state).2).2.1 = (deposit S754_nan start_state).2.1.
Proof. apply (nan_deposit_freezes start_state). apply session_start. Defined.

Lemma conversion_without_offer_buys_nothing_witness :
  let st1 := (create_btc_account start_state).2 in
  let st2 := (convert (str "x") (f64_of_Z 100) st1).2 in
  btc_balance <$> btc_account st2.1 = btc_balance <$> btc_account st1.1
  ∧ usd_balance (usd_account st2.1) = f64_sub (usd_balance (usd_account start_state.1)) (f64_of_Z 100).
Proof.
  intros st1 st2.
  apply (conversion_without_offer_buys_nothing start_state st1 st2 (str "x") (f64_of_Z 100)).
  - vm_compute. reflexivity.
  - by_eval.
  - vm_compute. reflexivity.
  - vm_compute. reflexivity.
Defined.

Definition example_btc : BtcAccount (instance (W := terminal)) (node_handle (W := terminal)) :=
  MkBtcAccount (str "addr") () () (f64_of_Z 2) (f64_of_Z 0).

Definition rich_app : App (W := terminal) := set_btc example_btc (create_account (str "demo_user")).

Lemma send_btc_sends_nothing_witness :
  ∃ text, (send_btc (f64_of_Z 1) (str "a") (rich_app, typing [])).2.2
          = (stdout_write text (typing [])).2
    ∧ (send_btc (f64_of_Z 1) (str "a") (rich_app, typing [])).2.1
      = set_btc (set_btc_balance (f64_sub (f64_of_Z 2) (f64_of_Z 1)) example_btc)
          rich_app.
Proof.
  exact (send_btc_sends_nothing rich_app (typing []) (f64_of_Z 1) (str "a") example_btc eq_refl).
Defined.

Lemma commands_call_methods_witness :
  respond (str "withdraw 1e1") start_state = withdraw (f64_of_Z 10) start_state.
Proof.
  destruct (commands_call_methods (str "withdraw 1e1") (str "1e1") [] start_state eq_refl eq_refl)
    as (_ & Hw & _).
  rewrite Hw; vm_compute; reflexivity.
Defined.

Lemma end_of_input_spins_witness :
  main_loop 1000 start_state = None.
Proof.
  apply (end_of_input_spins (λ w, typed w = [])).
  - intros w t Hw. by eexists.
  - intros w Hw. by eexists.
  - intros w Hw. exists w. cbn. by rewrite Hw.
  - reflexivity.
Defined.
