(* ===== verification/TestClient.v ===== *)
(** * The integration test ([client-test/src])

    A host that loads the composed component, lets a regtest node pay it and checks
    its balance: [client.rs], [test.rs] and [main.rs] as programs over a world.  The
    component's calls, the regtest node's RPC, the random numbers and the address and
    key functions of the bitcoin crate are parameters ([TestWorld], [TestCrates]); the
    engine and linker set-up is one call of [load].  [bitcoind.rs] is not used by the
    program.

    The interface [Ledger] says what the test expects of a client with a regtest
    node: payments count once they are mined, and a payment costs its amount and a
    fee.  Against every such client the tests pass exactly when that fee is the 341
    satoshi they are written for, which is what the wallet's coin selection leaves
    to the miners. *)

From S2P Require Import Prelude WalletTypes CoinSelection SelectionTests Hash256 NetMsg Node.

(** ** The world of the test *)

Class TestCrates := {
  Address : Type;
  address_from_str : bytes → option Address;
  script_pubkey : Address → bytes;
  xpriv_new_master : bytes → option bytes;
}.

(** A call of the component that trapped, or an RPC call that failed, returns nothing. *)
Class TestWorld (W : Type) `{TestCrates} := {
  component : Type;
  rpc_client : Type;
  load : bytes → NodeInitialization → W → option component * W;
  call_get_balance : component → W → option (Z + Z) * W;
  call_get_receive_address : component → W → option (Z + bytes) * W;
  call_send_to_address : component → bytes → Z → Z → W → option (Z + ()) * W;
  rpc_new : bytes → bytes → bytes → W → option rpc_client * W;
  rpc_send_to_address : rpc_client → Address → Z → W → option () * W;
  rpc_generate_to_address : rpc_client → Z → Address → W → option () * W;
  gen_range : Z → Z → W → Z * W;
  gen_bytes : nat → W → bytes * W;
}.

Section Client.
  Context {W : Type} `{TC : TestCrates} `{TW : !TestWorld W}.

(** A program ends with a value or a panic. *)
Definition prog (A : Type) : Type := W → outcome Empty_set A * W.

#[global] Instance prog_ret : MRet prog := λ A a w, (Ok a, w).
#[global] Instance prog_bind : MBind prog := λ A B f m w, try_bind (m w) f.

Definition unwrapped {A} (f : W → option A * W) : prog A :=
  λ w, let '(r, w) := f w in (unwrap_opt UNWRAP r, w).
Definition unwrapped2 {A} (f : W → option (Z + A) * W) : prog A :=
  λ w, match f w with
       | (Some (inr a), w) => (Ok a, w)
       | (_, w) => (Panic UNWRAP, w)
       end.
Definition asserted (b : bool) : prog () :=
  λ w, (if b then Ok () else Panic "assertion `left == right` failed", w).
Definition known {A} (r : outcome Empty_set A) : prog A := λ w, (r, w).
Definition draw {A} (f : W → A * W) : prog A := λ w, let '(a, w) := f w in (Ok a, w).

(** [for _ in 1..n { .. }] with a running value. *)
Fixpoint times {A} (n : nat) (m : A → prog A) (a : A) : prog A :=
  match n with
  | O => mret a
  | S n => a ← m a; times n m a
  end.

(** ** [client.rs] *)

Definition BitspendClient : Type := component.

Definition WASM_PATH : bytes := str "wasm32-wasi/debug/node-composed.wasm".

Definition client_new (node_config : WasiNodeConfig) : prog BitspendClient :=
  unwrapped (load WASM_PATH (NodeInitConfig node_config)).
Definition client_restore : prog BitspendClient := unwrapped (load WASM_PATH NodeOldState).
Definition client_balance (c : BitspendClient) : prog Z := unwrapped2 (call_get_balance c).
Definition client_get_receive_address (c : BitspendClient) : prog bytes :=
  unwrapped2 (call_get_receive_address c).
Definition client_send_to_address (c : BitspendClient) (recipient : bytes) (amount fee_rate : Z)
    : prog () :=
  unwrapped2 (call_send_to_address c recipient amount fee_rate).

Definition generate_node_regtest_config (to_string : bytes → string) : prog WasiNodeConfig :=
  entropy ← draw (gen_bytes 16);
  xpriv ← known (unwrap_opt UNWRAP (xpriv_new_master entropy));
  mret (MkWasiNodeConfig WasiRegtest (127, 0, 0, 1) 18744 (to_string xpriv)).

(** ** [test.rs] *)

Definition transfer_amount : Z := 100000.

Definition address_of (a : bytes) : prog Address := known (unwrap_opt UNWRAP (address_from_str a)).

(** A payment to the address, mined. *)
Definition pay (rpc : rpc_client) (address mine_to : Address) (total : Z) : prog Z :=
  unwrapped (rpc_send_to_address rpc address transfer_amount) ≫= λ _,
  total ← known (add_u64 total transfer_amount);
  unwrapped (rpc_generate_to_address rpc 1 mine_to) ≫= λ _,
  mret total.

(** A number of payments to one address. *)
Definition pay_same rpc address mine_to (total : Z) : prog Z :=
  n ← draw (gen_range 50 100);
  times (Z.to_nat (n - 1)) (pay rpc address mine_to) total.

(** A number of payments, each to a new address. *)
Definition pay_fresh (c : BitspendClient) rpc mine_to (total : Z) : prog Z :=
  n ← draw (gen_range 50 100);
  times (Z.to_nat (n - 1)) (λ total,
    address ← client_get_receive_address c;
    transformed_address ← address_of address;
    pay rpc transformed_address mine_to total) total.

(** What both tests do from a balance on. *)
Definition pay_and_send (c : BitspendClient) rpc (start : Z) : prog Z :=
  address ← client_get_receive_address c;
  transformed_address ← address_of address;
  mine_to ← address_of (str "bcrt1qlhwg8036lga3c2t4pmmc6wf49f8t0m5gshjzpj");
  total ← pay_same rpc transformed_address mine_to start;
  total ← pay_fresh c rpc mine_to total;
  balance ← client_balance c;
  asserted (balance =? total) ≫= λ _,
  client_send_to_address c (script_pubkey mine_to) transfer_amount 3 ≫= λ _,
  unwrapped (rpc_generate_to_address rpc 1 mine_to) ≫= λ _,
  balance ← client_balance c;
  expected ← known (sub_u64 total (100000 + 341));
  asserted (balance =? expected) ≫= λ _,
  mret balance.

Definition bitcoin_rpc : prog rpc_client :=
  unwrapped (rpc_new (str "127.0.0.1:18743") (str "regtest") (str "regtest")).

Definition test_new (c : BitspendClient) : prog Z :=
  rpc ← bitcoin_rpc; pay_and_send c rpc 0.

Definition test_restore (c : BitspendClient) (stored_balance : Z) : prog () :=
  rpc ← bitcoin_rpc;
  balance ← client_balance c;
  asserted (balance =? stored_balance) ≫= λ _,
  pay_and_send c rpc balance ≫= λ _,
  mret ().

(** ** [main.rs] *)

Definition test_main (to_string : bytes → string) : prog () :=
  config ← generate_node_regtest_config to_string;
  client ← client_new config;
  balance ← test_new client;
  client ← client_restore;
  test_restore client balance.

(** ** What the tests expect *)

(** The client holds [t] satoshi that are mined and [p] (or [-p]) that are not. *)
Class Ledger (fee : Z) := {
  holds : component → Z → Z → W → Prop;
  owned : Address → Prop;
  ledger_rpc w : ∃ rpc w', rpc_new (str "127.0.0.1:18743") (str "regtest") (str "regtest") w
    = (Some rpc, w') ∧ ∀ c t p, holds c t p w → holds c t p w';
  ledger_miner : is_Some (address_from_str (str "bcrt1qlhwg8036lga3c2t4pmmc6wf49f8t0m5gshjzpj"));
  ledger_balance c t p w : holds c t p w →
    ∃ w', call_get_balance c w = (Some (inr t), w') ∧ holds c t p w';
  ledger_address c t p w : holds c t p w →
    ∃ a addr w', call_get_receive_address c w = (Some (inr a), w')
      ∧ address_from_str a = Some addr ∧ owned addr ∧ holds c t p w';
  ledger_pay rpc addr x c t p w : owned addr → holds c t p w →
    ∃ w', rpc_send_to_address rpc addr x w = (Some (), w') ∧ holds c t (p + x) w';
  ledger_mine rpc addr c t p w : holds c t p w →
    ∃ w', rpc_generate_to_address rpc 1 addr w = (Some (), w') ∧ holds c (t + p) 0 w';
  ledger_send script x c t w : holds c t 0 w → x + fee ≤ t →
    ∃ w', call_send_to_address c script x 3 w = (Some (inr ()), w') ∧ holds c t (- (x + fee)) w';
  ledger_range lo hi w : lo ≤ hi → lo ≤ (gen_range lo hi w).1 ≤ hi
    ∧ ∀ c t p, holds c t p w → holds c t p (gen_range lo hi w).2;
}.

Section Passing.
  Context (fee : Z) `{LG : !Ledger fee}.

(** [m] returns [a] from [w] and leaves the client with [t] satoshi. *)
Definition leaves {A} (m : prog A) (w : W) (a : A) (c : component) (t : Z) : Prop :=
  ∃ w', m w = (Ok a, w') ∧ holds c t 0 w'.

Lemma leaves_bind {A B} (m : prog A) (k : A → prog B) w a b c t t' :
  leaves m w a c t → (∀ w', holds c t 0 w' → leaves (k a) w' b c t') → leaves (m ≫= k) w b c t'.
Proof.
  intros (w1 & E & H1) Hk. destruct (Hk w1 H1) as (w2 & E2 & H2). exists w2.
  unfold mbind, prog_bind. rewrite E. cbn [try_bind]. by rewrite E2.
Qed.

Lemma leaves_ret {A} (a : A) w c t : holds c t 0 w → leaves (mret a) w a c t.
Proof. by exists w. Qed.

Lemma leaves_known {A} (r : outcome Empty_set A) a w c t :
  r = Ok a → holds c t 0 w → leaves (known r) w a c t.
Proof. intros -> Hw. by exists w. Qed.

Lemma leaves_balance c t w : holds c t 0 w → leaves (client_balance c) w t c t.
Proof.
  intros Hw. destruct (ledger_balance _ _ _ _ Hw) as (w' & E & H'). exists w'.
  unfold client_balance, unwrapped2. by rewrite E.
Qed.

Lemma leaves_draw lo hi c t w :
  lo ≤ hi → holds c t 0 w → ∃ n, lo ≤ n ≤ hi ∧ leaves (draw (gen_range lo hi)) w n c t.
Proof.
  intros Hl Hw. destruct (ledger_range lo hi w Hl) as [Hr Hk].
  exists (gen_range lo hi w).1. split; [done|]. exists (gen_range lo hi w).2.
  split; [|by apply Hk]. unfold draw. by destruct (gen_range lo hi w).
Qed.

Lemma leaves_pay rpc addr miner c t w :
  owned addr → 0 ≤ t → t + 100000 < 2 ^ 64 → holds c t 0 w →
  leaves (pay rpc addr miner t) w (t + 100000) c (t + 100000).
Proof.
  intros Ho H0 Ht Hw. unfold pay, mbind, prog_bind, unwrapped, known, leaves.
  destruct (ledger_pay rpc addr transfer_amount _ _ _ _ Ho Hw) as (w1 & -> & H1).
  cbn [unwrap_opt try_bind]. unfold add_u64, transfer_amount. rewrite checked_ok by lia.
  cbn [try_bind]. destruct (ledger_mine rpc miner _ _ _ _ H1) as (w2 & -> & H2).
  exists w2. split; [done|]. by rewrite Z.add_0_l in H2.
Qed.

Lemma leaves_times n (m : Z → prog Z) c t w :
  (∀ t w, 0 ≤ t → t + 100000 < 2 ^ 64 → holds c t 0 w → leaves (m t) w (t + 100000) c (t + 100000)) →
  0 ≤ t → t + 100000 * Z.of_nat n < 2 ^ 64 → holds c t 0 w →
  leaves (times n m t) w (t + 100000 * Z.of_nat n) c (t + 100000 * Z.of_nat n).
Proof.
  intros Hm. revert t w. induction n as [|n IH]; intros t w H0 Ht Hw.
  - rewrite Z.mul_0_r, Z.add_0_r. by apply leaves_ret.
  - cbn [times]. eapply leaves_bind; [apply Hm; [done|lia|done]|]. intros w' Hw'.
    replace (t + 100000 * Z.of_nat (S n)) with (t + 100000 + 100000 * Z.of_nat n) by lia.
    apply IH; [lia|lia|done].
Qed.

(** An address of the client, parsed. *)
Lemma leaves_address c t w :
  holds c t 0 w → ∃ a addr, owned addr ∧ leaves (client_get_receive_address c) w a c t
    ∧ ∀ w', holds c t 0 w' → leaves (address_of a) w' addr c t.
Proof.
  intros Hw. destruct (ledger_address _ _ _ _ Hw) as (a & addr & w' & E & Ea & Ho & H').
  exists a, addr. split_and!; [done| |].
  - exists w'. unfold client_get_receive_address, unwrapped2. by rewrite E.
  - intros w1 H1. apply leaves_known; [by rewrite Ea|done].
Qed.

Lemma leaves_pay_same rpc addr miner c t w :
  owned addr → 0 ≤ t < 2 ^ 63 → holds c t 0 w →
  ∃ n, 49 ≤ n ≤ 99 ∧ leaves (pay_same rpc addr miner t) w (t + 100000 * n) c (t + 100000 * n).
Proof.
  intros Ho Ht Hw. destruct (leaves_draw 50 100 c t w ltac:(lia) Hw) as (n & Hn & Hd).
  exists (n - 1). split; [lia|]. unfold pay_same. eapply leaves_bind; [exact Hd|]. intros w' Hw'.
  pose proof (leaves_times (Z.to_nat (n - 1)) (pay rpc addr miner) c t w') as Hl.
  rewrite Z2Nat.id in Hl by lia. apply Hl; [|lia|lia|done]. intros. by apply leaves_pay.
Qed.

Lemma leaves_pay_fresh rpc miner c t w :
  0 ≤ t < 2 ^ 63 → holds c t 0 w →
  ∃ n, 49 ≤ n ≤ 99 ∧ leaves (pay_fresh c rpc miner t) w (t + 100000 * n) c (t + 100000 * n).
Proof.
  intros Ht Hw. destruct (leaves_draw 50 100 c t w ltac:(lia) Hw) as (n & Hn & Hd).
  exists (n - 1). split; [lia|]. unfold pay_fresh. eapply leaves_bind; [exact Hd|]. intros w' Hw'.
  set (m := λ total : Z, _).
  pose proof (leaves_times (Z.to_nat (n - 1)) m c t w') as Hl.
  rewrite Z2Nat.id in Hl by lia. apply Hl; [|lia|lia|done]. intros t1 w1 H0 Ht1 Hw1.
  destruct (leaves_address c t1 w1 Hw1) as (a & addr & Ho & Ha & Hp).
  eapply leaves_bind; [exact Ha|]. intros w2 Hw2. eapply leaves_bind; [by apply Hp|].
  intros w3 Hw3. by apply leaves_pay.
Qed.

(** [step] follows a program whose next call is known. *)
Ltac step H :=
  let w := fresh "w" in let E := fresh "E" in let Hw := fresh "Hw" in
  destruct H as (w & E & Hw); unfold mbind at 1, prog_bind at 1; rewrite E; cbn [try_bind];
  clear E.

(** From a balance [t] on: between 98 and 198 payments arrive; then the test pays,
    and the balance it expects is right exactly when the fee is 341. *)
Lemma pay_and_send_spec c rpc t w :
  0 ≤ fee ≤ 9000000 → 0 ≤ t < 2 ^ 62 → holds c t 0 w →
  ∃ k w', 98 ≤ k ≤ 198 ∧ holds c (t + 100000 * k - (100000 + fee)) 0 w' ∧
    pay_and_send c rpc t w
    = (if fee =? 341 then Ok (t + 100000 * k - 100341)
       else Panic "assertion `left == right` failed", w').
Proof.
  intros Hfee Ht Hw. unfold pay_and_send.
  destruct (leaves_address c t w Hw) as (a & addr & Ho & Ha & Hp). step Ha.
  specialize (Hp _ Hw0). step Hp. destruct ledger_miner as [miner Hminer].
  unfold address_of, known. rewrite Hminer. unfold mbind at 1, prog_bind at 1.
  cbn [unwrap_opt try_bind].
  destruct (leaves_pay_same rpc addr miner c t _ Ho ltac:(lia) Hw1) as (n1 & Hn1 & Hs). step Hs.
  destruct (leaves_pay_fresh rpc miner c (t + 100000 * n1) _ ltac:(lia) Hw2) as (n2 & Hn2 & Hf). step Hf.
  replace (t + 100000 * n1 + 100000 * n2) with (t + 100000 * (n1 + n2)) in * by lia.
  set (k := n1 + n2) in *. exists k.
  step (leaves_balance _ _ _ Hw3). unfold asserted. rewrite Z.eqb_refl.
  unfold mbind at 1, prog_bind at 1. cbn [try_bind].
  destruct (ledger_send (script_pubkey miner) transfer_amount _ _ _ Hw4) as (w5 & E5 & Hw5);
    [unfold transfer_amount; lia|].
  unfold mbind at 1, prog_bind at 1, client_send_to_address, unwrapped2. rewrite E5. cbn [try_bind].
  destruct (ledger_mine rpc miner _ _ _ _ Hw5) as (w6 & E6 & Hw6).
  unfold mbind at 1, prog_bind at 1, unwrapped. rewrite E6. cbn [try_bind unwrap_opt].
  unfold transfer_amount in Hw6.
  replace (t + 100000 * k + - (100000 + fee)) with (t + 100000 * k - (100000 + fee)) in Hw6 by lia.
  step (leaves_balance _ _ _ Hw6). unfold mbind, prog_bind, sub_u64. rewrite checked_ok by lia.
  cbn [try_bind]. exists w7. split_and!; [lia|lia|done|].
  destruct (Z.eqb_spec fee 341) as [->|Hne].
  - rewrite (proj2 (Z.eqb_eq _ _)) by lia. cbn. do 2 f_equal.
  - rewrite (proj2 (Z.eqb_neq _ _)) by lia. done.
Qed.

End Passing.

End Client.

(** ** Theorems *)

(** Against every client and regtest node that keep the ledger, the test of a new
    client succeeds exactly when a payment of 100,000 satoshi at three satoshi per
    virtual byte costs a fee of 341, and then returns what the client has left. *)
Theorem integration_test_pins_fee {W} `{TC : TestCrates} `{TW : !TestWorld W} fee
    `{LG : !Ledger (W := W) fee} c w :
  0 ≤ fee ≤ 9000000 → holds c 0 0 w →
  ∃ k w', 98 ≤ k ≤ 198 ∧ holds c (100000 * k - (100000 + fee)) 0 w'
    ∧ test_new c w = (if fee =? 341 then Ok (100000 * k - 100341)
                      else Panic "assertion `left == right` failed", w').
Proof.
  intros Hf Hw. unfold test_new, bitcoin_rpc, mbind, prog_bind, unwrapped.
  destruct (ledger_rpc w) as (rpc & w1 & -> & Hk). cbn [unwrap_opt try_bind].
  destruct (pay_and_send_spec fee c rpc 0 w1 Hf ltac:(lia) (Hk _ _ _ Hw)) as (k & w' & Hkk & Hh & E).
  exists k, w'. split_and!; [lia|lia|done|]. rewrite E. by rewrite Z.add_0_l.
Qed.

(** The restored client passes its test when it still has what the new one had. *)
Theorem restored_test_passes {W} `{TC : TestCrates} `{TW : !TestWorld W}
    `{LG : !Ledger (W := W) 341} c t w :
  0 ≤ t < 2 ^ 62 → holds c t 0 w → ∃ w', test_restore c t w = (Ok (), w').
Proof.
  intros Ht Hw. unfold test_restore, bitcoin_rpc, mbind, prog_bind, unwrapped at 1.
  destruct (ledger_rpc w) as (rpc & w1 & -> & Hk). cbn [unwrap_opt try_bind].
  destruct (leaves_balance 341 c t w1 (Hk _ _ _ Hw)) as (w2 & E2 & Hw2). rewrite E2.
  cbn [try_bind]. unfold asserted. rewrite Z.eqb_refl. cbn [try_bind].
  destruct (pay_and_send_spec 341 c rpc t w2 ltac:(lia) Ht Hw2) as (k & w' & _ & _ & E).
  unfold mbind, prog_bind in E. rewrite E. by exists w'.
Qed.

(** ** The fee of the wallet *)

(** An output of the test as the wallet stores it: no satisfaction weight. *)
Definition received (n : nat) : list WeightedUtxo :=
  map (λ i, MkWeightedUtxo 0
              (MkUtxo (replicate 32 (Z.of_nat i), 0) (MkTxOut transfer_amount []) External false 0 None))
    (seq 0 n).

Definition change_script_example : bytes := 0 :: 20 :: replicate 20 7.

(** The change that the wallet's coin selection leaves for the payment of the test. *)
Definition change_left (n : nat) (seed : Z) : option (Z * Z) :=
  match (@coin_select rust_bitcoin Z _ [] (received n) (sat_per_vb 3) transfer_amount
           change_script_example seed).1 with
  | Ok r => Some (zlen (csr_selected r),
                  match csr_excess r with Change a _ => a | NoChange _ _ _ => 0 end)
  | _ => None
  end.

(** The wallet pays from two of the outputs and keeps 99,659: the fee is the 341 that
    the test expects, for as few and as many outputs as the test makes. *)
Example wallet_fee_is_341 :
  Forall (λ n, change_left n 5 = Some (2, 2 * transfer_amount - transfer_amount - 341))
    [2; 98; 198]%nat.
Proof. by_eval. Qed.

(** ** Witness: a ledger of two numbers *)

#[local] Instance plain_addresses : TestCrates := {
  Address := bytes;
  address_from_str := Some;
  script_pubkey a := a;
  xpriv_new_master := Some;
}.

(** Mined and unmined satoshi of the only client. *)
#[local] Instance ledger_world : TestWorld (Z * Z) := {
  component := unit;
  rpc_client := unit;
  load _ _ w := (Some (), w);
  call_get_balance _ w := (Some (inr w.1), w);
  call_get_receive_address _ w := (Some (inr (str "address")), w);
  call_send_to_address _ _ amount _ w := (Some (inr ()), (w.1, w.2 - (amount + 341)));
  rpc_new _ _ _ w := (Some (), w);
  rpc_send_to_address _ _ amount w := (Some (), (w.1, w.2 + amount));
  rpc_generate_to_address _ _ _ w := (Some (), (w.1 + w.2, 0));
  gen_range lo _ w := (lo, w);
  gen_bytes n w := (replicate n 7, w);
}.

#[local, refine] Instance plain_ledger : Ledger (W := Z * Z) 341 := {
  holds _ t p w := w = (t, p);
  owned _ := True;
}.
Proof.
  - intros w. by exists (), w.
  - by eexists.
  - intros c t p w ->. by exists (t, p).
  - intros c t p w ->. by exists (str "address"), (str "address"), (t, p).
  - intros rpc addr x c t p w _ ->. by eexists.
  - intros rpc addr c t p w ->. by eexists.
  - intros script x c t w -> _. eexists. split; [done|]. cbn. f_equal; lia.
  - intros lo hi w Hl. cbn. split; [lia|done].
Defined.

Definition the_client : component (W := Z * Z) := ().

Lemma integration_test_pins_fee_witness :
  ∃ k, 98 ≤ k ≤ 198 ∧ (test_new (W := Z * Z) the_client (0, 0)).1 = Ok (100000 * k - 100341).
Proof.
  destruct (integration_test_pins_fee (W := Z * Z) 341 the_client (0, 0)) as (k & w' & Hk & _ & E).
  - lia.
  - reflexivity.
  - exists k. split; [exact Hk|]. rewrite E. reflexivity.
Defined.

Lemma restored_test_passes_witness : ∃ w', test_restore (W := Z * Z) the_client 9699659 (9699659, 0) = (Ok (), w').
Proof. apply (restored_test_passes (W := Z * Z) the_client); [lia|reflexivity]. Defined.

(** The whole program on this ledger. *)
Example test_main_passes :
  (test_main (W := Z * Z) (λ _, "xpriv") (0, 0)).1 = Ok ().
Proof. vm_compute. reflexivity. Qed.
